(** * DDS texture container codec (libobs/graphics/dds-file.cpp)

    A shallow embedding of the DDS decoder of libobs: format tables,
    pitch and mip geometry, the image layout planner, the header
    decoder, the scanline transcoders and the file loader, followed by
    the properties established about them.

    Conventions.  Unsigned machine integers are values of [Z] with the
    wrap-around written where the C++ arithmetic can wrap;  [size_t] is
    32 or 64 bits wide depending on the target ([Platform]), exactly as
    the two preprocessor branches of the source distinguish them.  Byte
    buffers are lists of byte values, multi-byte loads and stores are
    little endian (the only byte order of the supported targets), and a
    pointer into a buffer is its byte offset. *)

From Stdlib Require Import ZArith List Bool Lia Ascii Strings.Byte.
From Stdlib Require String.
From Equations Require Import Equations.
From coqutil Require Import Z.bitblast.
Import ListNotations.
Local Open Scope Z_scope.

(* ================================================================== *)
(** * Machine integers                                                 *)
(* ================================================================== *)

(** The source is compiled either for a 32-bit target (_M_IX86, _M_ARM,
    _M_HYBRID_X86_ARM64) or for a 64-bit one;  the only difference is
    the width of [size_t] and the overflow checks guarded by it. *)
Inductive Platform : Set := Win32 | Win64.

Definition size_bits (plat : Platform) : Z :=
  match plat with Win32 => 32 | Win64 => 64 end.

Definition wrap (bits x : Z) : Z := x mod 2 ^ bits.

Definition u8  (x : Z) : Z := wrap 8 x.
Definition u16 (x : Z) : Z := wrap 16 x.
Definition u32 (x : Z) : Z := wrap 32 x.
Definition u64 (x : Z) : Z := wrap 64 x.
Definition size_t (plat : Platform) (x : Z) : Z := wrap (size_bits plat) x.

Definition UINT32_MAX : Z := 2 ^ 32 - 1.
Definition UINT64_MAX : Z := 2 ^ 64 - 1.
Definition SIZE_MAX (plat : Platform) : Z := 2 ^ size_bits plat - 1.

(** [flags & mask] used as a condition. *)
Definition has_flag (flags mask : Z) : bool := negb (Z.land flags mask =? 0).

(** A C++ [switch] over case labels. *)
Definition in_cases (x : Z) (labels : list Z) : bool := existsb (Z.eqb x) labels.

(** [if (v > 1) v >>= 1;], the per-level shrink of a dimension. *)
Definition shrink (v : Z) : Z := if 1 <? v then Z.shiftr v 1 else v.

Definition inspect {A : Type} (a : A) : { b : A | a = b } := exist _ a eq_refl.

(* ================================================================== *)
(** * HRESULT                                                          *)
(* ================================================================== *)

(** Modelled from the spec: the HRESULT codes and the FAILED macro come
    from the platform SDK (winerror.h), and HRESULT_E_ARITHMETIC_OVERFLOW
    from a header that is not part of the sources;  the spec names the
    error classes only.  An HRESULT is a signed 32-bit value, negative
    exactly when it reports a failure. *)
Definition HRESULT : Set := Z.
Definition S_OK : HRESULT := 0.
Definition E_FAIL : HRESULT := 0x80004005 - 2 ^ 32.
Definition E_INVALIDARG : HRESULT := 0x80070057 - 2 ^ 32.
Definition E_OUTOFMEMORY : HRESULT := 0x8007000E - 2 ^ 32.
Definition HRESULT_E_ARITHMETIC_OVERFLOW : HRESULT := 0x80070216 - 2 ^ 32.
Definition FAILED (hr : HRESULT) : bool := hr <? 0.

(** The implicit conversion of an integer to [bool] in a [return]
    statement of a function returning [bool]. *)
Definition bool_of_integer (v : Z) : bool := negb (v =? 0).

(* ================================================================== *)
(** * Pixel formats                                                    *)
(* ================================================================== *)

(** Modelled from the spec: the DXGI_FORMAT enumeration is declared in
    the platform SDK (dxgiformat.h), not in the sources;  a PixelFormat
    is an enumeration with numeric identity, read as a 32-bit integer
    from the extended header, so it is represented by its number. *)
Definition DXGI_FORMAT : Set := Z.

Module Fmt.
Definition UNKNOWN := 0.
Definition R32G32B32A32_TYPELESS := 1.
Definition R32G32B32A32_FLOAT := 2.
Definition R32G32B32A32_UINT := 3.
Definition R32G32B32A32_SINT := 4.
Definition R32G32B32_TYPELESS := 5.
Definition R32G32B32_FLOAT := 6.
Definition R32G32B32_UINT := 7.
Definition R32G32B32_SINT := 8.
Definition R16G16B16A16_TYPELESS := 9.
Definition R16G16B16A16_FLOAT := 10.
Definition R16G16B16A16_UNORM := 11.
Definition R16G16B16A16_UINT := 12.
Definition R16G16B16A16_SNORM := 13.
Definition R16G16B16A16_SINT := 14.
Definition R32G32_TYPELESS := 15.
Definition R32G32_FLOAT := 16.
Definition R32G32_UINT := 17.
Definition R32G32_SINT := 18.
Definition R32G8X24_TYPELESS := 19.
Definition D32_FLOAT_S8X24_UINT := 20.
Definition R32_FLOAT_X8X24_TYPELESS := 21.
Definition X32_TYPELESS_G8X24_UINT := 22.
Definition R10G10B10A2_TYPELESS := 23.
Definition R10G10B10A2_UNORM := 24.
Definition R10G10B10A2_UINT := 25.
Definition R11G11B10_FLOAT := 26.
Definition R8G8B8A8_TYPELESS := 27.
Definition R8G8B8A8_UNORM := 28.
Definition R8G8B8A8_UNORM_SRGB := 29.
Definition R8G8B8A8_UINT := 30.
Definition R8G8B8A8_SNORM := 31.
Definition R8G8B8A8_SINT := 32.
Definition R16G16_TYPELESS := 33.
Definition R16G16_FLOAT := 34.
Definition R16G16_UNORM := 35.
Definition R16G16_UINT := 36.
Definition R16G16_SNORM := 37.
Definition R16G16_SINT := 38.
Definition R32_TYPELESS := 39.
Definition D32_FLOAT := 40.
Definition R32_FLOAT := 41.
Definition R32_UINT := 42.
Definition R32_SINT := 43.
Definition R24G8_TYPELESS := 44.
Definition D24_UNORM_S8_UINT := 45.
Definition R24_UNORM_X8_TYPELESS := 46.
Definition X24_TYPELESS_G8_UINT := 47.
Definition R8G8_TYPELESS := 48.
Definition R8G8_UNORM := 49.
Definition R8G8_UINT := 50.
Definition R8G8_SNORM := 51.
Definition R8G8_SINT := 52.
Definition R16_TYPELESS := 53.
Definition R16_FLOAT := 54.
Definition D16_UNORM := 55.
Definition R16_UNORM := 56.
Definition R16_UINT := 57.
Definition R16_SNORM := 58.
Definition R16_SINT := 59.
Definition R8_TYPELESS := 60.
Definition R8_UNORM := 61.
Definition R8_UINT := 62.
Definition R8_SNORM := 63.
Definition R8_SINT := 64.
Definition A8_UNORM := 65.
Definition R1_UNORM := 66.
Definition R9G9B9E5_SHAREDEXP := 67.
Definition R8G8_B8G8_UNORM := 68.
Definition G8R8_G8B8_UNORM := 69.
Definition BC1_TYPELESS := 70.
Definition BC1_UNORM := 71.
Definition BC1_UNORM_SRGB := 72.
Definition BC2_TYPELESS := 73.
Definition BC2_UNORM := 74.
Definition BC2_UNORM_SRGB := 75.
Definition BC3_TYPELESS := 76.
Definition BC3_UNORM := 77.
Definition BC3_UNORM_SRGB := 78.
Definition BC4_TYPELESS := 79.
Definition BC4_UNORM := 80.
Definition BC4_SNORM := 81.
Definition BC5_TYPELESS := 82.
Definition BC5_UNORM := 83.
Definition BC5_SNORM := 84.
Definition B5G6R5_UNORM := 85.
Definition B5G5R5A1_UNORM := 86.
Definition B8G8R8A8_UNORM := 87.
Definition B8G8R8X8_UNORM := 88.
Definition R10G10B10_XR_BIAS_A2_UNORM := 89.
Definition B8G8R8A8_TYPELESS := 90.
Definition B8G8R8A8_UNORM_SRGB := 91.
Definition B8G8R8X8_TYPELESS := 92.
Definition B8G8R8X8_UNORM_SRGB := 93.
Definition BC6H_TYPELESS := 94.
Definition BC6H_UF16 := 95.
Definition BC6H_SF16 := 96.
Definition BC7_TYPELESS := 97.
Definition BC7_UNORM := 98.
Definition BC7_UNORM_SRGB := 99.
Definition AYUV := 100.
Definition Y410 := 101.
Definition Y416 := 102.
Definition NV12 := 103.
Definition P010 := 104.
Definition P016 := 105.
Definition OPAQUE_420 := 106.
Definition YUY2 := 107.
Definition Y210 := 108.
Definition Y216 := 109.
Definition NV11 := 110.
Definition AI44 := 111.
Definition IA44 := 112.
Definition P8 := 113.
Definition A8P8 := 114.
Definition B4G4R4A4_UNORM := 115.
(* the #define'd extensions at the top of dds-file.cpp *)
Definition XBOX_R10G10B10_7E3_A2_FLOAT := 116.
Definition XBOX_R10G10B10_6E4_A2_FLOAT := 117.
Definition XBOX_D16_UNORM_S8_UINT := 118.
Definition XBOX_R16_UNORM_X8_TYPELESS := 119.
Definition XBOX_X16_TYPELESS_G8_UINT := 120.
Definition WIN10_P208 := 130.
Definition WIN10_V208 := 131.
Definition WIN10_V408 := 132.
Definition XBOX_R10G10B10_SNORM_A2_UNORM := 189.
Definition XBOX_R4G4_UNORM := 190.
End Fmt.

Definition IsValid (fmt : DXGI_FORMAT) : bool := (1 <=? fmt) && (fmt <=? 190).

Definition IsPalettized (fmt : DXGI_FORMAT) : bool :=
  in_cases fmt [Fmt.AI44; Fmt.IA44; Fmt.P8; Fmt.A8P8].

(** The two groups of block-compressed formats that ComputePitch
    distinguishes: 8 bytes per 4x4 block, and 16 bytes per block. *)
Definition bc_8_byte_formats : list DXGI_FORMAT :=
  [Fmt.BC1_TYPELESS; Fmt.BC1_UNORM; Fmt.BC1_UNORM_SRGB;
   Fmt.BC4_TYPELESS; Fmt.BC4_UNORM; Fmt.BC4_SNORM].

Definition bc_16_byte_formats : list DXGI_FORMAT :=
  [Fmt.BC2_TYPELESS; Fmt.BC2_UNORM; Fmt.BC2_UNORM_SRGB;
   Fmt.BC3_TYPELESS; Fmt.BC3_UNORM; Fmt.BC3_UNORM_SRGB;
   Fmt.BC5_TYPELESS; Fmt.BC5_UNORM; Fmt.BC5_SNORM;
   Fmt.BC6H_TYPELESS; Fmt.BC6H_UF16; Fmt.BC6H_SF16;
   Fmt.BC7_TYPELESS; Fmt.BC7_UNORM; Fmt.BC7_UNORM_SRGB].

Definition IsCompressed (fmt : DXGI_FORMAT) : bool :=
  in_cases fmt
    [Fmt.BC1_TYPELESS; Fmt.BC1_UNORM; Fmt.BC1_UNORM_SRGB;
     Fmt.BC2_TYPELESS; Fmt.BC2_UNORM; Fmt.BC2_UNORM_SRGB;
     Fmt.BC3_TYPELESS; Fmt.BC3_UNORM; Fmt.BC3_UNORM_SRGB;
     Fmt.BC4_TYPELESS; Fmt.BC4_UNORM; Fmt.BC4_SNORM;
     Fmt.BC5_TYPELESS; Fmt.BC5_UNORM; Fmt.BC5_SNORM;
     Fmt.BC6H_TYPELESS; Fmt.BC6H_UF16; Fmt.BC6H_SF16;
     Fmt.BC7_TYPELESS; Fmt.BC7_UNORM; Fmt.BC7_UNORM_SRGB].

Definition IsPacked (fmt : DXGI_FORMAT) : bool :=
  in_cases fmt
    [Fmt.R8G8_B8G8_UNORM; Fmt.G8R8_G8B8_UNORM; Fmt.YUY2; Fmt.Y210; Fmt.Y216].

Definition IsPlanar (fmt : DXGI_FORMAT) : bool :=
  in_cases fmt
    [Fmt.NV12; Fmt.P010; Fmt.P016; Fmt.OPAQUE_420; Fmt.NV11;
     Fmt.WIN10_P208; Fmt.WIN10_V208; Fmt.WIN10_V408;
     Fmt.XBOX_D16_UNORM_S8_UINT; Fmt.XBOX_R16_UNORM_X8_TYPELESS;
     Fmt.XBOX_X16_TYPELESS_G8_UINT].

Definition BitsPerPixel (fmt : DXGI_FORMAT) : Z :=
  if in_cases fmt
       [Fmt.R32G32B32A32_TYPELESS; Fmt.R32G32B32A32_FLOAT;
        Fmt.R32G32B32A32_UINT; Fmt.R32G32B32A32_SINT]
  then 128
  else if in_cases fmt
       [Fmt.R32G32B32_TYPELESS; Fmt.R32G32B32_FLOAT;
        Fmt.R32G32B32_UINT; Fmt.R32G32B32_SINT]
  then 96
  else if in_cases fmt
       [Fmt.R16G16B16A16_TYPELESS; Fmt.R16G16B16A16_FLOAT;
        Fmt.R16G16B16A16_UNORM; Fmt.R16G16B16A16_UINT;
        Fmt.R16G16B16A16_SNORM; Fmt.R16G16B16A16_SINT;
        Fmt.R32G32_TYPELESS; Fmt.R32G32_FLOAT; Fmt.R32G32_UINT;
        Fmt.R32G32_SINT; Fmt.R32G8X24_TYPELESS; Fmt.D32_FLOAT_S8X24_UINT;
        Fmt.R32_FLOAT_X8X24_TYPELESS; Fmt.X32_TYPELESS_G8X24_UINT;
        Fmt.Y416; Fmt.Y210; Fmt.Y216]
  then 64
  else if in_cases fmt
       [Fmt.R10G10B10A2_TYPELESS; Fmt.R10G10B10A2_UNORM;
        Fmt.R10G10B10A2_UINT; Fmt.R11G11B10_FLOAT;
        Fmt.R8G8B8A8_TYPELESS; Fmt.R8G8B8A8_UNORM;
        Fmt.R8G8B8A8_UNORM_SRGB; Fmt.R8G8B8A8_UINT; Fmt.R8G8B8A8_SNORM;
        Fmt.R8G8B8A8_SINT; Fmt.R16G16_TYPELESS; Fmt.R16G16_FLOAT;
        Fmt.R16G16_UNORM; Fmt.R16G16_UINT; Fmt.R16G16_SNORM;
        Fmt.R16G16_SINT; Fmt.R32_TYPELESS; Fmt.D32_FLOAT; Fmt.R32_FLOAT;
        Fmt.R32_UINT; Fmt.R32_SINT; Fmt.R24G8_TYPELESS;
        Fmt.D24_UNORM_S8_UINT; Fmt.R24_UNORM_X8_TYPELESS;
        Fmt.X24_TYPELESS_G8_UINT; Fmt.R9G9B9E5_SHAREDEXP;
        Fmt.R8G8_B8G8_UNORM; Fmt.G8R8_G8B8_UNORM; Fmt.B8G8R8A8_UNORM;
        Fmt.B8G8R8X8_UNORM; Fmt.R10G10B10_XR_BIAS_A2_UNORM;
        Fmt.B8G8R8A8_TYPELESS; Fmt.B8G8R8A8_UNORM_SRGB;
        Fmt.B8G8R8X8_TYPELESS; Fmt.B8G8R8X8_UNORM_SRGB; Fmt.AYUV;
        Fmt.Y410; Fmt.YUY2; Fmt.XBOX_R10G10B10_7E3_A2_FLOAT;
        Fmt.XBOX_R10G10B10_6E4_A2_FLOAT;
        Fmt.XBOX_R10G10B10_SNORM_A2_UNORM]
  then 32
  else if in_cases fmt
       [Fmt.P010; Fmt.P016; Fmt.XBOX_D16_UNORM_S8_UINT;
        Fmt.XBOX_R16_UNORM_X8_TYPELESS; Fmt.XBOX_X16_TYPELESS_G8_UINT;
        Fmt.WIN10_V408]
  then 24
  else if in_cases fmt
       [Fmt.R8G8_TYPELESS; Fmt.R8G8_UNORM; Fmt.R8G8_UINT; Fmt.R8G8_SNORM;
        Fmt.R8G8_SINT; Fmt.R16_TYPELESS; Fmt.R16_FLOAT; Fmt.D16_UNORM;
        Fmt.R16_UNORM; Fmt.R16_UINT; Fmt.R16_SNORM; Fmt.R16_SINT;
        Fmt.B5G6R5_UNORM; Fmt.B5G5R5A1_UNORM; Fmt.A8P8;
        Fmt.B4G4R4A4_UNORM; Fmt.WIN10_P208; Fmt.WIN10_V208]
  then 16
  else if in_cases fmt [Fmt.NV12; Fmt.OPAQUE_420; Fmt.NV11]
  then 12
  else if in_cases fmt
       [Fmt.R8_TYPELESS; Fmt.R8_UNORM; Fmt.R8_UINT; Fmt.R8_SNORM;
        Fmt.R8_SINT; Fmt.A8_UNORM; Fmt.BC2_TYPELESS; Fmt.BC2_UNORM;
        Fmt.BC2_UNORM_SRGB; Fmt.BC3_TYPELESS; Fmt.BC3_UNORM;
        Fmt.BC3_UNORM_SRGB; Fmt.BC5_TYPELESS; Fmt.BC5_UNORM;
        Fmt.BC5_SNORM; Fmt.BC6H_TYPELESS; Fmt.BC6H_UF16; Fmt.BC6H_SF16;
        Fmt.BC7_TYPELESS; Fmt.BC7_UNORM; Fmt.BC7_UNORM_SRGB; Fmt.AI44;
        Fmt.IA44; Fmt.P8; Fmt.XBOX_R4G4_UNORM]
  then 8
  else if in_cases fmt [Fmt.R1_UNORM]
  then 1
  else if in_cases fmt
       [Fmt.BC1_TYPELESS; Fmt.BC1_UNORM; Fmt.BC1_UNORM_SRGB;
        Fmt.BC4_TYPELESS; Fmt.BC4_UNORM; Fmt.BC4_SNORM]
  then 4
  else 0.

(* ================================================================== *)
(** * Texture metadata and subresource addressing                      *)
(* ================================================================== *)

(** enum TEX_DIMENSION; the field of [TexMetadata] can hold any integer
    (it is zeroed by memset), hence the [default:] branches below. *)
Definition TEX_DIMENSION_TEXTURE1D : Z := 2.
Definition TEX_DIMENSION_TEXTURE2D : Z := 3.
Definition TEX_DIMENSION_TEXTURE3D : Z := 4.

Definition TEX_ALPHA_MODE_UNKNOWN : Z := 0.
Definition TEX_ALPHA_MODE_STRAIGHT : Z := 1.
Definition TEX_ALPHA_MODE_PREMULTIPLIED : Z := 2.
Definition TEX_ALPHA_MODE_OPAQUE : Z := 3.
Definition TEX_ALPHA_MODE_CUSTOM : Z := 4.

Definition TEX_MISC_TEXTURECUBE : Z := 0x4.
Definition TEX_MISC2_ALPHA_MODE_MASK : Z := 0x7.

Record TexMetadata : Set := mkTexMetadata {
  width : Z;
  height : Z;
  depth : Z;
  arraySize : Z;
  mipLevels : Z;
  miscFlags : Z;
  miscFlags2 : Z;
  format : DXGI_FORMAT;
  dimension : Z
}.

(** memset(&metadata, 0, sizeof(TexMetadata)) *)
Definition zero_metadata : TexMetadata := mkTexMetadata 0 0 0 0 0 0 0 0 0.

Definition IsCubemap (md : TexMetadata) : bool :=
  has_flag (miscFlags md) TEX_MISC_TEXTURECUBE.

Definition SetAlphaMode (md : TexMetadata) (mode : Z) : TexMetadata :=
  mkTexMetadata (width md) (height md) (depth md) (arraySize md)
    (mipLevels md) (miscFlags md)
    (Z.lor (Z.land (miscFlags2 md) (u32 (Z.lnot TEX_MISC2_ALPHA_MODE_MASK))) mode)
    (format md) (dimension md).

Definition GetAlphaMode (md : TexMetadata) : Z :=
  Z.land (miscFlags2 md) TEX_MISC2_ALPHA_MODE_MASK.

(** size_t(-1), the out-of-range result of ComputeIndex. *)
Definition INVALID_INDEX (plat : Platform) : Z := size_t plat (-1).

(** The loop of the 3D case of ComputeIndex,
    [for (level = 0; level < mip; ++level) { index += d; if (d > 1) d >>= 1; }],
    run for [n] iterations from the state [(index, d)]. *)
Fixpoint ComputeIndex_loop (plat : Platform) (n : nat) (index d : Z) : Z * Z :=
  match n with
  | O => (index, d)
  | S n' => ComputeIndex_loop plat n' (size_t plat (index + d)) (shrink d)
  end.

Definition ComputeIndex (plat : Platform) (md : TexMetadata)
    (mip item slice : Z) : Z :=
  if mipLevels md <=? mip then INVALID_INDEX plat
  else if in_cases (dimension md)
            [TEX_DIMENSION_TEXTURE1D; TEX_DIMENSION_TEXTURE2D] then
    if 0 <? slice then INVALID_INDEX plat
    else if arraySize md <=? item then INVALID_INDEX plat
    else size_t plat (item * mipLevels md + mip)
  else if dimension md =? TEX_DIMENSION_TEXTURE3D then
    if 0 <? item then INVALID_INDEX plat
    else
      let '(index, d) := ComputeIndex_loop plat (Z.to_nat mip) 0 (depth md) in
      if d <=? slice then INVALID_INDEX plat
      else size_t plat (index + slice)
  else INVALID_INDEX plat.

(* ================================================================== *)
(** * Mip chain geometry                                               *)
(* ================================================================== *)

(** The [while (height > 1 || width > 1)] loop of CountMips.  The loop
    is not structurally recursive;  it terminates because each round
    shrinks at least one of the two dimensions. *)
Equations? CountMips_loop (w h mips : Z) : Z
  by wf (Z.to_nat w + Z.to_nat h)%nat lt :=
  CountMips_loop w h mips
    with inspect ((1 <? h) || (1 <? w)) := {
    | exist _ true _ =>
        CountMips_loop (shrink w) (shrink h) (mips + 1);
    | exist _ false _ => mips }.
Proof.
  unfold shrink. rewrite !Z.shiftr_div_pow2 by lia. change (2 ^ 1) with 2.
  assert (half_lt : forall x, 1 < x -> (Z.to_nat (x / 2) < Z.to_nat x)%nat)
    by (intros x Hx; apply Z2Nat.inj_lt;
        [apply Z.div_pos; lia | lia | apply Z.div_lt; lia]).
  revert e.
  destruct (Z.ltb_spec 1 w), (Z.ltb_spec 1 h);
    simpl; intros e; try discriminate;
    repeat match goal with
           | Hx : 1 < ?x |- _ => apply half_lt in Hx
           end; lia.
Qed.

Definition CountMips (w h : Z) : Z := CountMips_loop w h 1.

Equations? CountMips3D_loop (w h d mips : Z) : Z
  by wf (Z.to_nat w + Z.to_nat h + Z.to_nat d)%nat lt :=
  CountMips3D_loop w h d mips
    with inspect ((1 <? h) || (1 <? w) || (1 <? d)) := {
    | exist _ true _ =>
        CountMips3D_loop (shrink w) (shrink h) (shrink d)
          (mips + 1);
    | exist _ false _ => mips }.
Proof.
  unfold shrink. rewrite !Z.shiftr_div_pow2 by lia. change (2 ^ 1) with 2.
  assert (half_lt : forall x, 1 < x -> (Z.to_nat (x / 2) < Z.to_nat x)%nat)
    by (intros x Hx; apply Z2Nat.inj_lt;
        [apply Z.div_pos; lia | lia | apply Z.div_lt; lia]).
  revert e.
  destruct (Z.ltb_spec 1 w), (Z.ltb_spec 1 h), (Z.ltb_spec 1 d);
    simpl; intros e; try discriminate;
    repeat match goal with
           | Hx : 1 < ?x |- _ => apply half_lt in Hx
           end; lia.
Qed.

Definition CountMips3D (w h d : Z) : Z :=
  CountMips3D_loop w h d 1.

(** CalculateMipLevels updates [mipLevels] through a reference;  the
    model returns the new value, [None] standing for [false]. *)
Definition CalculateMipLevels (w h mips : Z) : option Z :=
  if 1 <? mips then
    let maxMips := CountMips w h in
    if maxMips <? mips then None else Some mips
  else if mips =? 0 then Some (CountMips w h)
  else Some 1.

Definition CalculateMipLevels3D (w h d mips : Z) : option Z :=
  if 1 <? mips then
    let maxMips := CountMips3D w h d in
    if maxMips <? mips then None else Some mips
  else if mips =? 0 then Some (CountMips3D w h d)
  else Some 1.

(* ================================================================== *)
(** * Pitch calculator                                                 *)
(* ================================================================== *)

(** enum CP_FLAGS *)
Definition CP_FLAGS_NONE : Z := 0x0.
Definition CP_FLAGS_LEGACY_DWORD : Z := 0x1.
Definition CP_FLAGS_PARAGRAPH : Z := 0x2.
Definition CP_FLAGS_YMM : Z := 0x4.
Definition CP_FLAGS_ZMM : Z := 0x8.
Definition CP_FLAGS_PAGE4K : Z := 0x200.
Definition CP_FLAGS_BAD_DXTN_TAILS : Z := 0x1000.
Definition CP_FLAGS_24BPP : Z := 0x10000.
Definition CP_FLAGS_16BPP : Z := 0x20000.
Definition CP_FLAGS_8BPP : Z := 0x40000.

(** The block-compressed branches of ComputePitch, which differ only in
    the number of bytes per block.  All arithmetic is [uint64_t]. *)
Definition bc_pitch (bytesPerBlock w h flags : Z) : Z * Z :=
  if has_flag flags CP_FLAGS_BAD_DXTN_TAILS then
    let nbw := Z.shiftr w 2 in
    let nbh := Z.shiftr h 2 in
    let pitch := Z.max 1 (u64 (nbw * bytesPerBlock)) in
    let slice := Z.max 1 (u64 (pitch * nbh)) in
    (pitch, slice)
  else
    let nbw := Z.max 1 (u64 (w + 3) / 4) in
    let nbh := Z.max 1 (u64 (h + 3) / 4) in
    let pitch := u64 (nbw * bytesPerBlock) in
    let slice := u64 (pitch * nbh) in
    (pitch, slice).

(** The [default:] branch for a given bits-per-pixel value. *)
Definition linear_pitch (bpp w h flags : Z) : Z * Z :=
  let aligned (round unit bytes : Z) : Z * Z :=
    let pitch := u64 (u64 (u64 (w * bpp) + round) / unit * bytes) in
    (pitch, u64 (pitch * h)) in
  if has_flag flags
       (Z.lor CP_FLAGS_LEGACY_DWORD
          (Z.lor CP_FLAGS_PARAGRAPH
             (Z.lor CP_FLAGS_YMM (Z.lor CP_FLAGS_ZMM CP_FLAGS_PAGE4K)))) then
    if has_flag flags CP_FLAGS_PAGE4K then aligned 32767 32768 4096
    else if has_flag flags CP_FLAGS_ZMM then aligned 511 512 64
    else if has_flag flags CP_FLAGS_YMM then aligned 255 256 32
    else if has_flag flags CP_FLAGS_PARAGRAPH then aligned 127 128 16
    else aligned 31 32 4
  else
    let pitch := u64 (u64 (w * bpp) + 7) / 8 in
    (pitch, u64 (pitch * h)).

(** The switch of ComputePitch: the 64-bit [pitch] and [slice] values,
    or [None] where the function returns E_INVALIDARG at once. *)
Definition ComputePitch_switch (fmt : DXGI_FORMAT) (w h flags : Z)
    : option (Z * Z) :=
  if in_cases fmt bc_8_byte_formats then Some (bc_pitch 8 w h flags)
  else if in_cases fmt bc_16_byte_formats then Some (bc_pitch 16 w h flags)
  else if in_cases fmt [Fmt.R8G8_B8G8_UNORM; Fmt.G8R8_G8B8_UNORM; Fmt.YUY2] then
    let pitch := u64 (Z.shiftr (u64 (w + 1)) 1 * 4) in
    Some (pitch, u64 (pitch * h))
  else if in_cases fmt [Fmt.Y210; Fmt.Y216] then
    let pitch := u64 (Z.shiftr (u64 (w + 1)) 1 * 8) in
    Some (pitch, u64 (pitch * h))
  else if in_cases fmt [Fmt.NV12; Fmt.OPAQUE_420] then
    let pitch := u64 (Z.shiftr (u64 (w + 1)) 1 * 2) in
    Some (pitch, u64 (pitch * u64 (h + Z.shiftr (u64 (h + 1)) 1)))
  else if in_cases fmt
            [Fmt.P010; Fmt.P016; Fmt.XBOX_D16_UNORM_S8_UINT;
             Fmt.XBOX_R16_UNORM_X8_TYPELESS; Fmt.XBOX_X16_TYPELESS_G8_UINT] then
    let pitch := u64 (Z.shiftr (u64 (w + 1)) 1 * 4) in
    Some (pitch, u64 (pitch * u64 (h + Z.shiftr (u64 (h + 1)) 1)))
  else if in_cases fmt [Fmt.NV11] then
    let pitch := u64 (Z.shiftr (u64 (w + 3)) 2 * 4) in
    Some (pitch, u64 (u64 (pitch * h) * 2))
  else if in_cases fmt [Fmt.WIN10_P208] then
    let pitch := u64 (Z.shiftr (u64 (w + 1)) 1 * 2) in
    Some (pitch, u64 (u64 (pitch * h) * 2))
  else if in_cases fmt [Fmt.WIN10_V208] then
    let pitch := w in
    Some (pitch, u64 (pitch * u64 (h + u64 (Z.shiftr (u64 (h + 1)) 1 * 2))))
  else if in_cases fmt [Fmt.WIN10_V408] then
    let pitch := w in
    Some (pitch, u64 (pitch * u64 (h + u64 (Z.shiftr h 1 * 4))))
  else
    let bpp :=
      if has_flag flags CP_FLAGS_24BPP then 24
      else if has_flag flags CP_FLAGS_16BPP then 16
      else if has_flag flags CP_FLAGS_8BPP then 8
      else BitsPerPixel fmt in
    if bpp =? 0 then None else Some (linear_pitch bpp w h flags).

(** ComputePitch returns an HRESULT and writes [rowPitch] and
    [slicePitch] through references: the second component is what it
    has written, [None] when it has written nothing (E_INVALIDARG).
    The range check exists on the 32-bit targets only. *)
Definition ComputePitch (plat : Platform) (fmt : DXGI_FORMAT)
    (w h flags : Z) : HRESULT * option (Z * Z) :=
  match ComputePitch_switch fmt w h flags with
  | None => (E_INVALIDARG, None)
  | Some (pitch, slice) =>
      match plat with
      | Win32 =>
          if (UINT32_MAX <? pitch) || (UINT32_MAX <? slice)
          then (HRESULT_E_ARITHMETIC_OVERFLOW, Some (0, 0))
          else (S_OK, Some (size_t plat pitch, size_t plat slice))
      | Win64 => (S_OK, Some (size_t plat pitch, size_t plat slice))
      end
  end.

(** What a caller that tests [FAILED(ComputePitch(...))] goes on with. *)
Definition pitch_or_fail (r : HRESULT * option (Z * Z)) : option (Z * Z) :=
  if FAILED (fst r) then None else snd r.

(* ================================================================== *)
(** * Image layout planner                                             *)
(* ================================================================== *)

Record Image : Set := mkImage {
  img_width : Z;
  img_height : Z;
  img_format : DXGI_FORMAT;
  img_rowPitch : Z;
  img_slicePitch : Z;
  (** byte offset from the start of the owning buffer; [None] is nullptr *)
  img_pixels : option Z
}.

(** memset(m_image, 0, ...) *)
Definition zero_image : Image := mkImage 0 0 0 0 0 None.

(** The running totals of DetermineImageArray: [totalPixelSize]
    (uint64_t) and [nimages] (size_t). *)
Definition Plan : Set := (Z * Z)%type.

(** Inner loop of the 1D/2D case: [n] mip levels from ([w], [h]). *)
Fixpoint Determine_levels (plat : Platform) (fmt : DXGI_FORMAT) (flags : Z)
    (n : nat) (w h : Z) (acc : Plan) : option Plan :=
  match n with
  | O => Some acc
  | S n' =>
      match pitch_or_fail (ComputePitch plat fmt w h flags) with
      | None => None
      | Some (_, slicePitch) =>
          let '(total, nimages) := acc in
          Determine_levels plat fmt flags n' (shrink w) (shrink h)
            (u64 (total + slicePitch), size_t plat (nimages + 1))
      end
  end.

(** Outer loop of the 1D/2D case: [n] array items. *)
Fixpoint Determine_items (plat : Platform) (md : TexMetadata) (flags : Z)
    (n : nat) (acc : Plan) : option Plan :=
  match n with
  | O => Some acc
  | S n' =>
      match Determine_levels plat (format md) flags
              (Z.to_nat (mipLevels md)) (width md) (height md) acc with
      | None => None
      | Some acc' => Determine_items plat md flags n' acc'
      end
  end.

(** [for (slice = 0; slice < d; ++slice)] of the 3D case. *)
Fixpoint Determine_slices (plat : Platform) (slicePitch : Z) (n : nat)
    (acc : Plan) : Plan :=
  match n with
  | O => acc
  | S n' =>
      let '(total, nimages) := acc in
      Determine_slices plat slicePitch n'
        (u64 (total + slicePitch), size_t plat (nimages + 1))
  end.

(** Level loop of the 3D case. *)
Fixpoint Determine_volume (plat : Platform) (fmt : DXGI_FORMAT) (flags : Z)
    (n : nat) (w h d : Z) (acc : Plan) : option Plan :=
  match n with
  | O => Some acc
  | S n' =>
      match pitch_or_fail (ComputePitch plat fmt w h flags) with
      | None => None
      | Some (_, slicePitch) =>
          Determine_volume plat fmt flags n' (shrink w) (shrink h) (shrink d)
            (Determine_slices plat slicePitch (Z.to_nat d) acc)
      end
  end.

(** DetermineImageArray: [Some (nImages, pixelSize)] when it returns
    true;  on every [false] path both outputs are set to 0. *)
Definition DetermineImageArray (plat : Platform) (md : TexMetadata)
    (cpFlags : Z) : option (Z * Z) :=
  let counted :=
    if in_cases (dimension md)
         [TEX_DIMENSION_TEXTURE1D; TEX_DIMENSION_TEXTURE2D] then
      Determine_items plat md cpFlags (Z.to_nat (arraySize md)) (0, 0)
    else if dimension md =? TEX_DIMENSION_TEXTURE3D then
      Determine_volume plat (format md) cpFlags (Z.to_nat (mipLevels md))
        (width md) (height md) (depth md) (0, 0)
    else None in
  match counted with
  | None => None
  | Some (totalPixelSize, nimages) =>
      match plat with
      | Win32 =>
          if UINT32_MAX <? totalPixelSize then None
          else Some (nimages, size_t plat totalPixelSize)
      | Win64 => Some (nimages, size_t plat totalPixelSize)
      end
  end.

(** [images[index] = x] on an array the index is known to be inside. *)
Fixpoint array_set {A : Type} (l : list A) (i : nat) (x : A) : list A :=
  match l, i with
  | [], _ => []
  | _ :: t, O => x :: t
  | a :: t, S i' => a :: array_set t i' x
  end.

(** The locals of SetupImageArray that survive an iteration: [index],
    the cursor [pixels] (as an offset from [pMemory]) and the [images]
    array being filled in. *)
Record Setup : Set := mkSetup {
  st_index : Z;
  st_pixels : Z;
  st_images : list Image
}.

(** One descriptor: the body shared by both traversals, from the
    [index >= nImages] test to the [pixels > pEndBits] test.  The
    result carries [false] when the body returns false;  the state is
    what has been written so far. *)
Definition Setup_one (plat : Platform) (fmt : DXGI_FORMAT)
    (pixelSize nImages w h rowPitch slicePitch : Z) (st : Setup)
    : bool * Setup :=
  if nImages <=? st_index st then (false, st)
  else
    let st' :=
      mkSetup (size_t plat (st_index st + 1)) (st_pixels st + slicePitch)
        (array_set (st_images st) (Z.to_nat (st_index st))
           (mkImage w h fmt rowPitch slicePitch (Some (st_pixels st)))) in
    if pixelSize <? st_pixels st' then (false, st') else (true, st').

Fixpoint Setup_levels (plat : Platform) (fmt : DXGI_FORMAT) (flags : Z)
    (pixelSize nImages : Z) (n : nat) (w h : Z) (st : Setup) : bool * Setup :=
  match n with
  | O => (true, st)
  | S n' =>
      if nImages <=? st_index st then (false, st)
      else
        match pitch_or_fail (ComputePitch plat fmt w h flags) with
        | None => (false, st)
        | Some (rowPitch, slicePitch) =>
            match Setup_one plat fmt pixelSize nImages w h
                    rowPitch slicePitch st with
            | (false, st') => (false, st')
            | (true, st') =>
                Setup_levels plat fmt flags pixelSize nImages n'
                  (shrink w) (shrink h) st'
            end
        end
  end.

Fixpoint Setup_items (plat : Platform) (md : TexMetadata) (flags : Z)
    (pixelSize nImages : Z) (n : nat) (st : Setup) : bool * Setup :=
  match n with
  | O => (true, st)
  | S n' =>
      match Setup_levels plat (format md) flags pixelSize nImages
              (Z.to_nat (mipLevels md)) (width md) (height md) st with
      | (false, st') => (false, st')
      | (true, st') => Setup_items plat md flags pixelSize nImages n' st'
      end
  end.

Fixpoint Setup_slices (plat : Platform) (fmt : DXGI_FORMAT)
    (pixelSize nImages w h rowPitch slicePitch : Z) (n : nat) (st : Setup)
    : bool * Setup :=
  match n with
  | O => (true, st)
  | S n' =>
      match Setup_one plat fmt pixelSize nImages w h rowPitch slicePitch st with
      | (false, st') => (false, st')
      | (true, st') =>
          Setup_slices plat fmt pixelSize nImages w h rowPitch slicePitch n' st'
      end
  end.

Fixpoint Setup_volume (plat : Platform) (fmt : DXGI_FORMAT) (flags : Z)
    (pixelSize nImages : Z) (n : nat) (w h d : Z) (st : Setup) : bool * Setup :=
  match n with
  | O => (true, st)
  | S n' =>
      match pitch_or_fail (ComputePitch plat fmt w h flags) with
      | None => (false, st)
      | Some (rowPitch, slicePitch) =>
          match Setup_slices plat fmt pixelSize nImages w h
                  rowPitch slicePitch (Z.to_nat d) st with
          | (false, st') => (false, st')
          | (true, st') =>
              Setup_volume plat fmt flags pixelSize nImages n'
                (shrink w) (shrink h) (shrink d) st'
          end
      end
  end.

(** SetupImageArray with its final local state.  [images] is [None]
    for a null pointer.  The buffer is [pixelSize] bytes starting at
    [pMemory];  the cursor and [pEndBits] are offsets from it. *)
Definition SetupImageArray_run (plat : Platform) (pixelSize : Z)
    (md : TexMetadata) (cpFlags : Z) (images : option (list Image))
    (nImages : Z) : bool * Setup :=
  match images with
  | None => (false, mkSetup 0 0 [])
  | Some imgs =>
      let st := mkSetup 0 0 imgs in
      if in_cases (dimension md)
           [TEX_DIMENSION_TEXTURE1D; TEX_DIMENSION_TEXTURE2D] then
        if (arraySize md =? 0) || (mipLevels md =? 0) then (false, st)
        else Setup_items plat md cpFlags pixelSize nImages
               (Z.to_nat (arraySize md)) st
      else if dimension md =? TEX_DIMENSION_TEXTURE3D then
        if (mipLevels md =? 0) || (depth md =? 0) then (false, st)
        else Setup_volume plat (format md) cpFlags pixelSize nImages
               (Z.to_nat (mipLevels md)) (width md) (height md) (depth md) st
      else (false, st)
  end.

(** What the caller observes: the return value and the array. *)
Definition SetupImageArray (plat : Platform) (pixelSize : Z)
    (md : TexMetadata) (cpFlags : Z) (images : option (list Image))
    (nImages : Z) : bool * list Image :=
  let '(ok, st) := SetupImageArray_run plat pixelSize md cpFlags images nImages in
  (ok, st_images st).

(* ================================================================== *)
(** * ScratchImage                                                     *)
(* ================================================================== *)

(** The two allocations of Initialize can fail;  whether they do is up
    to the heap, which is a parameter of the model: [new_images n]
    tells whether [new (std::nothrow) Image[n]] returns an array, and
    [aligned_malloc size] whether [_aligned_malloc(size, 16)] returns a
    block. *)
Record Heap : Type := mkHeap {
  new_images : Z -> bool;
  aligned_malloc : Z -> bool;
  (** [new (std::nothrow) T[n]] for the byte and palette arrays of the
      loader, by size in bytes *)
  new_array : Z -> bool
}.

Record ScratchImage : Set := mkScratchImage {
  m_nimages : Z;
  m_size : Z;
  m_metadata : TexMetadata;
  m_image : option (list Image);
  m_memory : option (list byte)
}.

Definition Release (_ : ScratchImage) : ScratchImage :=
  mkScratchImage 0 0 zero_metadata None None.

(** Initialize(mdata, flags): the HRESULT and the object afterwards.
    The block returned by _aligned_malloc has indeterminate contents;
    the model fills it with zero bytes. *)
Definition Initialize (plat : Platform) (heap : Heap) (self : ScratchImage)
    (mdata : TexMetadata) (flags : Z) : HRESULT * ScratchImage :=
  if negb (IsValid (format mdata)) then (E_INVALIDARG, self)
  else if IsPalettized (format mdata) then (E_FAIL, self)
  else
    let checked : HRESULT * Z :=
      if dimension mdata =? TEX_DIMENSION_TEXTURE1D then
        if (width mdata =? 0) || negb (height mdata =? 1)
           || negb (depth mdata =? 1) || (arraySize mdata =? 0)
        then (E_INVALIDARG, 0)
        else match CalculateMipLevels (width mdata) 1 (mipLevels mdata) with
             | None => (E_INVALIDARG, 0)
             | Some m => (S_OK, m)
             end
      else if dimension mdata =? TEX_DIMENSION_TEXTURE2D then
        if (width mdata =? 0) || (height mdata =? 0)
           || negb (depth mdata =? 1) || (arraySize mdata =? 0)
        then (E_INVALIDARG, 0)
        else if IsCubemap mdata && negb (arraySize mdata mod 6 =? 0)
        then (E_INVALIDARG, 0)
        else match CalculateMipLevels (width mdata) (height mdata)
                     (mipLevels mdata) with
             | None => (E_INVALIDARG, 0)
             | Some m => (S_OK, m)
             end
      else if dimension mdata =? TEX_DIMENSION_TEXTURE3D then
        if (width mdata =? 0) || (height mdata =? 0)
           || (depth mdata =? 0) || negb (arraySize mdata =? 1)
        then (E_INVALIDARG, 0)
        else match CalculateMipLevels3D (width mdata) (height mdata)
                     (depth mdata) (mipLevels mdata) with
             | None => (E_INVALIDARG, 0)
             | Some m => (S_OK, m)
             end
      else (E_FAIL, 0) in
    let '(hr, mips) := checked in
    if FAILED hr then (hr, self)
    else
      let md :=
        mkTexMetadata (width mdata) (height mdata) (depth mdata)
          (arraySize mdata) mips (miscFlags mdata) (miscFlags2 mdata)
          (format mdata) (dimension mdata) in
      let self := mkScratchImage 0 0 md None None in
      match DetermineImageArray plat md flags with
      | None => (E_FAIL, self)
      | Some (nimages, pixelSize) =>
          if negb (new_images heap nimages) then (E_OUTOFMEMORY, self)
          else
            let images := repeat zero_image (Z.to_nat nimages) in
            let self := mkScratchImage nimages 0 md (Some images) None in
            if negb (aligned_malloc heap pixelSize)
            then (E_OUTOFMEMORY, Release self)
            else
              let memory := repeat x00 (Z.to_nat pixelSize) in
              let self :=
                mkScratchImage nimages pixelSize md (Some images)
                  (Some memory) in
              match SetupImageArray plat pixelSize md flags
                      (Some images) nimages with
              | (false, _) => (E_FAIL, Release self)
              | (true, images') =>
                  (S_OK,
                   mkScratchImage nimages pixelSize md (Some images')
                     (Some memory))
              end
      end.

(* ================================================================== *)
(** * Byte buffers                                                     *)
(* ================================================================== *)

Definition byte_val (b : byte) : Z := Z.of_N (Byte.to_N b).

Definition byte_of (z : Z) : byte :=
  match Byte.of_N (Z.to_N (z mod 256)) with
  | Some b => b
  | None => x00
  end.

Definition load8 (buf : list byte) (off : Z) : Z :=
  byte_val (nth (Z.to_nat off) buf x00).

(** A [uint16_t] load at [buf + off]. *)
Definition load16 (buf : list byte) (off : Z) : Z :=
  load8 buf off + 2 ^ 8 * load8 buf (off + 1).

(** A [uint32_t] load at [buf + off]. *)
Definition load32 (buf : list byte) (off : Z) : Z :=
  load8 buf off + 2 ^ 8 * load8 buf (off + 1)
  + 2 ^ 16 * load8 buf (off + 2) + 2 ^ 24 * load8 buf (off + 3).

Definition store8 (buf : list byte) (off : Z) (v : Z) : list byte :=
  array_set buf (Z.to_nat off) (byte_of v).

(** A [uint32_t] store of [v] at [buf + off]. *)
Definition store32 (buf : list byte) (off : Z) (v : Z) : list byte :=
  store8 (store8 (store8 (store8 buf off v)
                    (off + 1) (Z.shiftr v 8))
            (off + 2) (Z.shiftr v 16))
    (off + 3) (Z.shiftr v 24).

(* ================================================================== *)
(** * DDS file structures                                              *)
(* ================================================================== *)

Record DDS_PIXELFORMAT : Set := mkDDS_PIXELFORMAT {
  pf_size : Z;
  pf_flags : Z;
  pf_fourCC : Z;
  pf_RGBBitCount : Z;
  pf_RBitMask : Z;
  pf_GBitMask : Z;
  pf_BBitMask : Z;
  pf_ABitMask : Z
}.

Record DDS_HEADER : Set := mkDDS_HEADER {
  hdr_size : Z;
  hdr_flags : Z;
  hdr_height : Z;
  hdr_width : Z;
  hdr_pitchOrLinearSize : Z;
  hdr_depth : Z;
  hdr_mipMapCount : Z;
  hdr_reserved1 : list Z;
  hdr_ddspf : DDS_PIXELFORMAT;
  hdr_caps : Z;
  hdr_caps2 : Z;
  hdr_caps3 : Z;
  hdr_caps4 : Z;
  hdr_reserved2 : Z
}.

Record DDS_HEADER_DXT10 : Set := mkDDS_HEADER_DXT10 {
  dx_dxgiFormat : DXGI_FORMAT;
  dx_resourceDimension : Z;
  dx_miscFlag : Z;
  dx_arraySize : Z;
  dx_miscFlags2 : Z
}.

Definition sizeof_uint32_t : Z := 4.
Definition sizeof_DDS_PIXELFORMAT : Z := 32.
Definition sizeof_DDS_HEADER : Z := 124.
Definition sizeof_DDS_HEADER_DXT10 : Z := 20.

Definition MAX_HEADER_SIZE : Z :=
  sizeof_uint32_t + sizeof_DDS_HEADER + sizeof_DDS_HEADER_DXT10.

Definition DDS_MAGIC : Z := 0x20534444.

(** The structures are read in place through reinterpret_cast: every
    field is the 32-bit word at its offset. *)
Definition read_DDS_PIXELFORMAT (buf : list byte) (off : Z) : DDS_PIXELFORMAT :=
  mkDDS_PIXELFORMAT
    (load32 buf off) (load32 buf (off + 4)) (load32 buf (off + 8))
    (load32 buf (off + 12)) (load32 buf (off + 16)) (load32 buf (off + 20))
    (load32 buf (off + 24)) (load32 buf (off + 28)).

Definition read_DDS_HEADER (buf : list byte) (off : Z) : DDS_HEADER :=
  mkDDS_HEADER
    (load32 buf off) (load32 buf (off + 4)) (load32 buf (off + 8))
    (load32 buf (off + 12)) (load32 buf (off + 16)) (load32 buf (off + 20))
    (load32 buf (off + 24))
    (map (fun i => load32 buf (off + 28 + 4 * Z.of_nat i)) (seq 0 11))
    (read_DDS_PIXELFORMAT buf (off + 72))
    (load32 buf (off + 104)) (load32 buf (off + 108))
    (load32 buf (off + 112)) (load32 buf (off + 116))
    (load32 buf (off + 120)).

Definition read_DDS_HEADER_DXT10 (buf : list byte) (off : Z) : DDS_HEADER_DXT10 :=
  mkDDS_HEADER_DXT10
    (load32 buf off) (load32 buf (off + 4)) (load32 buf (off + 8))
    (load32 buf (off + 12)) (load32 buf (off + 16)).

(** Modelled from the spec: MAKEFOURCC is a macro of the platform SDK;
    it packs four characters into a 32-bit code, first character in
    the low byte. *)
Definition MAKEFOURCC (ch0 ch1 ch2 ch3 : ascii) : Z :=
  let c (a : ascii) := Z.of_N (N_of_ascii a) in
  Z.lor (Z.lor (c ch0) (Z.shiftl (c ch1) 8))
        (Z.lor (Z.shiftl (c ch2) 16) (Z.shiftl (c ch3) 24)).

Definition DDS_FOURCC : Z := 0x00000004.
Definition DDS_RGB : Z := 0x00000040.
Definition DDS_RGBA : Z := 0x00000041.
Definition DDS_LUMINANCE : Z := 0x00020000.
Definition DDS_LUMINANCEA : Z := 0x00020001.
Definition DDS_ALPHAPIXELS : Z := 0x00000001.
Definition DDS_ALPHA : Z := 0x00000002.
Definition DDS_PAL8 : Z := 0x00000020.
Definition DDS_PAL8A : Z := 0x00000021.
Definition DDS_BUMPDUDV : Z := 0x00080000.

(** enum CONVERSION_FLAGS *)
Definition CONV_FLAGS_NONE : Z := 0x0.
Definition CONV_FLAGS_EXPAND : Z := 0x1.
Definition CONV_FLAGS_NOALPHA : Z := 0x2.
Definition CONV_FLAGS_SWIZZLE : Z := 0x4.
Definition CONV_FLAGS_PAL8 : Z := 0x8.
Definition CONV_FLAGS_888 : Z := 0x10.
Definition CONV_FLAGS_565 : Z := 0x20.
Definition CONV_FLAGS_5551 : Z := 0x40.
Definition CONV_FLAGS_4444 : Z := 0x80.
Definition CONV_FLAGS_44 : Z := 0x100.
Definition CONV_FLAGS_332 : Z := 0x200.
Definition CONV_FLAGS_8332 : Z := 0x400.
Definition CONV_FLAGS_A8P8 : Z := 0x800.
Definition CONV_FLAGS_DX10 : Z := 0x10000.
Definition CONV_FLAGS_PMALPHA : Z := 0x20000.
Definition CONV_FLAGS_L8 : Z := 0x40000.
Definition CONV_FLAGS_L16 : Z := 0x80000.
Definition CONV_FLAGS_A8L8 : Z := 0x100000.

Definition DDS_RESOURCE_MISC_TEXTURECUBE : Z := 0x4.

Definition DDS_DIMENSION_TEXTURE1D : Z := 2.
Definition DDS_DIMENSION_TEXTURE2D : Z := 3.
Definition DDS_DIMENSION_TEXTURE3D : Z := 4.

Definition DDS_HEIGHT : Z := 0x00000002.
Definition DDS_HEADER_FLAGS_VOLUME : Z := 0x00800000.

Definition DDS_CUBEMAP_POSITIVEX : Z := 0x00000600.
Definition DDS_CUBEMAP_NEGATIVEX : Z := 0x00000a00.
Definition DDS_CUBEMAP_POSITIVEY : Z := 0x00001200.
Definition DDS_CUBEMAP_NEGATIVEY : Z := 0x00002200.
Definition DDS_CUBEMAP_POSITIVEZ : Z := 0x00004200.
Definition DDS_CUBEMAP_NEGATIVEZ : Z := 0x00008200.

Definition DDS_CUBEMAP_ALLFACES : Z :=
  Z.lor (Z.lor (Z.lor DDS_CUBEMAP_POSITIVEX DDS_CUBEMAP_NEGATIVEX)
               (Z.lor DDS_CUBEMAP_POSITIVEY DDS_CUBEMAP_NEGATIVEY))
        (Z.lor DDS_CUBEMAP_POSITIVEZ DDS_CUBEMAP_NEGATIVEZ).

Definition DDS_CUBEMAP : Z := 0x00000200.

(* ================================================================== *)
(** * Legacy format table                                              *)
(* ================================================================== *)

Record LegacyDDS : Set := mkLegacyDDS {
  lg_format : DXGI_FORMAT;
  lg_convFlags : Z;
  lg_ddpf : DDS_PIXELFORMAT
}.

Definition ddspf_fourcc (code : Z) : DDS_PIXELFORMAT :=
  mkDDS_PIXELFORMAT sizeof_DDS_PIXELFORMAT DDS_FOURCC code 0 0 0 0 0.

Definition ddspf_masks (flags bits r g b a : Z) : DDS_PIXELFORMAT :=
  mkDDS_PIXELFORMAT sizeof_DDS_PIXELFORMAT flags 0 bits r g b a.

Definition DDSPF_DXT1 := ddspf_fourcc (MAKEFOURCC "D" "X" "T" "1").
Definition DDSPF_DXT2 := ddspf_fourcc (MAKEFOURCC "D" "X" "T" "2").
Definition DDSPF_DXT3 := ddspf_fourcc (MAKEFOURCC "D" "X" "T" "3").
Definition DDSPF_DXT4 := ddspf_fourcc (MAKEFOURCC "D" "X" "T" "4").
Definition DDSPF_DXT5 := ddspf_fourcc (MAKEFOURCC "D" "X" "T" "5").
Definition DDSPF_BC4_UNORM := ddspf_fourcc (MAKEFOURCC "B" "C" "4" "U").
Definition DDSPF_BC4_SNORM := ddspf_fourcc (MAKEFOURCC "B" "C" "4" "S").
Definition DDSPF_BC5_UNORM := ddspf_fourcc (MAKEFOURCC "B" "C" "5" "U").
Definition DDSPF_BC5_SNORM := ddspf_fourcc (MAKEFOURCC "B" "C" "5" "S").
Definition DDSPF_R8G8_B8G8 := ddspf_fourcc (MAKEFOURCC "R" "G" "B" "G").
Definition DDSPF_G8R8_G8B8 := ddspf_fourcc (MAKEFOURCC "G" "R" "G" "B").
Definition DDSPF_YUY2 := ddspf_fourcc (MAKEFOURCC "Y" "U" "Y" "2").
Definition DDSPF_UYVY := ddspf_fourcc (MAKEFOURCC "U" "Y" "V" "Y").
Definition DDSPF_A8R8G8B8 :=
  ddspf_masks DDS_RGBA 32 0x00ff0000 0x0000ff00 0x000000ff 0xff000000.
Definition DDSPF_X8R8G8B8 :=
  ddspf_masks DDS_RGB 32 0x00ff0000 0x0000ff00 0x000000ff 0.
Definition DDSPF_A8B8G8R8 :=
  ddspf_masks DDS_RGBA 32 0x000000ff 0x0000ff00 0x00ff0000 0xff000000.
Definition DDSPF_X8B8G8R8 :=
  ddspf_masks DDS_RGB 32 0x000000ff 0x0000ff00 0x00ff0000 0.
Definition DDSPF_G16R16 := ddspf_masks DDS_RGB 32 0x0000ffff 0xffff0000 0 0.
Definition DDSPF_R5G6B5 := ddspf_masks DDS_RGB 16 0xf800 0x07e0 0x001f 0.
Definition DDSPF_A1R5G5B5 := ddspf_masks DDS_RGBA 16 0x7c00 0x03e0 0x001f 0x8000.
Definition DDSPF_X1R5G5B5 := ddspf_masks DDS_RGB 16 0x7c00 0x03e0 0x001f 0.
Definition DDSPF_A4R4G4B4 := ddspf_masks DDS_RGBA 16 0x0f00 0x00f0 0x000f 0xf000.
Definition DDSPF_X4R4G4B4 := ddspf_masks DDS_RGB 16 0x0f00 0x00f0 0x000f 0.
Definition DDSPF_R8G8B8 := ddspf_masks DDS_RGB 24 0xff0000 0x00ff00 0x0000ff 0.
Definition DDSPF_A8R3G3B2 := ddspf_masks DDS_RGBA 16 0x00e0 0x001c 0x0003 0xff00.
Definition DDSPF_R3G3B2 := ddspf_masks DDS_RGB 8 0xe0 0x1c 0x03 0.
Definition DDSPF_A4L4 := ddspf_masks DDS_LUMINANCEA 8 0x0f 0 0 0xf0.
Definition DDSPF_L8 := ddspf_masks DDS_LUMINANCE 8 0xff 0 0 0.
Definition DDSPF_L16 := ddspf_masks DDS_LUMINANCE 16 0xffff 0 0 0.
Definition DDSPF_A8L8 := ddspf_masks DDS_LUMINANCEA 16 0x00ff 0 0 0xff00.
Definition DDSPF_A8L8_ALT := ddspf_masks DDS_LUMINANCEA 8 0x00ff 0 0 0xff00.
Definition DDSPF_L8_NVTT1 := ddspf_masks DDS_RGB 8 0xff 0 0 0.
Definition DDSPF_L16_NVTT1 := ddspf_masks DDS_RGB 16 0xffff 0 0 0.
Definition DDSPF_A8L8_NVTT1 := ddspf_masks DDS_RGBA 16 0x00ff 0 0 0xff00.
Definition DDSPF_A8 := ddspf_masks DDS_ALPHA 8 0 0 0 0xff.
Definition DDSPF_V8U8 := ddspf_masks DDS_BUMPDUDV 16 0x00ff 0xff00 0 0.
Definition DDSPF_Q8W8V8U8 :=
  ddspf_masks DDS_BUMPDUDV 32 0x000000ff 0x0000ff00 0x00ff0000 0xff000000.
Definition DDSPF_V16U16 := ddspf_masks DDS_BUMPDUDV 32 0x0000ffff 0xffff0000 0 0.
Definition DDSPF_A2R10G10B10 :=
  ddspf_masks DDS_RGBA 32 0x000003ff 0x000ffc00 0x3ff00000 0xc0000000.
Definition DDSPF_A2B10G10R10 :=
  ddspf_masks DDS_RGBA 32 0x3ff00000 0x000ffc00 0x000003ff 0xc0000000.
Definition DDSPF_DX10 := ddspf_fourcc (MAKEFOURCC "D" "X" "1" "0").

Definition g_LegacyDDSMap : list LegacyDDS :=
  [ mkLegacyDDS Fmt.BC1_UNORM CONV_FLAGS_NONE DDSPF_DXT1;
    mkLegacyDDS Fmt.BC2_UNORM CONV_FLAGS_NONE DDSPF_DXT3;
    mkLegacyDDS Fmt.BC3_UNORM CONV_FLAGS_NONE DDSPF_DXT5;

    mkLegacyDDS Fmt.BC2_UNORM CONV_FLAGS_PMALPHA DDSPF_DXT2;
    mkLegacyDDS Fmt.BC3_UNORM CONV_FLAGS_PMALPHA DDSPF_DXT4;

    mkLegacyDDS Fmt.BC4_UNORM CONV_FLAGS_NONE DDSPF_BC4_UNORM;
    mkLegacyDDS Fmt.BC4_SNORM CONV_FLAGS_NONE DDSPF_BC4_SNORM;
    mkLegacyDDS Fmt.BC5_UNORM CONV_FLAGS_NONE DDSPF_BC5_UNORM;
    mkLegacyDDS Fmt.BC5_SNORM CONV_FLAGS_NONE DDSPF_BC5_SNORM;

    mkLegacyDDS Fmt.BC4_UNORM CONV_FLAGS_NONE
      (ddspf_fourcc (MAKEFOURCC "A" "T" "I" "1"));
    mkLegacyDDS Fmt.BC5_UNORM CONV_FLAGS_NONE
      (ddspf_fourcc (MAKEFOURCC "A" "T" "I" "2"));

    mkLegacyDDS Fmt.BC6H_UF16 CONV_FLAGS_NONE
      (ddspf_fourcc (MAKEFOURCC "B" "C" "6" "H"));
    mkLegacyDDS Fmt.BC7_UNORM CONV_FLAGS_NONE
      (ddspf_fourcc (MAKEFOURCC "B" "C" "7" "L"));
    mkLegacyDDS Fmt.BC7_UNORM CONV_FLAGS_NONE
      (ddspf_fourcc (MAKEFOURCC "B" "C" "7" "000"));

    mkLegacyDDS Fmt.R8G8_B8G8_UNORM CONV_FLAGS_NONE DDSPF_R8G8_B8G8;
    mkLegacyDDS Fmt.G8R8_G8B8_UNORM CONV_FLAGS_NONE DDSPF_G8R8_G8B8;

    mkLegacyDDS Fmt.B8G8R8A8_UNORM CONV_FLAGS_NONE DDSPF_A8R8G8B8;
    mkLegacyDDS Fmt.B8G8R8X8_UNORM CONV_FLAGS_NONE DDSPF_X8R8G8B8;
    mkLegacyDDS Fmt.R8G8B8A8_UNORM CONV_FLAGS_NONE DDSPF_A8B8G8R8;
    mkLegacyDDS Fmt.R8G8B8A8_UNORM CONV_FLAGS_NOALPHA DDSPF_X8B8G8R8;
    mkLegacyDDS Fmt.R16G16_UNORM CONV_FLAGS_NONE DDSPF_G16R16;

    mkLegacyDDS Fmt.R10G10B10A2_UNORM CONV_FLAGS_SWIZZLE DDSPF_A2R10G10B10;
    mkLegacyDDS Fmt.R10G10B10A2_UNORM CONV_FLAGS_NONE DDSPF_A2B10G10R10;

    mkLegacyDDS Fmt.R8G8B8A8_UNORM
      (Z.lor CONV_FLAGS_EXPAND (Z.lor CONV_FLAGS_NOALPHA CONV_FLAGS_888))
      DDSPF_R8G8B8;

    mkLegacyDDS Fmt.B5G6R5_UNORM CONV_FLAGS_565 DDSPF_R5G6B5;
    mkLegacyDDS Fmt.B5G5R5A1_UNORM CONV_FLAGS_5551 DDSPF_A1R5G5B5;
    mkLegacyDDS Fmt.B5G5R5A1_UNORM
      (Z.lor CONV_FLAGS_5551 CONV_FLAGS_NOALPHA) DDSPF_X1R5G5B5;

    mkLegacyDDS Fmt.R8G8B8A8_UNORM
      (Z.lor CONV_FLAGS_EXPAND CONV_FLAGS_8332) DDSPF_A8R3G3B2;
    mkLegacyDDS Fmt.B5G6R5_UNORM
      (Z.lor CONV_FLAGS_EXPAND CONV_FLAGS_332) DDSPF_R3G3B2;

    mkLegacyDDS Fmt.R8_UNORM CONV_FLAGS_NONE DDSPF_L8;
    mkLegacyDDS Fmt.R16_UNORM CONV_FLAGS_NONE DDSPF_L16;
    mkLegacyDDS Fmt.R8G8_UNORM CONV_FLAGS_NONE DDSPF_A8L8;
    mkLegacyDDS Fmt.R8G8_UNORM CONV_FLAGS_NONE DDSPF_A8L8_ALT;

    mkLegacyDDS Fmt.R8_UNORM CONV_FLAGS_NONE DDSPF_L8_NVTT1;
    mkLegacyDDS Fmt.R16_UNORM CONV_FLAGS_NONE DDSPF_L16_NVTT1;
    mkLegacyDDS Fmt.R8G8_UNORM CONV_FLAGS_NONE DDSPF_A8L8_NVTT1;

    mkLegacyDDS Fmt.A8_UNORM CONV_FLAGS_NONE DDSPF_A8;

    mkLegacyDDS Fmt.R16G16B16A16_UNORM CONV_FLAGS_NONE (ddspf_fourcc 36);
    mkLegacyDDS Fmt.R16G16B16A16_SNORM CONV_FLAGS_NONE (ddspf_fourcc 110);
    mkLegacyDDS Fmt.R16_FLOAT CONV_FLAGS_NONE (ddspf_fourcc 111);
    mkLegacyDDS Fmt.R16G16_FLOAT CONV_FLAGS_NONE (ddspf_fourcc 112);
    mkLegacyDDS Fmt.R16G16B16A16_FLOAT CONV_FLAGS_NONE (ddspf_fourcc 113);
    mkLegacyDDS Fmt.R32_FLOAT CONV_FLAGS_NONE (ddspf_fourcc 114);
    mkLegacyDDS Fmt.R32G32_FLOAT CONV_FLAGS_NONE (ddspf_fourcc 115);
    mkLegacyDDS Fmt.R32G32B32A32_FLOAT CONV_FLAGS_NONE (ddspf_fourcc 116);

    mkLegacyDDS Fmt.R32_FLOAT CONV_FLAGS_NONE
      (ddspf_masks DDS_RGB 32 0xffffffff 0 0 0);

    mkLegacyDDS Fmt.R8G8B8A8_UNORM
      (Z.lor CONV_FLAGS_EXPAND (Z.lor CONV_FLAGS_PAL8 CONV_FLAGS_A8P8))
      (ddspf_masks DDS_PAL8A 16 0 0 0 0);
    mkLegacyDDS Fmt.R8G8B8A8_UNORM
      (Z.lor CONV_FLAGS_EXPAND CONV_FLAGS_PAL8)
      (ddspf_masks DDS_PAL8 8 0 0 0 0);

    mkLegacyDDS Fmt.B4G4R4A4_UNORM CONV_FLAGS_4444 DDSPF_A4R4G4B4;
    mkLegacyDDS Fmt.B4G4R4A4_UNORM
      (Z.lor CONV_FLAGS_NOALPHA CONV_FLAGS_4444) DDSPF_X4R4G4B4;
    mkLegacyDDS Fmt.B4G4R4A4_UNORM
      (Z.lor CONV_FLAGS_EXPAND CONV_FLAGS_44) DDSPF_A4L4;

    mkLegacyDDS Fmt.YUY2 CONV_FLAGS_NONE DDSPF_YUY2;
    mkLegacyDDS Fmt.YUY2 CONV_FLAGS_SWIZZLE DDSPF_UYVY;

    mkLegacyDDS Fmt.R8G8_SNORM CONV_FLAGS_NONE DDSPF_V8U8;
    mkLegacyDDS Fmt.R8G8B8A8_SNORM CONV_FLAGS_NONE DDSPF_Q8W8V8U8;
    mkLegacyDDS Fmt.R16G16_SNORM CONV_FLAGS_NONE DDSPF_V16U16 ].

Definition MakeSRGB (fmt : DXGI_FORMAT) : DXGI_FORMAT :=
  if fmt =? Fmt.R8G8B8A8_UNORM then Fmt.R8G8B8A8_UNORM_SRGB
  else if fmt =? Fmt.BC1_UNORM then Fmt.BC1_UNORM_SRGB
  else if fmt =? Fmt.BC2_UNORM then Fmt.BC2_UNORM_SRGB
  else if fmt =? Fmt.BC3_UNORM then Fmt.BC3_UNORM_SRGB
  else if fmt =? Fmt.B8G8R8A8_UNORM then Fmt.B8G8R8A8_UNORM_SRGB
  else if fmt =? Fmt.B8G8R8X8_UNORM then Fmt.B8G8R8X8_UNORM_SRGB
  else if fmt =? Fmt.BC7_UNORM then Fmt.BC7_UNORM_SRGB
  else fmt.

(** The body of the table scan of GetDXGIFormat: whether the loop
    breaks at [entry]. *)
Definition legacy_entry_matches (ddpfFlags : Z) (ddpf : DDS_PIXELFORMAT)
    (entry : LegacyDDS) : bool :=
  let e := lg_ddpf entry in
  if has_flag ddpfFlags DDS_FOURCC && has_flag (pf_flags e) DDS_FOURCC then
    pf_fourCC ddpf =? pf_fourCC e
  else if ddpfFlags =? pf_flags e then
    if has_flag (pf_flags e) DDS_PAL8 then
      pf_RGBBitCount ddpf =? pf_RGBBitCount e
    else if has_flag (pf_flags e) DDS_ALPHA then
      (pf_RGBBitCount ddpf =? pf_RGBBitCount e)
      && (pf_ABitMask ddpf =? pf_ABitMask e)
    else if has_flag (pf_flags e) DDS_LUMINANCE then
      if has_flag (pf_flags e) DDS_ALPHAPIXELS then
        (pf_RGBBitCount ddpf =? pf_RGBBitCount e)
        && (pf_RBitMask ddpf =? pf_RBitMask e)
        && (pf_ABitMask ddpf =? pf_ABitMask e)
      else
        (pf_RGBBitCount ddpf =? pf_RGBBitCount e)
        && (pf_RBitMask ddpf =? pf_RBitMask e)
    else if has_flag (pf_flags e) DDS_BUMPDUDV then
      (pf_RGBBitCount ddpf =? pf_RGBBitCount e)
      && (pf_RBitMask ddpf =? pf_RBitMask e)
      && (pf_GBitMask ddpf =? pf_GBitMask e)
      && (pf_BBitMask ddpf =? pf_BBitMask e)
      && (pf_ABitMask ddpf =? pf_ABitMask e)
    else if pf_RGBBitCount ddpf =? pf_RGBBitCount e then
      if has_flag (pf_flags e) DDS_ALPHAPIXELS then
        (pf_RBitMask ddpf =? pf_RBitMask e)
        && (pf_GBitMask ddpf =? pf_GBitMask e)
        && (pf_BBitMask ddpf =? pf_BBitMask e)
        && (pf_ABitMask ddpf =? pf_ABitMask e)
      else
        (pf_RBitMask ddpf =? pf_RBitMask e)
        && (pf_GBitMask ddpf =? pf_GBitMask e)
        && (pf_BBitMask ddpf =? pf_BBitMask e)
    else false
  else false.

(** GetDXGIFormat(hdr, ddpf, convFlags): the format and the value of
    [convFlags] afterwards. *)
Definition GetDXGIFormat (hdr : DDS_HEADER) (ddpf : DDS_PIXELFORMAT)
    (convFlags : Z) : DXGI_FORMAT * Z :=
  let nvtt := nth 9 (hdr_reserved1 hdr) 0 =? MAKEFOURCC "N" "V" "T" "T" in
  let ddpfFlags :=
    if nvtt then Z.land (pf_flags ddpf) (u32 (Z.lnot 0xC0000000))
    else pf_flags ddpf in
  match find (legacy_entry_matches ddpfFlags ddpf) g_LegacyDDSMap with
  | None => (Fmt.UNKNOWN, convFlags)
  | Some entry =>
      let cflags := lg_convFlags entry in
      let format := lg_format entry in
      let format :=
        if nvtt && has_flag (pf_flags ddpf) 0x40000000
        then MakeSRGB format else format in
      (format, cflags)
  end.

(* ================================================================== *)
(** * Header decoder                                                   *)
(* ================================================================== *)

Definition set_miscFlags (md : TexMetadata) (v : Z) : TexMetadata :=
  mkTexMetadata (width md) (height md) (depth md) (arraySize md)
    (mipLevels md) v (miscFlags2 md) (format md) (dimension md).

(** The final range checks of DecodeDDSHeader. *)
Definition within_d3d_limits (md : TexMetadata) : bool :=
  negb ((16384 <? width md) || (16384 <? height md) || (15 <? mipLevels md))
  && negb ((2048 <? arraySize md) || (2048 <? depth md)).

(** DecodeDDSHeader(pSource, size, metadata, convFlags): [Some] of the
    metadata and conversion flags written when it returns true.
    [pSource] is the buffer (never null here), of which the first
    [size] bytes are meaningful. *)
Definition DecodeDDSHeader (plat : Platform) (pSource : list byte)
    (size : Z) (convFlags : Z) : option (TexMetadata * Z) :=
  if size <? sizeof_DDS_HEADER + sizeof_uint32_t then None
  else if negb (load32 pSource 0 =? DDS_MAGIC) then None
  else
    let pHeader := read_DDS_HEADER pSource sizeof_uint32_t in
    if negb (hdr_size pHeader =? sizeof_DDS_HEADER)
       || negb (pf_size (hdr_ddspf pHeader) =? sizeof_DDS_PIXELFORMAT)
    then None
    else
      let mips := if hdr_mipMapCount pHeader =? 0 then 1
                  else hdr_mipMapCount pHeader in
      let decoded : option (TexMetadata * Z) :=
        if has_flag (pf_flags (hdr_ddspf pHeader)) DDS_FOURCC
           && (MAKEFOURCC "D" "X" "1" "0" =? pf_fourCC (hdr_ddspf pHeader))
        then
          if size <? sizeof_DDS_HEADER + sizeof_uint32_t
                     + sizeof_DDS_HEADER_DXT10
          then None
          else
            let d3d10ext :=
              read_DDS_HEADER_DXT10 pSource
                (sizeof_uint32_t + sizeof_DDS_HEADER) in
            let convFlags := Z.lor convFlags CONV_FLAGS_DX10 in
            let array := dx_arraySize d3d10ext in
            if array =? 0 then None
            else
              let fmt := dx_dxgiFormat d3d10ext in
              if negb (IsValid fmt) || IsPalettized fmt then None
              else
                let misc :=
                  Z.land (dx_miscFlag d3d10ext)
                    (u32 (Z.lnot TEX_MISC_TEXTURECUBE)) in
                let misc2 := dx_miscFlags2 d3d10ext in
                let dim := dx_resourceDimension d3d10ext in
                if dim =? DDS_DIMENSION_TEXTURE1D then
                  if has_flag (hdr_flags pHeader) DDS_HEIGHT
                     && negb (hdr_height pHeader =? 1)
                  then None
                  else
                    Some (mkTexMetadata (hdr_width pHeader) 1 1 array mips
                            misc misc2 fmt TEX_DIMENSION_TEXTURE1D,
                          convFlags)
                else if dim =? DDS_DIMENSION_TEXTURE2D then
                  let cube :=
                    has_flag (dx_miscFlag d3d10ext)
                      DDS_RESOURCE_MISC_TEXTURECUBE in
                  let misc :=
                    if cube then Z.lor misc TEX_MISC_TEXTURECUBE else misc in
                  let array :=
                    if cube then size_t plat (array * 6) else array in
                  Some (mkTexMetadata (hdr_width pHeader) (hdr_height pHeader)
                          1 array mips misc misc2 fmt TEX_DIMENSION_TEXTURE2D,
                        convFlags)
                else if dim =? DDS_DIMENSION_TEXTURE3D then
                  if negb (has_flag (hdr_flags pHeader) DDS_HEADER_FLAGS_VOLUME)
                  then None
                  else if 1 <? array then None
                  else
                    Some (mkTexMetadata (hdr_width pHeader)
                            (hdr_height pHeader) (hdr_depth pHeader)
                            array mips misc misc2 fmt TEX_DIMENSION_TEXTURE3D,
                          convFlags)
                else None
        else
          let shaped : option TexMetadata :=
            if has_flag (hdr_flags pHeader) DDS_HEADER_FLAGS_VOLUME then
              Some (mkTexMetadata (hdr_width pHeader) (hdr_height pHeader)
                      (hdr_depth pHeader) 1 mips 0 0 0
                      TEX_DIMENSION_TEXTURE3D)
            else if has_flag (hdr_caps2 pHeader) DDS_CUBEMAP then
              if negb (Z.land (hdr_caps2 pHeader) DDS_CUBEMAP_ALLFACES
                       =? DDS_CUBEMAP_ALLFACES)
              then None
              else
                Some (mkTexMetadata (hdr_width pHeader) (hdr_height pHeader)
                        1 6 mips (Z.lor 0 TEX_MISC_TEXTURECUBE) 0 0
                        TEX_DIMENSION_TEXTURE2D)
            else
              Some (mkTexMetadata (hdr_width pHeader) (hdr_height pHeader)
                      1 1 mips 0 0 0 TEX_DIMENSION_TEXTURE2D) in
          match shaped with
          | None => None
          | Some md =>
              let '(fmt, convFlags) :=
                GetDXGIFormat pHeader (hdr_ddspf pHeader) convFlags in
              if fmt =? Fmt.UNKNOWN then None
              else
                Some (mkTexMetadata (width md) (height md) (depth md)
                        (arraySize md) (mipLevels md) (miscFlags md)
                        (miscFlags2 md) fmt (dimension md),
                      convFlags)
          end in
      match decoded with
      | None => None
      | Some (md, convFlags) =>
          let md :=
            if has_flag convFlags CONV_FLAGS_NOALPHA
            then SetAlphaMode md TEX_ALPHA_MODE_OPAQUE
            else if has_flag convFlags CONV_FLAGS_PMALPHA
            then SetAlphaMode md TEX_ALPHA_MODE_PREMULTIPLIED
            else md in
          if within_d3d_limits md then Some (md, convFlags) else None
      end.

(* ================================================================== *)
(** * Scanline transcoders                                             *)
(* ================================================================== *)

(** enum TEXP_SCANLINE_FLAGS *)
Definition TEXP_SCANLINE_NONE : Z := 0.
Definition TEXP_SCANLINE_SETALPHA : Z := 0x1.
Definition TEXP_SCANLINE_LEGACY : Z := 0x2.

(** ** ExpandScanline *)

(** The per-pixel expressions of the three cases: a 16-bit source
    pixel [t] to the 32-bit R8G8B8A8 pixel stored. *)
Definition expand_B5G6R5 (t : Z) : Z :=
  let t1 := u32 (Z.lor (Z.shiftr (Z.land t 0xf800) 8)
                       (Z.shiftr (Z.land t 0xe000) 13)) in
  let t2 := u32 (Z.lor (Z.shiftl (Z.land t 0x07e0) 5)
                       (Z.shiftr (Z.land t 0x0600) 5)) in
  let t3 := u32 (Z.lor (Z.shiftl (Z.land t 0x001f) 19)
                       (Z.shiftl (Z.land t 0x001c) 14)) in
  Z.lor (Z.lor (Z.lor t1 t2) t3) 0xff000000.

Definition expand_B5G5R5A1 (tflags : Z) (t : Z) : Z :=
  let t1 := u32 (Z.lor (Z.shiftr (Z.land t 0x7c00) 7)
                       (Z.shiftr (Z.land t 0x7000) 12)) in
  let t2 := u32 (Z.lor (Z.shiftl (Z.land t 0x03e0) 6)
                       (Z.shiftl (Z.land t 0x0380) 1)) in
  let t3 := u32 (Z.lor (Z.shiftl (Z.land t 0x001f) 19)
                       (Z.shiftl (Z.land t 0x001c) 14)) in
  let ta := if has_flag tflags TEXP_SCANLINE_SETALPHA then 0xff000000
            else if has_flag t 0x8000 then 0xff000000 else 0 in
  Z.lor (Z.lor (Z.lor t1 t2) t3) ta.

Definition expand_B4G4R4A4 (tflags : Z) (t : Z) : Z :=
  let t1 := u32 (Z.lor (Z.shiftr (Z.land t 0x0f00) 4)
                       (Z.shiftr (Z.land t 0x0f00) 8)) in
  let t2 := u32 (Z.lor (Z.shiftl (Z.land t 0x00f0) 8)
                       (Z.shiftl (Z.land t 0x00f0) 4)) in
  let t3 := u32 (Z.lor (Z.shiftl (Z.land t 0x000f) 20)
                       (Z.shiftl (Z.land t 0x000f) 16)) in
  let ta := if has_flag tflags TEXP_SCANLINE_SETALPHA then 0xff000000
            else u32 (Z.lor (Z.shiftl (Z.land t 0xf000) 16)
                            (Z.shiftl (Z.land t 0xf000) 12)) in
  Z.lor (Z.lor (Z.lor t1 t2) t3) ta.

(** The loop the three cases share,
    [for (ocount = 0, icount = 0;
          (icount < inSize - 1) && (ocount < outSize - 3);
          icount += 2, ocount += 4)],
    reading the 16-bit pixel at [icount] and storing [f] of it at
    [ocount]. *)
Equations? ExpandScanline_loop (f : Z -> Z) (inSize outSize : Z)
    (icount ocount : Z) (src dst : list byte) : list byte
  by wf (Z.to_nat (outSize - 3 - ocount)) lt :=
  ExpandScanline_loop f inSize outSize icount ocount src dst
    with inspect ((icount <? inSize - 1) && (ocount <? outSize - 3)) := {
    | exist _ true _ =>
        ExpandScanline_loop f inSize outSize (icount + 2) (ocount + 4) src
          (store32 dst ocount (f (load16 src icount)));
    | exist _ false _ => dst }.
Proof.
  apply andb_prop in e. destruct e as [_ e].
  apply Z.ltb_lt in e. lia.
Qed.

(** ExpandScanline: the return value and the destination afterwards. *)
Definition ExpandScanline (pDestination : list byte) (outSize : Z)
    (outFormat : DXGI_FORMAT) (pSource : list byte) (inSize : Z)
    (inFormat : DXGI_FORMAT) (tflags : Z) : bool * list byte :=
  let run (f : Z -> Z) : bool * list byte :=
    if negb (outFormat =? Fmt.R8G8B8A8_UNORM) then (false, pDestination)
    else if (2 <=? inSize) && (4 <=? outSize) then
      (true, ExpandScanline_loop f inSize outSize 0 0 pSource pDestination)
    else (false, pDestination) in
  if inFormat =? Fmt.B5G6R5_UNORM then run expand_B5G6R5
  else if inFormat =? Fmt.B5G5R5A1_UNORM then run (expand_B5G5R5A1 tflags)
  else if inFormat =? Fmt.B4G4R4A4_UNORM then run (expand_B4G4R4A4 tflags)
  else (false, pDestination).

(** ** SwizzleScanline *)

(** The per-pixel expressions of the three swizzling cases. *)
Definition swizzle_10_10_10_2 (tflags : Z) (t : Z) : Z :=
  let t1 := Z.shiftr (Z.land t 0x3ff00000) 20 in
  let t2 := u32 (Z.shiftl (Z.land t 0x000003ff) 20) in
  let t3 := Z.land t 0x000ffc00 in
  let ta := if has_flag tflags TEXP_SCANLINE_SETALPHA then 0xC0000000
            else Z.land t 0xC0000000 in
  Z.lor (Z.lor (Z.lor t1 t2) t3) ta.

Definition swizzle_8_8_8_8 (tflags : Z) (t : Z) : Z :=
  let t1 := Z.shiftr (Z.land t 0x00ff0000) 16 in
  let t2 := u32 (Z.shiftl (Z.land t 0x000000ff) 16) in
  let t3 := Z.land t 0x0000ff00 in
  let ta := if has_flag tflags TEXP_SCANLINE_SETALPHA then 0xff000000
            else Z.land t 0xFF000000 in
  Z.lor (Z.lor (Z.lor t1 t2) t3) ta.

Definition swizzle_yuy2 (t : Z) : Z :=
  let t1 := u32 (Z.shiftl (Z.land t 0x000000ff) 8) in
  let t2 := Z.shiftr (Z.land t 0x0000ff00) 8 in
  let t3 := u32 (Z.shiftl (Z.land t 0x00ff0000) 8) in
  let t4 := Z.shiftr (Z.land t 0xff000000) 8 in
  Z.lor (Z.lor (Z.lor t1 t2) t3) t4.

(** Where the source of a scanline operation is.  The functions compare
    [pDestination == pSource]: either the two are the same buffer, or
    (the pointers being __restrict qualified otherwise) two buffers
    that do not overlap. *)
Inductive ScanlineSource : Set :=
| InPlace
| From (pSource : list byte).

(** [for (count = 0; count < limit; count += 4)] over 32-bit pixels:
    the in-place loops read the pixel from the destination itself, the
    copying loops from the source. *)
Equations? SwizzleScanline_loop (f : Z -> Z) (limit count : Z)
    (src : ScanlineSource) (dst : list byte) : list byte
  by wf (Z.to_nat (limit - count)) lt :=
  SwizzleScanline_loop f limit count src dst
    with inspect (count <? limit) := {
    | exist _ true _ =>
        let t := match src with
                 | InPlace => load32 dst count
                 | From s => load32 s count
                 end in
        SwizzleScanline_loop f limit (count + 4) src (store32 dst count (f t));
    | exist _ false _ => dst }.
Proof.
  apply Z.ltb_lt in e. lia.
Qed.

(** memcpy(dst, src, size) *)
Definition memcpy (dst src : list byte) (size : Z) : list byte :=
  firstn (Z.to_nat size) src ++ skipn (Z.to_nat size) dst.

(** SwizzleScanline returns nothing;  the result is the destination
    buffer afterwards. *)
Definition SwizzleScanline (pDestination : list byte) (outSize : Z)
    (pSource : ScanlineSource) (inSize : Z) (format : DXGI_FORMAT)
    (tflags : Z) : list byte :=
  let swizzle (f : Z -> Z) : list byte :=
    match pSource with
    | InPlace => SwizzleScanline_loop f (outSize - 3) 0 InPlace pDestination
    | From _ =>
        let size := Z.min outSize inSize in
        SwizzleScanline_loop f (size - 3) 0 pSource pDestination
    end in
  let fallthrough : list byte :=
    match pSource with
    | InPlace => pDestination
    | From s => memcpy pDestination s (Z.min outSize inSize)
    end in
  if in_cases format
       [Fmt.R10G10B10A2_TYPELESS; Fmt.R10G10B10A2_UNORM;
        Fmt.R10G10B10A2_UINT; Fmt.R10G10B10_XR_BIAS_A2_UNORM;
        Fmt.XBOX_R10G10B10_SNORM_A2_UNORM] then
    if (4 <=? inSize) && (4 <=? outSize)
       && has_flag tflags TEXP_SCANLINE_LEGACY
    then swizzle (swizzle_10_10_10_2 tflags)
    else fallthrough
  else if in_cases format
       [Fmt.R8G8B8A8_TYPELESS; Fmt.R8G8B8A8_UNORM; Fmt.R8G8B8A8_UNORM_SRGB;
        Fmt.B8G8R8A8_UNORM; Fmt.B8G8R8X8_UNORM; Fmt.B8G8R8A8_TYPELESS;
        Fmt.B8G8R8A8_UNORM_SRGB; Fmt.B8G8R8X8_TYPELESS;
        Fmt.B8G8R8X8_UNORM_SRGB] then
    if (4 <=? inSize) && (4 <=? outSize)
    then swizzle (swizzle_8_8_8_8 tflags)
    else fallthrough
  else if in_cases format [Fmt.YUY2] then
    if (4 <=? inSize) && (4 <=? outSize)
       && has_flag tflags TEXP_SCANLINE_LEGACY
    then swizzle swizzle_yuy2
    else fallthrough
  else fallthrough.

(* ================================================================== *)
(** * File loader                                                      *)
(* ================================================================== *)

(** An open stdio stream on a file: its bytes and the read position. *)
Record FILE : Set := mkFILE {
  f_data : list byte;
  f_pos : Z
}.

(** fread(ptr, 1, n, file): the bytes obtained (their number is the
    return value) and the stream afterwards. *)
Definition fread (file : FILE) (n : Z) : list byte * FILE :=
  let got := firstn (Z.to_nat n) (skipn (Z.to_nat (f_pos file)) (f_data file)) in
  (got, mkFILE (f_data file) (f_pos file + Z.of_nat (length got))).

(** fseek(file, offset, SEEK_SET) *)
Definition fseek_set (file : FILE) (offset : Z) : FILE :=
  mkFILE (f_data file) offset.

Section Loader.

Variable plat : Platform.
Variable heap : Heap.

(** os_fopen(path, "rb"): the contents of the file, if it opens. *)
Variable os_fopen : String.string -> option (list byte).

(** The two pixel passes that run once the image is allocated.  They
    are taken as given: CopyImage(pPixels, size, metadata, cpFlags,
    convFlags, pal8, image) and CopyImageInPlace(convFlags, image)
    return a bool and modify the pixels of [image]. *)
Variable CopyImage :
  list byte -> Z -> TexMetadata -> Z -> Z -> option (list byte) ->
  ScratchImage -> bool * ScratchImage.
Variable CopyImageInPlace : Z -> ScratchImage -> bool * ScratchImage.

(** What LoadFromDDSFile leaves behind: its return value, the
    metadata it has stored through [metadata] (if anything) and the
    state of [image]. *)
Definition Loaded : Set := (bool * option TexMetadata * ScratchImage)%type.

(** LoadFromDDSFile(path, metadata, image);  [path] is [None] for a
    null pointer and [metadata] tells whether the out-pointer is
    non-null. *)
Definition LoadFromDDSFile (path : option String.string) (metadata : bool)
    (image : ScratchImage) : Loaded :=
  match path with
  | None => (false, None, image)
  | Some path =>
  let image := Release image in
  match os_fopen path with
  | None => (false, None, image)
  | Some data =>
  let file := mkFILE data 0 in
  let len := Z.of_nat (length data) in
  if len <? sizeof_DDS_HEADER + sizeof_uint32_t then (false, None, image)
  else
  let headerLen := Z.min len MAX_HEADER_SIZE in
  let '(got, file) := fread file headerLen in
  let header :=
    got ++ repeat x00 (Z.to_nat MAX_HEADER_SIZE - length got) in
  if negb (Z.of_nat (length got) =? headerLen) then (false, None, image)
  else
  match DecodeDDSHeader plat header headerLen 0 with
  | None => (false, None, image)
  | Some (mdata, convFlags) =>
  let '(offset, file) :=
    if negb (has_flag convFlags CONV_FLAGS_DX10)
    then (sizeof_uint32_t + sizeof_DDS_HEADER,
          fseek_set file (sizeof_uint32_t + sizeof_DDS_HEADER))
    else (MAX_HEADER_SIZE, file) in
  let palette : option (option (list byte) * Z * FILE) :=
    if has_flag convFlags CONV_FLAGS_PAL8 then
      if negb (new_array heap (256 * sizeof_uint32_t)) then None
      else
        let '(pal, file) := fread file (256 * sizeof_uint32_t) in
        if negb (Z.of_nat (length pal) =? 256 * sizeof_uint32_t) then None
        else Some (Some pal, offset + 256 * sizeof_uint32_t, file)
    else Some (None, offset, file) in
  match palette with
  | None => (false, None, image)
  | Some (pal8, offset, file) =>
  let remaining := size_t plat (len - offset) in
  if remaining =? 0 then (false, None, image)
  else
  let '(hr, image) := Initialize plat heap image mdata CP_FLAGS_NONE in
  if FAILED hr then (bool_of_integer hr, None, image)
  else
  let finish (image : ScratchImage) : Loaded :=
    (true, if metadata then Some mdata else None, image) in
  if has_flag convFlags CONV_FLAGS_EXPAND then
    if negb (new_array heap remaining) then (false, None, Release image)
    else
      let '(temp, file) := fread file remaining in
      if negb (Z.of_nat (length temp) =? remaining)
      then (false, None, Release image)
      else
        let cflags := CP_FLAGS_NONE in
        match CopyImage temp remaining mdata cflags convFlags pal8 image with
        | (false, image) => (false, None, Release image)
        | (true, image) => finish image
        end
  else
    if remaining <? m_size image then (false, None, Release image)
    else if UINT32_MAX <? m_size image then (false, None, Release image)
    else
      let '(pixels, file) := fread file (m_size image) in
      let image :=
        mkScratchImage (m_nimages image) (m_size image) (m_metadata image)
          (m_image image)
          (option_map (fun mem => memcpy mem pixels (Z.of_nat (length pixels)))
             (m_memory image)) in
      if negb (Z.of_nat (length pixels) =? m_size image)
      then (false, None, Release image)
      else if has_flag convFlags
                (Z.lor CONV_FLAGS_SWIZZLE CONV_FLAGS_NOALPHA) then
        match CopyImageInPlace convFlags image with
        | (false, image) => (false, None, Release image)
        | (true, image) => finish image
        end
      else finish image
  end
  end
  end
  end.

End Loader.

(* ================================================================== *)
(** * Vocabulary of the properties                                     *)
(* ================================================================== *)

(** ** Mip geometry *)

(** One halving of a dimension, rounding down, never below 1. *)
Definition halve (x : Z) : Z := Z.max 1 (x / 2).

(** The extent of a dimension after [k] successive halvings. *)
Definition mip_extent (x : Z) (k : nat) : Z := Nat.iter k halve x.

(** The number of depth slices stored before mip level [n] of a volume
    of depth [d]: the sum over the levels below [n] of the depth there. *)
Fixpoint slices_before (d : Z) (n : nat) : Z :=
  match n with
  | O => 0
  | S n' => d + slices_before (halve d) n'
  end.

(** The same count along the loop of the planner, which shrinks the
    depth with [shrink]. *)
Fixpoint volume_images (d : Z) (n : nat) : Z :=
  match n with
  | O => 0
  | S n' => d + volume_images (shrink d) n'
  end.

(** ** Pitch *)

(** Bytes per 4x4 block: 8 for the BC1 and BC4 families, 16 for the
    other block-compressed formats (BC2, BC3, BC5, BC6H, BC7). *)
Definition block_bytes (fmt : DXGI_FORMAT) : Z :=
  if in_cases fmt
       [Fmt.BC1_TYPELESS; Fmt.BC1_UNORM; Fmt.BC1_UNORM_SRGB;
        Fmt.BC4_TYPELESS; Fmt.BC4_UNORM; Fmt.BC4_SNORM]
  then 8 else 16.

(** ceil(x / 4) *)
Definition ceil_quarter (x : Z) : Z := (x + 3) / 4.

(** The row pitch of a linear 128-bit format computed without any
    machine limit: ceil(width * 128 / 8) bytes, and the slice pitch
    height times that. *)
Definition exact_rowPitch_128bpp (w : Z) : Z := (w * 128 + 7) / 8.
Definition exact_slicePitch_128bpp (w h : Z) : Z := exact_rowPitch_128bpp w * h.

(** [bnd x B]: the machine value [x] is non-negative and at most [B]. *)
Definition bnd (x B : Z) : Prop := 0 <= x <= B.

(** D3D12_REQ_TEXTURE2D_U_OR_V_DIMENSION, the largest width or height
    DecodeDDSHeader lets through. *)
Definition MAX_TEXTURE_DIMENSION : Z := 16384.

(** An upper bound of every slice pitch of a surface within the limits. *)
Definition MAX_SLICE : Z := 2 ^ 40.

(** ** Layout *)

(** The part of the invariant of ImageMetadata that the layout depends
    on: a known dimension kind, and every extent at least 1 and within
    the limits DecodeDDSHeader enforces. *)
Definition valid_metadata (md : TexMetadata) : Prop :=
  (dimension md = TEX_DIMENSION_TEXTURE1D
   \/ dimension md = TEX_DIMENSION_TEXTURE2D
   \/ dimension md = TEX_DIMENSION_TEXTURE3D)
  /\ 1 <= width md <= 16384 /\ 1 <= height md <= 16384
  /\ 1 <= depth md <= 2048
  /\ 1 <= arraySize md <= 2048 /\ 1 <= mipLevels md <= 15.

(** The first [n] descriptors of [imgs] tile the byte range from
    [start] to [stop]: each one begins where the previous one ends. *)
Fixpoint tiled (imgs : list Image) (n : nat) (start stop : Z) {struct n}
    : Prop :=
  match n with
  | O => start = stop
  | S n' =>
      match imgs with
      | [] => False
      | img :: rest =>
          img_pixels img = Some start
          /\ tiled rest n' (start + img_slicePitch img) stop
      end
  end.

(** An upper bound of the number of subresources of a texture within
    the limits: 2048 items of 15 levels, or 15 levels of a volume of
    depth 2048. *)
Definition MAX_IMAGES : Z := 2 ^ 15.

(** The totals of the planner have not wrapped. *)
Definition plan_ok (acc : Plan) : Prop :=
  0 <= snd acc /\ 0 <= fst acc <= snd acc * MAX_SLICE.

(** The state of the materializer matches the totals of the planner,
    and the descriptors written so far tile the buffer up to the
    cursor. *)
Definition agrees (acc : Plan) (st : Setup) : Prop :=
  st_pixels st = fst acc /\ st_index st = snd acc
  /\ tiled (st_images st) (Z.to_nat (snd acc)) 0 (fst acc).

(** ** Header decoding *)

(** What the header decoder has established before its final range
    checks. *)
Definition decoded_shape (plat : Platform) (md : TexMetadata) : Prop :=
  1 <= mipLevels md
  /\ (plat = Win64 -> 1 <= arraySize md)
  /\ 0 <= arraySize md
  /\ 0 <= width md /\ 0 <= height md /\ 0 <= depth md
  /\ (dimension md = TEX_DIMENSION_TEXTURE1D
      \/ dimension md = TEX_DIMENSION_TEXTURE2D
      \/ dimension md = TEX_DIMENSION_TEXTURE3D)
  /\ (dimension md = TEX_DIMENSION_TEXTURE1D -> height md = 1)
  /\ (dimension md <> TEX_DIMENSION_TEXTURE3D -> depth md = 1)
  /\ (dimension md = TEX_DIMENSION_TEXTURE3D -> arraySize md = 1).

(** ** Pixels *)

(** The channels of an R8G8B8A8 pixel held in a 32-bit word. *)
Definition red8 (p : Z) : Z := Z.land p 0xff.
Definition green8 (p : Z) : Z := Z.land (Z.shiftr p 8) 0xff.
Definition blue8 (p : Z) : Z := Z.land (Z.shiftr p 16) 0xff.
Definition alpha8 (p : Z) : Z := Z.land (Z.shiftr p 24) 0xff.

(** The channels of a 10:10:10:2 pixel held in a 32-bit word. *)
Definition red10 (p : Z) : Z := Z.land p 0x3ff.
Definition green10 (p : Z) : Z := Z.land (Z.shiftr p 10) 0x3ff.
Definition blue10 (p : Z) : Z := Z.land (Z.shiftr p 20) 0x3ff.
Definition alpha2 (p : Z) : Z := Z.land (Z.shiftr p 30) 0x3.

(** Byte [k] (0 to 3) of a 32-bit word. *)
Definition word_byte (p k : Z) : Z := Z.land (Z.shiftr p (8 * k)) 0xff.

(** [t'] is [t] with the red and blue channels exchanged;  green is
    kept, and so is alpha unless it is forced to all ones. *)
Definition swapped_rb8 (setalpha : bool) (t t' : Z) : Prop :=
  red8 t' = blue8 t /\ green8 t' = green8 t /\ blue8 t' = red8 t
  /\ alpha8 t' = (if setalpha then 0xff else alpha8 t).

Definition swapped_rb10 (setalpha : bool) (t t' : Z) : Prop :=
  red10 t' = blue10 t /\ green10 t' = green10 t /\ blue10 t' = red10 t
  /\ alpha2 t' = (if setalpha then 0x3 else alpha2 t).

(** [t'] is [t] with the two bytes of each half exchanged (UYVY to
    YUY2). *)
Definition swapped_bytes (t t' : Z) : Prop :=
  word_byte t' 0 = word_byte t 1 /\ word_byte t' 1 = word_byte t 0
  /\ word_byte t' 2 = word_byte t 3 /\ word_byte t' 3 = word_byte t 2.

(** The case labels of the two channel-swapping cases of
    SwizzleScanline. *)
Definition rgb10a2_family : list DXGI_FORMAT :=
  [Fmt.R10G10B10A2_TYPELESS; Fmt.R10G10B10A2_UNORM; Fmt.R10G10B10A2_UINT;
   Fmt.R10G10B10_XR_BIAS_A2_UNORM; Fmt.XBOX_R10G10B10_SNORM_A2_UNORM].

Definition rgba8_family : list DXGI_FORMAT :=
  [Fmt.R8G8B8A8_TYPELESS; Fmt.R8G8B8A8_UNORM; Fmt.R8G8B8A8_UNORM_SRGB;
   Fmt.B8G8R8A8_UNORM; Fmt.B8G8R8X8_UNORM; Fmt.B8G8R8A8_TYPELESS;
   Fmt.B8G8R8A8_UNORM_SRGB; Fmt.B8G8R8X8_TYPELESS; Fmt.B8G8R8X8_UNORM_SRGB].

(** The buffer the pixels of a swizzling loop are read from. *)
Definition source_of (src : ScanlineSource) (dst : list byte) : list byte :=
  match src with
  | InPlace => dst
  | From s => s
  end.

(** The number of bytes a swizzle looks at: the destination size in
    place, the smaller of the two sizes when copying. *)
Definition swizzle_size (src : ScanlineSource) (outSize inSize : Z) : Z :=
  match src with
  | InPlace => outSize
  | From _ => Z.min outSize inSize
  end.

(** The result of SwizzleScanline where no swizzle applies: nothing in
    place, and when copying the first min(outSize, inSize) bytes of the
    source followed by the rest of the destination. *)
Definition passed_through (src : ScanlineSource) (dst : list byte)
    (outSize inSize : Z) : list byte :=
  match src with
  | InPlace => dst
  | From s =>
      firstn (Z.to_nat (Z.min outSize inSize)) s
      ++ skipn (Z.to_nat (Z.min outSize inSize)) dst
  end.

(** The destination after a swizzle with per-pixel relation [swapped]:
    every whole pixel is the image of the source pixel, and the bytes
    after the last whole pixel are those of the destination before. *)
Definition swizzled (swapped : Z -> Z -> Prop) (src : ScanlineSource)
    (dst r : list byte) (size : Z) : Prop :=
  length r = length dst
  /\ (forall i, 0 <= i -> 4 * i + 4 <= size ->
        swapped (load32 (source_of src dst) (4 * i)) (load32 r (4 * i)))
  /\ (forall j, 4 * (size / 4) <= j -> load8 r j = load8 dst j).

(** ** Sample data *)

(** A cube map array entry: 6 faces of 9 levels. *)
Definition cube_array_metadata : TexMetadata :=
  mkTexMetadata 256 256 1 6 9 TEX_MISC_TEXTURECUBE 0 Fmt.R8G8B8A8_UNORM
    TEX_DIMENSION_TEXTURE2D.

(** A 64x64x16 volume with its full chain of 7 levels. *)
Definition volume_metadata : TexMetadata :=
  mkTexMetadata 64 64 16 1 7 0 0 Fmt.R8G8B8A8_UNORM TEX_DIMENSION_TEXTURE3D.

(** An array of two 4x4 textures of 3 levels. *)
Definition small_array_metadata : TexMetadata :=
  mkTexMetadata 4 4 1 2 3 0 0 Fmt.R8G8B8A8_UNORM TEX_DIMENSION_TEXTURE2D.

(** Little-endian bytes of a 32-bit word, and of a sequence of words:
    the means to write sample files down. *)
Definition le32 (v : Z) : list byte :=
  [byte_of v; byte_of (Z.shiftr v 8); byte_of (Z.shiftr v 16);
   byte_of (Z.shiftr v 24)].

Definition le32_words (ws : list Z) : list byte := flat_map le32 ws.

(** A legacy A8R8G8B8 header (magic, DDS_HEADER) declaring a texture
    of the given width, height and number of mip levels. *)
Definition argb_header (w h mips : Z) : list byte :=
  le32_words
    ([DDS_MAGIC; 124; 0x1007; h; w; 0; 0; mips]
     ++ repeat 0 11
     ++ [32; DDS_RGBA; 0; 32; 0x00ff0000; 0x0000ff00; 0x000000ff; 0xff000000]
     ++ [0x1000; 0; 0; 0; 0]).

(** A header with the DX10 extension declaring an array of [cubes]
    16x16 R8G8B8A8 cube maps. *)
Definition dx10_cube_header (cubes : Z) : list byte :=
  le32_words
    ([DDS_MAGIC; 124; 0x1007; 16; 16; 0; 0; 1]
     ++ repeat 0 11
     ++ [32; DDS_FOURCC; MAKEFOURCC "D" "X" "1" "0"; 0; 0; 0; 0; 0]
     ++ [0x1000; 0; 0; 0; 0]
     ++ [Fmt.R8G8B8A8_UNORM; DDS_DIMENSION_TEXTURE2D;
         DDS_RESOURCE_MISC_TEXTURECUBE; cubes; 0]).

(** A 4x4 A8R8G8B8 texture that declares 5 mip levels, two more than a
    4x4 surface has, followed by pixel data for the three that exist. *)
Definition too_many_mips_file : list byte :=
  argb_header 4 4 5 ++ repeat xff 84.

Section SamplePaths.

Import String.
Local Open Scope string_scope.

Definition mips_dds : String.string := "mips.dds".
Definition zero_dds : String.string := "zero.dds".
Definition ok_dds : String.string := "ok.dds".

End SamplePaths.

(** A file system holding one file. *)
Definition single_file (name : String.string) (data : list byte)
    (path : String.string) : option (list byte) :=
  if String.eqb path name then Some data else None.

(** A heap on which every allocation succeeds. *)
Definition unbounded_heap : Heap :=
  mkHeap (fun _ => true) (fun _ => true) (fun _ => true).

(* ================================================================== *)
(** * More of the program                                            *)
(* ================================================================== *)


(** ComputeScanlines(fmt, height): the number of rows of [rowPitch]
    bytes that make up one image;  [size_t] arithmetic. *)
Definition ComputeScanlines (plat : Platform) (fmt : DXGI_FORMAT)
    (height : Z) : Z :=
  if in_cases fmt
       [Fmt.BC1_TYPELESS; Fmt.BC1_UNORM; Fmt.BC1_UNORM_SRGB;
        Fmt.BC2_TYPELESS; Fmt.BC2_UNORM; Fmt.BC2_UNORM_SRGB;
        Fmt.BC3_TYPELESS; Fmt.BC3_UNORM; Fmt.BC3_UNORM_SRGB;
        Fmt.BC4_TYPELESS; Fmt.BC4_UNORM; Fmt.BC4_SNORM;
        Fmt.BC5_TYPELESS; Fmt.BC5_UNORM; Fmt.BC5_SNORM;
        Fmt.BC6H_TYPELESS; Fmt.BC6H_UF16; Fmt.BC6H_SF16;
        Fmt.BC7_TYPELESS; Fmt.BC7_UNORM; Fmt.BC7_UNORM_SRGB]
  then Z.max 1 (size_t plat (height + 3) / 4)
  else if in_cases fmt [Fmt.NV11; Fmt.WIN10_P208]
  then size_t plat (height * 2)
  else if in_cases fmt [Fmt.WIN10_V208]
  then size_t plat
         (height + size_t plat (Z.shiftr (size_t plat (height + 1)) 1 * 2))
  else if in_cases fmt [Fmt.WIN10_V408]
  then size_t plat (height + size_t plat (Z.shiftr height 1 * 4))
  else if in_cases fmt
       [Fmt.NV12; Fmt.P010; Fmt.P016; Fmt.OPAQUE_420;
        Fmt.XBOX_D16_UNORM_S8_UINT; Fmt.XBOX_R16_UNORM_X8_TYPELESS;
        Fmt.XBOX_X16_TYPELESS_G8_UINT]
  then size_t plat (height + Z.shiftr (size_t plat (height + 1)) 1)
  else height.


(** The row alignment a pitch policy asks for: the strictest of the
    alignment flags present, 1 (byte alignment) without any. *)
Definition requested_alignment (flags : Z) : Z :=
  if has_flag flags CP_FLAGS_PAGE4K then 4096
  else if has_flag flags CP_FLAGS_ZMM then 64
  else if has_flag flags CP_FLAGS_YMM then 32
  else if has_flag flags CP_FLAGS_PARAGRAPH then 16
  else if has_flag flags CP_FLAGS_LEGACY_DWORD then 4
  else 1.


Definition IsPMAlpha (md : TexMetadata) : bool :=
  Z.land (miscFlags2 md) TEX_MISC2_ALPHA_MODE_MASK =? TEX_ALPHA_MODE_PREMULTIPLIED.

Definition IsVolumemap (md : TexMetadata) : bool :=
  dimension md =? TEX_DIMENSION_TEXTURE3D.

Inductive TEXP_LEGACY_FORMAT : Set :=
| TEXP_LEGACY_UNKNOWN
| TEXP_LEGACY_R8G8B8
| TEXP_LEGACY_R3G3B2
| TEXP_LEGACY_A8R3G3B2
| TEXP_LEGACY_P8
| TEXP_LEGACY_A8P8
| TEXP_LEGACY_A4L4
| TEXP_LEGACY_B4G4R4A4
| TEXP_LEGACY_L8
| TEXP_LEGACY_L16
| TEXP_LEGACY_A8L8.

Definition FindLegacyFormat (flags : Z) : TEXP_LEGACY_FORMAT :=
  if has_flag flags CONV_FLAGS_PAL8 then
    if has_flag flags CONV_FLAGS_A8P8 then TEXP_LEGACY_A8P8 else TEXP_LEGACY_P8
  else if has_flag flags CONV_FLAGS_888 then TEXP_LEGACY_R8G8B8
  else if has_flag flags CONV_FLAGS_332 then TEXP_LEGACY_R3G3B2
  else if has_flag flags CONV_FLAGS_8332 then TEXP_LEGACY_A8R3G3B2
  else if has_flag flags CONV_FLAGS_44 then TEXP_LEGACY_A4L4
  else if has_flag flags CONV_FLAGS_4444 then TEXP_LEGACY_B4G4R4A4
  else if has_flag flags CONV_FLAGS_L8 then TEXP_LEGACY_L8
  else if has_flag flags CONV_FLAGS_L16 then TEXP_LEGACY_L16
  else if has_flag flags CONV_FLAGS_A8L8 then TEXP_LEGACY_A8L8
  else TEXP_LEGACY_UNKNOWN.

(** The header fields DecodeDDSHeader looks at, as it reads them. *)
Definition header_of (pSource : list byte) : DDS_HEADER :=
  read_DDS_HEADER pSource sizeof_uint32_t.

Definition has_DX10_extension (pSource : list byte) : bool :=
  has_flag (pf_flags (hdr_ddspf (header_of pSource))) DDS_FOURCC
  && (MAKEFOURCC "D" "X" "1" "0" =? pf_fourCC (hdr_ddspf (header_of pSource))).


(** The longest mip chain of the surface [mdata] describes. *)
Definition full_mip_chain (mdata : TexMetadata) : Z :=
  Z.log2 (Z.max (Z.max (width mdata) (height mdata)) (depth mdata)) + 1.

(** The metadata an image holds after Initialize(mdata): [mdata] with
    its mipLevels replaced by the validated count, the full chain when
    0 was given. *)
Definition completed (mdata : TexMetadata) : TexMetadata :=
  mkTexMetadata (width mdata) (height mdata) (depth mdata) (arraySize mdata)
    (if mipLevels mdata =? 0 then full_mip_chain mdata else mipLevels mdata)
    (miscFlags mdata) (miscFlags2 mdata) (format mdata) (dimension mdata).

(** The fields of a TexMetadata are unsigned, and within the limits
    DecodeDDSHeader enforces on the extents. *)
Definition within_limits (mdata : TexMetadata) : Prop :=
  0 <= width mdata <= 16384 /\ 0 <= height mdata <= 16384
  /\ 0 <= depth mdata <= 2048 /\ 0 <= arraySize mdata <= 2048
  /\ 0 <= mipLevels mdata.

(** A metadata Initialize lets through: a valid, non-palettized format,
    a known dimension kind with the extents it implies, no extent of 0,
    whole cubes, and no more mip levels than the surface has. *)
Definition well_formed (mdata : TexMetadata) : Prop :=
  IsValid (format mdata) = true /\ IsPalettized (format mdata) = false
  /\ ((dimension mdata = TEX_DIMENSION_TEXTURE1D
       /\ height mdata = 1 /\ depth mdata = 1)
      \/ (dimension mdata = TEX_DIMENSION_TEXTURE2D /\ depth mdata = 1
          /\ (IsCubemap mdata = true -> arraySize mdata mod 6 = 0))
      \/ (dimension mdata = TEX_DIMENSION_TEXTURE3D /\ arraySize mdata = 1))
  /\ 1 <= width mdata /\ 1 <= height mdata /\ 1 <= depth mdata
  /\ 1 <= arraySize mdata
  /\ mipLevels mdata <= full_mip_chain mdata.

(** An image that owns neither descriptors nor pixel memory. *)
Definition owns_nothing (image : ScratchImage) : Prop :=
  m_nimages image = 0 /\ m_size image = 0
  /\ m_image image = None /\ m_memory image = None.


(** The bit field of [width] bits at position [pos] of a pixel. *)
Definition field (t pos width : Z) : Z := Z.land (Z.shiftr t pos) (Z.ones width).

(** An 8-bit channel value from a narrower one by bit replication: the
    bits of the channel, followed by its leading bits again. *)
Definition replicate5 (c : Z) : Z := Z.lor (Z.shiftl c 3) (Z.shiftr c 2).
Definition replicate4 (c : Z) : Z := Z.lor (Z.shiftl c 4) c.

(** What ExpandScanline stores for a 16-bit source pixel [t]: the
    R8G8B8A8 pixel [p], channel by channel.  For 5:6:5 the two leading
    bits of green are not replicated into the low bits of the green
    byte but land in bits 4 and 5 of the red byte. *)
Definition expanded (inFormat : DXGI_FORMAT) (setalpha : bool) (t p : Z) : Prop :=
  if inFormat =? Fmt.B5G6R5_UNORM then
    red8 p = Z.lor (replicate5 (field t 11 5)) (Z.shiftl (field t 9 2) 4)
    /\ green8 p = Z.shiftl (field t 5 6) 2
    /\ blue8 p = replicate5 (field t 0 5)
    /\ alpha8 p = 0xff
  else if inFormat =? Fmt.B5G5R5A1_UNORM then
    red8 p = replicate5 (field t 10 5)
    /\ green8 p = replicate5 (field t 5 5)
    /\ blue8 p = replicate5 (field t 0 5)
    /\ alpha8 p = (if setalpha then 0xff
                   else if Z.testbit t 15 then 0xff else 0)
  else
    red8 p = replicate4 (field t 8 4)
    /\ green8 p = replicate4 (field t 4 4)
    /\ blue8 p = replicate4 (field t 0 4)
    /\ alpha8 p = (if setalpha then 0xff else replicate4 (field t 12 4)).

(** ** CopyScanline *)

(** A [uint16_t] store of [v] at [buf + off]. *)
Definition store16 (buf : list byte) (off : Z) (v : Z) : list byte :=
  store8 (store8 buf off v) (off + 1) (Z.shiftr v 8).

(** memset(buf, c, n) *)
Definition memset (buf : list byte) (c n : Z) : list byte :=
  repeat (byte_of c) (Z.to_nat n) ++ skipn (Z.to_nat n) buf.

(** The pixel read by a loop body at offset [count]: from the
    destination itself in place, from the source when copying. *)
Definition source_word (src : ScanlineSource) (dst : list byte) (count : Z) : Z :=
  match src with
  | InPlace => load32 dst count
  | From s => load32 s count
  end.

Definition source_half (src : ScanlineSource) (dst : list byte) (count : Z) : Z :=
  match src with
  | InPlace => load16 dst count
  | From s => load16 s count
  end.

(** The loop bodies of the SETALPHA cases, acting on the pixel at
    offset [count].  Four 32-bit channels: in place [dPtr += 3;
    *(dPtr++) = alpha], copying three channels and then the alpha. *)
Definition setalpha_32x4 (alpha : Z) (src : ScanlineSource) (count : Z)
    (dst : list byte) : list byte :=
  match src with
  | InPlace => store32 dst (count + 12) alpha
  | From s =>
      let dst := store32 dst count (load32 s count) in
      let dst := store32 dst (count + 4) (load32 s (count + 4)) in
      let dst := store32 dst (count + 8) (load32 s (count + 8)) in
      store32 dst (count + 12) alpha
  end.

(** Four 16-bit channels. *)
Definition setalpha_16x4 (alpha : Z) (src : ScanlineSource) (count : Z)
    (dst : list byte) : list byte :=
  match src with
  | InPlace => store16 dst (count + 6) alpha
  | From s =>
      let dst := store16 dst count (load16 s count) in
      let dst := store16 dst (count + 2) (load16 s (count + 2)) in
      let dst := store16 dst (count + 4) (load16 s (count + 4)) in
      store16 dst (count + 6) alpha
  end.

(** One 32-bit pixel, replaced by [f] of it. *)
Definition setalpha_word (f : Z -> Z) (src : ScanlineSource) (count : Z)
    (dst : list byte) : list byte :=
  store32 dst count (f (source_word src dst count)).

(** One 16-bit pixel, replaced by [f] of it. *)
Definition setalpha_half (f : Z -> Z) (src : ScanlineSource) (count : Z)
    (dst : list byte) : list byte :=
  store16 dst count (f (source_half src dst count)).

(** [for (count = 0; count < limit; count += stride)] with [body]
    acting on the pixel at [count]. *)
Equations? CopyScanline_loop (stride : positive)
    (body : Z -> list byte -> list byte) (limit count : Z)
    (dst : list byte) : list byte
  by wf (Z.to_nat (limit - count)) lt :=
  CopyScanline_loop stride body limit count dst
    with inspect (count <? limit) := {
    | exist _ true _ =>
        CopyScanline_loop stride body limit (count + Z.pos stride)
          (body count dst);
    | exist _ false _ => dst }.
Proof.
  apply Z.ltb_lt in e. lia.
Qed.

(** A SETALPHA case: [if (inSize >= pixel && outSize >= pixel)] the
    loop over the whole pixels, over [outSize] bytes in place and over
    the smaller of the two sizes when copying. *)
Definition CopyScanline_setalpha (pDestination : list byte) (outSize : Z)
    (pSource : ScanlineSource) (inSize : Z) (pixel : positive)
    (body : ScanlineSource -> Z -> list byte -> list byte) : list byte :=
  if (Z.pos pixel <=? inSize) && (Z.pos pixel <=? outSize) then
    match pSource with
    | InPlace =>
        CopyScanline_loop pixel (body pSource)
          (outSize - (Z.pos pixel - 1)) 0 pDestination
    | From _ =>
        let size := Z.min outSize inSize in
        CopyScanline_loop pixel (body pSource)
          (size - (Z.pos pixel - 1)) 0 pDestination
    end
  else pDestination.

(** CopyScanline returns nothing;  the result is the destination
    buffer afterwards. *)
Definition CopyScanline (pDestination : list byte) (outSize : Z)
    (pSource : ScanlineSource) (inSize : Z) (format : DXGI_FORMAT)
    (tflags : Z) : list byte :=
  let setalpha := CopyScanline_setalpha pDestination outSize pSource inSize in
  let fallthrough : list byte :=
    match pSource with
    | InPlace => pDestination
    | From s => memcpy pDestination s (Z.min outSize inSize)
    end in
  if has_flag tflags TEXP_SCANLINE_SETALPHA then
    if in_cases format
         [Fmt.R32G32B32A32_TYPELESS; Fmt.R32G32B32A32_FLOAT;
          Fmt.R32G32B32A32_UINT; Fmt.R32G32B32A32_SINT] then
      let alpha :=
        if format =? Fmt.R32G32B32A32_FLOAT then 0x3f800000
        else if format =? Fmt.R32G32B32A32_SINT then 0x7fffffff
        else 0xffffffff in
      setalpha 16%positive (setalpha_32x4 alpha)
    else if in_cases format
         [Fmt.R16G16B16A16_TYPELESS; Fmt.R16G16B16A16_FLOAT;
          Fmt.R16G16B16A16_UNORM; Fmt.R16G16B16A16_UINT;
          Fmt.R16G16B16A16_SNORM; Fmt.R16G16B16A16_SINT; Fmt.Y416] then
      let alpha :=
        if format =? Fmt.R16G16B16A16_FLOAT then 0x3c00
        else if (format =? Fmt.R16G16B16A16_SNORM)
                || (format =? Fmt.R16G16B16A16_SINT) then 0x7fff
        else 0xffff in
      setalpha 8%positive (setalpha_16x4 alpha)
    else if in_cases format
         [Fmt.R10G10B10A2_TYPELESS; Fmt.R10G10B10A2_UNORM;
          Fmt.R10G10B10A2_UINT; Fmt.R10G10B10_XR_BIAS_A2_UNORM; Fmt.Y410;
          Fmt.XBOX_R10G10B10_7E3_A2_FLOAT; Fmt.XBOX_R10G10B10_6E4_A2_FLOAT;
          Fmt.XBOX_R10G10B10_SNORM_A2_UNORM] then
      setalpha 4%positive (setalpha_word (fun t => Z.lor t 0xC0000000))
    else if in_cases format
         [Fmt.R8G8B8A8_TYPELESS; Fmt.R8G8B8A8_UNORM;
          Fmt.R8G8B8A8_UNORM_SRGB; Fmt.R8G8B8A8_UINT; Fmt.R8G8B8A8_SNORM;
          Fmt.R8G8B8A8_SINT; Fmt.B8G8R8A8_UNORM; Fmt.B8G8R8A8_TYPELESS;
          Fmt.B8G8R8A8_UNORM_SRGB; Fmt.AYUV] then
      let alpha :=
        if (format =? Fmt.R8G8B8A8_SNORM) || (format =? Fmt.R8G8B8A8_SINT)
        then 0x7f000000 else 0xff000000 in
      setalpha 4%positive
        (setalpha_word (fun t => Z.lor (Z.land t 0xFFFFFF) alpha))
    else if format =? Fmt.B5G5R5A1_UNORM then
      setalpha 2%positive (setalpha_half (fun t => Z.lor t 0x8000))
    else if format =? Fmt.A8_UNORM then
      memset pDestination 0xff outSize
    else if format =? Fmt.B4G4R4A4_UNORM then
      setalpha 2%positive (setalpha_half (fun t => Z.lor t 0xF000))
    else fallthrough
  else fallthrough.

(** The SETALPHA cases of CopyScanline: the formats of each and the
    size of their pixels in bytes. *)
Definition rgba32_formats : list DXGI_FORMAT :=
  [Fmt.R32G32B32A32_TYPELESS; Fmt.R32G32B32A32_FLOAT;
   Fmt.R32G32B32A32_UINT; Fmt.R32G32B32A32_SINT].

Definition rgba16_formats : list DXGI_FORMAT :=
  [Fmt.R16G16B16A16_TYPELESS; Fmt.R16G16B16A16_FLOAT;
   Fmt.R16G16B16A16_UNORM; Fmt.R16G16B16A16_UINT;
   Fmt.R16G16B16A16_SNORM; Fmt.R16G16B16A16_SINT; Fmt.Y416].

Definition rgb10a2_formats : list DXGI_FORMAT :=
  [Fmt.R10G10B10A2_TYPELESS; Fmt.R10G10B10A2_UNORM;
   Fmt.R10G10B10A2_UINT; Fmt.R10G10B10_XR_BIAS_A2_UNORM; Fmt.Y410;
   Fmt.XBOX_R10G10B10_7E3_A2_FLOAT; Fmt.XBOX_R10G10B10_6E4_A2_FLOAT;
   Fmt.XBOX_R10G10B10_SNORM_A2_UNORM].

Definition rgba8_formats : list DXGI_FORMAT :=
  [Fmt.R8G8B8A8_TYPELESS; Fmt.R8G8B8A8_UNORM;
   Fmt.R8G8B8A8_UNORM_SRGB; Fmt.R8G8B8A8_UINT; Fmt.R8G8B8A8_SNORM;
   Fmt.R8G8B8A8_SINT; Fmt.B8G8R8A8_UNORM; Fmt.B8G8R8A8_TYPELESS;
   Fmt.B8G8R8A8_UNORM_SRGB; Fmt.AYUV].

Definition alpha_pixel_size (format : DXGI_FORMAT) : option Z :=
  if in_cases format rgba32_formats then Some 16
  else if in_cases format rgba16_formats then Some 8
  else if in_cases format rgb10a2_formats then Some 4
  else if in_cases format rgba8_formats then Some 4
  else if in_cases format [Fmt.B5G5R5A1_UNORM; Fmt.B4G4R4A4_UNORM] then Some 2
  else None.

(** Byte [i] of a pixel of [format] whose alpha channel has been made
    opaque, from the byte [b] it held:  the colour bytes are kept;  a
    whole-byte alpha channel becomes the format's value of one (1.0f,
    half 1.0, the largest signed or unsigned integer);  the alpha bits
    of a shared byte are set. *)
Definition opaque_byte (format : DXGI_FORMAT) (i b : Z) : Z :=
  if in_cases format rgba32_formats then
    if i <? 12 then b
    else if format =? Fmt.R32G32B32A32_FLOAT then nth (Z.to_nat (i - 12)) [0x00; 0x00; 0x80; 0x3f] 0
    else if format =? Fmt.R32G32B32A32_SINT then nth (Z.to_nat (i - 12)) [0xff; 0xff; 0xff; 0x7f] 0
    else 0xff
  else if in_cases format rgba16_formats then
    if i <? 6 then b
    else if format =? Fmt.R16G16B16A16_FLOAT then nth (Z.to_nat (i - 6)) [0x00; 0x3c] 0
    else if in_cases format [Fmt.R16G16B16A16_SNORM; Fmt.R16G16B16A16_SINT]
    then nth (Z.to_nat (i - 6)) [0xff; 0x7f] 0
    else 0xff
  else if in_cases format rgb10a2_formats then
    if i <? 3 then b else Z.lor b 0xC0
  else if in_cases format rgba8_formats then
    if i <? 3 then b
    else if in_cases format [Fmt.R8G8B8A8_SNORM; Fmt.R8G8B8A8_SINT] then 0x7f
    else 0xff
  else if format =? Fmt.B5G5R5A1_UNORM then
    if i <? 1 then b else Z.lor b 0x80
  else if format =? Fmt.B4G4R4A4_UNORM then
    if i <? 1 then b else Z.lor b 0xF0
  else b.

(** What a loop body does to the pixel of [stride] bytes at [count]:
    byte [i] of the pixel becomes [g i] of the source byte, and no
    other byte of the destination changes. *)
Definition maps_pixel (stride : Z) (g : Z -> Z -> Z) (src : ScanlineSource)
    (body : Z -> list byte -> list byte) : Prop :=
  forall count dst,
    0 <= count -> count + stride <= Z.of_nat (length dst) ->
    length (body count dst) = length dst
    /\ forall j, 0 <= j ->
         load8 (body count dst) j
         = if (count <=? j) && (j <? count + stride)
           then g (j - count) (load8 (source_of src dst) j)
           else load8 dst j.

(** A descriptor of a surface of format [fmt]: its extents are at
    least 1 and within the limits, and its pitches are the ones
    ComputePitch gives for its own extents. *)
Definition pitched (plat : Platform) (fmt : DXGI_FORMAT) (flags : Z)
    (img : Image) : Prop :=
  img_format img = fmt
  /\ 1 <= img_width img <= 16384 /\ 1 <= img_height img <= 16384
  /\ pitch_or_fail
       (ComputePitch plat fmt (img_width img) (img_height img) flags)
     = Some (img_rowPitch img, img_slicePitch img).

(** ** CopyImageInPlace *)

(** A scanline operation applied through the pointer [mem + off]: it
    sees the bytes of the buffer from [off] on. *)
Definition at_offset (mem : list byte) (off : Z)
    (op : list byte -> list byte) : list byte :=
  firstn (Z.to_nat off) mem ++ op (skipn (Z.to_nat off) mem).

(** [for (h = 0; h < img->height; ++h)]: one in-place scanline
    operation per row, then [pPixels += rowPitch]. *)
Fixpoint CopyImageInPlace_rows (convFlags : Z) (format : DXGI_FORMAT)
    (tflags rowPitch : Z) (n : nat) (pPixels : Z) (mem : list byte)
    : list byte :=
  match n with
  | O => mem
  | S n' =>
      let mem :=
        at_offset mem pPixels
          (fun row =>
             if has_flag convFlags CONV_FLAGS_SWIZZLE
             then SwizzleScanline row rowPitch InPlace rowPitch format tflags
             else CopyScanline row rowPitch InPlace rowPitch format tflags) in
      CopyImageInPlace_rows convFlags format tflags rowPitch n'
        (pPixels + rowPitch) mem
  end.

(** [for (i = 0; i < image.GetImageCount(); ++i)] over the
    descriptors;  a descriptor without pixels ends the function with
    false, the images before it already converted. *)
Fixpoint CopyImageInPlace_images (convFlags : Z) (format : DXGI_FORMAT)
    (tflags : Z) (images : list Image) (mem : list byte)
    : bool * list byte :=
  match images with
  | [] => (true, mem)
  | img :: rest =>
      match img_pixels img with
      | None => (false, mem)
      | Some pPixels =>
          CopyImageInPlace_images convFlags format tflags rest
            (CopyImageInPlace_rows convFlags format tflags
               (img_rowPitch img) (Z.to_nat (img_height img)) pPixels mem)
      end
  end.

(** CopyImageInPlace(convFlags, image): the return value and the image
    afterwards. *)
Definition CopyImageInPlace (convFlags : Z) (image : ScratchImage)
    : bool * ScratchImage :=
  match m_memory image with
  | None => (false, image)
  | Some mem =>
      match m_image image with
      | None => (false, image)
      | Some images =>
          let metadata := m_metadata image in
          if IsPlanar (format metadata) then (false, image)
          else
            let tflags :=
              if has_flag convFlags CONV_FLAGS_NOALPHA
              then TEXP_SCANLINE_SETALPHA else 0 in
            let tflags :=
              if has_flag convFlags CONV_FLAGS_SWIZZLE
              then Z.lor tflags TEXP_SCANLINE_LEGACY else tflags in
            let '(ok, mem) :=
              CopyImageInPlace_images convFlags (format metadata) tflags
                (firstn (Z.to_nat (m_nimages image)) images) mem in
            (ok,
             mkScratchImage (m_nimages image) (m_size image)
               (m_metadata image) (m_image image) (Some mem))
      end
  end.

(** The rows of a descriptor fill its slice, and each row is a whole
    number of pixels of [p] bytes. *)
Definition rows_of_pixels (p : Z) (img : Image) : Prop :=
  0 <= img_height img
  /\ img_slicePitch img = img_rowPitch img * img_height img
  /\ exists k, 0 <= k /\ img_rowPitch img = p * k.

(** ** Texture creation *)

(** enum gs_color_format, as far as ConvertDXGITextureFormat names
    it. *)
Inductive gs_color_format : Set :=
| GS_UNKNOWN
| GS_A8
| GS_R8
| GS_R8G8
| GS_RGBA
| GS_BGRX
| GS_BGRA
| GS_R10G10B10A2
| GS_RGBA16
| GS_R16
| GS_RGBA16F
| GS_RGBA32F
| GS_RG16F
| GS_RG32F
| GS_R16F
| GS_R32F
| GS_DXT1
| GS_DXT3
| GS_DXT5
| GS_RGBA_UNORM
| GS_BGRX_UNORM
| GS_BGRA_UNORM
| GS_RG16.

Definition ConvertDXGITextureFormat (format : DXGI_FORMAT) : gs_color_format :=
  if format =? Fmt.A8_UNORM then GS_A8
  else if format =? Fmt.R8_UNORM then GS_R8
  else if format =? Fmt.R8G8_UNORM then GS_R8G8
  else if format =? Fmt.R8G8B8A8_TYPELESS then GS_RGBA
  else if format =? Fmt.B8G8R8X8_TYPELESS then GS_BGRX
  else if format =? Fmt.B8G8R8A8_TYPELESS then GS_BGRA
  else if format =? Fmt.R10G10B10A2_UNORM then GS_R10G10B10A2
  else if format =? Fmt.R16G16B16A16_UNORM then GS_RGBA16
  else if format =? Fmt.R16_UNORM then GS_R16
  else if format =? Fmt.R16G16B16A16_FLOAT then GS_RGBA16F
  else if format =? Fmt.R32G32B32A32_FLOAT then GS_RGBA32F
  else if format =? Fmt.R16G16_FLOAT then GS_RG16F
  else if format =? Fmt.R32G32_FLOAT then GS_RG32F
  else if format =? Fmt.R16_FLOAT then GS_R16F
  else if format =? Fmt.R32_FLOAT then GS_R32F
  else if format =? Fmt.BC1_UNORM then GS_DXT1
  else if format =? Fmt.BC2_UNORM then GS_DXT3
  else if format =? Fmt.BC3_UNORM then GS_DXT5
  else if format =? Fmt.R8G8B8A8_UNORM then GS_RGBA_UNORM
  else if format =? Fmt.B8G8R8X8_UNORM then GS_BGRX_UNORM
  else if format =? Fmt.B8G8R8A8_UNORM then GS_BGRA_UNORM
  else if format =? Fmt.R16G16_UNORM then GS_RG16
  else GS_UNKNOWN.

Definition UINT16_MAX : Z := 2 ^ 16 - 1.

(** The size of a pointer, as in the array of pixel pointers. *)
Definition sizeof_pointer (plat : Platform) : Z :=
  match plat with
  | Win32 => 4
  | Win64 => 8
  end.

Section TextureCreation.

Variable plat : Platform.
Variable heap : Heap.

(** The graphics subsystem: gs_texture_create(width, height, format,
    levels, data, flags), gs_cubetexture_create(size, format, levels,
    data, flags) and gs_voltexture_create(width, height, depth, format,
    levels, data, flags) return a texture or NULL.  [data] is the
    array of pixel pointers, here the offsets of the pixels in the
    memory of the image. *)
Variable gs_texture_t : Type.
Variable gs_texture_create :
  Z -> Z -> gs_color_format -> Z -> list Z -> Z -> option gs_texture_t.
Variable gs_cubetexture_create :
  Z -> gs_color_format -> Z -> list Z -> Z -> option gs_texture_t.
Variable gs_voltexture_create :
  Z -> Z -> Z -> gs_color_format -> Z -> list Z -> Z -> option gs_texture_t.

(** The inner loop of the 1D/2D case,
    [for (level = 0; level < metadata.mipLevels; ++level)], with [n]
    iterations to go;  [initData] holds the entries filled in so far,
    [None] is [return NULL].  A descriptor is read with
    [srcImages[index]] once [index < nimages] is known. *)
Fixpoint Fill_levels (srcImages : list Image) (nimages : Z)
    (metadata : TexMetadata) (item : Z) (n : nat) (level : Z)
    (initData : list Z) : option (list Z) :=
  match n with
  | O => Some initData
  | S n' =>
      let index := ComputeIndex plat metadata level item 0 in
      if nimages <=? index then None
      else
        let img := nth (Z.to_nat index) srcImages zero_image in
        if negb (img_format img =? format metadata) then None
        else
          match img_pixels img with
          | None => None
          | Some pixels =>
              Fill_levels srcImages nimages metadata item n' (level + 1)
                (initData ++ [pixels])
          end
  end.

(** [for (item = 0; item < metadata.arraySize; ++item)] *)
Fixpoint Fill_items (srcImages : list Image) (nimages : Z)
    (metadata : TexMetadata) (n : nat) (item : Z) (initData : list Z)
    : option (list Z) :=
  match n with
  | O => Some initData
  | S n' =>
      match Fill_levels srcImages nimages metadata item
              (Z.to_nat (mipLevels metadata)) 0 initData with
      | None => None
      | Some initData =>
          Fill_items srcImages nimages metadata n' (item + 1) initData
      end
  end.

(** [for (slice = 1; slice < depth; ++slice)] of the volume case:
    [false] is [return NULL].  [pSlice] is where the next slice has to
    start. *)
Fixpoint Follow_slices (srcImages : list Image) (nimages : Z)
    (metadata : TexMetadata) (level : Z) (img : Image) (n : nat)
    (slice pSlice : Z) : bool :=
  match n with
  | O => true
  | S n' =>
      let tindex := ComputeIndex plat metadata level 0 slice in
      if nimages <=? tindex then false
      else
        let timg := nth (Z.to_nat tindex) srcImages zero_image in
        match img_pixels timg with
        | None => false
        | Some tpixels =>
            if negb (tpixels =? pSlice)
               || negb (img_format timg =? format metadata)
               || negb (img_rowPitch timg =? img_rowPitch img)
               || negb (img_slicePitch timg =? img_slicePitch img)
            then false
            else
              Follow_slices srcImages nimages metadata level img n'
                (slice + 1) (tpixels + img_slicePitch img)
        end
  end.

(** [for (level = 0; level < metadata.mipLevels; ++level)] of the
    volume case, with the running [depth]. *)
Fixpoint Fill_volume (srcImages : list Image) (nimages : Z)
    (metadata : TexMetadata) (n : nat) (level depth : Z)
    (initData : list Z) : option (list Z) :=
  match n with
  | O => Some initData
  | S n' =>
      let index := ComputeIndex plat metadata level 0 0 in
      if nimages <=? index then None
      else
        let img := nth (Z.to_nat index) srcImages zero_image in
        if negb (img_format img =? format metadata) then None
        else
          match img_pixels img with
          | None => None
          | Some pixels =>
              if negb (Follow_slices srcImages nimages metadata level img
                         (Z.to_nat (depth - 1)) 1
                         (pixels + img_slicePitch img))
              then None
              else
                Fill_volume srcImages nimages metadata n' (level + 1)
                  (shrink depth) (initData ++ [pixels])
          end
  end.

(** CreateTextureEx(srcImages, nimages, metadata): the texture, or
    [None] for NULL.  [initData] is the list of the entries of the
    pointer array that have been filled in. *)
Definition CreateTextureEx (srcImages : option (list Image)) (nimages : Z)
    (metadata : TexMetadata) : option gs_texture_t :=
  match srcImages with
  | None => None
  | Some srcImages =>
  if nimages =? 0 then None
  else if (mipLevels metadata =? 0) || (arraySize metadata =? 0) then None
  else if (UINT32_MAX <? width metadata) || (UINT32_MAX <? height metadata)
          || (UINT16_MAX <? mipLevels metadata)
          || (UINT16_MAX <? arraySize metadata) then None
  else if negb (new_array heap
                  (size_t plat (mipLevels metadata * arraySize metadata)
                   * sizeof_pointer plat)) then None
  else
    let filled : option (list Z) :=
      if IsVolumemap metadata then
        if depth metadata =? 0 then None
        else if UINT16_MAX <? depth metadata then None
        else if 1 <? arraySize metadata then None
        else
          Fill_volume srcImages nimages metadata
            (Z.to_nat (mipLevels metadata)) 0 (depth metadata) []
      else
        Fill_items srcImages nimages metadata
          (Z.to_nat (arraySize metadata)) 0 [] in
    match filled with
    | None => None
    | Some initData =>
        let tformat := ConvertDXGITextureFormat (format metadata) in
        match tformat with
        | GS_UNKNOWN => None
        | _ =>
            if dimension metadata =? TEX_DIMENSION_TEXTURE1D then None
            else if dimension metadata =? TEX_DIMENSION_TEXTURE2D then
              if IsCubemap metadata then
                gs_cubetexture_create (u32 (width metadata)) tformat
                  (u32 (mipLevels metadata)) initData 0
              else
                gs_texture_create (u32 (width metadata))
                  (u32 (height metadata)) tformat
                  (u32 (mipLevels metadata)) initData 0
            else if dimension metadata =? TEX_DIMENSION_TEXTURE3D then
              gs_voltexture_create (u32 (width metadata))
                (u32 (height metadata)) (u32 (depth metadata)) tformat
                (u32 (mipLevels metadata)) initData 0
            else None
        end
    end
  end.

Variable os_fopen : String.string -> option (list byte).
Variable CopyImage :
  list byte -> Z -> TexMetadata -> Z -> Z -> option (list byte) ->
  ScratchImage -> bool * ScratchImage.

(** gs_create_texture_from_dds_file(file).  The local [mdata] is not
    initialised;  [mdata] stands for whatever it holds before the
    call of LoadFromDDSFile. *)
Definition gs_create_texture_from_dds_file (file : option String.string)
    (mdata : TexMetadata) : option gs_texture_t :=
  let image := mkScratchImage 0 0 zero_metadata None None in
  let '(ok, stored, image) :=
    LoadFromDDSFile plat heap os_fopen CopyImage CopyImageInPlace
      file true image in
  if negb ok then None
  else
    let mdata := match stored with
                 | Some m => m
                 | None => mdata
                 end in
    let mdata :=
      set_miscFlags mdata
        (Z.land (miscFlags mdata) (u32 (Z.lnot TEX_MISC_TEXTURECUBE))) in
    CreateTextureEx (m_image image) (m_nimages image) mdata.

End TextureCreation.

(** The header buffer LoadFromDDSFile decodes: the first
    MAX_HEADER_SIZE bytes of the file, zero-filled when the file is
    shorter. *)
Definition header_bytes (data : list byte) : list byte :=
  let headerLen := Z.min (Z.of_nat (length data)) MAX_HEADER_SIZE in
  firstn (Z.to_nat headerLen) data
  ++ repeat x00 (Z.to_nat MAX_HEADER_SIZE - Z.to_nat headerLen).

(** The pixel pointers of a descriptor array, in order. *)
Definition pixel_offset (img : Image) : Z :=
  match img_pixels img with
  | Some pixels => pixels
  | None => 0
  end.

Definition pixel_offsets (images : list Image) : list Z :=
  map pixel_offset images.

(** A descriptor CreateTextureEx accepts for [metadata]. *)
Definition usable_for (metadata : TexMetadata) (img : Image) : Prop :=
  img_format img = format metadata /\ img_pixels img <> None.

(** ** LegacyExpandScanline *)

(** A [uint64_t] store of [v] at [buf + off]. *)
Definition store64 (buf : list byte) (off : Z) (v : Z) : list byte :=
  store32 (store32 buf off v) (off + 4) (Z.shiftr v 32).

(** The value stored for one pixel, case by case.  [t] is the source
    pixel as it is read through [sPtr]. *)

(** D3DFMT_R8G8B8 -> DXGI_FORMAT_R8G8B8A8_UNORM; the three bytes at
    [sPtr], [sPtr + 1] and [sPtr + 2]. *)
Definition legacy_R8G8B8 (pSource : list byte) (icount : Z) : Z :=
  let t1 := u32 (Z.shiftl (load8 pSource icount) 16) in
  let t2 := u32 (Z.shiftl (load8 pSource (icount + 1)) 8) in
  let t3 := u32 (load8 pSource (icount + 2)) in
  Z.lor (Z.lor (Z.lor t1 t2) t3) 0xff000000.

(** The colour terms D3DFMT_R3G3B2 and D3DFMT_A8R3G3B2 share. *)
Definition legacy_R3G3B2_t1 (t : Z) : Z :=
  u32 (Z.lor (Z.lor (Z.land t 0xe0) (Z.shiftr (Z.land t 0xe0) 3))
             (Z.shiftr (Z.land t 0xc0) 6)).

Definition legacy_R3G3B2_t2 (t : Z) : Z :=
  u32 (Z.lor (Z.lor (Z.shiftl (Z.land t 0x1c) 11) (Z.shiftl (Z.land t 0x1c) 8))
             (Z.shiftl (Z.land t 0x18) 5)).

Definition legacy_R3G3B2_t3 (t : Z) : Z :=
  u32 (Z.lor (Z.lor (Z.lor (Z.shiftl (Z.land t 0x03) 22)
                           (Z.shiftl (Z.land t 0x03) 20))
                    (Z.shiftl (Z.land t 0x03) 18))
             (Z.shiftl (Z.land t 0x03) 16)).

(** The alpha term of the 16-bit sources with alpha in the high byte. *)
Definition legacy_high_byte_alpha (tflags t : Z) : Z :=
  if has_flag tflags TEXP_SCANLINE_SETALPHA then 0xff000000
  else u32 (Z.shiftl (Z.land t 0xff00) 16).

(** D3DFMT_R3G3B2 -> DXGI_FORMAT_R8G8B8A8_UNORM *)
Definition legacy_R3G3B2 (t : Z) : Z :=
  Z.lor (Z.lor (Z.lor (legacy_R3G3B2_t1 t) (legacy_R3G3B2_t2 t))
               (legacy_R3G3B2_t3 t)) 0xff000000.

(** D3DFMT_R3G3B2 -> DXGI_FORMAT_B5G6R5_UNORM *)
Definition legacy_R3G3B2_to_B5G6R5 (t : Z) : Z :=
  let t1 := u32 (Z.lor (Z.shiftl (Z.land t 0xe0) 8)
                       (Z.shiftl (Z.land t 0xc0) 5)) in
  let t2 := u32 (Z.lor (Z.shiftl (Z.land t 0x1c) 6)
                       (Z.shiftl (Z.land t 0x1c) 3)) in
  let t3 := u32 (Z.lor (Z.lor (Z.shiftl (Z.land t 0x03) 3)
                              (Z.shiftl (Z.land t 0x03) 1))
                       (Z.shiftr (Z.land t 0x02) 1)) in
  u16 (Z.lor (Z.lor t1 t2) t3).

(** D3DFMT_A8R3G3B2 -> DXGI_FORMAT_R8G8B8A8_UNORM *)
Definition legacy_A8R3G3B2 (tflags t : Z) : Z :=
  Z.lor (Z.lor (Z.lor (legacy_R3G3B2_t1 t) (legacy_R3G3B2_t2 t))
               (legacy_R3G3B2_t3 t))
        (legacy_high_byte_alpha tflags t).

(** D3DFMT_P8 -> DXGI_FORMAT_R8G8B8A8_UNORM: [pal8[t]]. *)
Definition legacy_P8 (pal8 : list byte) (t : Z) : Z := load32 pal8 (4 * t).

(** D3DFMT_A8P8 -> DXGI_FORMAT_R8G8B8A8_UNORM *)
Definition legacy_A8P8 (pal8 : list byte) (tflags t : Z) : Z :=
  let t1 := load32 pal8 (4 * Z.land t 0xff) in
  Z.lor t1 (legacy_high_byte_alpha tflags t).

(** D3DFMT_A4L4 -> DXGI_FORMAT_B4G4R4A4_UNORM *)
Definition legacy_A4L4_to_B4G4R4A4 (tflags t : Z) : Z :=
  let t1 := Z.land t 0x0f in
  let ta := if has_flag tflags TEXP_SCANLINE_SETALPHA then 0xf000
            else u32 (Z.shiftl (Z.land t 0xf0) 8) in
  u16 (Z.lor (Z.lor (Z.lor t1 (u32 (Z.shiftl t1 4))) (u32 (Z.shiftl t1 8))) ta).

(** D3DFMT_A4L4 -> DXGI_FORMAT_R8G8B8A8_UNORM *)
Definition legacy_A4L4 (tflags t : Z) : Z :=
  let t1 := u32 (Z.lor (Z.shiftl (Z.land t 0x0f) 4) (Z.land t 0x0f)) in
  let ta := if has_flag tflags TEXP_SCANLINE_SETALPHA then 0xff000000
            else u32 (Z.lor (Z.shiftl (Z.land t 0xf0) 24)
                            (Z.shiftl (Z.land t 0xf0) 20)) in
  Z.lor (Z.lor (Z.lor t1 (u32 (Z.shiftl t1 8))) (u32 (Z.shiftl t1 16))) ta.

(** D3DFMT_A4R4G4B4 -> DXGI_FORMAT_R8G8B8A8_UNORM *)
Definition legacy_B4G4R4A4 (tflags t : Z) : Z :=
  let t1 := u32 (Z.lor (Z.shiftr (Z.land t 0x0f00) 4)
                       (Z.shiftr (Z.land t 0x0f00) 8)) in
  let t2 := u32 (Z.lor (Z.shiftl (Z.land t 0x00f0) 8)
                       (Z.shiftl (Z.land t 0x00f0) 4)) in
  let t3 := u32 (Z.lor (Z.shiftl (Z.land t 0x000f) 20)
                       (Z.shiftl (Z.land t 0x000f) 16)) in
  let ta := if has_flag tflags TEXP_SCANLINE_SETALPHA then 0xff000000
            else u32 (Z.lor (Z.shiftl (Z.land t 0xf000) 16)
                            (Z.shiftl (Z.land t 0xf000) 12)) in
  Z.lor (Z.lor (Z.lor t1 t2) t3) ta.

(** D3DFMT_L8 -> DXGI_FORMAT_R8G8B8A8_UNORM *)
Definition legacy_L8 (t : Z) : Z :=
  let t1 := t in
  let t2 := u32 (Z.shiftl t1 8) in
  let t3 := u32 (Z.shiftl t1 16) in
  Z.lor (Z.lor (Z.lor t1 t2) t3) 0xff000000.

(** D3DFMT_L16 -> DXGI_FORMAT_R16G16B16A16_UNORM *)
Definition legacy_L16 (t : Z) : Z :=
  let t1 := t in
  let t2 := u64 (Z.shiftl t1 16) in
  let t3 := u64 (Z.shiftl t1 32) in
  Z.lor (Z.lor (Z.lor t1 t2) t3) 0xffff000000000000.

(** D3DFMT_A8L8 -> DXGI_FORMAT_R8G8B8A8_UNORM *)
Definition legacy_A8L8 (tflags t : Z) : Z :=
  let t1 := u32 (Z.land t 0xff) in
  let t2 := u32 (Z.shiftl t1 8) in
  let t3 := u32 (Z.shiftl t1 16) in
  Z.lor (Z.lor (Z.lor t1 t2) t3) (legacy_high_byte_alpha tflags t).

(** The loop all the cases share,
    [for (ocount = 0, icount = 0;
          (icount < inLimit) && (ocount < outLimit);
          icount += inPixel, ocount += outPixel)],
    storing through [dPtr] = pDestination + ocount the value [pixel]
    computes from what [sPtr] = pSource + icount points to. *)
Equations? LegacyExpandScanline_loop (inPixel outPixel : positive)
    (store : list byte -> Z -> Z -> list byte) (pixel : Z -> Z)
    (inLimit outLimit icount ocount : Z) (dst : list byte) : list byte
  by wf (Z.to_nat (outLimit - ocount)) lt :=
  LegacyExpandScanline_loop inPixel outPixel store pixel inLimit outLimit
      icount ocount dst
    with inspect ((icount <? inLimit) && (ocount <? outLimit)) := {
    | exist _ true _ =>
        LegacyExpandScanline_loop inPixel outPixel store pixel inLimit outLimit
          (icount + Z.pos inPixel) (ocount + Z.pos outPixel)
          (store dst ocount (pixel icount));
    | exist _ false _ => dst }.
Proof.
  apply andb_prop in e. destruct e as [_ e].
  apply Z.ltb_lt in e. lia.
Qed.

(** LegacyExpandScanline: the return value and the destination
    afterwards.  Every case guards its loop by
    [inSize >= inPixel && outSize >= outPixel] and runs it while
    [icount < inSize - (inPixel - 1)] and
    [ocount < outSize - (outPixel - 1)]. *)
Definition LegacyExpandScanline (pDestination : list byte) (outSize : Z)
    (outFormat : DXGI_FORMAT) (pSource : list byte) (inSize : Z)
    (inFormat : TEXP_LEGACY_FORMAT) (pal8 : option (list byte))
    (tflags : Z) : bool * list byte :=
  let fail := (false, pDestination) in
  let run (inPixel outPixel : positive)
          (store : list byte -> Z -> Z -> list byte) (pixel : Z -> Z) :=
    if (Z.pos inPixel <=? inSize) && (Z.pos outPixel <=? outSize) then
      (true,
       LegacyExpandScanline_loop inPixel outPixel store pixel
         (inSize - (Z.pos inPixel - 1)) (outSize - (Z.pos outPixel - 1))
         0 0 pDestination)
    else fail in
  match inFormat with
  | TEXP_LEGACY_R8G8B8 =>
      if negb (outFormat =? Fmt.R8G8B8A8_UNORM) then fail
      else run 3%positive 4%positive store32 (legacy_R8G8B8 pSource)
  | TEXP_LEGACY_R3G3B2 =>
      if outFormat =? Fmt.R8G8B8A8_UNORM then
        run 1%positive 4%positive store32
          (fun icount => legacy_R3G3B2 (load8 pSource icount))
      else if outFormat =? Fmt.B5G6R5_UNORM then
        run 1%positive 2%positive store16
          (fun icount => legacy_R3G3B2_to_B5G6R5 (load8 pSource icount))
      else fail
  | TEXP_LEGACY_A8R3G3B2 =>
      if negb (outFormat =? Fmt.R8G8B8A8_UNORM) then fail
      else run 2%positive 4%positive store32
             (fun icount => legacy_A8R3G3B2 tflags (load16 pSource icount))
  | TEXP_LEGACY_P8 =>
      match pal8 with
      | Some pal =>
          if negb (outFormat =? Fmt.R8G8B8A8_UNORM) then fail
          else run 1%positive 4%positive store32
                 (fun icount => legacy_P8 pal (load8 pSource icount))
      | None => fail
      end
  | TEXP_LEGACY_A8P8 =>
      match pal8 with
      | Some pal =>
          if negb (outFormat =? Fmt.R8G8B8A8_UNORM) then fail
          else run 2%positive 4%positive store32
                 (fun icount => legacy_A8P8 pal tflags (load16 pSource icount))
      | None => fail
      end
  | TEXP_LEGACY_A4L4 =>
      if outFormat =? Fmt.B4G4R4A4_UNORM then
        run 1%positive 2%positive store16
          (fun icount => legacy_A4L4_to_B4G4R4A4 tflags (load8 pSource icount))
      else if outFormat =? Fmt.R8G8B8A8_UNORM then
        run 1%positive 4%positive store32
          (fun icount => legacy_A4L4 tflags (load8 pSource icount))
      else fail
  | TEXP_LEGACY_B4G4R4A4 =>
      if negb (outFormat =? Fmt.R8G8B8A8_UNORM) then fail
      else run 2%positive 4%positive store32
             (fun icount => legacy_B4G4R4A4 tflags (load16 pSource icount))
  | TEXP_LEGACY_L8 =>
      if negb (outFormat =? Fmt.R8G8B8A8_UNORM) then fail
      else run 1%positive 4%positive store32
             (fun icount => legacy_L8 (load8 pSource icount))
  | TEXP_LEGACY_L16 =>
      if negb (outFormat =? Fmt.R16G16B16A16_UNORM) then fail
      else run 2%positive 8%positive store64
             (fun icount => legacy_L16 (load16 pSource icount))
  | TEXP_LEGACY_A8L8 =>
      if negb (outFormat =? Fmt.R8G8B8A8_UNORM) then fail
      else run 2%positive 4%positive store32
             (fun icount => legacy_A8L8 tflags (load16 pSource icount))
  | TEXP_LEGACY_UNKNOWN => fail
  end.

(** *** Vocabulary: what an expansion is *)

(** Pixel [k] of a row of [size]-byte pixels, as a little-endian
    number. *)
Definition load24 (buf : list byte) (off : Z) : Z :=
  load8 buf off + 2 ^ 8 * load8 buf (off + 1) + 2 ^ 16 * load8 buf (off + 2).

Definition load64 (buf : list byte) (off : Z) : Z :=
  load32 buf off + 2 ^ 32 * load32 buf (off + 4).

Definition load_pixel (size : Z) (buf : list byte) (k : Z) : Z :=
  if size =? 1 then load8 buf k
  else if size =? 2 then load16 buf (2 * k)
  else if size =? 3 then load24 buf (3 * k)
  else if size =? 4 then load32 buf (4 * k)
  else load64 buf (8 * k).

(** The size in bytes of a source pixel and of an expanded pixel, for
    the pairs of formats that have an expansion. *)
Definition legacy_pixel_sizes (inFormat : TEXP_LEGACY_FORMAT)
    (outFormat : DXGI_FORMAT) : option (Z * Z) :=
  match inFormat with
  | TEXP_LEGACY_R8G8B8 =>
      if outFormat =? Fmt.R8G8B8A8_UNORM then Some (3, 4) else None
  | TEXP_LEGACY_R3G3B2 =>
      if outFormat =? Fmt.R8G8B8A8_UNORM then Some (1, 4)
      else if outFormat =? Fmt.B5G6R5_UNORM then Some (1, 2) else None
  | TEXP_LEGACY_A4L4 =>
      if outFormat =? Fmt.B4G4R4A4_UNORM then Some (1, 2)
      else if outFormat =? Fmt.R8G8B8A8_UNORM then Some (1, 4) else None
  | TEXP_LEGACY_P8 | TEXP_LEGACY_L8 =>
      if outFormat =? Fmt.R8G8B8A8_UNORM then Some (1, 4) else None
  | TEXP_LEGACY_A8R3G3B2 | TEXP_LEGACY_A8P8 | TEXP_LEGACY_B4G4R4A4
  | TEXP_LEGACY_A8L8 =>
      if outFormat =? Fmt.R8G8B8A8_UNORM then Some (2, 4) else None
  | TEXP_LEGACY_L16 =>
      if outFormat =? Fmt.R16G16B16A16_UNORM then Some (2, 8) else None
  | TEXP_LEGACY_UNKNOWN => None
  end.

(** A store and the matching load of pixels of [size] bytes holding
    [bits] bits: the store keeps the length of the buffer and the
    bytes outside the pixel, and the load reads back what was stored,
    from the bytes of the pixel alone. *)
Definition stores_pixels (size bits : Z)
    (store : list byte -> Z -> Z -> list byte)
    (load : list byte -> Z -> Z) : Prop :=
  (forall buf off v, length (store buf off v) = length buf)
  /\ (forall buf off v j,
        0 <= off -> 0 <= j -> j < off \/ off + size <= j ->
        load8 (store buf off v) j = load8 buf j)
  /\ (forall buf off v,
        0 <= off -> off + size <= Z.of_nat (length buf) ->
        load (store buf off v) off = wrap bits v)
  /\ (forall a b off,
        (forall j, off <= j < off + size -> load8 a j = load8 b j) ->
        load a off = load b off).

(** A check of all 256 values of a byte. *)
Definition all_bytes (P : Z -> bool) : bool :=
  forallb P (map Z.of_nat (seq 0 256)).

(** The sources that are indices into a palette. *)
Definition uses_palette (inFormat : TEXP_LEGACY_FORMAT) : bool :=
  match inFormat with
  | TEXP_LEGACY_P8 | TEXP_LEGACY_A8P8 => true
  | _ => false
  end.

Definition palette_given (pal8 : option (list byte)) : bool :=
  match pal8 with Some _ => true | None => false end.

(** An 8-bit channel value from a 3-bit or a 2-bit one by bit
    replication. *)
Definition replicate3 (c : Z) : Z :=
  Z.lor (Z.lor (Z.shiftl c 5) (Z.shiftl c 2)) (Z.shiftr c 1).
Definition replicate2 (c : Z) : Z :=
  Z.lor (Z.lor (Z.lor (Z.shiftl c 6) (Z.shiftl c 4)) (Z.shiftl c 2)) c.

(** The alpha channel an expansion to R8G8B8A8 stores: opaque under
    SETALPHA, the alpha [a] of the source otherwise. *)
Definition alpha_or_opaque (setalpha : bool) (a : Z) : Z :=
  if setalpha then 0xff else a.

(** What LegacyExpandScanline stores for a source pixel [t]: the pixel
    [p] of the destination format, channel by channel.  A palette
    entry keeps its own alpha bits under A8P8: the alpha of the pixel
    is or-ed onto them. *)
Definition legacy_expanded (inFormat : TEXP_LEGACY_FORMAT)
    (outFormat : DXGI_FORMAT) (setalpha : bool) (pal8 : option (list byte))
    (t p : Z) : Prop :=
  match inFormat with
  | TEXP_LEGACY_R8G8B8 =>
      red8 p = field t 16 8 /\ green8 p = field t 8 8
      /\ blue8 p = field t 0 8 /\ alpha8 p = 0xff
  | TEXP_LEGACY_R3G3B2 =>
      if outFormat =? Fmt.R8G8B8A8_UNORM then
        red8 p = replicate3 (field t 5 3)
        /\ green8 p = replicate3 (field t 2 3)
        /\ blue8 p = replicate2 (field t 0 2)
        /\ alpha8 p = 0xff
      else
        field p 11 5 = Z.lor (Z.shiftl (field t 5 3) 2) (Z.shiftr (field t 5 3) 1)
        /\ field p 5 6 = Z.lor (Z.shiftl (field t 2 3) 3) (field t 2 3)
        /\ field p 0 5
           = Z.lor (Z.lor (Z.shiftl (field t 0 2) 3) (Z.shiftl (field t 0 2) 1))
                   (Z.shiftr (field t 0 2) 1)
  | TEXP_LEGACY_A8R3G3B2 =>
      red8 p = replicate3 (field t 5 3)
      /\ green8 p = replicate3 (field t 2 3)
      /\ blue8 p = replicate2 (field t 0 2)
      /\ alpha8 p = alpha_or_opaque setalpha (field t 8 8)
  | TEXP_LEGACY_P8 =>
      match pal8 with
      | Some pal => p = load32 pal (4 * t)
      | None => False
      end
  | TEXP_LEGACY_A8P8 =>
      match pal8 with
      | Some pal =>
          let c := load32 pal (4 * field t 0 8) in
          red8 p = red8 c /\ green8 p = green8 c /\ blue8 p = blue8 c
          /\ alpha8 p
             = Z.lor (alpha8 c) (alpha_or_opaque setalpha (field t 8 8))
      | None => False
      end
  | TEXP_LEGACY_A4L4 =>
      if outFormat =? Fmt.R8G8B8A8_UNORM then
        red8 p = replicate4 (field t 0 4)
        /\ green8 p = replicate4 (field t 0 4)
        /\ blue8 p = replicate4 (field t 0 4)
        /\ alpha8 p = alpha_or_opaque setalpha (replicate4 (field t 4 4))
      else
        field p 8 4 = field t 0 4 /\ field p 4 4 = field t 0 4
        /\ field p 0 4 = field t 0 4
        /\ field p 12 4 = (if setalpha then 0xf else field t 4 4)
  | TEXP_LEGACY_B4G4R4A4 =>
      red8 p = replicate4 (field t 8 4)
      /\ green8 p = replicate4 (field t 4 4)
      /\ blue8 p = replicate4 (field t 0 4)
      /\ alpha8 p = alpha_or_opaque setalpha (replicate4 (field t 12 4))
  | TEXP_LEGACY_L8 =>
      red8 p = t /\ green8 p = t /\ blue8 p = t /\ alpha8 p = 0xff
  | TEXP_LEGACY_L16 =>
      field p 0 16 = t /\ field p 16 16 = t /\ field p 32 16 = t
      /\ field p 48 16 = 0xffff
  | TEXP_LEGACY_A8L8 =>
      red8 p = field t 0 8 /\ green8 p = field t 0 8
      /\ blue8 p = field t 0 8
      /\ alpha8 p = alpha_or_opaque setalpha (field t 8 8)
  | TEXP_LEGACY_UNKNOWN => False
  end.

(** ** More sample data *)

(** A legacy header (magic, DDS_HEADER) with the given pixel format
    flags, bit count and masks, declaring a texture of the given
    width, height and number of mip levels. *)
Definition masks_header (flags bits r g b a w h mips : Z) : list byte :=
  le32_words
    ([DDS_MAGIC; 124; 0x1007; h; w; 0; 0; mips]
     ++ repeat 0 11
     ++ [32; flags; 0; bits; r; g; b; a]
     ++ [0x1000; 0; 0; 0; 0]).

(** X8B8G8R8: 32 bits per pixel, no alpha. *)
Definition xbgr_header (w h mips : Z) : list byte :=
  masks_header DDS_RGB 32 0x000000ff 0x0000ff00 0x00ff0000 0 w h mips.

(** R8G8B8: 24 bits per pixel. *)
Definition rgb24_header (w h mips : Z) : list byte :=
  masks_header DDS_RGB 24 0xff0000 0x00ff00 0x0000ff 0 w h mips.

(** A 2x2 X8B8G8R8 texture whose unused fourth bytes are not all
    ones. *)
Definition xbgr_file : list byte :=
  xbgr_header 2 2 1
  ++ [x10; x20; x30; x00; x11; x21; x31; x01;
      x12; x22; x32; x7f; x13; x23; x33; xff].

(** A 4x4 A8R8G8B8 texture with its three mip levels. *)
Definition argb_file : list byte := argb_header 4 4 3 ++ repeat xff 84.

(** The descriptors Initialize gives it. *)
Definition argb_images : list Image :=
  [ mkImage 4 4 Fmt.B8G8R8A8_UNORM 16 64 (Some 0);
    mkImage 2 2 Fmt.B8G8R8A8_UNORM 8 16 (Some 64);
    mkImage 1 1 Fmt.B8G8R8A8_UNORM 4 4 (Some 80) ].

Definition argb_metadata : TexMetadata :=
  mkTexMetadata 4 4 1 1 3 0 0 Fmt.B8G8R8A8_UNORM TEX_DIMENSION_TEXTURE2D.

(** A graphics subsystem that records the call that made a texture. *)
Inductive recorded_texture : Set :=
| texture_2d (width height : Z) (format : gs_color_format) (levels : Z)
    (data : list Z) (flags : Z)
| texture_cube (size : Z) (format : gs_color_format) (levels : Z)
    (data : list Z) (flags : Z)
| texture_3d (width height depth : Z) (format : gs_color_format)
    (levels : Z) (data : list Z) (flags : Z).

Definition record_2d (width height : Z) (format : gs_color_format)
    (levels : Z) (data : list Z) (flags : Z) : option recorded_texture :=
  Some (texture_2d width height format levels data flags).

Definition record_cube (size : Z) (format : gs_color_format)
    (levels : Z) (data : list Z) (flags : Z) : option recorded_texture :=
  Some (texture_cube size format levels data flags).

Definition record_3d (width height depth : Z) (format : gs_color_format)
    (levels : Z) (data : list Z) (flags : Z) : option recorded_texture :=
  Some (texture_3d width height depth format levels data flags).

(** A CopyImage that refuses every image: the sample files need no
    expansion. *)
Definition no_CopyImage (pPixels : list byte) (size : Z)
    (metadata : TexMetadata) (cpFlags convFlags : Z)
    (pal8 : option (list byte)) (image : ScratchImage)
    : bool * ScratchImage :=
  (false, image).

(** What Initialize makes of the 2x2 X8B8G8R8 texture, and the
    texture read into it. *)
Definition xbgr_metadata : TexMetadata :=
  SetAlphaMode
    (mkTexMetadata 2 2 1 1 1 0 0 Fmt.R8G8B8A8_UNORM TEX_DIMENSION_TEXTURE2D)
    TEX_ALPHA_MODE_OPAQUE.

Definition xbgr_images : list Image :=
  [ mkImage 2 2 Fmt.R8G8B8A8_UNORM 8 16 (Some 0) ].

Definition xbgr_image (memory : list byte) : ScratchImage :=
  mkScratchImage 1 16 xbgr_metadata (Some xbgr_images) (Some memory).

(* ================================================================== *)
(** * Properties                                                       *)
(* ================================================================== *)

(** ** Mip chain length *)

Lemma shrink_halve (x : Z) : 1 <= x -> shrink x = halve x.
Proof.
  intros Hx. unfold shrink, halve.
  rewrite Z.shiftr_div_pow2 by lia. change (2 ^ 1) with 2.
  destruct (Z.ltb_spec 1 x) as [Hlt | Hge].
  - assert (1 <= x / 2) by (apply Z.div_le_lower_bound; lia). lia.
  - assert (x = 1) by lia. subst x. reflexivity.
Qed.

Lemma halve_ge_1 (x : Z) : 1 <= halve x.
Proof. unfold halve. lia. Qed.

Lemma mip_extent_S (x : Z) (k : nat) :
  mip_extent x (S k) = mip_extent (halve x) k.
Proof. unfold mip_extent. apply Nat.iter_succ_r. Qed.

Lemma CountMips_loop_levels (w h m : Z) :
  1 <= w -> 1 <= h ->
  exists j : nat,
    CountMips_loop w h m = m + Z.of_nat j
    /\ mip_extent w j = 1 /\ mip_extent h j = 1
    /\ forall k : nat, (k < j)%nat ->
         ~ (mip_extent w k = 1 /\ mip_extent h k = 1).
Proof.
  funelim (CountMips_loop w h m); intros Hw Hh.
  - rewrite !shrink_halve in * by assumption.
    destruct (H (halve_ge_1 w) (halve_ge_1 h)) as (j & Hv & Hwj & Hhj & Hmin).
    exists (S j). rewrite Hv, !mip_extent_S. repeat split; try assumption.
    + lia.
    + intros [ | k] Hk.
      * cbn. intros [-> ->]. discriminate e.
      * rewrite !mip_extent_S. apply Hmin. lia.
  - exists 0%nat. cbn. repeat split; lia.
Qed.

(** C8.  For all width >= 1 and height >= 1, CountMips returns a count
    v >= 1 such that v-1 successive halvings (rounding down, never
    below 1) bring both dimensions to 1, and no smaller number of
    halvings does. *)
Theorem CountMips_reaches_1x1_exactly_at_last_level (w h : Z) :
  1 <= w -> 1 <= h ->
  let v := CountMips w h in
  1 <= v
  /\ mip_extent w (Z.to_nat (v - 1)) = 1
  /\ mip_extent h (Z.to_nat (v - 1)) = 1
  /\ forall k : nat, (k < Z.to_nat (v - 1))%nat ->
       ~ (mip_extent w k = 1 /\ mip_extent h k = 1).
Proof.
  intros Hw Hh v.
  destruct (CountMips_loop_levels w h 1 Hw Hh) as (j & Hv & Hwj & Hhj & Hmin).
  assert (Hj : Z.to_nat (v - 1) = j) by (unfold v, CountMips; rewrite Hv; lia).
  rewrite Hj. repeat split; try assumption.
  unfold v, CountMips. lia.
Qed.

Lemma CountMips_reaches_1x1_witness :
  let v := CountMips 16 4 in
  1 <= v
  /\ mip_extent 16 (Z.to_nat (v - 1)) = 1
  /\ mip_extent 4 (Z.to_nat (v - 1)) = 1
  /\ forall k : nat, (k < Z.to_nat (v - 1))%nat ->
       ~ (mip_extent 16 k = 1 /\ mip_extent 4 k = 1).
Proof.
  apply (CountMips_reaches_1x1_exactly_at_last_level 16 4); lia.
Defined.

Lemma mip_extent_closed_form (k : nat) (x : Z) :
  1 <= x -> mip_extent x k = Z.max 1 (x / 2 ^ Z.of_nat k).
Proof.
  revert x. induction k as [ | k IH]; intros x Hx.
  - cbn. rewrite Z.div_1_r. lia.
  - rewrite mip_extent_S, IH by apply halve_ge_1.
    rewrite Nat2Z.inj_succ, Z.pow_succ_r by lia.
    rewrite <- Z.div_div by lia.
    unfold halve. destruct (Z.le_gt_cases 2 x) as [H2 | H2].
    + assert (1 <= x / 2) by (apply Z.div_le_lower_bound; lia).
      rewrite (Z.max_r 1 (x / 2)) by lia. reflexivity.
    + assert (x = 1) by lia. subst x. change (1 / 2) with 0.
      rewrite Z.div_0_l by lia.
      assert (0 < 2 ^ Z.of_nat k) by (apply Z.pow_pos_nonneg; lia).
      assert (Z.max 1 0 / 2 ^ Z.of_nat k <= 1)
        by (apply Z.div_le_upper_bound; lia).
      lia.
Qed.

(** ** Subresource addressing *)

Lemma SIZE_MAX_spec (plat : Platform) : SIZE_MAX plat = 2 ^ size_bits plat - 1.
Proof. reflexivity. Qed.

Lemma size_t_small (plat : Platform) (x : Z) :
  0 <= x <= SIZE_MAX plat -> size_t plat x = x.
Proof.
  intros Hx. unfold size_t, wrap. apply Z.mod_small.
  rewrite SIZE_MAX_spec in Hx. lia.
Qed.

Lemma INVALID_INDEX_is_SIZE_MAX (plat : Platform) :
  INVALID_INDEX plat = SIZE_MAX plat.
Proof. destruct plat; reflexivity. Qed.

Lemma ComputeIndex_2D_value (plat : Platform) (md : TexMetadata)
    (item mip : Z) :
  dimension md = TEX_DIMENSION_TEXTURE1D
  \/ dimension md = TEX_DIMENSION_TEXTURE2D ->
  arraySize md * mipLevels md <= SIZE_MAX plat ->
  0 <= item < arraySize md -> 0 <= mip < mipLevels md ->
  ComputeIndex plat md mip item 0 = item * mipLevels md + mip
  /\ 0 <= item * mipLevels md + mip < arraySize md * mipLevels md.
Proof.
  intros Hdim Hfit Hitem Hmip.
  assert (Hrange : 0 <= item * mipLevels md + mip
                   < arraySize md * mipLevels md) by nia.
  split; [ | exact Hrange].
  unfold ComputeIndex.
  destruct (Z.leb_spec (mipLevels md) mip); [lia | ].
  destruct Hdim as [-> | ->]; cbn [in_cases existsb orb Z.eqb
    TEX_DIMENSION_TEXTURE1D TEX_DIMENSION_TEXTURE2D Pos.eqb];
    (destruct (Z.leb_spec (arraySize md) item); [lia | ]);
    apply size_t_small; lia.
Qed.

(** C7.  For a 1D or 2D texture with arraySize = N >= 1 and
    mipLevels = M >= 1 (N * M subresources, a count that fits size_t),
    (item, mip) |-> ComputeIndex(mip, item, 0) equals item * M + mip,
    is injective on {0..N-1} x {0..M-1}, and its image is exactly
    {0..N*M-1}. *)
Theorem ComputeIndex_2D_is_a_bijection (plat : Platform) (md : TexMetadata)
    (N M : Z) :
  dimension md = TEX_DIMENSION_TEXTURE1D
  \/ dimension md = TEX_DIMENSION_TEXTURE2D ->
  arraySize md = N -> mipLevels md = M ->
  1 <= N -> 1 <= M -> N * M <= SIZE_MAX plat ->
  (forall item mip, 0 <= item < N -> 0 <= mip < M ->
     ComputeIndex plat md mip item 0 = item * M + mip
     /\ 0 <= ComputeIndex plat md mip item 0 < N * M)
  /\ (forall item mip item' mip',
        0 <= item < N -> 0 <= mip < M -> 0 <= item' < N -> 0 <= mip' < M ->
        ComputeIndex plat md mip item 0 = ComputeIndex plat md mip' item' 0 ->
        item = item' /\ mip = mip')
  /\ (forall k, 0 <= k < N * M ->
        exists item mip,
          0 <= item < N /\ 0 <= mip < M
          /\ ComputeIndex plat md mip item 0 = k).
Proof.
  intros Hdim HN HM HN1 HM1 Hfit. subst N M.
  assert (Hval : forall item mip,
             0 <= item < arraySize md -> 0 <= mip < mipLevels md ->
             ComputeIndex plat md mip item 0 = item * mipLevels md + mip
             /\ 0 <= item * mipLevels md + mip
                < arraySize md * mipLevels md)
    by (intros; apply ComputeIndex_2D_value; assumption).
  split; [ | split].
  - intros item mip Hi Hm. destruct (Hval item mip Hi Hm) as [-> Hr].
    split; [reflexivity | exact Hr].
  - intros item mip item' mip' Hi Hm Hi' Hm' Heq.
    destruct (Hval item mip Hi Hm) as [E1 _].
    destruct (Hval item' mip' Hi' Hm') as [E2 _].
    rewrite E1, E2 in Heq.
    assert (item = item') by nia. subst item'. split; [reflexivity | lia].
  - intros k Hk.
    exists (k / mipLevels md), (k mod mipLevels md).
    assert (Hmod : 0 <= k mod mipLevels md < mipLevels md)
      by (apply Z.mod_pos_bound; lia).
    assert (Hdiv : 0 <= k / mipLevels md < arraySize md).
    { split; [apply Z.div_pos; lia | ].
      apply Z.div_lt_upper_bound; lia. }
    split; [exact Hdiv | split; [exact Hmod | ]].
    destruct (Hval _ _ Hdiv Hmod) as [-> _].
    rewrite (Z.div_mod k (mipLevels md)) at 3 by lia. lia.
Qed.

Lemma ComputeIndex_2D_is_a_bijection_witness :
  (forall item mip, 0 <= item < 6 -> 0 <= mip < 9 ->
     ComputeIndex Win64 cube_array_metadata mip item 0 = item * 9 + mip
     /\ 0 <= ComputeIndex Win64 cube_array_metadata mip item 0 < 6 * 9)
  /\ (forall item mip item' mip',
        0 <= item < 6 -> 0 <= mip < 9 -> 0 <= item' < 6 -> 0 <= mip' < 9 ->
        ComputeIndex Win64 cube_array_metadata mip item 0
        = ComputeIndex Win64 cube_array_metadata mip' item' 0 ->
        item = item' /\ mip = mip')
  /\ (forall k, 0 <= k < 6 * 9 ->
        exists item mip,
          0 <= item < 6 /\ 0 <= mip < 9
          /\ ComputeIndex Win64 cube_array_metadata mip item 0 = k).
Proof.
  apply (ComputeIndex_2D_is_a_bijection Win64 cube_array_metadata 6 9);
    try reflexivity; try lia.
  - right. reflexivity.
  - vm_compute. discriminate.
Defined.

Lemma slices_before_bound (n : nat) (d : Z) :
  1 <= d ->
  0 <= slices_before d n
  /\ slices_before d n + 2 * mip_extent d n <= 2 * d + Z.of_nat n.
Proof.
  revert d. induction n as [ | n IH]; intros d Hd.
  - cbn. lia.
  - cbn [slices_before]. rewrite mip_extent_S.
    destruct (IH (halve d) (halve_ge_1 d)) as [IH0 IH1].
    assert (2 * halve d <= d + 1).
    { unfold halve. destruct (Z.le_gt_cases 2 d).
      - assert (1 <= d / 2) by (apply Z.div_le_lower_bound; lia).
        pose proof (Z.mul_div_le d 2). lia.
      - assert (d = 1) by lia. subst d. cbn. lia. }
    lia.
Qed.

Lemma ComputeIndex_loop_depth (plat : Platform) (n : nat) (index d : Z) :
  1 <= d -> snd (ComputeIndex_loop plat n index d) = mip_extent d n.
Proof.
  revert index d. induction n as [ | n IH]; intros index d Hd.
  - reflexivity.
  - cbn [ComputeIndex_loop]. rewrite mip_extent_S, shrink_halve by assumption.
    apply IH, halve_ge_1.
Qed.

Lemma ComputeIndex_loop_index (plat : Platform) (n : nat) (index d : Z) :
  1 <= d -> 0 <= index ->
  index + 2 * d + Z.of_nat n <= SIZE_MAX plat ->
  fst (ComputeIndex_loop plat n index d) = index + slices_before d n.
Proof.
  revert index d. induction n as [ | n IH]; intros index d Hd Hi Hfit.
  - cbn. lia.
  - cbn [ComputeIndex_loop slices_before].
    rewrite size_t_small, shrink_halve by lia.
    assert (2 * halve d <= d + 1).
    { unfold halve. destruct (Z.le_gt_cases 2 d).
      - assert (1 <= d / 2) by (apply Z.div_le_lower_bound; lia).
        pose proof (Z.mul_div_le d 2). lia.
      - assert (d = 1) by lia. subst d. cbn. lia. }
    rewrite IH; [lia | apply halve_ge_1 | lia | lia].
Qed.

(** C10.  For a 3D texture (depth >= 1, and few enough slices for their
    count to fit size_t), ComputeIndex returns size_t(-1) when
    mip >= mipLevels, when item > 0, and when slice is at least the
    depth at level mip (the base depth halved mip times, never below
    1);  for every smaller slice it returns a valid index, namely the
    number of slices of the levels below mip plus slice. *)
Theorem ComputeIndex_3D_invalid_exactly_out_of_range (plat : Platform)
    (md : TexMetadata) (mip item slice : Z) :
  dimension md = TEX_DIMENSION_TEXTURE3D ->
  1 <= depth md ->
  2 * depth md + mipLevels md <= SIZE_MAX plat ->
  0 <= mip -> 0 <= item -> 0 <= slice ->
  let level_depth := mip_extent (depth md) (Z.to_nat mip) in
  (mipLevels md <= mip -> ComputeIndex plat md mip item slice = INVALID_INDEX plat)
  /\ (0 < item -> ComputeIndex plat md mip item slice = INVALID_INDEX plat)
  /\ (level_depth <= slice ->
      ComputeIndex plat md mip item slice = INVALID_INDEX plat)
  /\ (mip < mipLevels md -> item = 0 -> slice < level_depth ->
      ComputeIndex plat md mip item slice
      = slices_before (depth md) (Z.to_nat mip) + slice
      /\ ComputeIndex plat md mip item slice <> INVALID_INDEX plat).
Proof.
  intros Hdim Hd Hfit Hmip Hitem Hslice level_depth.
  unfold ComputeIndex. rewrite Hdim.
  cbn [in_cases existsb orb]. 
  change (TEX_DIMENSION_TEXTURE3D =? TEX_DIMENSION_TEXTURE1D) with false.
  change (TEX_DIMENSION_TEXTURE3D =? TEX_DIMENSION_TEXTURE2D) with false.
  change (TEX_DIMENSION_TEXTURE3D =? TEX_DIMENSION_TEXTURE3D) with true.
  cbn [orb].
  pose proof (ComputeIndex_loop_depth plat (Z.to_nat mip) 0 (depth md) Hd) as Hdepth.
  destruct (ComputeIndex_loop plat (Z.to_nat mip) 0 (depth md)) as [index d] eqn:Hloop.
  cbn [snd] in Hdepth. fold level_depth in Hdepth. subst d.
  destruct (Z.leb_spec (mipLevels md) mip) as [Hge | Hlt].
  { repeat split; intros; try reflexivity; lia. }
  destruct (Z.ltb_spec 0 item) as [Hpos | Hzero].
  { repeat split; intros; try reflexivity; lia. }
  destruct (Z.leb_spec level_depth slice) as [Hout | Hin].
  { repeat split; intros; try reflexivity; lia. }
  split; [intros; lia | split; [intros; lia | split; [intros; lia | ]]].
  intros _ _ _.
  pose proof (ComputeIndex_loop_index plat (Z.to_nat mip) 0 (depth md)
                Hd (Z.le_refl 0)) as Hindex.
  rewrite Hloop in Hindex. cbn [fst] in Hindex.
  rewrite Hindex by lia. clear Hindex.
  destruct (slices_before_bound (Z.to_nat mip) (depth md) Hd) as [Hs0 Hs1].
  fold level_depth in Hs1.
  rewrite INVALID_INDEX_is_SIZE_MAX.
  rewrite size_t_small by lia. split; [lia | lia].
Qed.

Lemma ComputeIndex_3D_invalid_exactly_out_of_range_witness :
  let level_depth := mip_extent 16 (Z.to_nat 2) in
  (7 <= 2 -> ComputeIndex Win64 volume_metadata 2 0 3 = INVALID_INDEX Win64)
  /\ (0 < 0 -> ComputeIndex Win64 volume_metadata 2 0 3 = INVALID_INDEX Win64)
  /\ (level_depth <= 3 ->
      ComputeIndex Win64 volume_metadata 2 0 3 = INVALID_INDEX Win64)
  /\ (2 < 7 -> 0 = 0 -> 3 < level_depth ->
      ComputeIndex Win64 volume_metadata 2 0 3
      = slices_before 16 (Z.to_nat 2) + 3
      /\ ComputeIndex Win64 volume_metadata 2 0 3 <> INVALID_INDEX Win64).
Proof.
  apply (ComputeIndex_3D_invalid_exactly_out_of_range
           Win64 volume_metadata 2 0 3);
    try reflexivity; try lia; vm_compute; discriminate.
Defined.

(** ** Pitch of block-compressed formats *)

Lemma in_cases_cons (x a : Z) (l : list Z) :
  in_cases x (a :: l) = true -> x = a \/ in_cases x l = true.
Proof.
  unfold in_cases. cbn [existsb]. intros H.
  apply orb_true_iff in H. destruct H as [H | H].
  - left. apply Z.eqb_eq. exact H.
  - right. exact H.
Qed.

Ltac split_cases H :=
  repeat (apply in_cases_cons in H; destruct H as [H | H]);
  [ .. | discriminate H ].

Lemma ComputePitch_switch_compressed (fmt : DXGI_FORMAT) (w h flags : Z) :
  IsCompressed fmt = true ->
  ComputePitch_switch fmt w h flags = Some (bc_pitch (block_bytes fmt) w h flags).
Proof.
  intros H. unfold IsCompressed in H.
  split_cases H; subst fmt; reflexivity.
Qed.

Lemma u64_small (x : Z) : 0 <= x < 2 ^ 64 -> u64 x = x.
Proof. intros. unfold u64, wrap. apply Z.mod_small. assumption. Qed.

Lemma block_bytes_cases (fmt : DXGI_FORMAT) :
  block_bytes fmt = 8 \/ block_bytes fmt = 16.
Proof. unfold block_bytes. destruct (in_cases _ _); auto. Qed.

Lemma bc_pitch_default (B w h : Z) :
  B = 8 \/ B = 16 ->
  0 <= w < 2 ^ 31 -> 0 <= h < 2 ^ 31 ->
  bc_pitch B w h CP_FLAGS_NONE
  = (Z.max 1 (ceil_quarter w) * B,
     Z.max 1 (ceil_quarter w) * B * Z.max 1 (ceil_quarter h))
  /\ 0 <= Z.max 1 (ceil_quarter w) * B < 2 ^ 34
  /\ 0 <= Z.max 1 (ceil_quarter w) * B * Z.max 1 (ceil_quarter h) < 2 ^ 64.
Proof.
  intros HB Hw Hh. unfold bc_pitch, ceil_quarter.
  change (has_flag CP_FLAGS_NONE CP_FLAGS_BAD_DXTN_TAILS) with false. cbv iota.
  rewrite (u64_small (w + 3)), (u64_small (h + 3)) by lia.
  assert (Hqw : 0 <= (w + 3) / 4 < 2 ^ 29 + 1).
  { split; [apply Z.div_pos; lia | apply Z.div_lt_upper_bound; lia]. }
  assert (Hqh : 0 <= (h + 3) / 4 < 2 ^ 29 + 1).
  { split; [apply Z.div_pos; lia | apply Z.div_lt_upper_bound; lia]. }
  set (nbw := Z.max 1 ((w + 3) / 4)) in *.
  set (nbh := Z.max 1 ((h + 3) / 4)) in *.
  assert (1 <= nbw <= 2 ^ 29) by lia.
  assert (1 <= nbh <= 2 ^ 29) by lia.
  assert (Hp : 0 <= nbw * B < 2 ^ 34) by (destruct HB; subst B; lia).
  assert (Hs : 0 <= nbw * B * nbh < 2 ^ 64).
  { split; [apply Z.mul_nonneg_nonneg; lia | ].
    apply Z.le_lt_trans with (2 ^ 34 * 2 ^ 29); [ | reflexivity].
    apply Z.mul_le_mono_nonneg; lia. }
  rewrite (u64_small (nbw * B)) by lia.
  rewrite (u64_small (nbw * B * nbh)) by lia.
  auto.
Qed.




(** ** The overflow check of ComputePitch *)

(** C3 as stated fails on the 64-bit targets: a 2^31 x 2^31 surface of
    a 128-bit format needs a slice of 2^66 bytes, more than size_t can
    hold, and ComputePitch returns S_OK with the slice pitch reduced
    modulo 2^64, that is 0. *)
Lemma ComputePitch_wraps_on_64_bit_counterexample :
  SIZE_MAX Win64 < exact_slicePitch_128bpp (2 ^ 31) (2 ^ 31)
  /\ ComputePitch Win64 Fmt.R32G32B32A32_FLOAT (2 ^ 31) (2 ^ 31) CP_FLAGS_NONE
     = (S_OK, Some (2 ^ 35, 0)).
Proof. split; reflexivity. Qed.

(** The same on a 32-bit target, where the check exists but looks at
    the 64-bit product after it has wrapped: a P208 surface of width
    3 * 2^30 and height 2863311531 needs 2^64 + 2^31 bytes, and
    ComputePitch returns S_OK with a slice pitch of 2^31. *)
Example ComputePitch_wraps_on_32_bit :
  3 * 2 ^ 30 <= SIZE_MAX Win32 /\ 2863311531 <= SIZE_MAX Win32
  /\ (3 * 2 ^ 30) * 2863311531 * 2 = 2 ^ 64 + 2 ^ 31
  /\ ComputePitch Win32 Fmt.WIN10_P208 (3 * 2 ^ 30) 2863311531 CP_FLAGS_NONE
     = (S_OK, Some (3 * 2 ^ 30, 2 ^ 31)).
Proof. repeat split; vm_compute; congruence. Qed.

Lemma size_t_range (plat : Platform) (x : Z) : 0 <= size_t plat x <= SIZE_MAX plat.
Proof.
  unfold size_t, wrap. rewrite SIZE_MAX_spec.
  assert (0 <= x mod 2 ^ size_bits plat < 2 ^ size_bits plat)
    by (apply Z.mod_pos_bound; destruct plat; reflexivity).
  lia.
Qed.

(** C3, as the code has it.  On the 32-bit targets, whenever the pitch
    or the slice that ComputePitch has computed in 64-bit arithmetic
    exceeds UINT32_MAX, it returns HRESULT_E_ARITHMETIC_OVERFLOW with
    both outputs zero, and otherwise S_OK with exactly these values;
    on the 64-bit targets there is no check: every call that gets past
    the format switch returns S_OK.  On either target the values
    written lie within size_t. *)
Theorem ComputePitch_overflow_check_is_32_bit_only (fmt : DXGI_FORMAT)
    (w h flags pitch slice : Z) :
  ComputePitch_switch fmt w h flags = Some (pitch, slice) ->
  0 <= pitch -> 0 <= slice ->
  (UINT32_MAX < pitch \/ UINT32_MAX < slice ->
     ComputePitch Win32 fmt w h flags
     = (HRESULT_E_ARITHMETIC_OVERFLOW, Some (0, 0)))
  /\ (pitch <= UINT32_MAX /\ slice <= UINT32_MAX ->
     ComputePitch Win32 fmt w h flags = (S_OK, Some (pitch, slice)))
  /\ (exists rowPitch slicePitch,
        ComputePitch Win64 fmt w h flags = (S_OK, Some (rowPitch, slicePitch))
        /\ rowPitch = pitch mod 2 ^ 64 /\ slicePitch = slice mod 2 ^ 64
        /\ 0 <= rowPitch <= SIZE_MAX Win64
        /\ 0 <= slicePitch <= SIZE_MAX Win64).
Proof.
  intros Hsw Hp Hs. unfold ComputePitch. rewrite Hsw.
  split; [ | split].
  - intros Hover.
    replace ((UINT32_MAX <? pitch) || (UINT32_MAX <? slice)) with true;
      [reflexivity | ].
    symmetry. apply orb_true_iff.
    destruct Hover; [left | right]; apply Z.ltb_lt; assumption.
  - intros [Hpl Hsl].
    replace ((UINT32_MAX <? pitch) || (UINT32_MAX <? slice)) with false.
    + unfold size_t, wrap. cbn [size_bits]. unfold UINT32_MAX in *.
      rewrite !Z.mod_small by lia. reflexivity.
    + symmetry. apply orb_false_iff. split; apply Z.ltb_ge; assumption.
  - exists (size_t Win64 pitch), (size_t Win64 slice).
    repeat split; try reflexivity; apply size_t_range.
Qed.

Lemma ComputePitch_overflow_check_is_32_bit_only_witness :
  (UINT32_MAX < 2 ^ 18 \/ UINT32_MAX < 2 ^ 32 ->
     ComputePitch Win32 Fmt.R32G32B32A32_FLOAT 16384 16384 CP_FLAGS_NONE
     = (HRESULT_E_ARITHMETIC_OVERFLOW, Some (0, 0)))
  /\ (2 ^ 18 <= UINT32_MAX /\ 2 ^ 32 <= UINT32_MAX ->
     ComputePitch Win32 Fmt.R32G32B32A32_FLOAT 16384 16384 CP_FLAGS_NONE
     = (S_OK, Some (2 ^ 18, 2 ^ 32)))
  /\ (exists rowPitch slicePitch,
        ComputePitch Win64 Fmt.R32G32B32A32_FLOAT 16384 16384 CP_FLAGS_NONE
        = (S_OK, Some (rowPitch, slicePitch))
        /\ rowPitch = 2 ^ 18 mod 2 ^ 64 /\ slicePitch = 2 ^ 32 mod 2 ^ 64
        /\ 0 <= rowPitch <= SIZE_MAX Win64
        /\ 0 <= slicePitch <= SIZE_MAX Win64).
Proof.
  apply (ComputePitch_overflow_check_is_32_bit_only
           Fmt.R32G32B32A32_FLOAT 16384 16384 CP_FLAGS_NONE (2 ^ 18) (2 ^ 32));
    [reflexivity | lia | lia].
Defined.

(** ** Layout planning and materialization *)

Lemma bnd_u64 (x B : Z) : bnd x B -> bnd (u64 x) B.
Proof.
  unfold bnd, u64, wrap. intros [H0 H1].
  pose proof (Z.mod_pos_bound x (2 ^ 64) eq_refl).
  pose proof (Z.mod_le x (2 ^ 64) H0 eq_refl). lia.
Qed.

Lemma bnd_add (x y A B : Z) : bnd x A -> bnd y B -> bnd (x + y) (A + B).
Proof. unfold bnd. lia. Qed.

Lemma bnd_mul (x y A B : Z) : bnd x A -> bnd y B -> bnd (x * y) (A * B).
Proof. unfold bnd. intros [? ?] [? ?]. split; [nia | ]. apply Z.mul_le_mono_nonneg; lia. Qed.

Lemma bnd_div (x c A : Z) : 0 < c -> bnd x A -> bnd (x / c) (A / c).
Proof.
  unfold bnd. intros Hc [H0 H1].
  split; [apply Z.div_pos; lia | apply Z.div_le_mono; lia].
Qed.

Lemma bnd_shiftr (x k A : Z) :
  0 <= k -> bnd x A -> bnd (Z.shiftr x k) (Z.shiftr A k).
Proof.
  intros Hk H. rewrite !Z.shiftr_div_pow2 by assumption.
  apply bnd_div; [apply Z.pow_pos_nonneg; lia | assumption].
Qed.

Lemma bnd_max (x y A B : Z) : bnd x A -> bnd y B -> bnd (Z.max x y) (Z.max A B).
Proof. unfold bnd. lia. Qed.

Lemma bnd_const (c : Z) : 0 <= c -> bnd c c.
Proof. unfold bnd. lia. Qed.

Lemma bnd_weaken (x A B : Z) : bnd x A -> A <= B -> bnd x B.
Proof. unfold bnd. lia. Qed.

(** Bounds every sub-expression of a pitch formula from bounds on its
    variables found among the hypotheses. *)
Ltac solve_bnd :=
  repeat first
    [ eassumption
    | apply bnd_u64
    | eapply bnd_add
    | eapply bnd_mul
    | eapply bnd_max
    | eapply bnd_shiftr; [lia | ]
    | eapply bnd_div; [lia | ]
    | apply bnd_const; lia ].

Lemma BitsPerPixel_bound (fmt : DXGI_FORMAT) : bnd (BitsPerPixel fmt) 128.
Proof.
  unfold BitsPerPixel, bnd.
  repeat match goal with
         | |- context [if ?c then _ else _] => destruct c
         end; lia.
Qed.

Lemma ComputePitch_switch_bound (fmt : DXGI_FORMAT) (w h flags pitch slice : Z) :
  bnd w MAX_TEXTURE_DIMENSION -> bnd h MAX_TEXTURE_DIMENSION ->
  ComputePitch_switch fmt w h flags = Some (pitch, slice) ->
  bnd pitch MAX_SLICE /\ bnd slice MAX_SLICE.
Proof.
  intros Hw Hh. unfold ComputePitch_switch, bc_pitch, linear_pitch.
  pose proof (BitsPerPixel_bound fmt) as Hbpp.
  set (bpp := BitsPerPixel fmt) in *.
  cbv zeta.
  repeat match goal with
         | |- context [if ?c then _ else _] => destruct c
         end;
    intros Heq; try discriminate Heq;
    injection Heq as <- <-;
    (split; (eapply bnd_weaken; [solve_bnd | vm_compute; discriminate])).
Qed.

Lemma FAILED_overflow : FAILED HRESULT_E_ARITHMETIC_OVERFLOW = true.
Proof. reflexivity. Qed.

Lemma ComputePitch_slice_bound (plat : Platform) (fmt : DXGI_FORMAT)
    (w h flags rowPitch slicePitch : Z) :
  bnd w MAX_TEXTURE_DIMENSION -> bnd h MAX_TEXTURE_DIMENSION ->
  pitch_or_fail (ComputePitch plat fmt w h flags) = Some (rowPitch, slicePitch) ->
  bnd slicePitch MAX_SLICE.
Proof.
  intros Hw Hh. unfold pitch_or_fail, ComputePitch.
  destruct (ComputePitch_switch fmt w h flags) as [[pitch slice] | ] eqn:Hsw;
    [ | cbn [fst snd]; change (FAILED E_INVALIDARG) with true; discriminate].
  destruct (ComputePitch_switch_bound _ _ _ _ _ _ Hw Hh Hsw) as [_ [Hs0 Hs1]].
  destruct plat.
  - destruct (Z.ltb_spec UINT32_MAX pitch); cbn [orb fst snd];
      [rewrite FAILED_overflow; discriminate | ].
    destruct (Z.ltb_spec UINT32_MAX slice); cbn [orb fst snd];
      [rewrite FAILED_overflow; discriminate | ].
    change (FAILED S_OK) with false. cbv iota.
    intros Heq. injection Heq as _ <-.
    rewrite size_t_small; [split; assumption | ].
    split; [assumption | ]. exact H0.
  - cbn [fst snd]. change (FAILED S_OK) with false. cbv iota.
    intros Heq. injection Heq as _ <-.
    rewrite size_t_small; [split; assumption | ].
    split; [assumption | ].
    apply Z.le_trans with MAX_SLICE; [assumption | ].
    vm_compute; discriminate.
Qed.

Lemma shrink_bnd (v B : Z) : bnd v B -> bnd (shrink v) B.
Proof.
  unfold shrink. intros Hv. destruct (1 <? v); [ | assumption].
  pose proof (bnd_shiftr v 1 B ltac:(lia) Hv) as [H0 H1].
  split; [assumption | ].
  apply Z.le_trans with (Z.shiftr B 1); [assumption | ].
  rewrite Z.shiftr_div_pow2 by lia. destruct Hv.
  apply Z.div_le_upper_bound; lia.
Qed.

Lemma shrink_ge_1 (v : Z) : 1 <= v -> 1 <= shrink v.
Proof. intros Hv. rewrite shrink_halve by assumption. apply halve_ge_1. Qed.

Lemma array_set_length {A : Type} (l : list A) (i : nat) (x : A) :
  length (array_set l i x) = length l.
Proof.
  revert i. induction l as [ | a l IH]; intros [ | i]; cbn; congruence.
Qed.

Lemma tiled_extend (imgs : list Image) (n : nat) (start stop : Z) (img : Image) :
  tiled imgs n start stop -> (n < length imgs)%nat ->
  img_pixels img = Some stop ->
  tiled (array_set imgs n img) (S n) start (stop + img_slicePitch img).
Proof.
  revert n start. induction imgs as [ | a imgs IH]; intros n start Ht Hn Hp.
  - cbn in Hn. lia.
  - destruct n as [ | n].
    + cbn in Ht. subst stop. cbn. split; [assumption | reflexivity].
    + destruct Ht as [Ha Ht]. cbn [array_set]. split; [assumption | ].
      apply IH; [assumption | cbn in Hn; lia | assumption].
Qed.

Lemma tiled_last (imgs : list Image) (n : nat) (start stop : Z) :
  tiled imgs (S n) start stop ->
  exists img p,
    nth_error imgs n = Some img /\ img_pixels img = Some p
    /\ p + img_slicePitch img = stop.
Proof.
  revert imgs start. induction n as [ | n IH]; intros [ | a imgs] start Ht;
    try contradiction.
  - destruct Ht as [Ha Ht]. cbn in Ht. exists a, start. auto.
  - destruct Ht as [_ Ht]. apply IH in Ht. exact Ht.
Qed.

Lemma SIZE_MAX_ge (plat : Platform) : 2 ^ 32 - 1 <= SIZE_MAX plat.
Proof. destruct plat; vm_compute; discriminate. Qed.

Lemma plan_step (plat : Platform) (total nimages slicePitch : Z) :
  plan_ok (total, nimages) -> nimages < MAX_IMAGES ->
  bnd slicePitch MAX_SLICE ->
  (u64 (total + slicePitch), size_t plat (nimages + 1))
  = (total + slicePitch, nimages + 1)
  /\ plan_ok (total + slicePitch, nimages + 1).
Proof.
  unfold plan_ok, bnd, MAX_IMAGES, MAX_SLICE. cbn [fst snd].
  intros (Hn & Ht0 & Ht1) Hmax [Hs0 Hs1].
  pose proof (SIZE_MAX_ge plat).
  rewrite u64_small, size_t_small by lia.
  split; [reflexivity | lia].
Qed.

Section Layout.

Variable plat : Platform.
Variable fmt : DXGI_FORMAT.
Variable flags : Z.
Variable pixelSize nImages : Z.

Lemma Setup_one_follows (w h rowPitch slicePitch total nimages : Z)
    (st : Setup) :
  agrees (total, nimages) st ->
  0 <= nimages < nImages -> nImages <= Z.of_nat (length (st_images st)) ->
  nimages < MAX_IMAGES ->
  total + slicePitch <= pixelSize ->
  exists st',
    Setup_one plat fmt pixelSize nImages w h rowPitch slicePitch st
    = (true, st')
    /\ agrees (total + slicePitch, nimages + 1) st'
    /\ length (st_images st') = length (st_images st).
Proof.
  intros (Hp & Hi & Ht) Hn Hlen Hmax Hfit. cbn [fst snd] in *.
  unfold Setup_one. rewrite Hi, Hp.
  destruct (Z.leb_spec nImages nimages); [lia | ].
  cbn [st_pixels].
  destruct (Z.ltb_spec pixelSize (total + slicePitch)); [lia | ].
  eexists. split; [reflexivity | ].
  pose proof (SIZE_MAX_ge plat). unfold MAX_IMAGES in Hmax.
  split; [ | cbn; apply array_set_length].
  unfold agrees. cbn [fst snd st_pixels st_index st_images].
  rewrite size_t_small by lia.
  split; [reflexivity | split; [reflexivity | ]].
  replace (Z.to_nat (nimages + 1)) with (S (Z.to_nat nimages)) by lia.
  apply (tiled_extend (st_images st) (Z.to_nat nimages) 0 total
           (mkImage w h fmt rowPitch slicePitch (Some total)));
    [assumption | lia | reflexivity].
Qed.

(** *** Mip levels of one array item *)

Lemma Determine_levels_grows (n : nat) (w h : Z) (acc acc' : Plan) :
  bnd w MAX_TEXTURE_DIMENSION -> bnd h MAX_TEXTURE_DIMENSION ->
  plan_ok acc -> snd acc + Z.of_nat n <= MAX_IMAGES ->
  Determine_levels plat fmt flags n w h acc = Some acc' ->
  plan_ok acc' /\ snd acc' = snd acc + Z.of_nat n /\ fst acc <= fst acc'.
Proof.
  revert w h acc. induction n as [ | n IH]; intros w h acc Hw Hh Hok Hmax.
  - cbn. intros Heq. injection Heq as <-. repeat split; try apply Hok; lia.
  - cbn [Determine_levels].
    destruct (pitch_or_fail (ComputePitch plat fmt w h flags))
      as [[rowPitch slicePitch] | ] eqn:Hcp; [ | discriminate].
    destruct acc as [total nimages]. cbn [fst snd] in *.
    pose proof (ComputePitch_slice_bound _ _ _ _ _ _ _ Hw Hh Hcp) as Hs.
    destruct (plan_step plat total nimages slicePitch Hok ltac:(lia) Hs)
      as [-> Hok'].
    intros Heq.
    apply IH in Heq; try (apply shrink_bnd; assumption); try assumption;
      cbn [fst snd] in *; [ | lia].
    destruct Hs. repeat split; try apply Heq; lia.
Qed.

Lemma Setup_levels_follows (n : nat) (w h : Z) (acc acc' : Plan) (st : Setup) :
  bnd w MAX_TEXTURE_DIMENSION -> bnd h MAX_TEXTURE_DIMENSION ->
  plan_ok acc -> snd acc + Z.of_nat n <= MAX_IMAGES ->
  Determine_levels plat fmt flags n w h acc = Some acc' ->
  fst acc' <= pixelSize -> snd acc' <= nImages ->
  nImages <= Z.of_nat (length (st_images st)) ->
  agrees acc st ->
  exists st',
    Setup_levels plat fmt flags pixelSize nImages n w h st = (true, st')
    /\ agrees acc' st'
    /\ length (st_images st') = length (st_images st).
Proof.
  revert w h acc st. induction n as [ | n IH];
    intros w h acc st Hw Hh Hok Hmax Hplan Hfit Hcount Hlen Hag.
  - cbn in Hplan. injection Hplan as <-. exists st. cbn. auto.
  - cbn [Determine_levels] in Hplan. cbn [Setup_levels].
    destruct (pitch_or_fail (ComputePitch plat fmt w h flags))
      as [[rowPitch slicePitch] | ] eqn:Hcp; [ | discriminate].
    destruct acc as [total nimages]. cbn [fst snd] in *.
    pose proof (ComputePitch_slice_bound _ _ _ _ _ _ _ Hw Hh Hcp) as Hs.
    destruct (plan_step plat total nimages slicePitch Hok ltac:(lia) Hs)
      as [Estep Hok'].
    rewrite Estep in Hplan.
    pose proof (Determine_levels_grows n (shrink w) (shrink h) _ _
                  (shrink_bnd _ _ Hw) (shrink_bnd _ _ Hh) Hok'
                  ltac:(cbn [snd]; lia) Hplan) as (_ & Hcnt & Hmono).
    cbn [fst snd] in Hcnt, Hmono.
    destruct Hag as (Hp & Hi & Ht). cbn [fst snd] in Hp, Hi, Ht.
    rewrite Hi. destruct (Z.leb_spec nImages nimages); [lia | ].
    destruct (Setup_one_follows w h rowPitch slicePitch total nimages st)
      as (st1 & -> & Hag1 & Hlen1);
      [repeat split; assumption | destruct Hok; cbn [snd] in *; lia
      | assumption | lia | lia | ].
    destruct (IH (shrink w) (shrink h) _ st1
                (shrink_bnd _ _ Hw) (shrink_bnd _ _ Hh) Hok'
                ltac:(cbn [snd]; lia) Hplan Hfit Hcount
                ltac:(rewrite Hlen1; assumption) Hag1)
      as (st' & -> & Hag' & Hlen').
    exists st'. repeat split; try apply Hag'. congruence.
Qed.

(** *** Depth slices of one mip level of a volume *)

Lemma Determine_slices_grows (slicePitch : Z) (n : nat) (acc : Plan) :
  bnd slicePitch MAX_SLICE ->
  plan_ok acc -> snd acc + Z.of_nat n <= MAX_IMAGES ->
  let acc' := Determine_slices plat slicePitch n acc in
  plan_ok acc' /\ snd acc' = snd acc + Z.of_nat n /\ fst acc <= fst acc'.
Proof.
  intros Hs. revert acc. induction n as [ | n IH]; intros acc Hok Hmax.
  - cbn. repeat split; try apply Hok; lia.
  - cbn [Determine_slices]. destruct acc as [total nimages].
    cbn [fst snd] in *.
    destruct (plan_step plat total nimages slicePitch Hok ltac:(lia) Hs)
      as [-> Hok'].
    specialize (IH _ Hok' ltac:(cbn [snd]; lia)). cbn [fst snd] in IH.
    destruct Hs. repeat split; try apply IH; lia.
Qed.

Lemma Setup_slices_follows (w h rowPitch slicePitch : Z) (n : nat)
    (acc : Plan) (st : Setup) :
  bnd slicePitch MAX_SLICE ->
  plan_ok acc -> snd acc + Z.of_nat n <= MAX_IMAGES ->
  let acc' := Determine_slices plat slicePitch n acc in
  fst acc' <= pixelSize -> snd acc' <= nImages ->
  nImages <= Z.of_nat (length (st_images st)) ->
  agrees acc st ->
  exists st',
    Setup_slices plat fmt pixelSize nImages w h rowPitch slicePitch n st
    = (true, st')
    /\ agrees acc' st'
    /\ length (st_images st') = length (st_images st).
Proof.
  intros Hs. revert acc st. induction n as [ | n IH];
    intros acc st Hok Hmax acc' Hfit Hcount Hlen Hag.
  - exists st. cbn. auto.
  - subst acc'. cbn [Determine_slices] in *. cbn [Setup_slices].
    destruct acc as [total nimages]. cbn [fst snd] in *.
    destruct (plan_step plat total nimages slicePitch Hok ltac:(lia) Hs)
      as [Estep Hok'].
    rewrite Estep in *.
    pose proof (Determine_slices_grows slicePitch n _ Hs Hok'
                  ltac:(cbn [snd]; lia)) as (_ & Hcnt & Hmono).
    cbn [fst snd] in Hcnt, Hmono.
    destruct (Setup_one_follows w h rowPitch slicePitch total nimages st)
      as (st1 & -> & Hag1 & Hlen1);
      [assumption | destruct Hok; cbn [snd] in *; lia
      | assumption | lia | lia | ].
    destruct (IH _ st1 Hok' ltac:(cbn [snd]; lia) Hfit Hcount
                ltac:(rewrite Hlen1; assumption) Hag1)
      as (st' & -> & Hag' & Hlen').
    exists st'. repeat split; try apply Hag'. congruence.
Qed.

(** *** Mip levels of a volume *)

Lemma volume_images_nonneg (n : nat) (d : Z) : 1 <= d -> 0 <= volume_images d n.
Proof.
  revert d. induction n as [ | n IH]; intros d Hd; cbn; [lia | ].
  specialize (IH _ (shrink_ge_1 d Hd)). lia.
Qed.

Lemma Determine_volume_grows (n : nat) (w h d : Z) (acc acc' : Plan) :
  bnd w MAX_TEXTURE_DIMENSION -> bnd h MAX_TEXTURE_DIMENSION -> 1 <= d ->
  plan_ok acc -> snd acc + volume_images d n <= MAX_IMAGES ->
  Determine_volume plat fmt flags n w h d acc = Some acc' ->
  plan_ok acc' /\ snd acc' = snd acc + volume_images d n
  /\ fst acc <= fst acc'.
Proof.
  revert w h d acc. induction n as [ | n IH]; intros w h d acc Hw Hh Hd Hok Hmax.
  - cbn. intros Heq. injection Heq as <-. repeat split; try apply Hok; lia.
  - cbn [Determine_volume volume_images] in *.
    destruct (pitch_or_fail (ComputePitch plat fmt w h flags))
      as [[rowPitch slicePitch] | ] eqn:Hcp; [ | discriminate].
    pose proof (ComputePitch_slice_bound _ _ _ _ _ _ _ Hw Hh Hcp) as Hs.
    pose proof (volume_images_nonneg n _ (shrink_ge_1 d Hd)) as Hrest.
    pose proof (Determine_slices_grows slicePitch (Z.to_nat d) acc Hs Hok
                  ltac:(lia)) as (Hok1 & Hcnt1 & Hmono1).
    intros Heq.
    apply IH in Heq; try (apply shrink_bnd; assumption);
      try apply shrink_ge_1; try assumption; [ | lia].
    destruct Heq as (Hok' & Hcnt' & Hmono').
    repeat split; try apply Hok'; lia.
Qed.

Lemma Setup_volume_follows (n : nat) (w h d : Z) (acc acc' : Plan)
    (st : Setup) :
  bnd w MAX_TEXTURE_DIMENSION -> bnd h MAX_TEXTURE_DIMENSION -> 1 <= d ->
  plan_ok acc -> snd acc + volume_images d n <= MAX_IMAGES ->
  Determine_volume plat fmt flags n w h d acc = Some acc' ->
  fst acc' <= pixelSize -> snd acc' <= nImages ->
  nImages <= Z.of_nat (length (st_images st)) ->
  agrees acc st ->
  exists st',
    Setup_volume plat fmt flags pixelSize nImages n w h d st = (true, st')
    /\ agrees acc' st'
    /\ length (st_images st') = length (st_images st).
Proof.
  revert w h d acc st. induction n as [ | n IH];
    intros w h d acc st Hw Hh Hd Hok Hmax Hplan Hfit Hcount Hlen Hag.
  - cbn in Hplan. injection Hplan as <-. exists st. cbn. auto.
  - cbn [Determine_volume volume_images] in *. cbn [Setup_volume].
    destruct (pitch_or_fail (ComputePitch plat fmt w h flags))
      as [[rowPitch slicePitch] | ] eqn:Hcp; [ | discriminate].
    pose proof (ComputePitch_slice_bound _ _ _ _ _ _ _ Hw Hh Hcp) as Hs.
    pose proof (volume_images_nonneg n _ (shrink_ge_1 d Hd)) as Hrest.
    pose proof (Determine_slices_grows slicePitch (Z.to_nat d) acc Hs Hok
                  ltac:(lia)) as (Hok1 & Hcnt1 & Hmono1).
    pose proof (Determine_volume_grows n (shrink w) (shrink h) (shrink d) _ _
                  (shrink_bnd _ _ Hw) (shrink_bnd _ _ Hh) (shrink_ge_1 d Hd)
                  Hok1 ltac:(lia) Hplan) as (_ & Hcnt' & Hmono').
    destruct (Setup_slices_follows w h rowPitch slicePitch (Z.to_nat d) acc st
                Hs Hok ltac:(lia) ltac:(lia) ltac:(lia) Hlen Hag)
      as (st1 & -> & Hag1 & Hlen1).
    destruct (IH (shrink w) (shrink h) (shrink d) _ st1
                (shrink_bnd _ _ Hw) (shrink_bnd _ _ Hh) (shrink_ge_1 d Hd)
                Hok1 ltac:(lia) Hplan Hfit Hcount
                ltac:(rewrite Hlen1; assumption) Hag1)
      as (st' & -> & Hag' & Hlen').
    exists st'. repeat split; try apply Hag'. congruence.
Qed.

End Layout.

Section LayoutOfMetadata.

Variable plat : Platform.
Variable md : TexMetadata.
Variable flags : Z.
Variable pixelSize nImages : Z.

Hypothesis Hvalid : valid_metadata md.

Lemma valid_width_bnd : bnd (width md) MAX_TEXTURE_DIMENSION.
Proof. unfold bnd, MAX_TEXTURE_DIMENSION. destruct Hvalid as (_ & ? & _). lia. Qed.

Lemma valid_height_bnd : bnd (height md) MAX_TEXTURE_DIMENSION.
Proof.
  unfold bnd, MAX_TEXTURE_DIMENSION. destruct Hvalid as (_ & _ & ? & _). lia.
Qed.

Lemma Determine_items_grows (n : nat) (acc acc' : Plan) :
  plan_ok acc -> snd acc + Z.of_nat n * mipLevels md <= MAX_IMAGES ->
  Determine_items plat md flags n acc = Some acc' ->
  plan_ok acc' /\ snd acc' = snd acc + Z.of_nat n * mipLevels md
  /\ fst acc <= fst acc'.
Proof.
  pose proof valid_width_bnd as Hw. pose proof valid_height_bnd as Hh.
  assert (Hm : 1 <= mipLevels md <= 15) by apply Hvalid.
  revert acc. induction n as [ | n IH]; intros acc Hok Hmax.
  - cbn. intros Heq. injection Heq as <-. repeat split; try apply Hok; lia.
  - cbn [Determine_items].
    destruct (Determine_levels plat (format md) flags
                (Z.to_nat (mipLevels md)) (width md) (height md) acc)
      as [acc1 | ] eqn:Hlev; [ | discriminate].
    apply Determine_levels_grows in Hlev; try assumption; [ | nia].
    destruct Hlev as (Hok1 & Hcnt1 & Hmono1).
    intros Heq. apply IH in Heq; [ | assumption | nia].
    destruct Heq as (Hok' & Hcnt' & Hmono').
    repeat split; try apply Hok'; nia.
Qed.

Lemma Setup_items_follows (n : nat) (acc acc' : Plan) (st : Setup) :
  plan_ok acc -> snd acc + Z.of_nat n * mipLevels md <= MAX_IMAGES ->
  Determine_items plat md flags n acc = Some acc' ->
  fst acc' <= pixelSize -> snd acc' <= nImages ->
  nImages <= Z.of_nat (length (st_images st)) ->
  agrees acc st ->
  exists st',
    Setup_items plat md flags pixelSize nImages n st = (true, st')
    /\ agrees acc' st'
    /\ length (st_images st') = length (st_images st).
Proof.
  pose proof valid_width_bnd as Hw. pose proof valid_height_bnd as Hh.
  assert (Hm : 1 <= mipLevels md <= 15) by apply Hvalid.
  revert acc st. induction n as [ | n IH];
    intros acc st Hok Hmax Hplan Hfit Hcount Hlen Hag.
  - cbn in Hplan. injection Hplan as <-. exists st. cbn. auto.
  - cbn [Determine_items] in Hplan. cbn [Setup_items].
    destruct (Determine_levels plat (format md) flags
                (Z.to_nat (mipLevels md)) (width md) (height md) acc)
      as [acc1 | ] eqn:Hlev; [ | discriminate].
    assert (Hmax0 : snd acc + Z.of_nat (Z.to_nat (mipLevels md)) <= MAX_IMAGES)
      by nia.
    pose proof (Determine_levels_grows plat (format md) flags _ _ _ _ _
                  Hw Hh Hok Hmax0 Hlev) as (Hok1 & Hcnt1 & Hmono1).
    assert (Hmax1 : snd acc1 + Z.of_nat n * mipLevels md <= MAX_IMAGES) by nia.
    pose proof (Determine_items_grows n acc1 acc' Hok1 Hmax1 Hplan)
      as (_ & Hcnt' & Hmono').
    destruct (Setup_levels_follows plat (format md) flags pixelSize nImages
                _ _ _ acc acc1 st Hw Hh Hok Hmax0 Hlev)
      as (st1 & -> & Hag1 & Hlen1); [lia | nia | assumption | assumption | ].
    destruct (IH acc1 st1 Hok1 Hmax1 Hplan Hfit Hcount)
      as (st' & -> & Hag' & Hlen'); [rewrite Hlen1; assumption | assumption | ].
    exists st'. repeat split; try apply Hag'. congruence.
Qed.

Lemma volume_images_bound (n : nat) (d : Z) :
  1 <= d -> volume_images d n <= 2 * d + Z.of_nat n.
Proof.
  revert d. induction n as [ | n IH]; intros d Hd; cbn [volume_images]; [lia | ].
  specialize (IH _ (shrink_ge_1 d Hd)).
  assert (2 * shrink d <= d + 1).
  { rewrite shrink_halve by assumption. unfold halve.
    destruct (Z.le_gt_cases 2 d).
    - assert (1 <= d / 2) by (apply Z.div_le_lower_bound; lia).
      pose proof (Z.mul_div_le d 2). lia.
    - assert (d = 1) by lia. subst d. cbn. lia. }
  lia.
Qed.

(** The planner and the materializer walk the same subresources: the
    materializer run on a descriptor array of the planned length and
    a buffer of the planned size ends with its index at the planned
    count and its cursor at the planned size. *)
Lemma SetupImageArray_follows_plan :
  DetermineImageArray plat md flags = Some (nImages, pixelSize) ->
  1 <= nImages
  /\ forall images : list Image,
       Z.of_nat (length images) = nImages ->
       exists st,
         SetupImageArray_run plat pixelSize md flags (Some images) nImages
         = (true, st)
         /\ st_index st = nImages /\ st_pixels st = pixelSize
         /\ length (st_images st) = length images
         /\ tiled (st_images st) (Z.to_nat nImages) 0 pixelSize.
Proof.
  pose proof valid_width_bnd as Hw. pose proof valid_height_bnd as Hh.
  destruct Hvalid as (Hdim & _ & _ & Hd & Ha & Hm).
  unfold DetermineImageArray, SetupImageArray_run.
  assert (Hstart : plan_ok (0, 0)) by (unfold plan_ok; cbn; lia).
  assert (Hfinal : forall total nimages,
             plan_ok (total, nimages) -> nimages <= MAX_IMAGES ->
             match plat with
             | Win32 => if UINT32_MAX <? total then None
                        else Some (nimages, size_t plat total)
             | Win64 => Some (nimages, size_t plat total)
             end = Some (nImages, pixelSize) ->
             nimages = nImages /\ total = pixelSize).
  { intros total nimages (Hn0 & Ht0 & Ht1) Hn. cbn [fst snd] in *.
    unfold MAX_IMAGES, MAX_SLICE in *.
    destruct plat.
    - destruct (Z.ltb_spec UINT32_MAX total); [discriminate | ].
      unfold UINT32_MAX in *. rewrite size_t_small by (cbn; lia).
      intros Heq. injection Heq as <- <-. auto.
    - rewrite size_t_small by (cbn; lia).
      intros Heq. injection Heq as <- <-. auto. }
  assert (Hitems : Z.of_nat (Z.to_nat (arraySize md)) * mipLevels md
                   <= MAX_IMAGES) by (unfold MAX_IMAGES; nia).
  pose proof (volume_images_bound (Z.to_nat (mipLevels md)) (depth md)
                ltac:(lia)) as Hvb.
  assert (Hslices : volume_images (depth md) (Z.to_nat (mipLevels md))
                    <= MAX_IMAGES) by (unfold MAX_IMAGES; lia).
  assert (Hfirst : depth md
                   <= volume_images (depth md) (Z.to_nat (mipLevels md))).
  { destruct (Z.to_nat (mipLevels md)) as [ | k] eqn:Hk; [lia | ].
    cbn [volume_images].
    pose proof (volume_images_nonneg k _ (shrink_ge_1 (depth md) ltac:(lia))).
    lia. }
  destruct Hdim as [Hdim | [Hdim | Hdim]]; rewrite Hdim;
    cbn [in_cases existsb orb];
    change (TEX_DIMENSION_TEXTURE1D =? TEX_DIMENSION_TEXTURE1D) with true;
    change (TEX_DIMENSION_TEXTURE2D =? TEX_DIMENSION_TEXTURE1D) with false;
    change (TEX_DIMENSION_TEXTURE2D =? TEX_DIMENSION_TEXTURE2D) with true;
    change (TEX_DIMENSION_TEXTURE3D =? TEX_DIMENSION_TEXTURE1D) with false;
    change (TEX_DIMENSION_TEXTURE3D =? TEX_DIMENSION_TEXTURE2D) with false;
    change (TEX_DIMENSION_TEXTURE3D =? TEX_DIMENSION_TEXTURE3D) with true;
    cbn [orb].
  1, 2:
    destruct (Determine_items plat md flags (Z.to_nat (arraySize md)) (0, 0))
      as [[total nimages] | ] eqn:Hplan; [ | discriminate];
    intros Hret;
    pose proof (Determine_items_grows _ _ _ Hstart Hitems Hplan)
      as (Hok & Hcnt & _);
    cbn [fst snd] in Hcnt;
    destruct (Hfinal total nimages Hok ltac:(lia) Hret) as [-> ->];
    (split; [nia | ]);
    intros images Hlen;
    destruct (Z.eqb_spec (arraySize md) 0); [lia | ];
    destruct (Z.eqb_spec (mipLevels md) 0); [lia | ];
    cbn [orb];
    destruct (Setup_items_follows _ _ _ (mkSetup 0 0 images)
                Hstart Hitems Hplan)
      as (st & -> & (Hp & Hi & Ht) & Hl);
    [ cbn [fst]; lia | cbn [snd]; lia | cbn [st_images]; lia
    | unfold agrees; cbn; auto | ];
    cbn [fst snd st_images] in *;
    exists st; auto.
  destruct (Determine_volume plat (format md) flags (Z.to_nat (mipLevels md))
              (width md) (height md) (depth md) (0, 0))
    as [[total nimages] | ] eqn:Hplan; [ | discriminate].
  intros Hret.
  pose proof (Determine_volume_grows plat (format md) flags _ _ _ _ _ _
                Hw Hh (proj1 Hd) Hstart Hslices Hplan)
    as (Hok & Hcnt & _).
  cbn [fst snd] in Hcnt.
  destruct (Hfinal total nimages Hok ltac:(lia) Hret) as [-> ->].
  split; [lia | ].
  intros images Hlen.
  destruct (Z.eqb_spec (mipLevels md) 0); [lia | ].
  destruct (Z.eqb_spec (depth md) 0); [lia | ].
  cbn [orb].
  destruct (Setup_volume_follows plat (format md) flags pixelSize nImages
              _ _ _ _ _ _ (mkSetup 0 0 images) Hw Hh (proj1 Hd) Hstart
              Hslices Hplan)
    as (st & -> & (Hp & Hi & Ht) & Hl);
    [ cbn [fst]; lia | cbn [snd]; lia | cbn [st_images]; lia
    | unfold agrees; cbn; auto | ].
  cbn [fst snd st_images] in *.
  exists st. auto.
Qed.

End LayoutOfMetadata.

(** On the 64-bit targets the planner cannot fail on a format whose
    pitch is defined: whether ComputePitch knows a format does not
    depend on the extents. *)
Lemma ComputePitch_switch_defined (fmt : DXGI_FORMAT) (flags w h w' h' : Z) :
  ComputePitch_switch fmt w h flags <> None ->
  ComputePitch_switch fmt w' h' flags <> None.
Proof.
  unfold ComputePitch_switch.
  repeat match goal with
         | |- context [if ?c then _ else _] => destruct c
         end; intros H; first [discriminate | exact H].
Qed.

Lemma ComputePitch_Win64_succeeds (fmt : DXGI_FORMAT) (flags w h : Z) :
  ComputePitch_switch fmt w h flags <> None ->
  exists rowPitch slicePitch,
    pitch_or_fail (ComputePitch Win64 fmt w h flags)
    = Some (rowPitch, slicePitch).
Proof.
  intros H. unfold pitch_or_fail, ComputePitch.
  destruct (ComputePitch_switch fmt w h flags) as [[pitch slice] | ];
    [ | contradiction].
  eexists. eexists. reflexivity.
Qed.

Lemma Determine_levels_Win64_succeeds (fmt : DXGI_FORMAT) (flags : Z)
    (n : nat) (w h : Z) (acc : Plan) :
  ComputePitch_switch fmt w h flags <> None ->
  exists acc', Determine_levels Win64 fmt flags n w h acc = Some acc'.
Proof.
  revert w h acc. induction n as [ | n IH]; intros w h acc Hdef.
  - exists acc. reflexivity.
  - cbn [Determine_levels].
    destruct (ComputePitch_Win64_succeeds fmt flags w h Hdef)
      as (rowPitch & slicePitch & ->).
    destruct acc as [total nimages].
    apply IH. exact (ComputePitch_switch_defined _ _ _ _ _ _ Hdef).
Qed.

Lemma Determine_items_Win64_succeeds (md : TexMetadata) (flags : Z)
    (n : nat) (acc : Plan) :
  ComputePitch_switch (format md) (width md) (height md) flags <> None ->
  exists acc', Determine_items Win64 md flags n acc = Some acc'.
Proof.
  intros Hdef. revert acc. induction n as [ | n IH]; intros acc.
  - exists acc. reflexivity.
  - cbn [Determine_items].
    destruct (Determine_levels_Win64_succeeds (format md) flags
                (Z.to_nat (mipLevels md)) (width md) (height md) acc Hdef)
      as [acc1 ->].
    apply IH.
Qed.

Lemma Determine_volume_Win64_succeeds (fmt : DXGI_FORMAT) (flags : Z)
    (n : nat) (w h d : Z) (acc : Plan) :
  ComputePitch_switch fmt w h flags <> None ->
  exists acc', Determine_volume Win64 fmt flags n w h d acc = Some acc'.
Proof.
  revert w h d acc. induction n as [ | n IH]; intros w h d acc Hdef.
  - exists acc. reflexivity.
  - cbn [Determine_volume].
    destruct (ComputePitch_Win64_succeeds fmt flags w h Hdef)
      as (rowPitch & slicePitch & ->).
    apply IH. exact (ComputePitch_switch_defined _ _ _ _ _ _ Hdef).
Qed.

(** A plan exists: on the 64-bit targets DetermineImageArray succeeds
    on every metadata of a known dimension kind whose format has a
    pitch. *)
Lemma DetermineImageArray_Win64_succeeds (md : TexMetadata) (cpFlags : Z) :
  dimension md = TEX_DIMENSION_TEXTURE1D
  \/ dimension md = TEX_DIMENSION_TEXTURE2D
  \/ dimension md = TEX_DIMENSION_TEXTURE3D ->
  ComputePitch_switch (format md) (width md) (height md) cpFlags <> None ->
  exists nImages pixelSize,
    DetermineImageArray Win64 md cpFlags = Some (nImages, pixelSize).
Proof.
  intros Hdim Hdef. unfold DetermineImageArray.
  destruct Hdim as [Hdim | [Hdim | Hdim]]; rewrite Hdim;
    cbn [in_cases existsb orb];
    change (TEX_DIMENSION_TEXTURE1D =? TEX_DIMENSION_TEXTURE1D) with true;
    change (TEX_DIMENSION_TEXTURE2D =? TEX_DIMENSION_TEXTURE1D) with false;
    change (TEX_DIMENSION_TEXTURE2D =? TEX_DIMENSION_TEXTURE2D) with true;
    change (TEX_DIMENSION_TEXTURE3D =? TEX_DIMENSION_TEXTURE1D) with false;
    change (TEX_DIMENSION_TEXTURE3D =? TEX_DIMENSION_TEXTURE2D) with false;
    change (TEX_DIMENSION_TEXTURE3D =? TEX_DIMENSION_TEXTURE3D) with true;
    cbn [orb].
  1, 2:
    destruct (Determine_items_Win64_succeeds md cpFlags
                (Z.to_nat (arraySize md)) (0, 0) Hdef) as [[total nimages] ->];
    eexists; eexists; reflexivity.
  destruct (Determine_volume_Win64_succeeds (format md) cpFlags
              (Z.to_nat (mipLevels md)) (width md) (height md) (depth md)
              (0, 0) Hdef) as [[total nimages] ->].
  eexists. eexists. reflexivity.
Qed.

(** C6.  For every valid ImageMetadata and alignment policy on which
    DetermineImageArray succeeds with (nImages, pixelSize):  a repeated
    call gives the same pair;  and SetupImageArray, run on any
    descriptor array of nImages entries and a buffer of exactly
    pixelSize bytes, succeeds with its index at nImages and its cursor
    at pixelSize, whatever the array held before.  The descriptors tile
    the buffer from offset 0 without gaps, and the byte range of the
    last one ends exactly at pixelSize. *)
Theorem layout_plan_and_materialization_agree (plat : Platform)
    (md : TexMetadata) (cpFlags nImages pixelSize : Z) :
  valid_metadata md ->
  DetermineImageArray plat md cpFlags = Some (nImages, pixelSize) ->
  (forall nImages' pixelSize',
     DetermineImageArray plat md cpFlags = Some (nImages', pixelSize') ->
     nImages' = nImages /\ pixelSize' = pixelSize)
  /\ 1 <= nImages
  /\ forall images : list Image,
       Z.of_nat (length images) = nImages ->
       exists st last p,
         SetupImageArray_run plat pixelSize md cpFlags (Some images) nImages
         = (true, st)
         /\ SetupImageArray plat pixelSize md cpFlags (Some images) nImages
            = (true, st_images st)
         /\ st_index st = nImages
         /\ st_pixels st = pixelSize
         /\ length (st_images st) = length images
         /\ tiled (st_images st) (Z.to_nat nImages) 0 pixelSize
         /\ nth_error (st_images st) (Z.to_nat (nImages - 1)) = Some last
         /\ img_pixels last = Some p
         /\ p + img_slicePitch last = pixelSize.
Proof.
  intros Hvalid Hplan.
  destruct (SetupImageArray_follows_plan plat md cpFlags pixelSize nImages
              Hvalid Hplan) as [Hn Hrun].
  split; [ | split; [exact Hn | ]].
  - intros n' s' Hplan'. rewrite Hplan in Hplan'.
    injection Hplan' as <- <-. auto.
  - intros images Hlen.
    destruct (Hrun images Hlen) as (st & Hst & Hi & Hp & Hl & Ht).
    assert (Hlast : tiled (st_images st) (S (Z.to_nat (nImages - 1))) 0 pixelSize)
      by (replace (S (Z.to_nat (nImages - 1))) with (Z.to_nat nImages) by lia;
          exact Ht).
    destruct (tiled_last _ _ _ _ Hlast) as (last & p & Hnth & Hpx & Hend).
    exists st, last, p.
    unfold SetupImageArray. rewrite Hst. auto 10.
Qed.

Example small_array_plan :
  DetermineImageArray Win64 small_array_metadata CP_FLAGS_NONE = Some (6, 168).
Proof. reflexivity. Qed.

Lemma layout_plan_and_materialization_agree_witness :
  (forall nImages' pixelSize',
     DetermineImageArray Win64 small_array_metadata CP_FLAGS_NONE
     = Some (nImages', pixelSize') ->
     nImages' = 6 /\ pixelSize' = 168)
  /\ 1 <= 6
  /\ forall images : list Image,
       Z.of_nat (length images) = 6 ->
       exists st last p,
         SetupImageArray_run Win64 168 small_array_metadata CP_FLAGS_NONE
           (Some images) 6 = (true, st)
         /\ SetupImageArray Win64 168 small_array_metadata CP_FLAGS_NONE
              (Some images) 6 = (true, st_images st)
         /\ st_index st = 6
         /\ st_pixels st = 168
         /\ length (st_images st) = length images
         /\ tiled (st_images st) (Z.to_nat 6) 0 168
         /\ nth_error (st_images st) (Z.to_nat (6 - 1)) = Some last
         /\ img_pixels last = Some p
         /\ p + img_slicePitch last = 168.
Proof.
  apply (layout_plan_and_materialization_agree
           Win64 small_array_metadata CP_FLAGS_NONE 6 168).
  - unfold valid_metadata. cbn. repeat split; lia.
  - reflexivity.
Defined.

Example small_array_layout :
  SetupImageArray Win64 168 small_array_metadata CP_FLAGS_NONE
    (Some (repeat zero_image 6)) 6
  = (true,
     [ mkImage 4 4 Fmt.R8G8B8A8_UNORM 16 64 (Some 0);
       mkImage 2 2 Fmt.R8G8B8A8_UNORM 8 16 (Some 64);
       mkImage 1 1 Fmt.R8G8B8A8_UNORM 4 4 (Some 80);
       mkImage 4 4 Fmt.R8G8B8A8_UNORM 16 64 (Some 84);
       mkImage 2 2 Fmt.R8G8B8A8_UNORM 8 16 (Some 148);
       mkImage 1 1 Fmt.R8G8B8A8_UNORM 4 4 (Some 164) ]).
Proof. reflexivity. Qed.

(** ** Scanline expansion *)

(** C9.  ExpandScanline applied to a row of one B5G6R5 pixel of value
    0xF800 (bytes 00 F8), with destination format R8G8B8A8_UNORM and a
    destination of one 32-bit pixel, returns true and stores a pixel
    whose red channel is 0xFF, whose green and blue channels are 0 and
    whose alpha channel is 0xFF, whatever the destination held and
    whatever the flags. *)
Theorem ExpandScanline_565_full_red (d0 d1 d2 d3 : byte) (tflags : Z) :
  load16 [x00; xf8] 0 = 0xF800
  /\ exists dst',
       ExpandScanline [d0; d1; d2; d3] 4 Fmt.R8G8B8A8_UNORM
         [x00; xf8] 2 Fmt.B5G6R5_UNORM tflags = (true, dst')
       /\ dst' = [xff; x00; x00; xff]
       /\ red8 (load32 dst' 0) = 0xFF
       /\ green8 (load32 dst' 0) = 0x00
       /\ blue8 (load32 dst' 0) = 0x00
       /\ alpha8 (load32 dst' 0) = 0xFF.
Proof.
  split; [reflexivity | ].
  exists [xff; x00; x00; xff]. repeat split; reflexivity.
Qed.

(** ** Channel swizzle *)

Lemma nth_array_set_same {A : Type} (l : list A) (i : nat) (x d : A) :
  (i < length l)%nat -> nth i (array_set l i x) d = x.
Proof.
  revert i. induction l as [ | a l IH]; intros [ | i] Hi; cbn in *;
    try lia; [reflexivity | apply IH; lia].
Qed.

Lemma nth_array_set_other {A : Type} (l : list A) (i j : nat) (x d : A) :
  i <> j -> nth j (array_set l i x) d = nth j l d.
Proof.
  revert i j. induction l as [ | a l IH]; intros [ | i] [ | j] Hij; cbn;
    try reflexivity; try congruence.
  apply IH. congruence.
Qed.

Lemma byte_val_range (b : byte) : 0 <= byte_val b < 256.
Proof.
  unfold byte_val. pose proof (Byte.to_N_bounded b). lia.
Qed.

Lemma byte_val_byte_of (z : Z) : byte_val (byte_of z) = z mod 256.
Proof.
  unfold byte_val, byte_of.
  pose proof (Z.mod_pos_bound z 256 eq_refl) as Hr.
  destruct (Byte.of_N (Z.to_N (z mod 256))) as [b | ] eqn:E.
  - apply Byte.to_of_N in E. rewrite E. lia.
  - apply Byte.of_N_None_iff in E. lia.
Qed.

Lemma store8_length (buf : list byte) (off v : Z) :
  length (store8 buf off v) = length buf.
Proof. apply array_set_length. Qed.

Lemma store32_length (buf : list byte) (off v : Z) :
  length (store32 buf off v) = length buf.
Proof. unfold store32. rewrite !store8_length. reflexivity. Qed.

Lemma load8_store8_same (buf : list byte) (off v : Z) :
  0 <= off < Z.of_nat (length buf) ->
  load8 (store8 buf off v) off = v mod 256.
Proof.
  intros Hoff. unfold load8, store8.
  rewrite nth_array_set_same by lia. apply byte_val_byte_of.
Qed.

Lemma load8_store8_other (buf : list byte) (off off' v : Z) :
  0 <= off -> 0 <= off' -> off <> off' ->
  load8 (store8 buf off v) off' = load8 buf off'.
Proof.
  intros H0 H0' Hne. unfold load8, store8.
  rewrite nth_array_set_other by lia. reflexivity.
Qed.

Lemma load8_store32_outside (buf : list byte) (off v j : Z) :
  0 <= off -> 0 <= j -> j < off \/ off + 4 <= j ->
  load8 (store32 buf off v) j = load8 buf j.
Proof.
  intros H0 Hj Hout. unfold store32.
  rewrite !load8_store8_other by lia. reflexivity.
Qed.

Lemma load32_range (buf : list byte) (off : Z) : 0 <= load32 buf off < 2 ^ 32.
Proof.
  unfold load32, load8.
  repeat match goal with
         | |- context [byte_val ?b] =>
             pose proof (byte_val_range b); generalize dependent (byte_val b);
             intros
         end.
  lia.
Qed.

Lemma word_of_its_bytes (v : Z) :
  v mod 256 + 2 ^ 8 * (Z.shiftr v 8 mod 256)
  + 2 ^ 16 * (Z.shiftr v 16 mod 256) + 2 ^ 24 * (Z.shiftr v 24 mod 256)
  = v mod 2 ^ 32.
Proof.
  rewrite !Z.shiftr_div_pow2 by lia.
  change (2 ^ 8) with 256. change (2 ^ 16) with 65536.
  change (2 ^ 24) with 16777216. change (2 ^ 32) with 4294967296.
  Z.div_mod_to_equations. lia.
Qed.

Lemma load32_store32_same (buf : list byte) (off v : Z) :
  0 <= off -> off + 4 <= Z.of_nat (length buf) ->
  load32 (store32 buf off v) off = u32 v.
Proof.
  intros H0 Hlen. unfold load32, store32, u32, wrap.
  rewrite (load8_store8_same _ (off + 3)) by (rewrite !store8_length; lia).
  rewrite (load8_store8_other _ (off + 3) (off + 2)) by lia.
  rewrite (load8_store8_same _ (off + 2)) by (rewrite !store8_length; lia).
  rewrite (load8_store8_other _ (off + 3) (off + 1)) by lia.
  rewrite (load8_store8_other _ (off + 2) (off + 1)) by lia.
  rewrite (load8_store8_same _ (off + 1)) by (rewrite !store8_length; lia).
  rewrite (load8_store8_other _ (off + 3) off) by lia.
  rewrite (load8_store8_other _ (off + 2) off) by lia.
  rewrite (load8_store8_other _ (off + 1) off) by lia.
  rewrite (load8_store8_same _ off) by lia.
  apply word_of_its_bytes.
Qed.

Lemma load32_ext (a b : list byte) (off : Z) :
  (forall j, off <= j < off + 4 -> load8 a j = load8 b j) ->
  load32 a off = load32 b off.
Proof.
  intros H. unfold load32. rewrite !H by lia. reflexivity.
Qed.

Lemma SwizzleScanline_loop_spec (f : Z -> Z) (limit count : Z)
    (src : ScanlineSource) (dst : list byte) :
  0 <= count -> limit + 3 <= Z.of_nat (length dst) ->
  let r := SwizzleScanline_loop f limit count src dst in
  length r = length dst
  /\ (forall j, 0 <= j ->
        (forall k, 0 <= k -> count + 4 * k < limit ->
           j < count + 4 * k \/ count + 4 * k + 4 <= j) ->
        load8 r j = load8 dst j)
  /\ (forall k, 0 <= k -> count + 4 * k < limit ->
        load32 r (count + 4 * k)
        = u32 (f (load32 (source_of src dst) (count + 4 * k)))).
Proof.
  funelim (SwizzleScanline_loop f limit count src dst); intros Hc Hlen.
  - clear H0 Heqcall. apply Z.ltb_lt in e.
    replace (match src with
             | InPlace => load32 dst count
             | From s => load32 s count
             end) with (load32 (source_of src dst) count) in *
      by (destruct src; reflexivity).
    set (v := f (load32 (source_of src dst) count)) in *.
    set (dst' := store32 dst count v) in *.
    assert (Hlen' : length dst' = length dst) by apply store32_length.
    destruct H as (Hl & Hkeep & Hpix); [lia | rewrite Hlen'; lia | ].
    set (r := SwizzleScanline_loop f limit (count + 4) src dst') in *.
    assert (Hhead : forall j, 0 <= j < count + 4 -> load8 r j = load8 dst' j).
    { intros j Hj. apply Hkeep; [lia | ]. intros k Hk _. lia. }
    split; [congruence | split].
    + intros j Hj Hout. rewrite Hkeep.
      * apply load8_store32_outside; try lia.
        specialize (Hout 0 (Z.le_refl 0)). lia.
      * assumption.
      * intros k Hk Hlt.
        specialize (Hout (k + 1)). lia.
    + intros k Hk Hlt.
      destruct (Z.eq_dec k 0) as [-> | Hne].
      * replace (count + 4 * 0) with count by lia.
        rewrite (load32_ext r dst') by (intros; apply Hhead; lia).
        apply load32_store32_same; lia.
      * replace (count + 4 * k) with (count + 4 + 4 * (k - 1)) by lia.
        rewrite Hpix by lia. do 2 f_equal.
        destruct src as [ | s]; [ | reflexivity]. cbn [source_of].
        apply load32_ext. intros j Hj.
        apply load8_store32_outside; lia.
  - clear H Heqcall. apply Z.ltb_ge in e.
    split; [reflexivity | split; [reflexivity | ]].
    intros k Hk Hlt. lia.
Qed.

Ltac name_masks :=
  change 0xff with (Z.ones 8) in *;
  change 0x0000ff00 with (Z.shiftl (Z.ones 8) 8) in *;
  change 0x00ff0000 with (Z.shiftl (Z.ones 8) 16) in *;
  change 0xff000000 with (Z.shiftl (Z.ones 8) 24) in *;
  change 0x3 with (Z.ones 2) in *;
  change 0x3ff with (Z.ones 10) in *;
  change 0x000ffc00 with (Z.shiftl (Z.ones 10) 10) in *;
  change 0x3ff00000 with (Z.shiftl (Z.ones 10) 20) in *;
  change 0xC0000000 with (Z.shiftl (Z.ones 2) 30) in *.

Lemma swizzle_8_8_8_8_swaps (tflags t : Z) :
  swapped_rb8 (has_flag tflags TEXP_SCANLINE_SETALPHA) t
    (u32 (swizzle_8_8_8_8 tflags t)).
Proof.
  unfold swapped_rb8, red8, green8, blue8, alpha8, swizzle_8_8_8_8, u32, wrap.
  destruct (has_flag tflags TEXP_SCANLINE_SETALPHA);
    name_masks; repeat split; Z.bitblast.
Qed.

Lemma swizzle_10_10_10_2_swaps (tflags t : Z) :
  swapped_rb10 (has_flag tflags TEXP_SCANLINE_SETALPHA) t
    (u32 (swizzle_10_10_10_2 tflags t)).
Proof.
  unfold swapped_rb10, red10, green10, blue10, alpha2, swizzle_10_10_10_2,
    u32, wrap.
  destruct (has_flag tflags TEXP_SCANLINE_SETALPHA);
    name_masks; repeat split; Z.bitblast.
Qed.

Lemma swizzle_yuy2_swaps (t : Z) : swapped_bytes t (u32 (swizzle_yuy2 t)).
Proof.
  unfold swapped_bytes, word_byte, swizzle_yuy2, u32, wrap.
  change (8 * 0) with 0. change (8 * 1) with 8.
  change (8 * 2) with 16. change (8 * 3) with 24.
  name_masks; repeat split; Z.bitblast.
Qed.

Lemma SwizzleScanline_loop_swizzled (f : Z -> Z) (swapped : Z -> Z -> Prop)
    (src : ScanlineSource) (dst : list byte) (size : Z) :
  (forall t, swapped t (u32 (f t))) ->
  4 <= size <= Z.of_nat (length dst) ->
  swizzled swapped src dst (SwizzleScanline_loop f (size - 3) 0 src dst) size.
Proof.
  intros Hf Hsize.
  destruct (SwizzleScanline_loop_spec f (size - 3) 0 src dst)
    as (Hl & Hkeep & Hpix); [lia | lia | ].
  split; [exact Hl | split].
  - intros i Hi Hin.
    replace (4 * i) with (0 + 4 * i) by lia.
    rewrite Hpix by lia. apply Hf.
  - intros j Hj.
    assert (0 <= size / 4) by (apply Z.div_pos; lia).
    apply Hkeep; [lia | ].
    intros k Hk Hlt. right.
    assert (k + 1 <= size / 4) by (apply Z.div_le_lower_bound; lia).
    lia.
Qed.

Lemma rgba8_not_rgb10a2 (format : DXGI_FORMAT) :
  in_cases format rgba8_family = true ->
  in_cases format rgb10a2_family = false.
Proof.
  intros H. unfold rgba8_family in H. split_cases H; subst; reflexivity.
Qed.

Lemma rgb10a2_not_others (format : DXGI_FORMAT) :
  in_cases format rgb10a2_family = true ->
  in_cases format rgba8_family = false /\ in_cases format [Fmt.YUY2] = false.
Proof.
  intros H. unfold rgb10a2_family in H. split_cases H; subst; split; reflexivity.
Qed.

(** C5, as the code has it.  On a scanline of at least 4 bytes,
    SwizzleScanline exchanges the red and blue channels of every whole
    pixel (alpha kept, or forced to all ones under SETALPHA), in place
    and while copying: for the RGBA8/BGRA8 family always, for the
    R10G10B10A2 family only under the LEGACY flag;  under the LEGACY
    flag it exchanges the bytes of each half of every YUY2 pixel.  In
    every other case it passes the bytes through: in place it does
    nothing, and when copying it copies min(outSize, inSize) bytes. *)
Theorem SwizzleScanline_swaps_red_and_blue (format : DXGI_FORMAT)
    (tflags : Z) (dst : list byte) (outSize : Z) (src : ScanlineSource)
    (inSize : Z) :
  outSize <= Z.of_nat (length dst) ->
  inSize <= Z.of_nat (length (source_of src dst)) ->
  let size := swizzle_size src outSize inSize in
  let r := SwizzleScanline dst outSize src inSize format tflags in
  let setalpha := has_flag tflags TEXP_SCANLINE_SETALPHA in
  let legacy := has_flag tflags TEXP_SCANLINE_LEGACY in
  (4 <= inSize -> 4 <= outSize ->
   in_cases format rgba8_family = true ->
   swizzled (swapped_rb8 setalpha) src dst r size)
  /\ (4 <= inSize -> 4 <= outSize ->
      in_cases format rgb10a2_family = true -> legacy = true ->
      swizzled (swapped_rb10 setalpha) src dst r size)
  /\ (4 <= inSize -> 4 <= outSize ->
      format = Fmt.YUY2 -> legacy = true ->
      swizzled swapped_bytes src dst r size)
  /\ (in_cases format rgba8_family = false ->
      legacy = false
      \/ (in_cases format rgb10a2_family = false /\ format <> Fmt.YUY2) ->
      r = passed_through src dst outSize inSize)
  /\ (inSize < 4 \/ outSize < 4 -> r = passed_through src dst outSize inSize).
Proof.
  intros Hout Hin size r setalpha legacy.
  assert (Hloop : forall f,
             4 <= inSize -> 4 <= outSize ->
             match src with
             | InPlace => SwizzleScanline_loop f (outSize - 3) 0 InPlace dst
             | From _ =>
                 SwizzleScanline_loop f (Z.min outSize inSize - 3) 0 src dst
             end = SwizzleScanline_loop f (size - 3) 0 src dst
             /\ 4 <= size <= Z.of_nat (length dst)).
  { intros f H4i H4o. subst size. destruct src; cbn [swizzle_size];
      (split; [reflexivity | lia]). }
  assert (Hsizes : 4 <= inSize -> 4 <= outSize ->
                   (4 <=? inSize) && (4 <=? outSize) = true).
  { intros. apply andb_true_iff. split; apply Z.leb_le; assumption. }
  split; [ | split; [ | split; [ | split]]].
  - intros H4i H4o Hfam. subst r. unfold SwizzleScanline.
    fold rgb10a2_family. fold rgba8_family.
    rewrite (rgba8_not_rgb10a2 _ Hfam), Hfam, (Hsizes H4i H4o).
    destruct (Hloop (swizzle_8_8_8_8 tflags) H4i H4o) as [-> Hsz].
    apply SwizzleScanline_loop_swizzled; [ | exact Hsz].
    intros t. apply swizzle_8_8_8_8_swaps.
  - intros H4i H4o Hfam Hleg. subst r. unfold SwizzleScanline.
    fold rgb10a2_family. fold rgba8_family.
    fold legacy. rewrite Hfam, (Hsizes H4i H4o), Hleg. cbn [andb].
    destruct (Hloop (swizzle_10_10_10_2 tflags) H4i H4o) as [-> Hsz].
    apply SwizzleScanline_loop_swizzled; [ | exact Hsz].
    intros t. apply swizzle_10_10_10_2_swaps.
  - intros H4i H4o -> Hleg. subst r. unfold SwizzleScanline.
    fold legacy. rewrite (Hsizes H4i H4o), Hleg.
    change (in_cases Fmt.YUY2 _) with false at 1 2.
    change (in_cases Fmt.YUY2 _) with true.
    cbv iota. cbn [andb].
    destruct (Hloop swizzle_yuy2 H4i H4o) as [-> Hsz].
    apply SwizzleScanline_loop_swizzled; [ | exact Hsz].
    intros t. apply swizzle_yuy2_swaps.
  - intros Hno8 Hother. subst r. unfold SwizzleScanline.
    fold rgb10a2_family. fold rgba8_family. fold legacy.
    rewrite Hno8.
    assert (Hpass : match src with
                    | InPlace => dst
                    | From s => memcpy dst s (Z.min outSize inSize)
                    end = passed_through src dst outSize inSize)
      by (destruct src; reflexivity).
    rewrite Hpass.
    destruct Hother as [Hleg | [Hno10 Hnoyuy]].
    + rewrite Hleg, !andb_false_r.
      repeat match goal with
             | |- context [if ?c then _ else _] => destruct c
             end; reflexivity.
    + rewrite Hno10.
      replace (in_cases format [Fmt.YUY2]) with false; [reflexivity | ].
      symmetry. unfold in_cases. cbn [existsb]. rewrite orb_false_r.
      apply Z.eqb_neq. exact Hnoyuy.
  - intros Hshort. subst r. unfold SwizzleScanline.
    assert (Hs : (4 <=? inSize) && (4 <=? outSize) = false).
    { apply andb_false_iff.
      destruct Hshort; [left | right]; apply Z.leb_gt; assumption. }
    rewrite Hs. cbn [andb].
    assert (Hpass : match src with
                    | InPlace => dst
                    | From s => memcpy dst s (Z.min outSize inSize)
                    end = passed_through src dst outSize inSize)
      by (destruct src; reflexivity).
    rewrite Hpass.
    repeat match goal with
           | |- context [if ?c then _ else _] => destruct c
           end; reflexivity.
Qed.

(** In-place swizzle of the BGRA8 pixel 0x11223344 gives 0x11443322. *)
Example SwizzleScanline_0x11223344 :
  load32 [x44; x33; x22; x11] 0 = 0x11223344
  /\ SwizzleScanline [x44; x33; x22; x11] 4 InPlace 4 Fmt.B8G8R8A8_UNORM
       TEXP_SCANLINE_NONE = [x22; x33; x44; x11]
  /\ load32 [x22; x33; x44; x11] 0 = 0x11443322.
Proof. repeat split; reflexivity. Qed.

Lemma SwizzleScanline_swaps_red_and_blue_witness :
  (4 <= Z.of_nat (length [x44; x33; x22; x11])
   /\ 4 <= Z.of_nat (length (source_of InPlace [x44; x33; x22; x11])))
  /\ swizzled (swapped_rb8 false) InPlace [x44; x33; x22; x11]
       (SwizzleScanline [x44; x33; x22; x11] 4 InPlace 4 Fmt.B8G8R8A8_UNORM
          TEXP_SCANLINE_NONE) 4.
Proof.
  split; [split; cbn; lia | ].
  apply (SwizzleScanline_swaps_red_and_blue Fmt.B8G8R8A8_UNORM
           TEXP_SCANLINE_NONE [x44; x33; x22; x11] 4 InPlace 4);
    first [reflexivity | cbn; lia].
Defined.

(** C5 as stated fails for the R10G10B10A2 family: without the LEGACY
    flag the scanline is passed through.  The pixel 0x000003FF (red
    all ones, blue zero) comes out unchanged, in place and when
    copied, so its red and blue channels are not exchanged. *)
Lemma SwizzleScanline_10_10_10_2_counterexample :
  load32 [xff; x03; x00; x00] 0 = 0x000003FF
  /\ SwizzleScanline [xff; x03; x00; x00] 4 InPlace 4 Fmt.R10G10B10A2_UNORM
       TEXP_SCANLINE_NONE = [xff; x03; x00; x00]
  /\ SwizzleScanline [x00; x00; x00; x00] 4 (From [xff; x03; x00; x00]) 4
       Fmt.R10G10B10A2_UNORM TEXP_SCANLINE_NONE = [xff; x03; x00; x00]
  /\ red10 0x000003FF = 0x3ff /\ blue10 0x000003FF = 0
  /\ ~ swapped_rb10 false 0x000003FF (load32 [xff; x03; x00; x00] 0).
Proof.
  repeat split; try reflexivity.
  intros (H & _). vm_compute in H. discriminate H.
Qed.

(** ** Header decoding *)

Example argb_header_decodes :
  DecodeDDSHeader Win64 (argb_header 64 32 1) 128 0
  = Some (mkTexMetadata 64 32 1 1 1 0 0 Fmt.B8G8R8A8_UNORM
            TEX_DIMENSION_TEXTURE2D, 0).
Proof. reflexivity. Qed.

(** C2 as stated fails: the header decoder copies width and height
    from the file without a lower bound, so a header declaring a width
    of 0 is decoded, to a metadata whose width is 0. *)
Lemma DecodeDDSHeader_zero_width_counterexample :
  DecodeDDSHeader Win64 (argb_header 0 32 1) 128 0
  = Some (mkTexMetadata 0 32 1 1 1 0 0 Fmt.B8G8R8A8_UNORM
            TEX_DIMENSION_TEXTURE2D, 0)
  /\ ~ (0 >= 1).
Proof. split; [reflexivity | lia]. Qed.

Lemma SetAlphaMode_extents (md : TexMetadata) (mode : Z) :
  width (SetAlphaMode md mode) = width md
  /\ height (SetAlphaMode md mode) = height md
  /\ depth (SetAlphaMode md mode) = depth md
  /\ arraySize (SetAlphaMode md mode) = arraySize md
  /\ mipLevels (SetAlphaMode md mode) = mipLevels md
  /\ dimension (SetAlphaMode md mode) = dimension md.
Proof. repeat split; reflexivity. Qed.

Lemma within_d3d_limits_bounds (md : TexMetadata) :
  within_d3d_limits md = true ->
  width md <= 16384 /\ height md <= 16384 /\ mipLevels md <= 15
  /\ arraySize md <= 2048 /\ depth md <= 2048.
Proof.
  unfold within_d3d_limits. intros H.
  apply andb_true_iff in H. destruct H as [H1 H2].
  apply negb_true_iff in H1, H2.
  apply orb_false_iff in H1, H2. destruct H1 as [H1 Hm], H2 as [Ha Hd].
  apply orb_false_iff in H1. destruct H1 as [Hw Hh].
  apply Z.ltb_ge in Hw, Hh, Hm, Ha, Hd. auto.
Qed.

Lemma decoded_shape_SetAlphaMode (plat : Platform) (md : TexMetadata) (mode : Z) :
  decoded_shape plat md -> decoded_shape plat (SetAlphaMode md mode).
Proof. exact (fun H => H). Qed.

(** C2, as the code has it.  For every byte buffer on which
    DecodeDDSHeader succeeds, the metadata has mipLevels >= 1, and
    arraySize >= 1 on the 64-bit targets;  depth is 1 unless the
    texture is a volume, and height is 1 for a 1D texture.  Width and
    height, and the depth of a volume, are the header fields as they
    are: at most 16384 (2048 for depth), with no lower bound, so they
    can be 0.  The counts are within the limits as well:
    mipLevels <= 15 and arraySize <= 2048. *)
Theorem DecodeDDSHeader_metadata_bounds (plat : Platform) (pSource : list byte)
    (size convFlags0 : Z) (md : TexMetadata) (convFlags : Z) :
  DecodeDDSHeader plat pSource size convFlags0 = Some (md, convFlags) ->
  1 <= mipLevels md <= 15
  /\ (plat = Win64 -> 1 <= arraySize md)
  /\ 0 <= arraySize md <= 2048
  /\ 0 <= width md <= 16384
  /\ 0 <= height md <= 16384
  /\ 0 <= depth md <= 2048
  /\ (dimension md = TEX_DIMENSION_TEXTURE1D
      \/ dimension md = TEX_DIMENSION_TEXTURE2D
      \/ dimension md = TEX_DIMENSION_TEXTURE3D)
  /\ (dimension md = TEX_DIMENSION_TEXTURE1D -> height md = 1)
  /\ (dimension md <> TEX_DIMENSION_TEXTURE3D -> depth md = 1)
  /\ (dimension md = TEX_DIMENSION_TEXTURE3D -> arraySize md = 1).
Proof.
  intros H.
  enough (Hshape : decoded_shape plat md /\ within_d3d_limits md = true).
  { destruct Hshape as [Hshape Hlim].
    apply within_d3d_limits_bounds in Hlim. unfold decoded_shape in Hshape.
    intuition lia. }
  revert H. unfold DecodeDDSHeader. intros H.
  set (hdr := read_DDS_HEADER pSource sizeof_uint32_t) in *.
  set (ext := read_DDS_HEADER_DXT10 pSource _) in *.
  pose proof (load32_range pSource (sizeof_uint32_t + 12)) as Hwidth.
  pose proof (load32_range pSource (sizeof_uint32_t + 8)) as Hheight.
  pose proof (load32_range pSource (sizeof_uint32_t + 20)) as Hdepth.
  pose proof (load32_range pSource (sizeof_uint32_t + 24)) as Hmips.
  pose proof (load32_range pSource (sizeof_uint32_t + sizeof_DDS_HEADER + 12))
    as Harray.
  change (load32 pSource (sizeof_uint32_t + 12)) with (hdr_width hdr) in Hwidth.
  change (load32 pSource (sizeof_uint32_t + 8)) with (hdr_height hdr) in Hheight.
  change (load32 pSource (sizeof_uint32_t + 20)) with (hdr_depth hdr) in Hdepth.
  change (load32 pSource (sizeof_uint32_t + 24)) with (hdr_mipMapCount hdr)
    in Hmips.
  change (load32 pSource (sizeof_uint32_t + sizeof_DDS_HEADER + 12))
    with (dx_arraySize ext) in Harray.
  clearbody hdr ext.
  pose proof (size_t_range plat (dx_arraySize ext * 6)) as Hcube.
  repeat first
    [ discriminate H
    | match type of H with
      | context [if ?c then _ else _] => destruct c eqn:?
      | context [match ?x with (_, _) => _ end] => destruct x eqn:?
      end ];
    injection H as <- <-;
    (split; [ | assumption]);
    try apply decoded_shape_SetAlphaMode;
    unfold decoded_shape;
    cbn [width height depth arraySize mipLevels dimension];
    unfold TEX_DIMENSION_TEXTURE1D, TEX_DIMENSION_TEXTURE2D,
      TEX_DIMENSION_TEXTURE3D;
    repeat split; try lia;
    intros ->; rewrite size_t_small by (cbn; lia); lia.
Qed.

Lemma DecodeDDSHeader_metadata_bounds_witness :
  DecodeDDSHeader Win64 (argb_header 64 32 1) 128 0
  = Some (mkTexMetadata 64 32 1 1 1 0 0 Fmt.B8G8R8A8_UNORM
            TEX_DIMENSION_TEXTURE2D, 0)
  /\ 1 <= 1 <= 15
  /\ (Win64 = Win64 -> 1 <= 1)
  /\ 0 <= 1 <= 2048
  /\ 0 <= 64 <= 16384
  /\ 0 <= 32 <= 16384
  /\ 0 <= 1 <= 2048.
Proof.
  split; [reflexivity | ].
  pose proof (DecodeDDSHeader_metadata_bounds Win64 (argb_header 64 32 1) 128 0
                _ _ argb_header_decodes) as H.
  cbn [width height depth arraySize mipLevels dimension] in H.
  destruct H as (H1 & H2 & H3 & H4 & H5 & H6 & _).
  repeat split; first [apply H1 | apply H2 | apply H3 | apply H4 | apply H5
                      | apply H6 | lia].
Defined.

(** On a 32-bit target the multiplication of the array size of a cube
    map by 6 wraps: an extended header declaring 2^31 cubes decodes to
    a metadata whose arraySize is 0. *)
Example DecodeDDSHeader_cube_count_wraps_on_32_bit :
  option_map (fun r => arraySize (fst r))
    (DecodeDDSHeader Win32 (dx10_cube_header (2 ^ 31)) 148 0) = Some 0
  /\ option_map (fun r => arraySize (fst r))
       (DecodeDDSHeader Win64 (dx10_cube_header 2) 148 0) = Some 12.
Proof. split; reflexivity. Qed.

(** ** Loading a file *)

Section LoaderDefect.
Variable plat : Platform.
Variable heap : Heap.
Variable os_fopen : String.string -> option (list byte).
Variable CopyImage :
  list byte -> Z -> TexMetadata -> Z -> Z -> option (list byte) ->
  ScratchImage -> bool * ScratchImage.
Variable CopyImageInPlace : Z -> ScratchImage -> bool * ScratchImage.

(** The defect behind C1 in general: whenever LoadFromDDSFile gets as
    far as Initialize (the file opens, its header decodes, no palette
    has to be read and pixel data follows) and Initialize fails, its
    HRESULT is what LoadFromDDSFile returns, converted to bool: true. *)
Lemma LoadFromDDSFile_converts_failed_HRESULT_to_true
    (path : String.string) (data : list byte) (metadata : bool)
    (image : ScratchImage) (mdata : TexMetadata) (convFlags : Z) :
  let len := Z.of_nat (length data) in
  let headerLen := Z.min len MAX_HEADER_SIZE in
  let header :=
    firstn (Z.to_nat headerLen) data
    ++ repeat x00 (Z.to_nat MAX_HEADER_SIZE - Z.to_nat headerLen) in
  let offset :=
    if has_flag convFlags CONV_FLAGS_DX10 then MAX_HEADER_SIZE
    else sizeof_uint32_t + sizeof_DDS_HEADER in
  os_fopen path = Some data ->
  sizeof_DDS_HEADER + sizeof_uint32_t <= len ->
  DecodeDDSHeader plat header headerLen 0 = Some (mdata, convFlags) ->
  has_flag convFlags CONV_FLAGS_PAL8 = false ->
  size_t plat (len - offset) <> 0 ->
  FAILED (fst (Initialize plat heap (Release image) mdata CP_FLAGS_NONE)) = true ->
  LoadFromDDSFile plat heap os_fopen CopyImage CopyImageInPlace
    (Some path) metadata image
  = (true, None,
     snd (Initialize plat heap (Release image) mdata CP_FLAGS_NONE)).
Proof.
  intros len headerLen header offset Hopen Hlen Hdec Hpal Hrem Hfail.
  unfold LoadFromDDSFile. rewrite Hopen. fold len.
  destruct (Z.ltb_spec len (sizeof_DDS_HEADER + sizeof_uint32_t)) as [Hlt | _];
    [lia | ].
  fold headerLen. unfold fread. cbn [f_pos f_data].
  change (Z.to_nat 0) with 0%nat. cbn [skipn].
  assert (Hgot : length (firstn (Z.to_nat headerLen) data) = Z.to_nat headerLen).
  { apply firstn_length_le. unfold headerLen, len. lia. }
  rewrite Hgot.
  assert (H0 : 0 <= headerLen)
    by (unfold headerLen, len, MAX_HEADER_SIZE, sizeof_uint32_t,
          sizeof_DDS_HEADER, sizeof_DDS_HEADER_DXT10; lia).
  rewrite Z2Nat.id by exact H0. rewrite Z.eqb_refl. cbn [negb].
  fold header. rewrite Hdec.
  assert (Hoff :
            (if negb (has_flag convFlags CONV_FLAGS_DX10)
             then (sizeof_uint32_t + sizeof_DDS_HEADER,
                   fseek_set (mkFILE data (0 + headerLen))
                     (sizeof_uint32_t + sizeof_DDS_HEADER))
             else (MAX_HEADER_SIZE, mkFILE data (0 + headerLen)))
            = (offset,
               if negb (has_flag convFlags CONV_FLAGS_DX10)
               then fseek_set (mkFILE data (0 + headerLen))
                      (sizeof_uint32_t + sizeof_DDS_HEADER)
               else mkFILE data (0 + headerLen))).
  { unfold offset. destruct (has_flag convFlags CONV_FLAGS_DX10); reflexivity. }
  rewrite Hoff, Hpal.
  destruct (Z.eqb_spec (size_t plat (len - offset)) 0) as [E | _];
    [contradiction | ].
  destruct (Initialize plat heap (Release image) mdata CP_FLAGS_NONE)
    as [hr image'].
  cbn [fst snd] in *. rewrite Hfail.
  unfold FAILED in Hfail. apply Z.ltb_lt in Hfail.
  unfold bool_of_integer.
  destruct (Z.eqb_spec hr 0); [lia | reflexivity].
Qed.
End LoaderDefect.

Section LoaderProperties.

Variable plat : Platform.
Variable heap : Heap.
Variable CopyImage :
  list byte -> Z -> TexMetadata -> Z -> Z -> option (list byte) ->
  ScratchImage -> bool * ScratchImage.
Variable CopyImageInPlace : Z -> ScratchImage -> bool * ScratchImage.

Example too_many_mips_header_decodes :
  DecodeDDSHeader plat (firstn 148 too_many_mips_file) 148 0
  = Some (mkTexMetadata 4 4 1 1 5 0 0 Fmt.B8G8R8A8_UNORM
            TEX_DIMENSION_TEXTURE2D, 0).
Proof. destruct plat; reflexivity. Qed.

Example too_many_mips_Initialize_fails (image : ScratchImage) :
  Initialize plat heap image
    (mkTexMetadata 4 4 1 1 5 0 0 Fmt.B8G8R8A8_UNORM TEX_DIMENSION_TEXTURE2D)
    CP_FLAGS_NONE
  = (E_INVALIDARG, image)
  /\ FAILED E_INVALIDARG = true.
Proof. split; reflexivity. Qed.

(** C1 does not hold of the code.  The header of [too_many_mips_file]
    decodes, Initialize rejects the metadata with E_INVALIDARG, and
    LoadFromDDSFile returns that HRESULT through its bool result:
    the caller is told true, with no metadata stored and an empty
    image. *)
Theorem LoadFromDDSFile_returns_true_when_Initialize_fails
    (metadata : bool) (image : ScratchImage) :
  LoadFromDDSFile plat heap (single_file mips_dds too_many_mips_file)
    CopyImage CopyImageInPlace (Some mips_dds) metadata image
  = (true, None, Release image).
Proof. destruct plat; reflexivity. Qed.

(** The same for a header declaring a width of 0. *)
Example LoadFromDDSFile_returns_true_on_zero_width
    (metadata : bool) (image : ScratchImage) :
  LoadFromDDSFile plat heap
    (single_file zero_dds (argb_header 0 32 1 ++ [x00]))
    CopyImage CopyImageInPlace (Some zero_dds) metadata image
  = (true, None, Release image).
Proof. destruct plat; reflexivity. Qed.

End LoaderProperties.

(** A well-formed file of the same shape loads. *)
Example LoadFromDDSFile_loads_a_4x4_texture (plat : Platform)
    (CopyImage :
       list byte -> Z -> TexMetadata -> Z -> Z -> option (list byte) ->
       ScratchImage -> bool * ScratchImage)
    (CopyImageInPlace : Z -> ScratchImage -> bool * ScratchImage)
    (image : ScratchImage) :
  LoadFromDDSFile plat unbounded_heap
    (single_file ok_dds (argb_header 4 4 3 ++ repeat xff 84))
    CopyImage CopyImageInPlace (Some ok_dds) true image
  = (true,
     Some (mkTexMetadata 4 4 1 1 3 0 0 Fmt.B8G8R8A8_UNORM
             TEX_DIMENSION_TEXTURE2D),
     mkScratchImage 3 84
       (mkTexMetadata 4 4 1 1 3 0 0 Fmt.B8G8R8A8_UNORM
          TEX_DIMENSION_TEXTURE2D)
       (Some [ mkImage 4 4 Fmt.B8G8R8A8_UNORM 16 64 (Some 0);
               mkImage 2 2 Fmt.B8G8R8A8_UNORM 8 16 (Some 64);
               mkImage 1 1 Fmt.B8G8R8A8_UNORM 4 4 (Some 80) ])
       (Some (repeat xff 84))).
Proof. destruct plat; reflexivity. Qed.

(* ================================================================== *)
(** * Further properties                                              *)
(* ================================================================== *)

(** ** Length of the mip chain in closed form *)

Lemma halve_max (w h : Z) :
  1 <= w -> 1 <= h -> Z.max (halve w) (halve h) = halve (Z.max w h).
Proof.
  intros Hw Hh. unfold halve.
  destruct (Z.max_spec w h) as [[Hlt ->] | [Hle ->]].
  - assert (w / 2 <= h / 2) by (apply Z.div_le_mono; lia). lia.
  - assert (h / 2 <= w / 2) by (apply Z.div_le_mono; lia). lia.
Qed.

Lemma log2_halve (x : Z) : 2 <= x -> Z.log2 (halve x) = Z.log2 x - 1.
Proof.
  intros Hx. unfold halve.
  assert (1 <= x / 2) by (apply Z.div_le_lower_bound; lia).
  rewrite Z.max_r by lia.
  rewrite <- Z.div2_div, Z.div2_spec, Z.log2_shiftr by lia.
  assert (1 <= Z.log2 x) by (apply Z.log2_le_pow2; simpl; lia).
  lia.
Qed.

Lemma CountMips_loop_log2 (w h m : Z) :
  1 <= w -> 1 <= h ->
  CountMips_loop w h m = m + Z.log2 (Z.max w h).
Proof.
  funelim (CountMips_loop w h m); intros Hw Hh.
  - rewrite !shrink_halve in * by assumption.
    rewrite (H (halve_ge_1 w) (halve_ge_1 h)).
    rewrite halve_max, log2_halve by lia. lia.
  - assert (w = 1) by lia. assert (h = 1) by lia. subst.
    change (Z.log2 (Z.max 1 1)) with 0. lia.
Qed.

Lemma CountMips_log2 (w h : Z) :
  1 <= w -> 1 <= h -> CountMips w h = Z.log2 (Z.max w h) + 1.
Proof.
  intros Hw Hh. unfold CountMips. rewrite CountMips_loop_log2 by assumption. lia.
Qed.

(** X1.  The number of mip levels of a [w] x [h] surface is
    floor(log2(max(w, h))) + 1. *)
Theorem CountMips_closed_form (w h : Z) :
  1 <= w -> 1 <= h -> CountMips w h = Z.log2 (Z.max w h) + 1.
Proof. apply CountMips_log2. Qed.

Lemma CountMips_closed_form_witness :
  CountMips 16384 600 = Z.log2 (Z.max 16384 600) + 1.
Proof. apply (CountMips_closed_form 16384 600); lia. Defined.

Lemma CountMips3D_loop_log2 (w h d m : Z) :
  1 <= w -> 1 <= h -> 1 <= d ->
  CountMips3D_loop w h d m = m + Z.log2 (Z.max (Z.max w h) d).
Proof.
  funelim (CountMips3D_loop w h d m); intros Hw Hh Hd.
  - rewrite !shrink_halve in * by assumption.
    rewrite (H (halve_ge_1 w) (halve_ge_1 h) (halve_ge_1 d)).
    rewrite !halve_max, log2_halve by lia. lia.
  - assert (w = 1) by lia. assert (h = 1) by lia. assert (d = 1) by lia.
    subst. change (Z.log2 (Z.max (Z.max 1 1) 1)) with 0. lia.
Qed.

Lemma CountMips3D_log2 (w h d : Z) :
  1 <= w -> 1 <= h -> 1 <= d ->
  CountMips3D w h d = Z.log2 (Z.max (Z.max w h) d) + 1.
Proof.
  intros Hw Hh Hd. unfold CountMips3D.
  rewrite CountMips3D_loop_log2 by assumption. lia.
Qed.

(** X2.  The number of mip levels of a [w] x [h] x [d] volume is
    floor(log2(max(w, h, d))) + 1. *)
Theorem CountMips3D_closed_form (w h d : Z) :
  1 <= w -> 1 <= h -> 1 <= d ->
  CountMips3D w h d = Z.log2 (Z.max (Z.max w h) d) + 1.
Proof. apply CountMips3D_log2. Qed.

Lemma CountMips3D_closed_form_witness :
  CountMips3D 64 64 16 = Z.log2 (Z.max (Z.max 64 64) 16) + 1.
Proof. apply (CountMips3D_closed_form 64 64 16); lia. Defined.

(** X3.  CalculateMipLevels accepts a requested level count exactly
    when it does not exceed the full chain; 0 asks for the full chain;
    the count it leaves is between 1 and the full chain, and validating
    that count again changes nothing. *)
Theorem CalculateMipLevels_spec (w h mips : Z) :
  1 <= w -> 1 <= h -> 0 <= mips ->
  let full := Z.log2 (Z.max w h) + 1 in
  (full < mips -> CalculateMipLevels w h mips = None)
  /\ (1 <= mips <= full -> CalculateMipLevels w h mips = Some mips)
  /\ (mips = 0 -> CalculateMipLevels w h mips = Some full)
  /\ (forall r, CalculateMipLevels w h mips = Some r ->
        1 <= r <= full /\ CalculateMipLevels w h r = Some r).
Proof.
  intros Hw Hh Hm full.
  assert (Hfull : CountMips w h = full).
  { unfold CountMips, full. rewrite CountMips_loop_log2 by assumption. lia. }
  assert (1 <= full) by (unfold full; pose proof (Z.log2_nonneg (Z.max w h)); lia).
  unfold CalculateMipLevels. rewrite Hfull.
  assert (Hres : forall r,
             (if 1 <? mips
              then if full <? mips then None else Some mips
              else if mips =? 0 then Some full else Some 1) = Some r ->
             1 <= r <= full).
  { intros r. destruct (Z.ltb_spec 1 mips).
    - destruct (Z.ltb_spec full mips); [discriminate | ].
      intros Hr. injection Hr as <-. lia.
    - destruct (Z.eqb_spec mips 0); intros Hr; injection Hr as <-; lia. }
  split; [ | split; [ | split]].
  - intros Hgt.
    destruct (Z.ltb_spec 1 mips); [ | lia].
    destruct (Z.ltb_spec full mips); [reflexivity | lia].
  - intros Hin.
    destruct (Z.ltb_spec 1 mips).
    + destruct (Z.ltb_spec full mips); [lia | reflexivity].
    + destruct (Z.eqb_spec mips 0); [lia | ]. f_equal. lia.
  - intros ->. reflexivity.
  - intros r Hr. apply Hres in Hr. split; [exact Hr | ].
    destruct (Z.ltb_spec 1 r).
    + destruct (Z.ltb_spec full r); [lia | reflexivity].
    + destruct (Z.eqb_spec r 0); [lia | ]. f_equal. lia.
Qed.

(** ** Format tables *)

(** X4.  Switching a format to its sRGB variant never changes the
    memory layout: MakeSRGB is idempotent, keeps valid formats valid,
    and the result has the same BitsPerPixel, the same block
    compression and the same pitch as the format it was given. *)
Theorem MakeSRGB_keeps_the_layout (fmt : DXGI_FORMAT) :
  MakeSRGB (MakeSRGB fmt) = MakeSRGB fmt
  /\ IsValid (MakeSRGB fmt) = IsValid fmt
  /\ BitsPerPixel (MakeSRGB fmt) = BitsPerPixel fmt
  /\ IsCompressed (MakeSRGB fmt) = IsCompressed fmt
  /\ (forall w h flags,
        ComputePitch_switch (MakeSRGB fmt) w h flags
        = ComputePitch_switch fmt w h flags).
Proof.
  destruct (Z.eq_dec fmt Fmt.R8G8B8A8_UNORM) as [-> | ?];
    [repeat split; reflexivity | ].
  destruct (Z.eq_dec fmt Fmt.BC1_UNORM) as [-> | ?];
    [repeat split; reflexivity | ].
  destruct (Z.eq_dec fmt Fmt.BC2_UNORM) as [-> | ?];
    [repeat split; reflexivity | ].
  destruct (Z.eq_dec fmt Fmt.BC3_UNORM) as [-> | ?];
    [repeat split; reflexivity | ].
  destruct (Z.eq_dec fmt Fmt.B8G8R8A8_UNORM) as [-> | ?];
    [repeat split; reflexivity | ].
  destruct (Z.eq_dec fmt Fmt.B8G8R8X8_UNORM) as [-> | ?];
    [repeat split; reflexivity | ].
  destruct (Z.eq_dec fmt Fmt.BC7_UNORM) as [-> | ?];
    [repeat split; reflexivity | ].
  assert (E : MakeSRGB fmt = fmt).
  { unfold MakeSRGB.
    repeat match goal with
           | |- context [if fmt =? ?c then _ else _] =>
               destruct (Z.eqb_spec fmt c); [contradiction | ]
           end.
    reflexivity. }
  rewrite !E. repeat split; reflexivity.
Qed.

(** X5.  The four special classes of formats are pairwise disjoint, and
    every format in one of them is a valid format with a known,
    non-zero number of bits per pixel. *)
Theorem format_classes_are_disjoint_and_sized (fmt : DXGI_FORMAT) :
  (IsCompressed fmt = true ->
     IsPacked fmt = false /\ IsPlanar fmt = false /\ IsPalettized fmt = false)
  /\ (IsPacked fmt = true -> IsPlanar fmt = false /\ IsPalettized fmt = false)
  /\ (IsPlanar fmt = true -> IsPalettized fmt = false)
  /\ (IsCompressed fmt || IsPacked fmt || IsPlanar fmt || IsPalettized fmt = true ->
        IsValid fmt = true /\ 0 < BitsPerPixel fmt).
Proof.
  split; [ | split; [ | split]]; intros Hc.
  - unfold IsCompressed in Hc. split_cases Hc; subst fmt; repeat split; reflexivity.
  - unfold IsPacked in Hc. split_cases Hc; subst fmt; repeat split; reflexivity.
  - unfold IsPlanar in Hc. split_cases Hc; subst fmt; repeat split; reflexivity.
  - destruct (IsCompressed fmt) eqn:H1;
      [ clear Hc; unfold IsCompressed in H1;
        split_cases H1; subst fmt; repeat split; reflexivity | ].
    destruct (IsPacked fmt) eqn:H2;
      [ clear Hc; unfold IsPacked in H2;
        split_cases H2; subst fmt; repeat split; reflexivity | ].
    destruct (IsPlanar fmt) eqn:H3;
      [ clear Hc; unfold IsPlanar in H3;
        split_cases H3; subst fmt; repeat split; reflexivity | ].
    cbn [orb] in Hc. unfold IsPalettized in Hc.
    split_cases Hc; subst fmt; repeat split; reflexivity.
Qed.

(** ** Pitch and scanline count *)

Lemma u64_bnd (x B : Z) : bnd x B -> B < 2 ^ 64 -> u64 x = x.
Proof. unfold bnd. intros. apply u64_small. lia. Qed.

Lemma size_t_bnd (plat : Platform) (x B : Z) :
  bnd x B -> B < 2 ^ 32 -> size_t plat x = x.
Proof.
  unfold bnd. intros. apply size_t_small.
  pose proof (SIZE_MAX_ge plat). lia.
Qed.

(** Removes the wrap-arounds of a formula whose variables are bounded
    by hypotheses, innermost first. *)
Ltac unwrap :=
  repeat match goal with
         | |- context [u64 ?x] =>
             lazymatch x with
             | context [u64 _] => fail
             | context [size_t _ _] => fail
             | _ => idtac
             end;
             rewrite (u64_bnd x _ ltac:(solve_bnd) ltac:(vm_compute; reflexivity))
         | |- context [size_t ?p ?x] =>
             lazymatch x with
             | context [u64 _] => fail
             | context [size_t _ _] => fail
             | _ => idtac
             end;
             rewrite (size_t_bnd p x _ ltac:(solve_bnd) ltac:(vm_compute; reflexivity))
         end.

(** A successful ComputePitch within the texture limits returns the
    values of its switch unchanged. *)
Lemma ComputePitch_ok_inv (plat : Platform) (fmt : DXGI_FORMAT)
    (w h flags rowPitch slicePitch : Z) :
  bnd w MAX_TEXTURE_DIMENSION -> bnd h MAX_TEXTURE_DIMENSION ->
  pitch_or_fail (ComputePitch plat fmt w h flags) = Some (rowPitch, slicePitch) ->
  ComputePitch_switch fmt w h flags = Some (rowPitch, slicePitch).
Proof.
  intros Hw Hh. unfold pitch_or_fail, ComputePitch.
  destruct (ComputePitch_switch fmt w h flags) as [[p s] | ] eqn:Hsw;
    [ | intros H; discriminate H].
  destruct (ComputePitch_switch_bound fmt w h flags p s Hw Hh Hsw) as [Hp Hs].
  unfold bnd, MAX_SLICE in Hp, Hs.
  destruct plat.
  - destruct ((UINT32_MAX <? p) || (UINT32_MAX <? s)) eqn:Hover.
    + cbn. intros H. discriminate H.
    + apply orb_false_iff in Hover. destruct Hover as [Hr Hsl].
      apply Z.ltb_ge in Hr, Hsl. unfold UINT32_MAX in Hr, Hsl.
      cbn [fst snd]. change (FAILED S_OK) with false. cbv iota.
      unfold size_t, wrap. cbn [size_bits].
      rewrite !Z.mod_small by lia. trivial.
  - cbn [fst snd]. change (FAILED S_OK) with false. cbv iota.
    unfold size_t, wrap. cbn [size_bits].
    rewrite !Z.mod_small by lia. trivial.
Qed.

(** X6.  Whenever ComputePitch succeeds on an image within the texture
    limits (without the BAD_DXTN_TAILS policy), the slice pitch it
    reports is the row pitch times the number of scanlines
    ComputeScanlines reports for the same format and height. *)
Theorem ComputePitch_slice_is_rowPitch_times_scanlines (plat : Platform)
    (fmt : DXGI_FORMAT) (w h flags rowPitch slicePitch : Z) :
  0 <= w <= 16384 -> 0 <= h <= 16384 ->
  has_flag flags CP_FLAGS_BAD_DXTN_TAILS = false ->
  pitch_or_fail (ComputePitch plat fmt w h flags) = Some (rowPitch, slicePitch) ->
  slicePitch = rowPitch * ComputeScanlines plat fmt h.
Proof.
  intros Hw Hh Hbad Hok.
  assert (Bw : bnd w MAX_TEXTURE_DIMENSION) by exact Hw.
  assert (Bh : bnd h MAX_TEXTURE_DIMENSION) by exact Hh.
  apply ComputePitch_ok_inv in Hok; [ | assumption | assumption].
  pose proof (BitsPerPixel_bound fmt) as Hbpp.
  revert Hok.
  unfold ComputePitch_switch, bc_pitch, linear_pitch, ComputeScanlines,
    bc_8_byte_formats, bc_16_byte_formats.
  rewrite Hbad. set (bpp := BitsPerPixel fmt) in *. cbv zeta.
  repeat match goal with
         | |- context [if ?c then _ else _] => destruct c eqn:?
         end;
    intros Heq; try discriminate Heq; injection Heq as <- <-;
    try match goal with
        | H : in_cases fmt _ = true |- _ =>
            split_cases H; subst fmt;
            repeat match goal with
                   | H' : in_cases _ _ = _ |- _ =>
                       vm_compute in H'; try discriminate H'; clear H'
                   end
        end;
    unwrap; try ring.
Qed.

Lemma has_flag_lor (flags a b : Z) :
  has_flag flags (Z.lor a b) = has_flag flags a || has_flag flags b.
Proof.
  unfold has_flag. rewrite Z.land_lor_distr_r.
  destruct (Z.eqb_spec (Z.land flags a) 0) as [Ha | Ha];
    destruct (Z.eqb_spec (Z.land flags b) 0) as [Hb | Hb]; cbn.
  - rewrite Ha, Hb. reflexivity.
  - destruct (Z.eqb_spec (Z.lor (Z.land flags a) (Z.land flags b)) 0) as [H | H];
      [ | reflexivity].
    apply Z.lor_eq_0_iff in H. tauto.
  - destruct (Z.eqb_spec (Z.lor (Z.land flags a) (Z.land flags b)) 0) as [H | H];
      [ | reflexivity].
    apply Z.lor_eq_0_iff in H. tauto.
  - destruct (Z.eqb_spec (Z.lor (Z.land flags a) (Z.land flags b)) 0) as [H | H];
      [ | reflexivity].
    apply Z.lor_eq_0_iff in H. tauto.
Qed.

(** The pitch of a format that is not block compressed, packed or
    planar, under an alignment policy, without the wrap-arounds. *)
Lemma linear_pitch_aligned (bpp w h flags : Z) :
  bnd bpp 128 -> bnd w MAX_TEXTURE_DIMENSION -> bnd h MAX_TEXTURE_DIMENSION ->
  let A := requested_alignment flags in
  linear_pitch bpp w h flags
  = ((w * bpp + (8 * A - 1)) / (8 * A) * A,
     (w * bpp + (8 * A - 1)) / (8 * A) * A * h).
Proof.
  intros Hb Hw Hh. unfold linear_pitch, requested_alignment.
  rewrite !has_flag_lor. cbv zeta.
  destruct (has_flag flags CP_FLAGS_PAGE4K);
    destruct (has_flag flags CP_FLAGS_ZMM);
    destruct (has_flag flags CP_FLAGS_YMM);
    destruct (has_flag flags CP_FLAGS_PARAGRAPH);
    destruct (has_flag flags CP_FLAGS_LEGACY_DWORD);
    cbn [orb]; cbv iota;
    change (8 * 4096 - 1) with 32767; change (8 * 4096) with 32768;
    change (8 * 64 - 1) with 511; change (8 * 64) with 512;
    change (8 * 32 - 1) with 255; change (8 * 32) with 256;
    change (8 * 16 - 1) with 127; change (8 * 16) with 128;
    change (8 * 4 - 1) with 31; change (8 * 4) with 32;
    change (8 * 1 - 1) with 7; change (8 * 1) with 8;
    unwrap; rewrite ?Z.mul_1_r; reflexivity.
Qed.

(** X7.  For a format that is not block compressed, packed or planar,
    ComputePitch reports as row pitch the least multiple of the
    requested alignment that holds ceil(width * bpp / 8) bytes, and as
    slice pitch the row pitch times the height. *)
Theorem ComputePitch_linear_row_alignment (plat : Platform)
    (fmt : DXGI_FORMAT) (w h flags rowPitch slicePitch : Z) :
  IsCompressed fmt = false -> IsPacked fmt = false -> IsPlanar fmt = false ->
  has_flag flags CP_FLAGS_24BPP = false ->
  has_flag flags CP_FLAGS_16BPP = false ->
  has_flag flags CP_FLAGS_8BPP = false ->
  0 <= w <= 16384 -> 0 <= h <= 16384 ->
  pitch_or_fail (ComputePitch plat fmt w h flags) = Some (rowPitch, slicePitch) ->
  let exact := (w * BitsPerPixel fmt + 7) / 8 in
  let A := requested_alignment flags in
  (A | rowPitch)
  /\ exact <= rowPitch < exact + A
  /\ slicePitch = rowPitch * h.
Proof.
  intros Hc Hpk Hpl H24 H16 H8 Hw Hh Hok exact A.
  assert (Bw : bnd w MAX_TEXTURE_DIMENSION) by exact Hw.
  assert (Bh : bnd h MAX_TEXTURE_DIMENSION) by exact Hh.
  apply ComputePitch_ok_inv in Hok; [ | assumption | assumption].
  pose proof (BitsPerPixel_bound fmt) as Hbpp.
  assert (Hsw : ComputePitch_switch fmt w h flags
                = if BitsPerPixel fmt =? 0 then None
                  else Some (linear_pitch (BitsPerPixel fmt) w h flags)).
  { clear Hok. unfold ComputePitch_switch, bc_8_byte_formats, bc_16_byte_formats.
    rewrite H24, H16, H8.
    unfold IsCompressed, IsPacked, IsPlanar in Hc, Hpk, Hpl.
    repeat match goal with
           | |- context [if in_cases fmt ?l then _ else _] =>
               destruct (in_cases fmt l) eqn:?
           end; try reflexivity;
      match goal with
      | H : in_cases fmt _ = true |- _ =>
          split_cases H; subst fmt;
          first [discriminate Hc | discriminate Hpk | discriminate Hpl]
      end. }
  rewrite Hsw in Hok.
  destruct (BitsPerPixel fmt =? 0); [discriminate Hok | ].
  rewrite (linear_pitch_aligned _ w h flags Hbpp Bw Bh) in Hok.
  fold A in Hok.
  assert (Hrow : rowPitch = (w * BitsPerPixel fmt + (8 * A - 1)) / (8 * A) * A)
    by congruence.
  assert (Hslice : slicePitch = rowPitch * h) by congruence.
  clear Hok. rewrite Hrow at 1 2 3. clear Hrow.
  assert (HA : 1 <= A).
  { unfold A, requested_alignment.
    repeat match goal with
           | |- context [if ?c then _ else _] => destruct c
           end; lia. }
  unfold exact. set (x := w * BitsPerPixel fmt).
  assert (0 <= x) by (unfold x, bnd in *; nia).
  split; [ | split].
  - exists ((x + (8 * A - 1)) / (8 * A)). reflexivity.
  - pose proof (Z.div_mod (x + (8 * A - 1)) (8 * A) ltac:(lia)) as E1.
    pose proof (Z.mod_pos_bound (x + (8 * A - 1)) (8 * A) ltac:(lia)) as B1.
    pose proof (Z.div_mod (x + 7) 8 ltac:(lia)) as E2.
    pose proof (Z.mod_pos_bound (x + 7) 8 ltac:(lia)) as B2.
    set (q := (x + (8 * A - 1)) / (8 * A)) in *.
    set (e := (x + 7) / 8) in *.
    set (r1 := (x + (8 * A - 1)) mod (8 * A)) in *.
    set (r2 := (x + 7) mod 8) in *.
    clearbody q e r1 r2 A x.
    replace (8 * A * q) with (8 * (q * A)) in E1 by ring.
    lia.
  - exact Hslice.
Qed.

Lemma has_flag_NONE (mask : Z) : has_flag CP_FLAGS_NONE mask = false.
Proof. reflexivity. Qed.

(** X8.  BitsPerPixel and ComputePitch agree on the size of an image:
    for every format other than the packed ones and NV11, an image
    whose width is a multiple of 8 and whose height is a multiple of 4
    occupies exactly width * height * BitsPerPixel bits under the
    default policy. *)
Theorem ComputePitch_agrees_with_BitsPerPixel (plat : Platform)
    (fmt : DXGI_FORMAT) (w h rowPitch slicePitch : Z) :
  IsPacked fmt = false -> fmt <> Fmt.NV11 ->
  1 <= w <= 16384 -> 1 <= h <= 16384 -> (8 | w) -> (4 | h) ->
  pitch_or_fail (ComputePitch plat fmt w h CP_FLAGS_NONE)
  = Some (rowPitch, slicePitch) ->
  slicePitch * 8 = w * h * BitsPerPixel fmt.
Proof.
  intros Hpk Hnv Hw Hh [k ->] [j ->] Hok.
  assert (Bw : bnd (k * 8) MAX_TEXTURE_DIMENSION)
    by (unfold bnd, MAX_TEXTURE_DIMENSION; lia).
  assert (Bh : bnd (j * 4) MAX_TEXTURE_DIMENSION)
    by (unfold bnd, MAX_TEXTURE_DIMENSION; lia).
  apply ComputePitch_ok_inv in Hok; [ | assumption | assumption].
  pose proof (BitsPerPixel_bound fmt) as Hbpp.
  revert Hok.
  unfold ComputePitch_switch, bc_pitch, linear_pitch,
    bc_8_byte_formats, bc_16_byte_formats.
  rewrite !has_flag_NONE.
  cbv iota zeta.
  unfold IsPacked in Hpk.
  remember (BitsPerPixel fmt) as bpp eqn:Ebpp.
  repeat match goal with
         | |- context [if in_cases fmt ?l then _ else _] =>
             destruct (in_cases fmt l) eqn:?
         end;
    try match goal with
        | H : in_cases fmt _ = true |- _ =>
            split_cases H; subst fmt;
            try discriminate Hpk; try (exfalso; apply Hnv; reflexivity);
            vm_compute in Ebpp; subst bpp
        end;
    try (destruct (bpp =? 0); [intros Heq; discriminate Heq | ]);
    intros Heq; injection Heq as <- <-;
    unwrap; rewrite ?Z.shiftr_div_pow2 by lia;
    change (2 ^ 1) with 2; change (2 ^ 2) with 4;
    repeat match goal with
           | |- context [?a / ?b] =>
               let q := fresh "q" in
               let r := fresh "r" in
               let E := fresh "E" in
               let B := fresh "B" in
               pose proof (Z.div_mod a b ltac:(lia)) as E;
               pose proof (Z.mod_pos_bound a b ltac:(lia)) as B;
               set (q := a / b) in *; set (r := a mod b) in *;
               clearbody q r
           end.
  all: try replace (k * 8 * bpp) with (8 * (k * bpp)) in * by ring;
    repeat match goal with
           | E : _ = _ * ?q + _ |- _ =>
               first [ assert (q = k) by lia
                     | assert (q = 2 * k) by lia
                     | assert (q = 4 * k) by lia
                     | assert (q = j) by lia
                     | assert (q = 2 * j) by lia
                     | assert (q = k * bpp) by lia ];
               subst q; clear E
           end;
    rewrite ?Z.max_r by lia; first [lia | ring].
Qed.

(** ** What a decoded header guarantees *)

(** GetDXGIFormat either finds nothing, or answers from one entry of
    the legacy table: its conversion flags, and its format or the sRGB
    variant of it. *)
Lemma GetDXGIFormat_from_table (hdr : DDS_HEADER) (ddpf : DDS_PIXELFORMAT)
    (convFlags0 : Z) (fmt : DXGI_FORMAT) (convFlags : Z) :
  GetDXGIFormat hdr ddpf convFlags0 = (fmt, convFlags) ->
  (fmt = Fmt.UNKNOWN /\ convFlags = convFlags0)
  \/ exists entry,
       In entry g_LegacyDDSMap /\ convFlags = lg_convFlags entry
       /\ (fmt = lg_format entry \/ fmt = MakeSRGB (lg_format entry)).
Proof.
  unfold GetDXGIFormat.
  destruct (find _ g_LegacyDDSMap) as [entry | ] eqn:Hfind.
  - apply find_some in Hfind. destruct Hfind as [Hin _].
    intros H. injection H as <- <-. right. exists entry.
    split; [assumption | split; [reflexivity | ]].
    destruct (_ && _); auto.
  - intros H. injection H as <- <-. left. split; reflexivity.
Qed.

(** A property checked on every entry of the legacy table holds of the
    entry GetDXGIFormat has used. *)
Lemma legacy_table_forall (P : LegacyDDS -> bool) (entry : LegacyDDS) :
  forallb P g_LegacyDDSMap = true -> In entry g_LegacyDDSMap -> P entry = true.
Proof. intros Hall Hin. rewrite forallb_forall in Hall. auto. Qed.

Ltac decode_cases H :=
  repeat first
    [ discriminate H
    | match type of H with
      | context [if ?c then _ else _] => destruct c eqn:?
      | context [match ?x with (_, _) => _ end] => destruct x eqn:?
      end ].

(** X9.  The format of a decoded header is a valid format and not a
    palettized one: the first two checks of ScratchImage::Initialize
    cannot fail on the metadata DecodeDDSHeader returns. *)
Theorem DecodeDDSHeader_format_is_valid (plat : Platform) (pSource : list byte)
    (size convFlags0 : Z) (md : TexMetadata) (convFlags : Z) :
  DecodeDDSHeader plat pSource size convFlags0 = Some (md, convFlags) ->
  IsValid (format md) = true /\ IsPalettized (format md) = false
  /\ format md <> Fmt.UNKNOWN.
Proof.
  intros H.
  assert (Htable :
            forall entry, In entry g_LegacyDDSMap ->
              forall fmt, fmt = lg_format entry \/ fmt = MakeSRGB (lg_format entry) ->
                IsValid fmt = true /\ IsPalettized fmt = false).
  { intros entry Hin fmt Hfmt.
    pose proof (legacy_table_forall
                  (fun e => IsValid (lg_format e)
                            && negb (IsPalettized (lg_format e))
                            && IsValid (MakeSRGB (lg_format e))
                            && negb (IsPalettized (MakeSRGB (lg_format e))))
                  entry eq_refl Hin) as Hp.
    cbv beta in Hp.
    apply andb_true_iff in Hp. destruct Hp as [Hp H4].
    apply andb_true_iff in Hp. destruct Hp as [Hp H3].
    apply andb_true_iff in Hp. destruct Hp as [H1 H2].
    destruct Hfmt as [-> | ->]; split;
      first [assumption | apply negb_true_iff; assumption]. }
  assert (Hval : forall fmt, IsValid fmt = true -> fmt <> Fmt.UNKNOWN).
  { intros fmt Hv ->. discriminate Hv. }
  enough (Hfmt : IsValid (format md) = true /\ IsPalettized (format md) = false).
  { destruct Hfmt as [Hv Hp]. split; [exact Hv | split; [exact Hp | ]].
    apply Hval. exact Hv. }
  revert H. unfold DecodeDDSHeader. intros H.
  set (hdr := read_DDS_HEADER pSource sizeof_uint32_t) in *.
  set (ext := read_DDS_HEADER_DXT10 pSource _) in *.
  clearbody hdr ext.
  decode_cases H; injection H as <- <-;
    cbn [format SetAlphaMode];
    try match goal with
        | Hc : negb (IsValid ?f) || IsPalettized ?f = false |- _ =>
            apply orb_false_iff in Hc; destruct Hc as [Hc1 Hc2];
            apply negb_false_iff in Hc1; split; assumption
        end;
    match goal with
    | Hg : GetDXGIFormat _ _ _ = (?f, _), Hu : (?f =? Fmt.UNKNOWN) = false |- _ =>
        apply GetDXGIFormat_from_table in Hg;
        destruct Hg as [[-> _] | (entry & Hin & _ & Hfmt)];
        [ discriminate Hu | exact (Htable entry Hin _ Hfmt) ]
    end.
Qed.

Lemma DecodeDDSHeader_DX10_flag_aux (plat : Platform) (pSource : list byte)
    (size : Z) (md : TexMetadata) (convFlags : Z) :
  DecodeDDSHeader plat pSource size 0 = Some (md, convFlags) ->
  sizeof_uint32_t + sizeof_DDS_HEADER <= size
  /\ load32 pSource 0 = DDS_MAGIC
  /\ has_flag convFlags CONV_FLAGS_DX10 = has_DX10_extension pSource
  /\ (has_flag convFlags CONV_FLAGS_DX10 = true ->
        MAX_HEADER_SIZE <= size /\ convFlags = CONV_FLAGS_DX10).
Proof.
  intros H.
  assert (Htable :
            forall entry, In entry g_LegacyDDSMap ->
              has_flag (lg_convFlags entry) CONV_FLAGS_DX10 = false).
  { intros entry Hin.
    pose proof (legacy_table_forall
                  (fun e => negb (has_flag (lg_convFlags e) CONV_FLAGS_DX10))
                  entry eq_refl Hin) as Hp.
    apply negb_true_iff in Hp. exact Hp. }
  revert H. unfold DecodeDDSHeader, has_DX10_extension, header_of. intros H.
  set (hdr := read_DDS_HEADER pSource sizeof_uint32_t) in *.
  set (ext := read_DDS_HEADER_DXT10 pSource _) in *.
  clearbody hdr ext.
  destruct (size <? sizeof_DDS_HEADER + sizeof_uint32_t) eqn:Hsize;
    [discriminate H | ].
  destruct (negb (load32 pSource 0 =? DDS_MAGIC)) eqn:Hmagic;
    [discriminate H | ].
  apply Z.ltb_ge in Hsize. apply negb_false_iff, Z.eqb_eq in Hmagic.
  split; [lia | split; [exact Hmagic | ]].
  destruct (has_flag (pf_flags (hdr_ddspf hdr)) DDS_FOURCC
            && (MAKEFOURCC "D" "X" "1" "0" =? pf_fourCC (hdr_ddspf hdr))) eqn:Hdx.
  - decode_cases H; injection H as <- <-;
      (split; [reflexivity | intros _; split; [ | reflexivity]]);
      match goal with
      | Hs : (size <? _) = false |- _ => apply Z.ltb_ge in Hs; exact Hs
      end.
  - decode_cases H; injection H as <- <-;
      match goal with
      | Hg : GetDXGIFormat _ _ _ = (?f, ?c), Hu : (?f =? Fmt.UNKNOWN) = false |- _ =>
          apply GetDXGIFormat_from_table in Hg;
          destruct Hg as [[-> _] | (entry & Hin & -> & _)];
          [ discriminate Hu | rewrite (Htable entry Hin) ]
      end;
      (split; [reflexivity | intros Hf; discriminate Hf]).
Qed.

(** X10.  The DX10 conversion flag tells whether the header carries the
    DX10 extension: on a header that decodes (from no flags) it is set
    exactly when the pixel format is the DX10 four-character code, and
    then the buffer holds the 148 bytes of the extended header and no
    other conversion is requested.  Any header that decodes holds the
    magic number and at least the 128 bytes of the standard header. *)
Theorem DecodeDDSHeader_DX10_flag (plat : Platform) (pSource : list byte)
    (size : Z) (md : TexMetadata) (convFlags : Z) :
  DecodeDDSHeader plat pSource size 0 = Some (md, convFlags) ->
  sizeof_uint32_t + sizeof_DDS_HEADER <= size
  /\ load32 pSource 0 = DDS_MAGIC
  /\ has_flag convFlags CONV_FLAGS_DX10 = has_DX10_extension pSource
  /\ (has_flag convFlags CONV_FLAGS_DX10 = true ->
        MAX_HEADER_SIZE <= size /\ convFlags = CONV_FLAGS_DX10).
Proof. apply DecodeDDSHeader_DX10_flag_aux. Qed.

(** X11.  When a decoded header asks for an expansion, the request is
    one LegacyExpandScanline serves: the flags select a known legacy
    source format, never one of the 5:6:5, 5:5:5:1 or 4:4:4:4 cases
    that CopyImage would hand to ExpandScanline, and the destination
    format is neither block compressed nor planar. *)
Theorem DecodeDDSHeader_expansion_is_legacy (plat : Platform)
    (pSource : list byte) (size : Z) (md : TexMetadata) (convFlags : Z) :
  DecodeDDSHeader plat pSource size 0 = Some (md, convFlags) ->
  has_flag convFlags CONV_FLAGS_EXPAND = true ->
  FindLegacyFormat convFlags <> TEXP_LEGACY_UNKNOWN
  /\ has_flag convFlags
       (Z.lor CONV_FLAGS_565 (Z.lor CONV_FLAGS_5551 CONV_FLAGS_4444)) = false
  /\ has_flag convFlags CONV_FLAGS_DX10 = false
  /\ IsCompressed (format md) = false /\ IsPlanar (format md) = false.
Proof.
  intros H Hexp.
  pose (ok := fun (c : Z) (f : DXGI_FORMAT) =>
          match FindLegacyFormat c with
          | TEXP_LEGACY_UNKNOWN => false
          | _ => true
          end
          && negb (has_flag c (Z.lor CONV_FLAGS_565
                                 (Z.lor CONV_FLAGS_5551 CONV_FLAGS_4444)))
          && negb (has_flag c CONV_FLAGS_DX10)
          && negb (IsCompressed f) && negb (IsPlanar f)).
  assert (Hok : forall c f, ok c f = true ->
            FindLegacyFormat c <> TEXP_LEGACY_UNKNOWN
            /\ has_flag c (Z.lor CONV_FLAGS_565
                             (Z.lor CONV_FLAGS_5551 CONV_FLAGS_4444)) = false
            /\ has_flag c CONV_FLAGS_DX10 = false
            /\ IsCompressed f = false /\ IsPlanar f = false).
  { intros c f Hc. unfold ok in Hc.
    apply andb_true_iff in Hc. destruct Hc as [Hc H5].
    apply andb_true_iff in Hc. destruct Hc as [Hc H4].
    apply andb_true_iff in Hc. destruct Hc as [Hc H3].
    apply andb_true_iff in Hc. destruct Hc as [H1 H2].
    apply negb_true_iff in H2, H3, H4, H5.
    repeat split; try assumption.
    intros E. rewrite E in H1. discriminate H1. }
  assert (Htable :
            forall entry, In entry g_LegacyDDSMap ->
              has_flag (lg_convFlags entry) CONV_FLAGS_EXPAND = true ->
              ok (lg_convFlags entry) (lg_format entry) = true
              /\ ok (lg_convFlags entry) (MakeSRGB (lg_format entry)) = true).
  { intros entry Hin He.
    pose proof (legacy_table_forall
                  (fun e => implb (has_flag (lg_convFlags e) CONV_FLAGS_EXPAND)
                              (ok (lg_convFlags e) (lg_format e)
                               && ok (lg_convFlags e) (MakeSRGB (lg_format e))))
                  entry eq_refl Hin) as Hp.
    cbv beta in Hp. rewrite He in Hp. cbn [implb] in Hp.
    apply andb_true_iff in Hp. exact Hp. }
  apply Hok. clear Hok.
  revert H. unfold DecodeDDSHeader. intros H.
  set (hdr := read_DDS_HEADER pSource sizeof_uint32_t) in *.
  set (ext := read_DDS_HEADER_DXT10 pSource _) in *.
  clearbody hdr ext.
  decode_cases H; injection H as <- <-;
    try discriminate Hexp;
    cbn [format SetAlphaMode];
    match goal with
    | Hg : GetDXGIFormat _ _ _ = (?f, ?c), Hu : (?f =? Fmt.UNKNOWN) = false |- _ =>
        apply GetDXGIFormat_from_table in Hg;
        destruct Hg as [[-> _] | (entry & Hin & -> & Hfmt)];
        [ discriminate Hu
        | destruct (Htable entry Hin Hexp) as [Ha Hb];
          destruct Hfmt as [-> | ->]; assumption ]
    end.
Qed.

(** X12.  A decoded cube map is a 2D texture whose array size is a
    positive multiple of 6 (64-bit targets): the cube map check of
    ScratchImage::Initialize cannot fail on it. *)
Theorem DecodeDDSHeader_cubemap_faces (pSource : list byte)
    (size convFlags0 : Z) (md : TexMetadata) (convFlags : Z) :
  DecodeDDSHeader Win64 pSource size convFlags0 = Some (md, convFlags) ->
  IsCubemap md = true ->
  dimension md = TEX_DIMENSION_TEXTURE2D
  /\ 6 <= arraySize md /\ arraySize md mod 6 = 0.
Proof.
  intros H.
  assert (Hclear : forall x, has_flag (Z.land x (u32 (Z.lnot TEX_MISC_TEXTURECUBE)))
                               TEX_MISC_TEXTURECUBE = false).
  { intros x. unfold has_flag. rewrite <- Z.land_assoc.
    change (Z.land (u32 (Z.lnot TEX_MISC_TEXTURECUBE)) TEX_MISC_TEXTURECUBE)
      with 0.
    rewrite Z.land_0_r. reflexivity. }
  revert H. unfold DecodeDDSHeader. intros H.
  set (hdr := read_DDS_HEADER pSource sizeof_uint32_t) in *.
  set (ext := read_DDS_HEADER_DXT10 pSource _) in *.
  pose proof (load32_range pSource (sizeof_uint32_t + sizeof_DDS_HEADER + 12))
    as Harray.
  change (load32 pSource (sizeof_uint32_t + sizeof_DDS_HEADER + 12))
    with (dx_arraySize ext) in Harray.
  clearbody hdr ext.
  decode_cases H; injection H as <- <-;
    unfold IsCubemap;
    cbn [miscFlags dimension arraySize SetAlphaMode];
    rewrite ?Hclear; intros Hcube; try discriminate Hcube;
    (split; [reflexivity | ]);
    try (split; [lia | reflexivity]);
    match goal with
    | Hz : (dx_arraySize ext =? 0) = false |- _ => apply Z.eqb_neq in Hz
    end;
    rewrite size_t_small by (cbn; lia);
    (split; [lia | apply Z.mod_mul; lia]).
Qed.

(** X13.  The alpha mode recorded by the decoder follows the conversion
    flags: opaque when the file has no alpha channel to read (NOALPHA),
    premultiplied for the premultiplied legacy formats (DXT2, DXT4). *)
Theorem DecodeDDSHeader_alpha_mode (plat : Platform) (pSource : list byte)
    (size convFlags0 : Z) (md : TexMetadata) (convFlags : Z) :
  DecodeDDSHeader plat pSource size convFlags0 = Some (md, convFlags) ->
  (has_flag convFlags CONV_FLAGS_NOALPHA = true ->
     GetAlphaMode md = TEX_ALPHA_MODE_OPAQUE /\ IsPMAlpha md = false)
  /\ (has_flag convFlags CONV_FLAGS_NOALPHA = false ->
      has_flag convFlags CONV_FLAGS_PMALPHA = true ->
      GetAlphaMode md = TEX_ALPHA_MODE_PREMULTIPLIED /\ IsPMAlpha md = true).
Proof.
  intros H.
  assert (Hset : forall m mode, 0 <= mode <= 7 ->
            Z.land (Z.lor (Z.land m (u32 (Z.lnot TEX_MISC2_ALPHA_MODE_MASK))) mode)
              TEX_MISC2_ALPHA_MODE_MASK = mode).
  { intros m mode Hmode.
    rewrite Z.land_lor_distr_l, <- Z.land_assoc.
    change (Z.land (u32 (Z.lnot TEX_MISC2_ALPHA_MODE_MASK)) TEX_MISC2_ALPHA_MODE_MASK)
      with 0.
    rewrite Z.land_0_r, Z.lor_0_l.
    change TEX_MISC2_ALPHA_MODE_MASK with (Z.ones 3).
    rewrite Z.land_ones by lia. apply Z.mod_small. simpl. lia. }
  revert H. unfold DecodeDDSHeader. intros H.
  set (hdr := read_DDS_HEADER pSource sizeof_uint32_t) in *.
  set (ext := read_DDS_HEADER_DXT10 pSource _) in *.
  clearbody hdr ext.
  destruct (size <? sizeof_DDS_HEADER + sizeof_uint32_t); [discriminate H | ].
  destruct (negb (load32 pSource 0 =? DDS_MAGIC)); [discriminate H | ].
  destruct (negb (hdr_size hdr =? sizeof_DDS_HEADER)
            || negb (pf_size (hdr_ddspf hdr) =? sizeof_DDS_PIXELFORMAT));
    [discriminate H | ].
  match type of H with
  | match ?d with _ => _ end = _ => destruct d as [[md0 cf] | ]
  end; [ | discriminate H].
  unfold GetAlphaMode, IsPMAlpha.
  destruct (has_flag cf CONV_FLAGS_NOALPHA) eqn:Hno.
  - destruct (within_d3d_limits _); [ | discriminate H].
    injection H as <- <-. rewrite Hno. cbn [miscFlags2 SetAlphaMode].
    rewrite Hset by (unfold TEX_ALPHA_MODE_OPAQUE; lia).
    split; [intros _; split; reflexivity | intros Hf; discriminate Hf].
  - destruct (has_flag cf CONV_FLAGS_PMALPHA) eqn:Hpm.
    + destruct (within_d3d_limits _); [ | discriminate H].
      injection H as <- <-. rewrite Hno. cbn [miscFlags2 SetAlphaMode].
      rewrite Hset by (unfold TEX_ALPHA_MODE_PREMULTIPLIED; lia).
      split; [intros Hf; discriminate Hf | intros _ _; split; reflexivity].
    + destruct (within_d3d_limits _); [ | discriminate H].
      injection H as <- <-. rewrite Hno, Hpm.
      split; intros Hf; [discriminate Hf | intros Hf'; discriminate Hf'].
Qed.

(** ** Alpha mode *)

Lemma testbit_above (m k n : Z) :
  0 <= m < 2 ^ k -> 0 <= k <= n -> Z.testbit m n = false.
Proof.
  intros Hm Hn. destruct (Z.eq_dec m 0) as [-> | Hnz]; [apply Z.bits_0 | ].
  apply Z.bits_above_log2; [lia | ].
  apply Z.lt_le_trans with k; [ | lia].
  apply Z.log2_lt_pow2; lia.
Qed.

(** X14.  SetAlphaMode and GetAlphaMode are inverse on the alpha modes:
    the mode read back is the mode set, the last mode set wins, the
    other bits of miscFlags2 survive, and IsPMAlpha holds exactly for
    the premultiplied mode. *)
Theorem SetAlphaMode_GetAlphaMode (md : TexMetadata) (mode mode' : Z) :
  0 <= mode <= 7 -> 0 <= mode' <= 7 ->
  GetAlphaMode (SetAlphaMode md mode) = mode
  /\ SetAlphaMode (SetAlphaMode md mode') mode = SetAlphaMode md mode
  /\ Z.shiftr (miscFlags2 (SetAlphaMode md mode)) 3 mod 2 ^ 29
     = Z.shiftr (miscFlags2 md) 3 mod 2 ^ 29
  /\ IsPMAlpha (SetAlphaMode md mode) = (mode =? TEX_ALPHA_MODE_PREMULTIPLIED)
  /\ miscFlags (SetAlphaMode md mode) = miscFlags md
  /\ format (SetAlphaMode md mode) = format md.
Proof.
  intros Hmode Hmode'.
  assert (Hget : Z.land (Z.lor (Z.land (miscFlags2 md)
                                  (u32 (Z.lnot TEX_MISC2_ALPHA_MODE_MASK))) mode)
                   TEX_MISC2_ALPHA_MODE_MASK = mode).
  { rewrite Z.land_lor_distr_l, <- Z.land_assoc.
    change (Z.land (u32 (Z.lnot TEX_MISC2_ALPHA_MODE_MASK)) TEX_MISC2_ALPHA_MODE_MASK)
      with 0.
    rewrite Z.land_0_r, Z.lor_0_l.
    change TEX_MISC2_ALPHA_MODE_MASK with (Z.ones 3).
    rewrite Z.land_ones by lia. apply Z.mod_small. simpl. lia. }
  unfold GetAlphaMode, IsPMAlpha, SetAlphaMode.
  cbn [miscFlags2 miscFlags format width height depth arraySize mipLevels dimension].
  rewrite Hget.
  split; [reflexivity | ].
  split.
  { f_equal.
    change (u32 (Z.lnot TEX_MISC2_ALPHA_MODE_MASK)) with 0xFFFFFFF8.
    rewrite Z.land_lor_distr_l.
    replace (Z.land mode' 0xFFFFFFF8) with 0.
    - rewrite Z.lor_0_r, <- Z.land_assoc. reflexivity.
    - symmetry. apply Z.bits_inj'. intros n Hn.
      rewrite Z.land_spec, Z.bits_0.
      destruct (Z.ltb_spec n 3).
      + replace (Z.testbit 0xFFFFFFF8 n) with false; [apply andb_false_r | ].
        assert (n = 0 \/ n = 1 \/ n = 2) as [-> | [-> | ->]] by lia; reflexivity.
      + rewrite (testbit_above mode' 3 n) by (simpl; lia). reflexivity. }
  split; [ | repeat split; reflexivity].
  change (u32 (Z.lnot TEX_MISC2_ALPHA_MODE_MASK)) with 0xFFFFFFF8.
  rewrite <- !Z.land_ones by lia.
  apply Z.bits_inj'. intros n Hn.
  rewrite !Z.land_spec, !Z.shiftr_spec, Z.lor_spec, Z.land_spec by lia.
  rewrite (testbit_above mode 3 (n + 3)) by (simpl; lia).
  rewrite orb_false_r.
  destruct (Z.ltb_spec n 29).
  - replace (Z.testbit 0xFFFFFFF8 (n + 3)) with true;
      [rewrite andb_true_r; reflexivity | ].
    symmetry. change 0xFFFFFFF8 with (Z.shiftl (Z.ones 29) 3).
    rewrite Z.shiftl_spec by lia. replace (n + 3 - 3) with n by lia.
    apply Z.ones_spec_low. lia.
  - rewrite Z.ones_spec_high by lia. rewrite !andb_false_r. reflexivity.
Qed.

(** ** ScratchImage::Initialize *)

Ltac bool_facts :=
  repeat match goal with
         | H : (_ || _) = false |- _ =>
             apply orb_false_iff in H; destruct H
         | H : (_ && _) = true |- _ =>
             apply andb_true_iff in H; destruct H
         | H : (_ && _) = false |- _ =>
             apply andb_false_iff in H; destruct H as [H | H]
         | H : negb _ = false |- _ => apply negb_false_iff in H
         | H : negb _ = true |- _ => apply negb_true_iff in H
         | H : (_ =? _) = true |- _ => apply Z.eqb_eq in H
         | H : (_ =? _) = false |- _ => apply Z.eqb_neq in H
         | H : (_ <? _) = true |- _ => apply Z.ltb_lt in H
         | H : (_ <? _) = false |- _ => apply Z.ltb_ge in H
         end.

(** Splits an equation [Initialize ... = r] along the paths of the
    function. *)
Ltac initialize_cases H :=
  unfold Initialize in H; cbv zeta in H;
  repeat first
    [ discriminate H
    | progress cbv beta iota in H
    | match type of H with
      | context [FAILED ?hr] =>
          let v := eval vm_compute in (FAILED hr) in
          change (FAILED hr) with v in H
      | context [if ?c then _ else _] => destruct c eqn:?
      | context [match ?x with Some _ => _ | None => _ end] =>
          destruct x eqn:?
      | context [match ?x with (_, _) => _ end] => destruct x eqn:?
      end ].

Lemma CalculateMipLevels_completed (w h mips r : Z) :
  1 <= w -> 1 <= h -> 0 <= mips ->
  CalculateMipLevels w h mips = Some r ->
  let full := Z.log2 (Z.max w h) + 1 in
  r = (if mips =? 0 then full else mips) /\ mips <= full.
Proof.
  intros Hw Hh Hm. unfold CalculateMipLevels.
  rewrite CountMips_log2 by assumption.
  pose proof (Z.log2_nonneg (Z.max w h)).
  destruct (Z.ltb_spec 1 mips).
  - destruct (Z.ltb_spec (Z.log2 (Z.max w h) + 1) mips); [discriminate | ].
    intros E. injection E as <-.
    destruct (Z.eqb_spec mips 0); lia.
  - destruct (Z.eqb_spec mips 0); intros E; injection E as <-; lia.
Qed.

Lemma CalculateMipLevels3D_completed (w h d mips r : Z) :
  1 <= w -> 1 <= h -> 1 <= d -> 0 <= mips ->
  CalculateMipLevels3D w h d mips = Some r ->
  let full := Z.log2 (Z.max (Z.max w h) d) + 1 in
  r = (if mips =? 0 then full else mips) /\ mips <= full.
Proof.
  intros Hw Hh Hd Hm. unfold CalculateMipLevels3D.
  rewrite CountMips3D_log2 by assumption.
  pose proof (Z.log2_nonneg (Z.max (Z.max w h) d)).
  destruct (Z.ltb_spec 1 mips).
  - destruct (Z.ltb_spec (Z.log2 (Z.max (Z.max w h) d) + 1) mips);
      [discriminate | ].
    intros E. injection E as <-.
    destruct (Z.eqb_spec mips 0); lia.
  - destruct (Z.eqb_spec mips 0); intros E; injection E as <-; lia.
Qed.

Lemma Initialize_accepts_only_well_formed_metadata_aux (plat : Platform)
    (heap : Heap) (self : ScratchImage) (mdata : TexMetadata) (flags : Z)
    (self' : ScratchImage) :
  within_limits mdata ->
  Initialize plat heap self mdata flags = (S_OK, self') ->
  well_formed mdata /\ m_metadata self' = completed mdata.
Proof.
  intros (Hw & Hh & Hd & Ha & Hm) H.
  initialize_cases H;
    try (apply (f_equal fst) in H; vm_compute in H; discriminate H);
    apply (f_equal snd) in H; cbn [snd] in H; subst self'; bool_facts;
    unfold well_formed, completed, full_mip_chain; cbn [m_metadata];
    match goal with
    | Hc : CalculateMipLevels _ _ _ = Some _ |- _ =>
        apply CalculateMipLevels_completed in Hc; [ | lia ..];
        destruct Hc as [-> Hle]
    | Hc : CalculateMipLevels3D _ _ _ _ = Some _ |- _ =>
        apply CalculateMipLevels3D_completed in Hc; [ | lia ..];
        destruct Hc as [-> Hle]
    end;
    repeat match goal with
           | Hx : height mdata = 1 |- _ => rewrite Hx in *
           | Hx : depth mdata = 1 |- _ => rewrite Hx in *
           end;
    try replace (Z.max (Z.max (width mdata) 1) 1) with (Z.max (width mdata) 1)
      by lia;
    try replace (Z.max (Z.max (width mdata) (height mdata)) 1)
      with (Z.max (width mdata) (height mdata)) by lia;
    (split; [ | reflexivity]);
    (split; [assumption | ]); (split; [assumption | ]);
    (split; [ | repeat split; solve [lia | assumption]]).
  - left. repeat split; assumption.
  - right. left. repeat split; try assumption.
    intros Hcube. congruence.
  - right. left. repeat split; try assumption.
    intros _. assumption.
  - right. right. split; assumption.
Qed.

(** X15.  Initialize succeeds only on well-formed metadata, and the
    image then holds that metadata with the mip count completed. *)
Theorem Initialize_accepts_only_well_formed_metadata (plat : Platform)
    (heap : Heap) (self : ScratchImage) (mdata : TexMetadata) (flags : Z)
    (self' : ScratchImage) :
  within_limits mdata ->
  Initialize plat heap self mdata flags = (S_OK, self') ->
  well_formed mdata /\ m_metadata self' = completed mdata.
Proof. apply Initialize_accepts_only_well_formed_metadata_aux. Qed.

(** ** The descriptors of an image *)

Lemma firstn_array_set_snoc {A : Type} (l : list A) (n : nat) (x : A) :
  (n < length l)%nat -> firstn (S n) (array_set l n x) = firstn n l ++ [x].
Proof.
  revert n. induction l as [ | a l IH]; intros [ | n] Hn; cbn in *; try lia.
  - reflexivity.
  - f_equal. apply IH. lia.
Qed.

Section Descriptors.

Variable plat : Platform.
Variable fmt : DXGI_FORMAT.
Variable flags : Z.
Variable pixelSize nImages : Z.

Hypothesis HnImages : nImages <= SIZE_MAX plat.

(** The descriptors written so far are all [pitched]. *)
Let described (st : Setup) : Prop :=
  0 <= st_index st
  /\ Forall (pitched plat fmt flags)
       (firstn (Z.to_nat (st_index st)) (st_images st)).

Lemma Setup_one_described (w h rowPitch slicePitch : Z) (st st' : Setup) :
  1 <= w <= 16384 -> 1 <= h <= 16384 ->
  pitch_or_fail (ComputePitch plat fmt w h flags) = Some (rowPitch, slicePitch) ->
  nImages <= Z.of_nat (length (st_images st)) ->
  described st ->
  Setup_one plat fmt pixelSize nImages w h rowPitch slicePitch st = (true, st') ->
  described st' /\ length (st_images st') = length (st_images st).
Proof.
  intros Hw Hh Hcp Hlen [Hi Hall]. unfold Setup_one.
  destruct (Z.leb_spec nImages (st_index st)); [discriminate | ].
  destruct (_ <? _); [discriminate | ].
  intros Heq. injection Heq as <-. unfold described.
  cbn [st_index st_images].
  rewrite size_t_small by lia.
  split; [ | apply array_set_length].
  split; [lia | ].
  replace (Z.to_nat (st_index st + 1)) with (S (Z.to_nat (st_index st))) by lia.
  rewrite firstn_array_set_snoc by lia.
  apply Forall_app. split; [exact Hall | ].
  constructor; [ | constructor].
  unfold pitched. cbn. auto.
Qed.

Lemma Setup_levels_described (n : nat) (w h : Z) (st st' : Setup) :
  1 <= w <= 16384 -> 1 <= h <= 16384 ->
  nImages <= Z.of_nat (length (st_images st)) ->
  described st ->
  Setup_levels plat fmt flags pixelSize nImages n w h st = (true, st') ->
  described st' /\ length (st_images st') = length (st_images st).
Proof.
  revert w h st. induction n as [ | n IH]; intros w h st Hw Hh Hlen Hd.
  - cbn. intros Heq. injection Heq as <-. auto.
  - cbn [Setup_levels].
    destruct (nImages <=? st_index st); [discriminate | ].
    destruct (pitch_or_fail (ComputePitch plat fmt w h flags))
      as [[rowPitch slicePitch] | ] eqn:Hcp; [ | discriminate].
    destruct (Setup_one plat fmt pixelSize nImages w h rowPitch slicePitch st)
      as [[ | ] st1] eqn:Hone; [ | discriminate].
    destruct (Setup_one_described _ _ _ _ _ _ Hw Hh Hcp Hlen Hd Hone)
      as [Hd1 Hl1].
    intros Hrest.
    assert (Hs : forall v, 1 <= v <= 16384 -> 1 <= shrink v <= 16384).
    { intros v Hv. pose proof (shrink_ge_1 v ltac:(lia)).
      pose proof (shrink_bnd v 16384 ltac:(unfold bnd; lia)) as [_ ?]. lia. }
    destruct (IH _ _ _ (Hs w Hw) (Hs h Hh) ltac:(rewrite Hl1; exact Hlen)
                Hd1 Hrest) as [Hd' Hl'].
    split; [exact Hd' | congruence].
Qed.

Lemma Setup_slices_described (w h rowPitch slicePitch : Z) (n : nat)
    (st st' : Setup) :
  1 <= w <= 16384 -> 1 <= h <= 16384 ->
  pitch_or_fail (ComputePitch plat fmt w h flags) = Some (rowPitch, slicePitch) ->
  nImages <= Z.of_nat (length (st_images st)) ->
  described st ->
  Setup_slices plat fmt pixelSize nImages w h rowPitch slicePitch n st
  = (true, st') ->
  described st' /\ length (st_images st') = length (st_images st).
Proof.
  intros Hw Hh Hcp. revert st. induction n as [ | n IH]; intros st Hlen Hd.
  - cbn. intros Heq. injection Heq as <-. auto.
  - cbn [Setup_slices].
    destruct (Setup_one plat fmt pixelSize nImages w h rowPitch slicePitch st)
      as [[ | ] st1] eqn:Hone; [ | discriminate].
    destruct (Setup_one_described _ _ _ _ _ _ Hw Hh Hcp Hlen Hd Hone)
      as [Hd1 Hl1].
    intros Hrest.
    destruct (IH _ ltac:(rewrite Hl1; exact Hlen) Hd1 Hrest) as [Hd' Hl'].
    split; [exact Hd' | congruence].
Qed.

Lemma Setup_volume_described (n : nat) (w h d : Z) (st st' : Setup) :
  1 <= w <= 16384 -> 1 <= h <= 16384 ->
  nImages <= Z.of_nat (length (st_images st)) ->
  described st ->
  Setup_volume plat fmt flags pixelSize nImages n w h d st = (true, st') ->
  described st' /\ length (st_images st') = length (st_images st).
Proof.
  revert w h d st. induction n as [ | n IH]; intros w h d st Hw Hh Hlen Hd.
  - cbn. intros Heq. injection Heq as <-. auto.
  - cbn [Setup_volume].
    destruct (pitch_or_fail (ComputePitch plat fmt w h flags))
      as [[rowPitch slicePitch] | ] eqn:Hcp; [ | discriminate].
    destruct (Setup_slices plat fmt pixelSize nImages w h rowPitch slicePitch
                (Z.to_nat d) st) as [[ | ] st1] eqn:Hsl; [ | discriminate].
    destruct (Setup_slices_described _ _ _ _ _ _ _ Hw Hh Hcp Hlen Hd Hsl)
      as [Hd1 Hl1].
    intros Hrest.
    assert (Hs : forall v, 1 <= v <= 16384 -> 1 <= shrink v <= 16384).
    { intros v Hv. pose proof (shrink_ge_1 v ltac:(lia)).
      pose proof (shrink_bnd v 16384 ltac:(unfold bnd; lia)) as [_ ?]. lia. }
    destruct (IH _ _ _ _ (Hs w Hw) (Hs h Hh) ltac:(rewrite Hl1; exact Hlen)
                Hd1 Hrest) as [Hd' Hl'].
    split; [exact Hd' | congruence].
Qed.

End Descriptors.

Lemma Setup_items_described (plat : Platform) (md : TexMetadata)
    (flags pixelSize nImages : Z) (n : nat) (st st' : Setup) :
  nImages <= SIZE_MAX plat ->
  1 <= width md <= 16384 -> 1 <= height md <= 16384 ->
  nImages <= Z.of_nat (length (st_images st)) ->
  0 <= st_index st ->
  Forall (pitched plat (format md) flags)
    (firstn (Z.to_nat (st_index st)) (st_images st)) ->
  Setup_items plat md flags pixelSize nImages n st = (true, st') ->
  (0 <= st_index st'
   /\ Forall (pitched plat (format md) flags)
        (firstn (Z.to_nat (st_index st')) (st_images st')))
  /\ length (st_images st') = length (st_images st).
Proof.
  intros Hmax Hw Hh. revert st. induction n as [ | n IH];
    intros st Hlen Hi Hall.
  - cbn. intros Heq. injection Heq as <-. auto.
  - cbn [Setup_items].
    destruct (Setup_levels plat (format md) flags pixelSize nImages
                (Z.to_nat (mipLevels md)) (width md) (height md) st)
      as [[ | ] st1] eqn:Hlev; [ | discriminate].
    destruct (Setup_levels_described plat (format md) flags pixelSize nImages
                Hmax _ _ _ _ _ Hw Hh Hlen (conj Hi Hall) Hlev)
      as [[Hi1 Hall1] Hl1].
    intros Hrest.
    destruct (IH _ ltac:(rewrite Hl1; exact Hlen) Hi1 Hall1 Hrest)
      as [Hd' Hl'].
    split; [exact Hd' | congruence].
Qed.

Lemma SetupImageArray_run_described (plat : Platform) (md : TexMetadata)
    (flags pixelSize nImages : Z) (images : list Image) (st : Setup) :
  nImages <= SIZE_MAX plat ->
  1 <= width md <= 16384 -> 1 <= height md <= 16384 ->
  nImages <= Z.of_nat (length images) ->
  SetupImageArray_run plat pixelSize md flags (Some images) nImages
  = (true, st) ->
  Forall (pitched plat (format md) flags)
    (firstn (Z.to_nat (st_index st)) (st_images st)).
Proof.
  intros Hmax Hw Hh Hlen. unfold SetupImageArray_run.
  assert (Hstart : Forall (pitched plat (format md) flags)
                     (firstn (Z.to_nat 0) images)) by constructor.
  destruct (in_cases (dimension md) _).
  - destruct (_ || _); [discriminate | ]. intros Hrun.
    apply (Setup_items_described plat md flags pixelSize nImages _
             (mkSetup 0 0 images) st Hmax Hw Hh Hlen (Z.le_refl 0) Hstart Hrun).
  - destruct (dimension md =? TEX_DIMENSION_TEXTURE3D); [ | discriminate].
    destruct (_ || _); [discriminate | ]. intros Hrun.
    apply (Setup_volume_described plat (format md) flags pixelSize nImages
             Hmax _ _ _ _ (mkSetup 0 0 images) st Hw Hh Hlen
             (conj (Z.le_refl 0) Hstart) Hrun).
Qed.

Lemma Determine_levels_count (plat : Platform) (fmt : DXGI_FORMAT)
    (flags : Z) (n : nat) (w h : Z) (acc acc' : Plan) :
  0 <= snd acc <= SIZE_MAX plat ->
  Determine_levels plat fmt flags n w h acc = Some acc' ->
  0 <= snd acc' <= SIZE_MAX plat.
Proof.
  revert w h acc. induction n as [ | n IH]; intros w h acc Hacc.
  - cbn. intros Heq. injection Heq as <-. exact Hacc.
  - cbn [Determine_levels].
    destruct (pitch_or_fail _) as [[? slicePitch] | ]; [ | discriminate].
    destruct acc as [total nimages]. apply IH. apply size_t_range.
Qed.

Lemma Determine_items_count (plat : Platform) (md : TexMetadata)
    (flags : Z) (n : nat) (acc acc' : Plan) :
  0 <= snd acc <= SIZE_MAX plat ->
  Determine_items plat md flags n acc = Some acc' ->
  0 <= snd acc' <= SIZE_MAX plat.
Proof.
  revert acc. induction n as [ | n IH]; intros acc Hacc.
  - cbn. intros Heq. injection Heq as <-. exact Hacc.
  - cbn [Determine_items].
    destruct (Determine_levels _ _ _ _ _ _ acc) as [acc1 | ] eqn:Hlev;
      [ | discriminate].
    apply IH. apply (Determine_levels_count _ _ _ _ _ _ _ _ Hacc Hlev).
Qed.

Lemma Determine_slices_count (plat : Platform) (slicePitch : Z) (n : nat)
    (acc : Plan) :
  0 <= snd acc <= SIZE_MAX plat ->
  0 <= snd (Determine_slices plat slicePitch n acc) <= SIZE_MAX plat.
Proof.
  revert acc. induction n as [ | n IH]; intros acc Hacc; [exact Hacc | ].
  cbn [Determine_slices]. destruct acc as [total nimages].
  apply IH. apply size_t_range.
Qed.

Lemma Determine_volume_count (plat : Platform) (fmt : DXGI_FORMAT)
    (flags : Z) (n : nat) (w h d : Z) (acc acc' : Plan) :
  0 <= snd acc <= SIZE_MAX plat ->
  Determine_volume plat fmt flags n w h d acc = Some acc' ->
  0 <= snd acc' <= SIZE_MAX plat.
Proof.
  revert w h d acc. induction n as [ | n IH]; intros w h d acc Hacc.
  - cbn. intros Heq. injection Heq as <-. exact Hacc.
  - cbn [Determine_volume].
    destruct (pitch_or_fail _) as [[? slicePitch] | ]; [ | discriminate].
    apply IH. apply Determine_slices_count, Hacc.
Qed.

Lemma DetermineImageArray_count_range (plat : Platform) (md : TexMetadata)
    (flags nImages pixelSize : Z) :
  DetermineImageArray plat md flags = Some (nImages, pixelSize) ->
  0 <= nImages <= SIZE_MAX plat.
Proof.
  unfold DetermineImageArray.
  assert (H0 : 0 <= snd ((0, 0) : Plan) <= SIZE_MAX plat).
  { cbn [snd]. pose proof (SIZE_MAX_ge plat). lia. }
  assert (Hfin : forall counted : option Plan,
            (forall acc, counted = Some acc -> 0 <= snd acc <= SIZE_MAX plat) ->
            match counted with
            | None => None
            | Some (totalPixelSize, nimages) =>
                match plat with
                | Win32 =>
                    if UINT32_MAX <? totalPixelSize then None
                    else Some (nimages, size_t plat totalPixelSize)
                | Win64 => Some (nimages, size_t plat totalPixelSize)
                end
            end = Some (nImages, pixelSize) ->
            0 <= nImages <= SIZE_MAX plat).
  { intros [[total nimages] | ] Hc; [ | discriminate].
    specialize (Hc _ eq_refl). cbn [snd] in Hc.
    destruct plat; [destruct (_ <? _); [discriminate | ] | ];
      intros Heq; injection Heq as <- <-; exact Hc. }
  cbv zeta. apply Hfin.
  destruct (in_cases _ _).
  - intros acc. apply Determine_items_count, H0.
  - destruct (_ =? _); [ | discriminate].
    intros acc. apply Determine_volume_count, H0.
Qed.

(** X16.  Initialize does not leak: when it fails on an image that owns
    nothing (as after Release), the image still owns nothing. *)
Theorem Initialize_failure_owns_nothing (plat : Platform) (heap : Heap)
    (self : ScratchImage) (mdata : TexMetadata) (flags : Z)
    (hr : HRESULT) (self' : ScratchImage) :
  owns_nothing self ->
  Initialize plat heap self mdata flags = (hr, self') ->
  FAILED hr = true ->
  owns_nothing self'.
Proof.
  intros Hnone H Hfail.
  initialize_cases H; injection H as <- <-;
    first [ exact Hnone
          | repeat split; reflexivity
          | discriminate Hfail ].
Qed.

Lemma DetermineImageArray_size_nonneg (plat : Platform) (md : TexMetadata)
    (flags nImages pixelSize : Z) :
  DetermineImageArray plat md flags = Some (nImages, pixelSize) ->
  0 <= pixelSize.
Proof.
  unfold DetermineImageArray. intros H.
  repeat first
    [ discriminate H
    | match type of H with
      | context [match ?x with Some _ => _ | None => _ end] =>
          destruct x as [[? ?] | ] eqn:?
      | context [if ?c then _ else _] => destruct c eqn:?
      | context [match ?p with Win32 => _ | Win64 => _ end] => destruct p
      end ];
    injection H as <- <-; apply size_t_range.
Qed.

Lemma full_mip_chain_bound (mdata : TexMetadata) :
  within_limits mdata -> well_formed mdata -> full_mip_chain mdata <= 15.
Proof.
  intros (Hw & Hh & Hd & Ha & Hm) (_ & _ & _ & Hw1 & Hh1 & Hd1 & _).
  unfold full_mip_chain.
  assert (Z.log2 (Z.max (Z.max (width mdata) (height mdata)) (depth mdata))
          <= Z.log2 16384) by (apply Z.log2_le_mono; lia).
  change (Z.log2 16384) with 14 in *. lia.
Qed.

Lemma completed_valid (mdata : TexMetadata) :
  within_limits mdata -> well_formed mdata -> valid_metadata (completed mdata).
Proof.
  intros Hlim Hwf. pose proof (full_mip_chain_bound mdata Hlim Hwf) as Hfull.
  destruct Hlim as (Hw & Hh & Hd & Ha & Hm).
  destruct Hwf as (_ & _ & Hdim & Hw1 & Hh1 & Hd1 & Ha1 & Hmips).
  unfold valid_metadata, completed.
  cbn [width height depth arraySize mipLevels dimension].
  assert (1 <= full_mip_chain mdata).
  { unfold full_mip_chain.
    pose proof (Z.log2_nonneg
                  (Z.max (Z.max (width mdata) (height mdata)) (depth mdata))).
    lia. }
  split; [tauto | ].
  destruct (Z.eqb_spec (mipLevels mdata) 0); lia.
Qed.

Lemma Initialize_layout_aux (plat : Platform) (heap : Heap)
    (self : ScratchImage) (mdata : TexMetadata) (flags : Z)
    (self' : ScratchImage) :
  within_limits mdata ->
  Initialize plat heap self mdata flags = (S_OK, self') ->
  exists images memory,
    m_image self' = Some images /\ m_memory self' = Some memory
    /\ Z.of_nat (length images) = m_nimages self'
    /\ Z.of_nat (length memory) = m_size self'
    /\ 1 <= m_nimages self'
    /\ DetermineImageArray plat (m_metadata self') flags
       = Some (m_nimages self', m_size self')
    /\ tiled images (Z.to_nat (m_nimages self')) 0 (m_size self')
    /\ Forall (pitched plat (format mdata) flags) images.
Proof.
  intros Hlim H.
  destruct (Initialize_accepts_only_well_formed_metadata_aux
              plat heap self mdata flags self' Hlim H) as [Hwf Hmd].
  pose proof (completed_valid mdata Hlim Hwf) as Hvalid.
  rewrite <- Hmd in Hvalid.
  initialize_cases H;
    try (apply (f_equal fst) in H; vm_compute in H; discriminate H);
    apply (f_equal snd) in H; cbn [snd] in H; subst self';
    cbn [m_metadata m_image m_memory m_nimages m_size] in *; subst;
    match goal with
    | Hplan : DetermineImageArray _ ?md _ = Some (?n, ?p),
      Hset : SetupImageArray _ _ _ _ (Some ?imgs) _ = (_, ?l) |- _ =>
        pose proof (DetermineImageArray_size_nonneg _ _ _ _ _ Hplan) as Hp0;
        pose proof (DetermineImageArray_count_range _ _ _ _ _ Hplan) as Hn0;
        destruct (SetupImageArray_follows_plan plat md flags p n Hvalid Hplan)
          as [Hn Hrun];
        destruct (Hrun imgs) as (st & Hst & Hidx & _ & Hlen & Htiled);
        [ rewrite repeat_length; lia | ];
        pose proof (SetupImageArray_run_described plat md flags p n imgs st
                      (proj2 Hn0)
                      (proj1 (proj2 Hvalid))
                      (proj1 (proj2 (proj2 Hvalid)))
                      ltac:(rewrite repeat_length; lia) Hst) as Hdesc;
        rewrite Hidx in Hdesc;
        rewrite firstn_all2 in Hdesc
          by (rewrite Hlen, repeat_length; lia);
        unfold SetupImageArray in Hset; rewrite Hst in Hset;
        injection Hset as <-;
        exists (st_images st), (repeat x00 (Z.to_nat p));
        rewrite Hlen, !repeat_length;
        repeat split; first [reflexivity | assumption | lia]
    end.
Qed.

(** X17.  After a successful Initialize (on metadata within the limits)
    the image owns one descriptor per subresource and a pixel buffer of
    exactly the planned size.  The descriptors tile the buffer: the
    first starts at offset 0, each one starts where the previous one
    ends, and the last one ends at the end of the buffer.  Every
    descriptor has the format of the image, extents between 1 and
    16384, and the row and slice pitch ComputePitch gives for its own
    extents. *)
Theorem Initialize_lays_out_the_image (plat : Platform) (heap : Heap)
    (self : ScratchImage) (mdata : TexMetadata) (flags : Z)
    (self' : ScratchImage) :
  within_limits mdata ->
  Initialize plat heap self mdata flags = (S_OK, self') ->
  exists images memory,
    m_image self' = Some images /\ m_memory self' = Some memory
    /\ Z.of_nat (length images) = m_nimages self'
    /\ Z.of_nat (length memory) = m_size self'
    /\ 1 <= m_nimages self'
    /\ DetermineImageArray plat (m_metadata self') flags
       = Some (m_nimages self', m_size self')
    /\ tiled images (Z.to_nat (m_nimages self')) 0 (m_size self')
    /\ Forall (pitched plat (format mdata) flags) images.
Proof. apply Initialize_layout_aux. Qed.

Lemma CalculateMipLevels_accepts (w h mips : Z) :
  1 <= w -> 1 <= h -> 0 <= mips <= Z.log2 (Z.max w h) + 1 ->
  CalculateMipLevels w h mips <> None.
Proof.
  intros Hw Hh Hm. unfold CalculateMipLevels.
  rewrite CountMips_log2 by assumption.
  destruct (Z.ltb_spec 1 mips).
  - destruct (Z.ltb_spec (Z.log2 (Z.max w h) + 1) mips); [lia | discriminate].
  - destruct (mips =? 0); discriminate.
Qed.

Lemma CalculateMipLevels3D_accepts (w h d mips : Z) :
  1 <= w -> 1 <= h -> 1 <= d ->
  0 <= mips <= Z.log2 (Z.max (Z.max w h) d) + 1 ->
  CalculateMipLevels3D w h d mips <> None.
Proof.
  intros Hw Hh Hd Hm. unfold CalculateMipLevels3D.
  rewrite CountMips3D_log2 by assumption.
  destruct (Z.ltb_spec 1 mips).
  - destruct (Z.ltb_spec (Z.log2 (Z.max (Z.max w h) d) + 1) mips);
      [lia | discriminate].
  - destruct (mips =? 0); discriminate.
Qed.

(** X18.  On the 64-bit targets Initialize succeeds on every well-formed
    metadata within the limits whose format has a pitch, as long as
    its two allocations succeed. *)
Theorem Initialize_succeeds_on_well_formed_metadata (heap : Heap)
    (self : ScratchImage) (mdata : TexMetadata) (flags : Z) :
  within_limits mdata -> well_formed mdata ->
  ComputePitch_switch (format mdata) (width mdata) (height mdata) flags <> None ->
  (forall n, new_images heap n = true) ->
  (forall size, aligned_malloc heap size = true) ->
  exists self', Initialize Win64 heap self mdata flags = (S_OK, self').
Proof.
  intros Hlim Hwf Hpitch Hnew Hmalloc.
  destruct (Initialize Win64 heap self mdata flags) as [hr self'] eqn:H.
  exists self'. f_equal.
  pose proof (full_mip_chain_bound mdata Hlim Hwf) as Hfull.
  destruct Hlim as (Hw & Hh & Hd & Ha & Hm).
  destruct Hwf as (Hv & Hp & Hdim & Hw1 & Hh1 & Hd1 & Ha1 & Hmips).
  unfold full_mip_chain in Hmips, Hfull.
  assert (Hplan : forall md', valid_metadata md' ->
            format md' = format mdata -> width md' = width mdata ->
            height md' = height mdata ->
            forall images' ok,
              match DetermineImageArray Win64 md' flags with
              | Some (n, p) =>
                  SetupImageArray Win64 p md' flags
                    (Some (repeat zero_image (Z.to_nat n))) n = (ok, images') ->
                  ok = true
              | None => False
              end).
  { intros md' Hvalid Hf Hw' Hh' images' ok.
    destruct (DetermineImageArray_Win64_succeeds md' flags) as (n & p & Hnp).
    - destruct Hvalid as (Hd' & _). exact Hd'.
    - rewrite Hf, Hw', Hh'. exact Hpitch.
    - rewrite Hnp.
      destruct (SetupImageArray_follows_plan Win64 md' flags p n Hvalid Hnp)
        as [Hn Hrun].
      destruct (Hrun (repeat zero_image (Z.to_nat n))) as (st & Hst & _).
      { rewrite repeat_length. lia. }
      unfold SetupImageArray. rewrite Hst. intros E. injection E as <- _.
      reflexivity. }
  assert (Hfin : forall mips,
            1 <= mips <= 15 ->
            forall md', md' = mkTexMetadata (width mdata) (height mdata)
                                (depth mdata) (arraySize mdata) mips
                                (miscFlags mdata) (miscFlags2 mdata)
                                (format mdata) (dimension mdata) ->
            match DetermineImageArray Win64 md' flags with
            | Some (nimages, pixelSize) =>
                if negb (new_images heap nimages)
                then (E_OUTOFMEMORY, mkScratchImage 0 0 md' None None)
                else
                  if negb (aligned_malloc heap pixelSize)
                  then (E_OUTOFMEMORY,
                        Release (mkScratchImage nimages 0 md'
                                   (Some (repeat zero_image (Z.to_nat nimages)))
                                   None))
                  else
                    match SetupImageArray Win64 pixelSize md' flags
                            (Some (repeat zero_image (Z.to_nat nimages)))
                            nimages with
                    | (false, _) =>
                        (E_FAIL,
                         Release (mkScratchImage nimages pixelSize md'
                                    (Some (repeat zero_image (Z.to_nat nimages)))
                                    (Some (repeat x00 (Z.to_nat pixelSize)))))
                    | (true, images') =>
                        (S_OK,
                         mkScratchImage nimages pixelSize md' (Some images')
                           (Some (repeat x00 (Z.to_nat pixelSize))))
                    end
            | None => (E_FAIL, mkScratchImage 0 0 md' None None)
            end = (hr, self') ->
            hr = S_OK).
  { intros mips Hmr md' -> Hrun.
    set (md' := mkTexMetadata _ _ _ _ mips _ _ _ _) in *.
    assert (Hvalid : valid_metadata md').
    { unfold valid_metadata, md'.
      cbn [width height depth arraySize mipLevels dimension].
      split; [ | lia].
      destruct Hdim as [(? & _) | [(? & _) | (? & _)]]; auto. }
    specialize (Hplan md' Hvalid eq_refl eq_refl eq_refl).
    destruct (DetermineImageArray Win64 md' flags) as [[n p] | ];
      [ | destruct (Hplan [] true)].
    rewrite Hnew, Hmalloc in Hrun. cbn [negb] in Hrun.
    destruct (SetupImageArray Win64 p md' flags
                (Some (repeat zero_image (Z.to_nat n))) n)
      as [ok images'] eqn:Hs.
    rewrite (Hplan images' ok eq_refl) in Hrun. injection Hrun as <- _.
    reflexivity. }
  revert H. unfold Initialize. rewrite Hv, Hp. cbn [negb]. cbv zeta.
  destruct Hdim as [(Hdim & Hh' & Hd') | [(Hdim & Hd' & Hcube) | (Hdim & Ha')]];
    rewrite Hdim;
    change (TEX_DIMENSION_TEXTURE1D =? TEX_DIMENSION_TEXTURE1D) with true;
    change (TEX_DIMENSION_TEXTURE2D =? TEX_DIMENSION_TEXTURE1D) with false;
    change (TEX_DIMENSION_TEXTURE2D =? TEX_DIMENSION_TEXTURE2D) with true;
    change (TEX_DIMENSION_TEXTURE3D =? TEX_DIMENSION_TEXTURE1D) with false;
    change (TEX_DIMENSION_TEXTURE3D =? TEX_DIMENSION_TEXTURE2D) with false;
    change (TEX_DIMENSION_TEXTURE3D =? TEX_DIMENSION_TEXTURE3D) with true;
    cbv iota.
  - rewrite Hh', Hd' in *.
    replace (Z.max (Z.max (width mdata) 1) 1) with (Z.max (width mdata) 1) in *
      by lia.
    replace (width mdata =? 0) with false by (symmetry; apply Z.eqb_neq; lia).
    replace (arraySize mdata =? 0) with false
      by (symmetry; apply Z.eqb_neq; lia).
    cbn [negb orb Z.eqb Pos.eqb]. cbv iota.
    destruct (CalculateMipLevels (width mdata) 1 (mipLevels mdata))
      as [mips | ] eqn:Hc.
    + apply CalculateMipLevels_completed in Hc; [ | lia ..].
      destruct Hc as [Hc _].
      change (FAILED S_OK) with false. cbv iota.
      apply (Hfin mips); [ | rewrite Hdim; reflexivity].
      rewrite Hc. pose proof (Z.log2_nonneg (Z.max (width mdata) 1)).
      destruct (Z.eqb_spec (mipLevels mdata) 0); lia.
    + exfalso. revert Hc. apply CalculateMipLevels_accepts; lia.
  - rewrite Hd' in *.
    replace (Z.max (Z.max (width mdata) (height mdata)) 1)
      with (Z.max (width mdata) (height mdata)) in * by lia.
    replace (width mdata =? 0) with false by (symmetry; apply Z.eqb_neq; lia).
    replace (height mdata =? 0) with false by (symmetry; apply Z.eqb_neq; lia).
    replace (arraySize mdata =? 0) with false
      by (symmetry; apply Z.eqb_neq; lia).
    cbn [negb orb Z.eqb Pos.eqb]. cbv iota.
    replace (IsCubemap mdata && negb (arraySize mdata mod 6 =? 0)) with false.
    2:{ symmetry. destruct (IsCubemap mdata); [ | reflexivity].
        rewrite Hcube by reflexivity. reflexivity. }
    cbv iota.
    destruct (CalculateMipLevels (width mdata) (height mdata) (mipLevels mdata))
      as [mips | ] eqn:Hc.
    + apply CalculateMipLevels_completed in Hc; [ | lia ..].
      destruct Hc as [Hc _].
      change (FAILED S_OK) with false. cbv iota.
      apply (Hfin mips); [ | rewrite Hdim; reflexivity].
      rewrite Hc.
      pose proof (Z.log2_nonneg (Z.max (width mdata) (height mdata))).
      destruct (Z.eqb_spec (mipLevels mdata) 0); lia.
    + exfalso. revert Hc. apply CalculateMipLevels_accepts; lia.
  - rewrite Ha' in *.
    replace (width mdata =? 0) with false by (symmetry; apply Z.eqb_neq; lia).
    replace (height mdata =? 0) with false by (symmetry; apply Z.eqb_neq; lia).
    replace (depth mdata =? 0) with false by (symmetry; apply Z.eqb_neq; lia).
    cbn [negb orb Z.eqb Pos.eqb]. cbv iota.
    destruct (CalculateMipLevels3D (width mdata) (height mdata) (depth mdata)
                (mipLevels mdata)) as [mips | ] eqn:Hc.
    + apply CalculateMipLevels3D_completed in Hc; [ | lia ..].
      destruct Hc as [Hc _].
      change (FAILED S_OK) with false. cbv iota.
      apply (Hfin mips); [ | rewrite Hdim; reflexivity].
      rewrite Hc.
      pose proof (Z.log2_nonneg
                    (Z.max (Z.max (width mdata) (height mdata)) (depth mdata))).
      destruct (Z.eqb_spec (mipLevels mdata) 0); lia.
    + exfalso. revert Hc. apply CalculateMipLevels3D_accepts; lia.
Qed.

(** ** Self-consistency of the legacy table *)

(** X19.  The legacy table is self-consistent: looking up the pixel
    format descriptor of any of its entries returns the format and the
    conversion flags of that entry, whatever the rest of the header
    holds.  No entry is shadowed by an earlier one with another
    meaning. *)
Theorem GetDXGIFormat_finds_every_table_entry (hdr : DDS_HEADER)
    (entry : LegacyDDS) (convFlags : Z) :
  In entry g_LegacyDDSMap ->
  GetDXGIFormat hdr (lg_ddpf entry) convFlags
  = (lg_format entry, lg_convFlags entry).
Proof.
  intros Hin.
  pose (found := fun (flags : Z) (e : LegacyDDS) =>
          match find (legacy_entry_matches flags (lg_ddpf e)) g_LegacyDDSMap with
          | Some e' =>
              (lg_format e' =? lg_format e) && (lg_convFlags e' =? lg_convFlags e)
          | None => false
          end).
  pose proof (legacy_table_forall
                (fun e =>
                   found (pf_flags (lg_ddpf e)) e
                   && found (Z.land (pf_flags (lg_ddpf e))
                               (u32 (Z.lnot 0xC0000000))) e
                   && negb (has_flag (pf_flags (lg_ddpf e)) 0x40000000))
                entry eq_refl Hin) as Hp.
  cbv beta in Hp.
  apply andb_true_iff in Hp. destruct Hp as [Hp Hsrgb].
  apply andb_true_iff in Hp. destruct Hp as [Hplain Hnvtt].
  apply negb_true_iff in Hsrgb.
  unfold GetDXGIFormat. rewrite Hsrgb, andb_false_r.
  unfold found in Hplain, Hnvtt.
  destruct (nth 9 (hdr_reserved1 hdr) 0 =? MAKEFOURCC "N" "V" "T" "T").
  - cbv iota.
    match goal with
    | |- context [find ?f ?l] => destruct (find f l) as [e' | ]
    end; [ | discriminate Hnvtt].
    apply andb_true_iff in Hnvtt. destruct Hnvtt as [Hf Hc].
    apply Z.eqb_eq in Hf, Hc. rewrite Hf, Hc. reflexivity.
  - cbv iota.
    match goal with
    | |- context [find ?f ?l] => destruct (find f l) as [e' | ]
    end; [ | discriminate Hplain].
    apply andb_true_iff in Hplain. destruct Hplain as [Hf Hc].
    apply Z.eqb_eq in Hf, Hc. rewrite Hf, Hc. reflexivity.
Qed.

(** ** Expansion of 16-bit pixels *)

Lemma ExpandScanline_loop_spec (f : Z -> Z) (inSize outSize icount ocount : Z)
    (src dst : list byte) :
  0 <= icount -> 0 <= ocount -> outSize <= Z.of_nat (length dst) ->
  let r := ExpandScanline_loop f inSize outSize icount ocount src dst in
  length r = length dst
  /\ (forall k, 0 <= k ->
        icount + 2 * k < inSize - 1 -> ocount + 4 * k < outSize - 3 ->
        load32 r (ocount + 4 * k) = u32 (f (load16 src (icount + 2 * k))))
  /\ (forall j, 0 <= j ->
        (forall k, 0 <= k ->
           icount + 2 * k < inSize - 1 -> ocount + 4 * k < outSize - 3 ->
           j < ocount + 4 * k \/ ocount + 4 * k + 4 <= j) ->
        load8 r j = load8 dst j).
Proof.
  funelim (ExpandScanline_loop f inSize outSize icount ocount src dst);
    intros Hi Ho Hlen.
  - clear H0 Heqcall. apply andb_prop in e. destruct e as [e1 e2].
    apply Z.ltb_lt in e1, e2.
    set (v := f (load16 src icount)) in *.
    set (dst' := store32 dst ocount v) in *.
    assert (Hlen' : length dst' = length dst) by apply store32_length.
    destruct H as (Hl & Hpix & Hkeep); [lia | lia | rewrite Hlen'; lia | ].
    set (r := ExpandScanline_loop f inSize outSize (icount + 2) (ocount + 4)
                src dst') in *.
    assert (Hhead : forall j, 0 <= j < ocount + 4 -> load8 r j = load8 dst' j).
    { intros j Hj. apply Hkeep; [lia | ]. intros k Hk _ _. lia. }
    split; [congruence | split].
    + intros k Hk Hin Hout.
      destruct (Z.eq_dec k 0) as [-> | Hne].
      * replace (ocount + 4 * 0) with ocount by lia.
        replace (icount + 2 * 0) with icount by lia.
        rewrite (load32_ext r dst') by (intros; apply Hhead; lia).
        apply load32_store32_same; lia.
      * replace (ocount + 4 * k) with (ocount + 4 + 4 * (k - 1)) by lia.
        replace (icount + 2 * k) with (icount + 2 + 2 * (k - 1)) by lia.
        apply Hpix; lia.
    + intros j Hj Hout. rewrite Hkeep.
      * apply load8_store32_outside; try lia.
        specialize (Hout 0 (Z.le_refl 0)). lia.
      * assumption.
      * intros k Hk Hin Hlt.
        specialize (Hout (k + 1)). lia.
  - clear H Heqcall. apply andb_false_iff in e.
    split; [reflexivity | split; [ | reflexivity]].
    intros k Hk Hin Hout.
    destruct e as [e | e]; apply Z.ltb_ge in e; lia.
Qed.

Ltac name_masks16 :=
  change 0xff with (Z.ones 8);
  change 0xf800 with (Z.shiftl (Z.ones 5) 11);
  change 0xe000 with (Z.shiftl (Z.ones 3) 13);
  change 0x07e0 with (Z.shiftl (Z.ones 6) 5);
  change 0x0600 with (Z.shiftl (Z.ones 2) 9);
  change 0x001f with (Z.ones 5);
  change 0x001c with (Z.shiftl (Z.ones 3) 2);
  change 0x7c00 with (Z.shiftl (Z.ones 5) 10);
  change 0x7000 with (Z.shiftl (Z.ones 3) 12);
  change 0x03e0 with (Z.shiftl (Z.ones 5) 5);
  change 0x0380 with (Z.shiftl (Z.ones 3) 7);
  change 0x0f00 with (Z.shiftl (Z.ones 4) 8);
  change 0x00f0 with (Z.shiftl (Z.ones 4) 4);
  change 0x000f with (Z.ones 4);
  change 0xf000 with (Z.shiftl (Z.ones 4) 12).

(** One channel of one term of an expansion. *)
Ltac channel_of_term :=
  unfold red8, green8, blue8, alpha8, field, replicate5, replicate4, u32, wrap;
  name_masks16; Z.bitblast.

Ltac four_channels :=
  cbv zeta; split; [ | split; [ | split]]; channel_of_term.

(** The channels of a pixel assembled from four terms are assembled
    from the channels of the terms. *)
Lemma channels_of_lor4 (a b c d : Z) :
  let p := u32 (Z.lor (Z.lor (Z.lor a b) c) d) in
  red8 p = Z.lor (Z.lor (Z.lor (red8 a) (red8 b)) (red8 c)) (red8 d)
  /\ green8 p = Z.lor (Z.lor (Z.lor (green8 a) (green8 b)) (green8 c)) (green8 d)
  /\ blue8 p = Z.lor (Z.lor (Z.lor (blue8 a) (blue8 b)) (blue8 c)) (blue8 d)
  /\ alpha8 p = Z.lor (Z.lor (Z.lor (alpha8 a) (alpha8 b)) (alpha8 c)) (alpha8 d).
Proof. four_channels. Qed.

Lemma B5G6R5_red_term (t : Z) :
  let t1 := u32 (Z.lor (Z.shiftr (Z.land t 0xf800) 8)
                       (Z.shiftr (Z.land t 0xe000) 13)) in
  red8 t1 = replicate5 (field t 11 5)
  /\ green8 t1 = 0 /\ blue8 t1 = 0 /\ alpha8 t1 = 0.
Proof. four_channels. Qed.

Lemma B5G6R5_green_term (t : Z) :
  let t2 := u32 (Z.lor (Z.shiftl (Z.land t 0x07e0) 5)
                       (Z.shiftr (Z.land t 0x0600) 5)) in
  red8 t2 = Z.shiftl (field t 9 2) 4
  /\ green8 t2 = Z.shiftl (field t 5 6) 2 /\ blue8 t2 = 0 /\ alpha8 t2 = 0.
Proof. four_channels. Qed.

Lemma B5G6R5_blue_term (t : Z) :
  let t3 := u32 (Z.lor (Z.shiftl (Z.land t 0x001f) 19)
                       (Z.shiftl (Z.land t 0x001c) 14)) in
  red8 t3 = 0 /\ green8 t3 = 0
  /\ blue8 t3 = replicate5 (field t 0 5) /\ alpha8 t3 = 0.
Proof. four_channels. Qed.

Lemma B5G5R5A1_red_term (t : Z) :
  let t1 := u32 (Z.lor (Z.shiftr (Z.land t 0x7c00) 7)
                       (Z.shiftr (Z.land t 0x7000) 12)) in
  red8 t1 = replicate5 (field t 10 5)
  /\ green8 t1 = 0 /\ blue8 t1 = 0 /\ alpha8 t1 = 0.
Proof. four_channels. Qed.

Lemma B5G5R5A1_green_term (t : Z) :
  let t2 := u32 (Z.lor (Z.shiftl (Z.land t 0x03e0) 6)
                       (Z.shiftl (Z.land t 0x0380) 1)) in
  red8 t2 = 0 /\ green8 t2 = replicate5 (field t 5 5)
  /\ blue8 t2 = 0 /\ alpha8 t2 = 0.
Proof. four_channels. Qed.

Lemma B4G4R4A4_red_term (t : Z) :
  let t1 := u32 (Z.lor (Z.shiftr (Z.land t 0x0f00) 4)
                       (Z.shiftr (Z.land t 0x0f00) 8)) in
  red8 t1 = replicate4 (field t 8 4)
  /\ green8 t1 = 0 /\ blue8 t1 = 0 /\ alpha8 t1 = 0.
Proof. four_channels. Qed.

Lemma B4G4R4A4_green_term (t : Z) :
  let t2 := u32 (Z.lor (Z.shiftl (Z.land t 0x00f0) 8)
                       (Z.shiftl (Z.land t 0x00f0) 4)) in
  red8 t2 = 0 /\ green8 t2 = replicate4 (field t 4 4)
  /\ blue8 t2 = 0 /\ alpha8 t2 = 0.
Proof. four_channels. Qed.

Lemma B4G4R4A4_blue_term (t : Z) :
  let t3 := u32 (Z.lor (Z.shiftl (Z.land t 0x000f) 20)
                       (Z.shiftl (Z.land t 0x000f) 16)) in
  red8 t3 = 0 /\ green8 t3 = 0
  /\ blue8 t3 = replicate4 (field t 0 4) /\ alpha8 t3 = 0.
Proof. four_channels. Qed.

Lemma B4G4R4A4_alpha_term (t : Z) :
  let ta := u32 (Z.lor (Z.shiftl (Z.land t 0xf000) 16)
                       (Z.shiftl (Z.land t 0xf000) 12)) in
  red8 ta = 0 /\ green8 ta = 0 /\ blue8 ta = 0
  /\ alpha8 ta = replicate4 (field t 12 4).
Proof. four_channels. Qed.

Lemma has_flag_bit15 (t : Z) : has_flag t 0x8000 = Z.testbit t 15.
Proof.
  unfold has_flag. change 0x8000 with (2 ^ 15).
  destruct (Z.testbit t 15) eqn:Hb.
  - apply negb_true_iff, Z.eqb_neq. intros H0.
    apply (f_equal (fun x => Z.testbit x 15)) in H0.
    rewrite Z.land_spec, Hb, Z.bits_0, Z.pow2_bits_true in H0 by lia.
    discriminate H0.
  - apply negb_false_iff, Z.eqb_eq. apply Z.bits_inj'. intros n Hn.
    rewrite Z.land_spec, Z.bits_0, Z.pow2_bits_eqb by lia.
    destruct (Z.eqb_spec 15 n) as [<- | Hne];
      [rewrite Hb; reflexivity | apply andb_false_r].
Qed.

Lemma expand_B5G6R5_channels (setalpha : bool) (t : Z) :
  expanded Fmt.B5G6R5_UNORM setalpha t (u32 (expand_B5G6R5 t)).
Proof.
  unfold expanded. change (Fmt.B5G6R5_UNORM =? Fmt.B5G6R5_UNORM) with true.
  cbv iota. unfold expand_B5G6R5. cbv zeta.
  match goal with
  | |- context [u32 (Z.lor (Z.lor (Z.lor ?a ?b) ?c) ?d)] =>
      destruct (channels_of_lor4 a b c d) as (-> & -> & -> & ->)
  end.
  destruct (B5G6R5_red_term t) as (-> & -> & -> & ->).
  destruct (B5G6R5_green_term t) as (-> & -> & -> & ->).
  destruct (B5G6R5_blue_term t) as (-> & -> & -> & ->).
  change (red8 0xff000000) with 0. change (green8 0xff000000) with 0.
  change (blue8 0xff000000) with 0. change (alpha8 0xff000000) with 0xff.
  rewrite ?Z.lor_0_r, ?Z.lor_0_l. repeat split; reflexivity.
Qed.

Lemma expand_B5G5R5A1_channels (tflags t : Z) :
  expanded Fmt.B5G5R5A1_UNORM (has_flag tflags TEXP_SCANLINE_SETALPHA) t
    (u32 (expand_B5G5R5A1 tflags t)).
Proof.
  unfold expanded.
  change (Fmt.B5G5R5A1_UNORM =? Fmt.B5G6R5_UNORM) with false.
  change (Fmt.B5G5R5A1_UNORM =? Fmt.B5G5R5A1_UNORM) with true.
  cbv iota. unfold expand_B5G5R5A1. cbv zeta.
  match goal with
  | |- context [u32 (Z.lor (Z.lor (Z.lor ?a ?b) ?c) ?d)] =>
      destruct (channels_of_lor4 a b c d) as (-> & -> & -> & ->)
  end.
  destruct (B5G5R5A1_red_term t) as (-> & -> & -> & ->).
  destruct (B5G5R5A1_green_term t) as (-> & -> & -> & ->).
  destruct (B5G6R5_blue_term t) as (-> & -> & -> & ->).
  rewrite has_flag_bit15.
  destruct (has_flag tflags TEXP_SCANLINE_SETALPHA); [ | destruct (Z.testbit t 15)];
    rewrite ?Z.lor_0_r, ?Z.lor_0_l; repeat split; reflexivity.
Qed.

Lemma expand_B4G4R4A4_channels (tflags t : Z) :
  expanded Fmt.B4G4R4A4_UNORM (has_flag tflags TEXP_SCANLINE_SETALPHA) t
    (u32 (expand_B4G4R4A4 tflags t)).
Proof.
  unfold expanded.
  change (Fmt.B4G4R4A4_UNORM =? Fmt.B5G6R5_UNORM) with false.
  change (Fmt.B4G4R4A4_UNORM =? Fmt.B5G5R5A1_UNORM) with false.
  cbv iota. unfold expand_B4G4R4A4. cbv zeta.
  match goal with
  | |- context [u32 (Z.lor (Z.lor (Z.lor ?a ?b) ?c) ?d)] =>
      destruct (channels_of_lor4 a b c d) as (-> & -> & -> & ->)
  end.
  destruct (B4G4R4A4_red_term t) as (-> & -> & -> & ->).
  destruct (B4G4R4A4_green_term t) as (-> & -> & -> & ->).
  destruct (B4G4R4A4_blue_term t) as (-> & -> & -> & ->).
  destruct (has_flag tflags TEXP_SCANLINE_SETALPHA).
  - rewrite ?Z.lor_0_r, ?Z.lor_0_l. repeat split; reflexivity.
  - destruct (B4G4R4A4_alpha_term t) as (-> & -> & -> & ->).
    rewrite ?Z.lor_0_r, ?Z.lor_0_l. repeat split; reflexivity.
Qed.


(** ** Scanline copies *)

Lemma store16_length (buf : list byte) (off v : Z) :
  length (store16 buf off v) = length buf.
Proof. unfold store16. rewrite !store8_length. reflexivity. Qed.

Lemma mod_256_word_byte (v : Z) : v mod 256 = word_byte v 0.
Proof.
  unfold word_byte. change 0xff with (Z.ones 8).
  rewrite Z.land_ones by lia. rewrite Z.shiftr_0_r. reflexivity.
Qed.

Lemma shiftr_mod_256_word_byte (v k : Z) :
  0 <= k -> Z.shiftr v (8 * k) mod 256 = word_byte v k.
Proof.
  intros Hk. unfold word_byte. change 0xff with (Z.ones 8).
  rewrite Z.land_ones by lia. reflexivity.
Qed.

(** The bytes of a buffer after a 32-bit store. *)
Lemma load8_store32 (buf : list byte) (off v j : Z) :
  0 <= off -> off + 4 <= Z.of_nat (length buf) -> 0 <= j ->
  load8 (store32 buf off v) j
  = if (off <=? j) && (j <? off + 4) then word_byte v (j - off)
    else load8 buf j.
Proof.
  intros H0 Hlen Hj.
  destruct (Z.leb_spec off j); destruct (Z.ltb_spec j (off + 4)); cbn [andb];
    try (apply load8_store32_outside; lia).
  unfold store32.
  assert (Hcase : j = off \/ j = off + 1 \/ j = off + 2 \/ j = off + 3) by lia.
  destruct Hcase as [-> | [-> | [-> | ->]]].
  - rewrite !(load8_store8_other _ _ off) by lia.
    rewrite load8_store8_same by lia.
    replace (off - off) with 0 by lia. apply mod_256_word_byte.
  - rewrite !(load8_store8_other _ _ (off + 1)) by lia.
    rewrite load8_store8_same by (rewrite !store8_length; lia).
    replace (off + 1 - off) with 1 by lia.
    apply (shiftr_mod_256_word_byte v 1). lia.
  - rewrite !(load8_store8_other _ _ (off + 2)) by lia.
    rewrite load8_store8_same by (rewrite !store8_length; lia).
    replace (off + 2 - off) with 2 by lia.
    apply (shiftr_mod_256_word_byte v 2). lia.
  - rewrite load8_store8_same by (rewrite !store8_length; lia).
    replace (off + 3 - off) with 3 by lia.
    apply (shiftr_mod_256_word_byte v 3). lia.
Qed.

(** The bytes of a buffer after a 16-bit store. *)
Lemma load8_store16 (buf : list byte) (off v j : Z) :
  0 <= off -> off + 2 <= Z.of_nat (length buf) -> 0 <= j ->
  load8 (store16 buf off v) j
  = if (off <=? j) && (j <? off + 2) then word_byte v (j - off)
    else load8 buf j.
Proof.
  intros H0 Hlen Hj. unfold store16.
  destruct (Z.leb_spec off j); destruct (Z.ltb_spec j (off + 2)); cbn [andb];
    try (rewrite !load8_store8_other by lia; reflexivity).
  assert (Hcase : j = off \/ j = off + 1) by lia.
  destruct Hcase as [-> | ->].
  - rewrite !(load8_store8_other _ _ off) by lia.
    rewrite load8_store8_same by lia.
    replace (off - off) with 0 by lia. apply mod_256_word_byte.
  - rewrite load8_store8_same by (rewrite !store8_length; lia).
    replace (off + 1 - off) with 1 by lia.
    apply (shiftr_mod_256_word_byte v 1). lia.
Qed.

Lemma word_byte_small (b : Z) : 0 <= b < 256 -> word_byte b 0 = b.
Proof.
  intros Hb. rewrite <- mod_256_word_byte. apply Z.mod_small. lia.
Qed.

(** The bytes of a 32-bit load are the bytes of the buffer. *)
Lemma word_byte_load32 (buf : list byte) (off i : Z) :
  0 <= i < 4 -> word_byte (load32 buf off) i = load8 buf (off + i).
Proof.
  intros Hi. unfold load32.
  pose proof (byte_val_range (nth (Z.to_nat off) buf x00)) as R0.
  pose proof (byte_val_range (nth (Z.to_nat (off + 1)) buf x00)) as R1.
  pose proof (byte_val_range (nth (Z.to_nat (off + 2)) buf x00)) as R2.
  pose proof (byte_val_range (nth (Z.to_nat (off + 3)) buf x00)) as R3.
  fold (load8 buf off) in R0. fold (load8 buf (off + 1)) in R1.
  fold (load8 buf (off + 2)) in R2. fold (load8 buf (off + 3)) in R3.
  assert (Hcase : i = 0 \/ i = 1 \/ i = 2 \/ i = 3) by lia.
  rewrite <- shiftr_mod_256_word_byte by lia.
  rewrite Z.shiftr_div_pow2 by lia.
  destruct Hcase as [-> | [-> | [-> | ->]]];
    [replace (off + 0) with off by lia | | | ];
    cbn [Z.mul Pos.mul]; 
    generalize dependent (load8 buf off);
    generalize dependent (load8 buf (off + 1));
    generalize dependent (load8 buf (off + 2));
    generalize dependent (load8 buf (off + 3)); intros;
    change (2 ^ 8) with 256 in *; change (2 ^ 16) with 65536 in *;
    change (2 ^ 24) with 16777216 in *; change (2 ^ 0) with 1 in *;
    Z.div_mod_to_equations; lia.
Qed.

Lemma word_byte_load16 (buf : list byte) (off i : Z) :
  0 <= i < 2 -> word_byte (load16 buf off) i = load8 buf (off + i).
Proof.
  intros Hi. unfold load16.
  pose proof (byte_val_range (nth (Z.to_nat off) buf x00)) as R0.
  pose proof (byte_val_range (nth (Z.to_nat (off + 1)) buf x00)) as R1.
  fold (load8 buf off) in R0. fold (load8 buf (off + 1)) in R1.
  assert (Hcase : i = 0 \/ i = 1) by lia.
  rewrite <- shiftr_mod_256_word_byte by lia.
  rewrite Z.shiftr_div_pow2 by lia.
  destruct Hcase as [-> | ->];
    [replace (off + 0) with off by lia | ];
    cbn [Z.mul Pos.mul];
    generalize dependent (load8 buf off);
    generalize dependent (load8 buf (off + 1)); intros;
    change (2 ^ 8) with 256 in *; change (2 ^ 0) with 1 in *;
    Z.div_mod_to_equations; lia.
Qed.

Lemma CopyScanline_loop_spec (stride : positive) (g : Z -> Z -> Z)
    (src : ScanlineSource) (body : Z -> list byte -> list byte)
    (size limit count : Z) (dst : list byte) :
  maps_pixel (Z.pos stride) g src body ->
  limit = size - (Z.pos stride - 1) ->
  (exists c, 0 <= c /\ count = Z.pos stride * c) ->
  size <= Z.of_nat (length dst) ->
  let r := CopyScanline_loop stride body limit count dst in
  length r = length dst
  /\ forall j, 0 <= j ->
       load8 r j
       = if (count <=? j) && (j <? Z.pos stride * (size / Z.pos stride))
         then g (j mod Z.pos stride) (load8 (source_of src dst) j)
         else load8 dst j.
Proof.
  funelim (CopyScanline_loop stride body limit count dst);
    intros Hbody Hlimit (c & Hc & Hcount) Hlen.
  - clear H0 Heqcall. apply Z.ltb_lt in e.
    destruct (Hbody count dst) as (Hl1 & Hb1); [lia | lia | ].
    set (dst' := body count dst) in *.
    destruct (H g src size) as (Hl & Hrest);
      [exact Hbody | exact Hlimit | exists (c + 1); split; lia
      | rewrite Hl1; exact Hlen | ].
    set (r := CopyScanline_loop stride body limit (count + Z.pos stride) dst')
      in *.
    set (top := Z.pos stride * (size / Z.pos stride)) in *.
    assert (Htop : count + Z.pos stride <= top).
    { unfold top.
      assert (c + 1 <= size / Z.pos stride)
        by (apply Z.div_le_lower_bound; lia).
      nia. }
    split; [congruence | ].
    intros j Hj. rewrite Hrest by exact Hj. rewrite !Hb1 by exact Hj.
    destruct (Z.leb_spec (count + Z.pos stride) j) as [Hge | Hlt];
      destruct (Z.ltb_spec j top) as [Hjt | Hjt]; cbn [andb].
    + destruct (Z.leb_spec count j); [ | lia]. cbn [andb].
      destruct (Z.ltb_spec j (count + Z.pos stride)); [lia | ].
      f_equal. destruct src as [ | s]; cbn [source_of]; [ | reflexivity].
      rewrite Hb1 by exact Hj.
      destruct (Z.leb_spec count j); [ | lia].
      destruct (Z.ltb_spec j (count + Z.pos stride)); [lia | reflexivity].
    + destruct (Z.leb_spec count j); [ | lia]. cbn [andb].
      destruct (Z.ltb_spec j (count + Z.pos stride)); [lia | reflexivity].
    + destruct (Z.leb_spec count j) as [Hcj | Hcj]; cbn [andb].
      * destruct (Z.ltb_spec j (count + Z.pos stride)); [ | lia].
        f_equal. subst count.
        replace j with (j - Z.pos stride * c + c * Z.pos stride) at 2 by lia.
        rewrite Z.mod_add by lia. rewrite Z.mod_small by lia. reflexivity.
      * reflexivity.
    + lia.
  - clear H Heqcall. apply Z.ltb_ge in e.
    split; [reflexivity | ]. intros j Hj.
    destruct (Z.leb_spec count j); [ | reflexivity].
    destruct (Z.ltb_spec j (Z.pos stride * (size / Z.pos stride)));
      [ | reflexivity].
    exfalso.
    assert (size / Z.pos stride <= c).
    { apply Z.lt_succ_r. apply Z.div_lt_upper_bound; lia. }
    nia.
Qed.

Lemma maps_pixel_ext (stride : Z) (g g' : Z -> Z -> Z) (src : ScanlineSource)
    (body : Z -> list byte -> list byte) :
  maps_pixel stride g src body ->
  (forall i b, 0 <= i < stride -> 0 <= b < 256 -> g i b = g' i b) ->
  maps_pixel stride g' src body.
Proof.
  intros Hbody Hext count dst Hc Hlen.
  destruct (Hbody count dst Hc Hlen) as (Hl & Hb).
  split; [exact Hl | ]. intros j Hj. rewrite Hb by exact Hj.
  destruct (Z.leb_spec count j); destruct (Z.ltb_spec j (count + stride));
    cbn [andb]; try reflexivity.
  apply Hext; [lia | apply byte_val_range].
Qed.

Lemma setalpha_32x4_maps (alpha : Z) (src : ScanlineSource) :
  maps_pixel 16
    (fun i b => if i <? 12 then b else word_byte alpha (i - 12))
    src (setalpha_32x4 alpha src).
Proof.
  intros count dst Hc Hlen. destruct src as [ | s]; cbn [setalpha_32x4 source_of].
  - split; [apply store32_length | ]. intros j Hj.
    rewrite load8_store32 by lia.
    destruct (Z.leb_spec (count + 12) j); destruct (Z.ltb_spec j (count + 12 + 4));
      destruct (Z.leb_spec count j); destruct (Z.ltb_spec j (count + 16));
      destruct (Z.ltb_spec (j - count) 12); cbn [andb];
      try lia; try reflexivity.
    f_equal. lia.
  - cbv zeta. split; [rewrite !store32_length; reflexivity | ]. intros j Hj.
    rewrite !load8_store32 by (rewrite ?store32_length; lia).
    destruct (Z.leb_spec (count + 12) j); destruct (Z.ltb_spec j (count + 12 + 4));
      destruct (Z.leb_spec (count + 8) j); destruct (Z.ltb_spec j (count + 8 + 4));
      destruct (Z.leb_spec (count + 4) j); destruct (Z.ltb_spec j (count + 4 + 4));
      destruct (Z.leb_spec count j); destruct (Z.ltb_spec j (count + 4));
      destruct (Z.ltb_spec j (count + 16));
      destruct (Z.ltb_spec (j - count) 12); cbn [andb];
      try lia; try reflexivity;
      try (f_equal; lia);
      rewrite word_byte_load32 by lia; f_equal; lia.
Qed.

Lemma setalpha_16x4_maps (alpha : Z) (src : ScanlineSource) :
  maps_pixel 8
    (fun i b => if i <? 6 then b else word_byte alpha (i - 6))
    src (setalpha_16x4 alpha src).
Proof.
  intros count dst Hc Hlen. destruct src as [ | s]; cbn [setalpha_16x4 source_of].
  - split; [apply store16_length | ]. intros j Hj.
    rewrite load8_store16 by lia.
    destruct (Z.leb_spec (count + 6) j); destruct (Z.ltb_spec j (count + 6 + 2));
      destruct (Z.leb_spec count j); destruct (Z.ltb_spec j (count + 8));
      destruct (Z.ltb_spec (j - count) 6); cbn [andb];
      try lia; try reflexivity.
    f_equal. lia.
  - cbv zeta. split; [rewrite !store16_length; reflexivity | ]. intros j Hj.
    rewrite !load8_store16 by (rewrite ?store16_length; lia).
    destruct (Z.leb_spec (count + 6) j); destruct (Z.ltb_spec j (count + 6 + 2));
      destruct (Z.leb_spec (count + 4) j); destruct (Z.ltb_spec j (count + 4 + 2));
      destruct (Z.leb_spec (count + 2) j); destruct (Z.ltb_spec j (count + 2 + 2));
      destruct (Z.leb_spec count j); destruct (Z.ltb_spec j (count + 2));
      destruct (Z.ltb_spec j (count + 8));
      destruct (Z.ltb_spec (j - count) 6); cbn [andb];
      try lia; try reflexivity;
      try (f_equal; lia);
      rewrite word_byte_load16 by lia; f_equal; lia.
Qed.

Lemma source_word_bytes (src : ScanlineSource) (dst : list byte) (count i : Z) :
  0 <= i < 4 ->
  word_byte (source_word src dst count) i
  = load8 (source_of src dst) (count + i).
Proof.
  intros Hi. destruct src; cbn [source_word source_of];
    apply word_byte_load32; exact Hi.
Qed.

Lemma source_half_bytes (src : ScanlineSource) (dst : list byte) (count i : Z) :
  0 <= i < 2 ->
  word_byte (source_half src dst count) i
  = load8 (source_of src dst) (count + i).
Proof.
  intros Hi. destruct src; cbn [source_half source_of];
    apply word_byte_load16; exact Hi.
Qed.

Lemma setalpha_word_maps (f : Z -> Z) (g : Z -> Z -> Z) (src : ScanlineSource) :
  (forall t i, 0 <= i < 4 -> word_byte (f t) i = g i (word_byte t i)) ->
  maps_pixel 4 g src (setalpha_word f src).
Proof.
  intros Hf count dst Hc Hlen. unfold setalpha_word.
  split; [apply store32_length | ]. intros j Hj.
  rewrite load8_store32 by lia.
  destruct (Z.leb_spec count j); destruct (Z.ltb_spec j (count + 4));
    cbn [andb]; try reflexivity.
  rewrite Hf by lia. rewrite source_word_bytes by lia.
  do 2 f_equal. lia.
Qed.

Lemma setalpha_half_maps (f : Z -> Z) (g : Z -> Z -> Z) (src : ScanlineSource) :
  (forall t i, 0 <= i < 2 -> word_byte (f t) i = g i (word_byte t i)) ->
  maps_pixel 2 g src (setalpha_half f src).
Proof.
  intros Hf count dst Hc Hlen. unfold setalpha_half.
  split; [apply store16_length | ]. intros j Hj.
  rewrite load8_store16 by lia.
  destruct (Z.leb_spec count j); destruct (Z.ltb_spec j (count + 2));
    cbn [andb]; try reflexivity.
  rewrite Hf by lia. rewrite source_half_bytes by lia.
  do 2 f_equal. lia.
Qed.

Ltac byte_cases i :=
  let H := fresh in
  match goal with
  | Hi : 0 <= i < 4 |- _ =>
      assert (H : i = 0 \/ i = 1 \/ i = 2 \/ i = 3) by lia;
      destruct H as [-> | [-> | [-> | ->]]]
  | Hi : 0 <= i < 2 |- _ =>
      assert (H : i = 0 \/ i = 1) by lia;
      destruct H as [-> | ->]
  end.

Lemma set_alpha2_bytes (t i : Z) :
  0 <= i < 4 ->
  word_byte (Z.lor t 0xC0000000) i
  = (if i <? 3 then word_byte t i else Z.lor (word_byte t i) 0xC0).
Proof.
  intros Hi. unfold word_byte.
  change 0xff with (Z.ones 8).
  change 0xC0000000 with (Z.shiftl (Z.ones 2) 30).
  change 0xC0 with (Z.shiftl (Z.ones 2) 6).
  byte_cases i; cbn [Z.ltb Z.compare Pos.compare Pos.compare_cont Z.mul Pos.mul];
    Z.bitblast.
Qed.

Lemma set_alpha8_bytes (a t i : Z) :
  0 <= i < 4 ->
  word_byte (Z.lor (Z.land t 0xFFFFFF) (Z.shiftl (Z.land a (Z.ones 8)) 24)) i
  = (if i <? 3 then word_byte t i else Z.land a (Z.ones 8)).
Proof.
  intros Hi. unfold word_byte.
  change 0xff with (Z.ones 8). change 0xFFFFFF with (Z.ones 24).
  byte_cases i; cbn [Z.ltb Z.compare Pos.compare Pos.compare_cont Z.mul Pos.mul];
    Z.bitblast.
Qed.

Lemma set_bits16_bytes (c t i : Z) :
  0 <= i < 2 ->
  word_byte (Z.lor t (Z.shiftl (Z.land c (Z.ones 8)) 8)) i
  = (if i <? 1 then word_byte t i
     else Z.lor (word_byte t i) (Z.land c (Z.ones 8))).
Proof.
  intros Hi. unfold word_byte. change 0xff with (Z.ones 8).
  byte_cases i; cbn [Z.ltb Z.compare Pos.compare Pos.compare_cont Z.mul Pos.mul];
    Z.bitblast.
Qed.

Lemma CopyScanline_setalpha_spec (pixel : positive) (g : Z -> Z -> Z)
    (body : ScanlineSource -> Z -> list byte -> list byte)
    (dst : list byte) (outSize : Z) (src : ScanlineSource) (inSize : Z) :
  maps_pixel (Z.pos pixel) g src (body src) ->
  outSize <= Z.of_nat (length dst) ->
  let r := CopyScanline_setalpha dst outSize src inSize pixel body in
  let size := swizzle_size src outSize inSize in
  length r = length dst
  /\ (Z.pos pixel <= inSize -> Z.pos pixel <= outSize ->
      forall j, 0 <= j ->
        load8 r j
        = if j <? Z.pos pixel * (size / Z.pos pixel)
          then g (j mod Z.pos pixel) (load8 (source_of src dst) j)
          else load8 dst j)
  /\ (inSize < Z.pos pixel \/ outSize < Z.pos pixel -> r = dst).
Proof.
  intros Hbody Hlen r size. subst r. unfold CopyScanline_setalpha.
  destruct (Z.leb_spec (Z.pos pixel) inSize) as [Hi | Hi];
    destruct (Z.leb_spec (Z.pos pixel) outSize) as [Ho | Ho]; cbn [andb];
    try (split; [reflexivity | split; [lia | reflexivity]]).
  assert (Hloop : forall sz, sz <= Z.of_nat (length dst) ->
            let r := CopyScanline_loop pixel (body src)
                       (sz - (Z.pos pixel - 1)) 0 dst in
            length r = length dst
            /\ forall j, 0 <= j ->
                 load8 r j
                 = if j <? Z.pos pixel * (sz / Z.pos pixel)
                   then g (j mod Z.pos pixel) (load8 (source_of src dst) j)
                   else load8 dst j).
  { intros sz Hsz.
    destruct (CopyScanline_loop_spec pixel g src (body src) sz
                (sz - (Z.pos pixel - 1)) 0 dst Hbody eq_refl)
      as (Hl & Hb); [exists 0; lia | exact Hsz | ].
    split; [exact Hl | ]. intros j Hj. rewrite Hb by exact Hj.
    destruct (Z.leb_spec 0 j); [reflexivity | lia]. }
  destruct src as [ | s]; cbn [swizzle_size] in size; subst size; cbv zeta.
  - destruct (Hloop outSize Hlen) as (Hl & Hb).
    split; [exact Hl | split; [intros _ _; exact Hb | lia]].
  - destruct (Hloop (Z.min outSize inSize) ltac:(lia)) as (Hl & Hb).
    split; [exact Hl | split; [intros _ _; exact Hb | lia]].
Qed.

Lemma rgba32_maps (format : DXGI_FORMAT) (src : ScanlineSource) :
  in_cases format rgba32_formats = true ->
  maps_pixel 16 (opaque_byte format) src
    (setalpha_32x4
       (if format =? Fmt.R32G32B32A32_FLOAT then 0x3f800000
        else if format =? Fmt.R32G32B32A32_SINT then 0x7fffffff
        else 0xffffffff) src).
Proof.
  intros Hfam. eapply maps_pixel_ext; [apply setalpha_32x4_maps | ].
  intros i b Hi Hb. cbv beta. unfold opaque_byte. rewrite Hfam.
  destruct (i <? 12) eqn:E; [reflexivity | ]. apply Z.ltb_ge in E.
  assert (Hc : i = 12 \/ i = 13 \/ i = 14 \/ i = 15) by lia.
  destruct (format =? Fmt.R32G32B32A32_FLOAT);
    [ | destruct (format =? Fmt.R32G32B32A32_SINT)];
    destruct Hc as [-> | [-> | [-> | ->]]]; reflexivity.
Qed.

Lemma rgba16_maps (format : DXGI_FORMAT) (src : ScanlineSource) :
  in_cases format rgba32_formats = false ->
  in_cases format rgba16_formats = true ->
  maps_pixel 8 (opaque_byte format) src
    (setalpha_16x4
       (if format =? Fmt.R16G16B16A16_FLOAT then 0x3c00
        else if (format =? Fmt.R16G16B16A16_SNORM)
                || (format =? Fmt.R16G16B16A16_SINT) then 0x7fff
        else 0xffff) src).
Proof.
  intros H32 Hfam. eapply maps_pixel_ext; [apply setalpha_16x4_maps | ].
  intros i b Hi Hb. cbv beta. unfold opaque_byte. rewrite H32, Hfam.
  destruct (i <? 6) eqn:E; [reflexivity | ]. apply Z.ltb_ge in E.
  assert (Hc : i = 6 \/ i = 7) by lia.
  cbn [in_cases existsb]. rewrite orb_false_r.
  destruct (format =? Fmt.R16G16B16A16_FLOAT);
    [ | destruct ((format =? Fmt.R16G16B16A16_SNORM)
                  || (format =? Fmt.R16G16B16A16_SINT))];
    destruct Hc as [-> | ->]; reflexivity.
Qed.

Lemma rgb10a2_maps (format : DXGI_FORMAT) (src : ScanlineSource) :
  in_cases format rgba32_formats = false ->
  in_cases format rgba16_formats = false ->
  in_cases format rgb10a2_formats = true ->
  maps_pixel 4 (opaque_byte format) src
    (setalpha_word (fun t => Z.lor t 0xC0000000) src).
Proof.
  intros H32 H16 Hfam.
  apply setalpha_word_maps. intros t i Hi.
  rewrite set_alpha2_bytes by exact Hi.
  unfold opaque_byte. rewrite H32, H16, Hfam. reflexivity.
Qed.

Lemma rgba8_maps (format : DXGI_FORMAT) (src : ScanlineSource) :
  in_cases format rgba32_formats = false ->
  in_cases format rgba16_formats = false ->
  in_cases format rgb10a2_formats = false ->
  in_cases format rgba8_formats = true ->
  maps_pixel 4 (opaque_byte format) src
    (setalpha_word
       (fun t =>
          Z.lor (Z.land t 0xFFFFFF)
            (if (format =? Fmt.R8G8B8A8_SNORM) || (format =? Fmt.R8G8B8A8_SINT)
             then 0x7f000000 else 0xff000000)) src).
Proof.
  intros H32 H16 H10 Hfam.
  apply setalpha_word_maps. intros t i Hi.
  unfold opaque_byte. rewrite H32, H16, H10, Hfam.
  cbn [in_cases existsb]. rewrite orb_false_r.
  destruct ((format =? Fmt.R8G8B8A8_SNORM) || (format =? Fmt.R8G8B8A8_SINT)).
  - apply (set_alpha8_bytes 0x7f t i Hi).
  - apply (set_alpha8_bytes 0xff t i Hi).
Qed.

Lemma b5g5r5a1_maps (src : ScanlineSource) :
  maps_pixel 2 (opaque_byte Fmt.B5G5R5A1_UNORM) src
    (setalpha_half (fun t => Z.lor t 0x8000) src).
Proof.
  apply setalpha_half_maps. intros t i Hi.
  apply (set_bits16_bytes 0x80 t i Hi).
Qed.

Lemma b4g4r4a4_maps (src : ScanlineSource) :
  maps_pixel 2 (opaque_byte Fmt.B4G4R4A4_UNORM) src
    (setalpha_half (fun t => Z.lor t 0xF000) src).
Proof.
  apply setalpha_half_maps. intros t i Hi.
  apply (set_bits16_bytes 0xF0 t i Hi).
Qed.

Lemma memset_spec (buf : list byte) (c n : Z) :
  n <= Z.of_nat (length buf) ->
  length (memset buf c n) = length buf
  /\ forall j, 0 <= j ->
       load8 (memset buf c n) j = if j <? n then c mod 256 else load8 buf j.
Proof.
  intros Hn. unfold memset.
  split.
  - rewrite length_app, repeat_length, length_skipn. lia.
  - intros j Hj. unfold load8.
    destruct (Z.ltb_spec j n) as [Hlt | Hge].
    + rewrite app_nth1 by (rewrite repeat_length; lia).
      rewrite nth_repeat_lt by lia. apply byte_val_byte_of.
    + rewrite app_nth2 by (rewrite repeat_length; lia).
      rewrite repeat_length, nth_skipn. f_equal. f_equal. lia.
Qed.

Lemma memcpy_length (dst src : list byte) (size : Z) :
  size <= Z.of_nat (length src) -> size <= Z.of_nat (length dst) ->
  length (memcpy dst src size) = length dst.
Proof.
  intros Hs Hd. unfold memcpy.
  rewrite length_app, length_firstn, length_skipn. lia.
Qed.

Lemma CopyScanline_cases (dst : list byte) (outSize : Z)
    (src : ScanlineSource) (inSize : Z) (format : DXGI_FORMAT) (tflags : Z) :
  outSize <= Z.of_nat (length dst) ->
  match src with
  | InPlace => True
  | From s => inSize <= Z.of_nat (length s)
  end ->
  let r := CopyScanline dst outSize src inSize format tflags in
  let size := swizzle_size src outSize inSize in
  length r = length dst
  /\ (has_flag tflags TEXP_SCANLINE_SETALPHA = true ->
      forall p, alpha_pixel_size format = Some p ->
        (p <= inSize -> p <= outSize ->
         forall j, 0 <= j ->
           load8 r j
           = if j <? p * (size / p)
             then opaque_byte format (j mod p) (load8 (source_of src dst) j)
             else load8 dst j)
        /\ (inSize < p \/ outSize < p -> r = dst))
  /\ (has_flag tflags TEXP_SCANLINE_SETALPHA = true ->
      format = Fmt.A8_UNORM ->
      forall j, 0 <= j ->
        load8 r j = if j <? outSize then 0xff else load8 dst j)
  /\ (has_flag tflags TEXP_SCANLINE_SETALPHA = false
      \/ (alpha_pixel_size format = None /\ format <> Fmt.A8_UNORM) ->
      r = passed_through src dst outSize inSize).
Proof.
  intros Hlen Hsrc r size.
  assert (Hpass : length (passed_through src dst outSize inSize) = length dst).
  { destruct src as [ | s]; cbn [passed_through]; [reflexivity | ].
    destruct (Z.le_gt_cases 0 (Z.min outSize inSize)).
    - apply (memcpy_length dst s (Z.min outSize inSize)); lia.
    - replace (Z.to_nat (Z.min outSize inSize)) with 0%nat by lia.
      reflexivity. }
  assert (Hfall : match src with
                  | InPlace => dst
                  | From s => memcpy dst s (Z.min outSize inSize)
                  end = passed_through src dst outSize inSize)
    by (destruct src; reflexivity).
  assert (Hcase : forall (pixel : positive) body,
            maps_pixel (Z.pos pixel) (opaque_byte format) src (body src) ->
            alpha_pixel_size format = Some (Z.pos pixel) ->
            format <> Fmt.A8_UNORM ->
            r = CopyScanline_setalpha dst outSize src inSize pixel body ->
            has_flag tflags TEXP_SCANLINE_SETALPHA = true ->
            length r = length dst
            /\ (has_flag tflags TEXP_SCANLINE_SETALPHA = true ->
                forall p, alpha_pixel_size format = Some p ->
                  (p <= inSize -> p <= outSize ->
                   forall j, 0 <= j ->
                     load8 r j
                     = if j <? p * (size / p)
                       then opaque_byte format (j mod p)
                              (load8 (source_of src dst) j)
                       else load8 dst j)
                  /\ (inSize < p \/ outSize < p -> r = dst))
            /\ (has_flag tflags TEXP_SCANLINE_SETALPHA = true ->
                format = Fmt.A8_UNORM ->
                forall j, 0 <= j ->
                  load8 r j = if j <? outSize then 0xff else load8 dst j)
            /\ (has_flag tflags TEXP_SCANLINE_SETALPHA = false
                \/ (alpha_pixel_size format = None /\ format <> Fmt.A8_UNORM) ->
                r = passed_through src dst outSize inSize)).
  { intros pixel body Hbody Hp HnA8 Hr Hsa.
    destruct (CopyScanline_setalpha_spec pixel (opaque_byte format) body
                dst outSize src inSize Hbody Hlen) as (Hl & Hpix & Hsmall).
    rewrite <- Hr in Hl, Hpix, Hsmall. fold size in Hpix.
    split; [exact Hl | split; [ | split]].
    - intros _ p Hp'. rewrite Hp in Hp'. injection Hp' as <-.
      split; [exact Hpix | exact Hsmall].
    - intros _ HA8. contradiction.
    - intros [Hno | [Hnone _]]; congruence. }
  pose proof (eq_refl : r = CopyScanline dst outSize src inSize format tflags)
    as Hunf.
  unfold CopyScanline in Hunf. cbv zeta in Hunf.
  fold rgba32_formats rgba16_formats rgb10a2_formats rgba8_formats in Hunf.
  clearbody r.
  destruct (has_flag tflags TEXP_SCANLINE_SETALPHA) eqn:Hsa.
  2:{ rewrite Hfall in Hunf. subst r.
      split; [exact Hpass | split; [discriminate | split; [discriminate | ]]].
      reflexivity. }
  destruct (in_cases format rgba32_formats) eqn:E32.
  { apply (Hcase 16%positive _ (rgba32_maps format src E32));
      [unfold alpha_pixel_size; rewrite E32; reflexivity
      | intros ->; discriminate E32 | exact Hunf | reflexivity]. }
  destruct (in_cases format rgba16_formats) eqn:E16.
  { apply (Hcase 8%positive _ (rgba16_maps format src E32 E16));
      [unfold alpha_pixel_size; rewrite E32, E16; reflexivity
      | intros ->; discriminate E16 | exact Hunf | reflexivity]. }
  destruct (in_cases format rgb10a2_formats) eqn:E10.
  { apply (Hcase 4%positive _ (rgb10a2_maps format src E32 E16 E10));
      [unfold alpha_pixel_size; rewrite E32, E16, E10; reflexivity
      | intros ->; discriminate E10 | exact Hunf | reflexivity]. }
  destruct (in_cases format rgba8_formats) eqn:E8.
  { apply (Hcase 4%positive _ (rgba8_maps format src E32 E16 E10 E8));
      [unfold alpha_pixel_size; rewrite E32, E16, E10, E8; reflexivity
      | intros ->; discriminate E8 | exact Hunf | reflexivity]. }
  destruct (Z.eqb_spec format Fmt.B5G5R5A1_UNORM) as [-> | N5551].
  { apply (Hcase 2%positive _ (b5g5r5a1_maps src));
      [reflexivity | discriminate | exact Hunf | reflexivity]. }
  destruct (Z.eqb_spec format Fmt.A8_UNORM) as [-> | NA8].
  { subst r. destruct (memset_spec dst 0xff outSize Hlen) as (Hl & Hb).
    split; [exact Hl | split; [ | split]].
    - intros _ p Hp. discriminate Hp.
    - intros _ _ j Hj. rewrite Hb by exact Hj. reflexivity.
    - intros [Hno | [_ Hne]]; [discriminate Hno | congruence]. }
  destruct (Z.eqb_spec format Fmt.B4G4R4A4_UNORM) as [-> | N4444].
  { apply (Hcase 2%positive _ (b4g4r4a4_maps src));
      [reflexivity | discriminate | exact Hunf | reflexivity]. }
  rewrite Hfall in Hunf. subst r.
  split; [exact Hpass | split; [ | split; [ | reflexivity]]].
  - intros _ p Hp. unfold alpha_pixel_size in Hp.
    rewrite E32, E16, E10, E8 in Hp. cbn [in_cases existsb] in Hp.
    destruct (Z.eqb_spec format Fmt.B5G5R5A1_UNORM); [contradiction | ].
    destruct (Z.eqb_spec format Fmt.B4G4R4A4_UNORM); [contradiction | ].
    discriminate Hp.
  - intros _ HA8. contradiction.
Qed.


(** ** In-place conversion of an image *)

Lemma alpha_pixel_size_cases (format : DXGI_FORMAT) (p : Z) :
  alpha_pixel_size format = Some p ->
  (p = 16 \/ p = 8 \/ p = 4 \/ p = 2)
  /\ BitsPerPixel format = 8 * p
  /\ IsCompressed format = false /\ IsPacked format = false
  /\ IsPlanar format = false /\ IsValid format = true.
Proof.
  unfold alpha_pixel_size, rgba32_formats, rgba16_formats, rgb10a2_formats,
    rgba8_formats.
  repeat match goal with
         | |- context [in_cases format ?l] =>
             let E := fresh "E" in
             destruct (in_cases format l) eqn:E;
             [split_cases E; subst format; intros H; injection H as <-;
              repeat split; auto; reflexivity | ]
         end.
  discriminate.
Qed.

Lemma load8_at_offset (mem : list byte) (off : Z)
    (op : list byte -> list byte) (j : Z) :
  0 <= off <= Z.of_nat (length mem) -> 0 <= j ->
  load8 (at_offset mem off op) j
  = if j <? off then load8 mem j
    else load8 (op (skipn (Z.to_nat off) mem)) (j - off).
Proof.
  intros Hoff Hj. unfold at_offset, load8.
  destruct (Z.ltb_spec j off).
  - rewrite app_nth1 by (rewrite length_firstn; lia).
    rewrite nth_firstn.
    destruct (Nat.ltb_spec (Z.to_nat j) (Z.to_nat off)); [reflexivity | lia].
  - rewrite app_nth2 by (rewrite length_firstn; lia).
    rewrite length_firstn. do 2 f_equal. lia.
Qed.

Lemma load8_skipn (mem : list byte) (off j : Z) :
  0 <= off -> 0 <= j ->
  load8 (skipn (Z.to_nat off) mem) j = load8 mem (off + j).
Proof.
  intros Hoff Hj. unfold load8. rewrite nth_skipn. do 2 f_equal. lia.
Qed.

Lemma at_offset_length (mem : list byte) (off : Z)
    (op : list byte -> list byte) :
  length (op (skipn (Z.to_nat off) mem)) = length (skipn (Z.to_nat off) mem) ->
  length (at_offset mem off op) = length mem.
Proof.
  intros H. unfold at_offset. rewrite length_app, H, <- length_app.
  rewrite firstn_skipn. reflexivity.
Qed.

(** One row converted in place under SETALPHA. *)
Lemma CopyScanline_row_opaque (row : list byte) (rowPitch : Z)
    (format : DXGI_FORMAT) (tflags p k : Z) :
  has_flag tflags TEXP_SCANLINE_SETALPHA = true ->
  alpha_pixel_size format = Some p ->
  0 <= k -> rowPitch = p * k -> rowPitch <= Z.of_nat (length row) ->
  let r := CopyScanline row rowPitch InPlace rowPitch format tflags in
  length r = length row
  /\ forall j, 0 <= j ->
       load8 r j
       = if j <? rowPitch then opaque_byte format (j mod p) (load8 row j)
         else load8 row j.
Proof.
  intros Hsa Hp Hk Hrow Hlen r.
  destruct (alpha_pixel_size_cases format p Hp) as (Hpos & _).
  destruct (CopyScanline_cases row rowPitch InPlace rowPitch format tflags
              Hlen I) as (Hl & Halpha & _).
  fold r in Hl, Halpha.
  destruct (Halpha Hsa p Hp) as (Hbig & Hsmall).
  split; [exact Hl | ]. intros j Hj.
  destruct (Z.eq_dec k 0) as [-> | Hk0].
  - rewrite Hsmall by lia.
    destruct (Z.ltb_spec j rowPitch); [lia | reflexivity].
  - rewrite Hbig by nia. cbn [swizzle_size source_of].
    replace (p * (rowPitch / p)) with rowPitch; [reflexivity | ].
    subst rowPitch. rewrite (Z.mul_comm p k), Z.div_mul by lia. lia.
Qed.

Lemma CopyImageInPlace_rows_opaque (convFlags : Z) (format : DXGI_FORMAT)
    (tflags p k : Z) (n : nat) (c : Z) (mem : list byte) :
  has_flag convFlags CONV_FLAGS_SWIZZLE = false ->
  has_flag tflags TEXP_SCANLINE_SETALPHA = true ->
  alpha_pixel_size format = Some p ->
  0 <= k -> 0 <= c ->
  p * c + Z.of_nat n * (p * k) <= Z.of_nat (length mem) ->
  let r := CopyImageInPlace_rows convFlags format tflags (p * k) n (p * c) mem in
  length r = length mem
  /\ forall j, 0 <= j ->
       load8 r j
       = if (p * c <=? j) && (j <? p * c + Z.of_nat n * (p * k))
         then opaque_byte format (j mod p) (load8 mem j)
         else load8 mem j.
Proof.
  intros Hswz Hsa Hp Hk.
  destruct (alpha_pixel_size_cases format p Hp) as (Hpos & _).
  assert (Hp0 : 0 < p) by lia.
  revert c mem. induction n as [ | n IH]; intros c mem Hc Hfit.
  - cbn [CopyImageInPlace_rows]. split; [reflexivity | ]. intros j Hj.
    destruct (_ && _) eqn:E; [ | reflexivity].
    apply andb_prop in E. destruct E as [E1 E2].
    apply Z.leb_le in E1. apply Z.ltb_lt in E2. lia.
  - cbn [CopyImageInPlace_rows]. rewrite Hswz.
    set (mem1 := at_offset mem (p * c) _).
    set (row := skipn (Z.to_nat (p * c)) mem).
    assert (Hrowlen : Z.of_nat (length row) = Z.of_nat (length mem) - p * c).
    { unfold row. rewrite length_skipn. nia. }
    destruct (CopyScanline_row_opaque row (p * k) format tflags p k
                Hsa Hp Hk eq_refl ltac:(nia)) as (Hl1 & Hb1).
    assert (Hlen1 : length mem1 = length mem).
    { unfold mem1. apply at_offset_length. exact Hl1. }
    replace (p * c + p * k) with (p * (c + k)) by lia.
    destruct (IH (c + k) mem1 ltac:(lia) ltac:(rewrite Hlen1; nia))
      as (Hl & Hb).
    split; [congruence | ]. intros j Hj.
    rewrite Hb by exact Hj.
    assert (Hmem1 : load8 mem1 j
                    = if (p * c <=? j) && (j <? p * c + p * k)
                      then opaque_byte format (j mod p) (load8 mem j)
                      else load8 mem j).
    { unfold mem1. rewrite load8_at_offset by nia.
      destruct (Z.ltb_spec j (p * c)); destruct (Z.leb_spec (p * c) j);
        try lia; cbn [andb]; [reflexivity | ].
      fold row. rewrite Hb1 by lia.
      unfold row. rewrite load8_skipn by nia.
      replace (p * c + (j - p * c)) with j by lia.
      replace ((j - p * c) mod p) with (j mod p).
      - destruct (Z.ltb_spec (j - p * c) (p * k));
          destruct (Z.ltb_spec j (p * c + p * k)); try lia; reflexivity.
      - replace j with (j - p * c + c * p) at 1 by lia.
        apply Z.mod_add. lia. }
    rewrite Hmem1.
    destruct (Z.leb_spec (p * (c + k)) j);
      destruct (Z.ltb_spec j (p * (c + k) + Z.of_nat n * (p * k)));
      destruct (Z.leb_spec (p * c) j);
      destruct (Z.ltb_spec j (p * c + p * k));
      destruct (Z.ltb_spec j (p * c + Z.of_nat (S n) * (p * k)));
      cbn [andb]; try reflexivity; nia.
Qed.

Lemma tiled_le (imgs : list Image) (n : nat) (start stop : Z) :
  Forall (fun img => 0 <= img_slicePitch img) imgs ->
  tiled imgs n start stop -> start <= stop.
Proof.
  revert imgs start. induction n as [ | n IH]; intros imgs start Hall Ht.
  - cbn in Ht. lia.
  - destruct imgs as [ | img rest]; [contradiction | ].
    destruct Ht as [_ Ht]. inversion Hall as [ | ? ? H0 Hrest]; subst.
    apply IH in Ht; [lia | exact Hrest].
Qed.

Lemma rows_of_pixels_slice_nonneg (p : Z) (imgs : list Image) :
  0 < p -> Forall (rows_of_pixels p) imgs ->
  Forall (fun img => 0 <= img_slicePitch img) imgs.
Proof.
  intros Hp Hall. eapply Forall_impl; [ | exact Hall].
  intros img (Hh & -> & k & Hk & ->). nia.
Qed.

Lemma CopyImageInPlace_images_opaque (convFlags : Z) (format : DXGI_FORMAT)
    (tflags p : Z) (images : list Image) (c stop : Z) (mem : list byte) :
  has_flag convFlags CONV_FLAGS_SWIZZLE = false ->
  has_flag tflags TEXP_SCANLINE_SETALPHA = true ->
  alpha_pixel_size format = Some p ->
  Forall (rows_of_pixels p) images ->
  tiled images (length images) (p * c) stop ->
  0 <= c -> stop <= Z.of_nat (length mem) ->
  exists mem',
    CopyImageInPlace_images convFlags format tflags images mem = (true, mem')
    /\ length mem' = length mem
    /\ forall j, 0 <= j ->
         load8 mem' j
         = if (p * c <=? j) && (j <? stop)
           then opaque_byte format (j mod p) (load8 mem j)
           else load8 mem j.
Proof.
  intros Hswz Hsa Hp.
  destruct (alpha_pixel_size_cases format p Hp) as (Hpos & _).
  assert (Hp0 : 0 < p) by lia.
  revert c mem. induction images as [ | img rest IH];
    intros c mem Hall Ht Hc Hfit.
  - cbn in Ht. subst stop. exists mem. cbn [CopyImageInPlace_images].
    split; [reflexivity | split; [reflexivity | ]]. intros j Hj.
    destruct (Z.leb_spec (p * c) j); destruct (Z.ltb_spec j (p * c));
      cbn [andb]; try reflexivity; lia.
  - inversion Hall as [ | ? ? Himg Hrest]; subst.
    cbn [length tiled] in Ht. destruct Ht as [Hpix Ht].
    destruct Himg as (Hh & Hslice & k & Hk & Hrow).
    pose proof (tiled_le _ _ _ _
                  (rows_of_pixels_slice_nonneg p rest Hp0 Hrest) Ht) as Hle.
    cbn [CopyImageInPlace_images]. rewrite Hpix, Hrow.
    destruct (CopyImageInPlace_rows_opaque convFlags format tflags p k
                (Z.to_nat (img_height img)) c mem Hswz Hsa Hp Hk Hc)
      as (Hl1 & Hb1); [nia | ].
    set (mem1 := CopyImageInPlace_rows convFlags format tflags (p * k)
                   (Z.to_nat (img_height img)) (p * c) mem) in *.
    replace (p * c + img_slicePitch img)
      with (p * (c + k * img_height img)) in Ht by nia.
    destruct (IH (c + k * img_height img) mem1 Hrest Ht ltac:(nia)
                ltac:(rewrite Hl1; exact Hfit)) as (mem' & Hrun & Hl & Hb).
    exists mem'. split; [exact Hrun | split; [congruence | ]].
    intros j Hj. rewrite Hb, !Hb1 by exact Hj.
    rewrite Z2Nat.id by exact Hh.
    destruct (Z.leb_spec (p * (c + k * img_height img)) j);
      destruct (Z.ltb_spec j stop);
      destruct (Z.leb_spec (p * c) j);
      destruct (Z.ltb_spec j (p * c + img_height img * (p * k)));
      cbn [andb]; try reflexivity; nia.
Qed.

Lemma CopyImageInPlace_opaque_aux (convFlags : Z) (image : ScratchImage)
    (mem : list byte) (images : list Image) (p : Z) :
  m_memory image = Some mem -> m_image image = Some images ->
  Z.of_nat (length images) = m_nimages image ->
  tiled images (length images) 0 (Z.of_nat (length mem)) ->
  Forall (rows_of_pixels p) images ->
  alpha_pixel_size (format (m_metadata image)) = Some p ->
  has_flag convFlags CONV_FLAGS_SWIZZLE = false ->
  has_flag convFlags CONV_FLAGS_NOALPHA = true ->
  exists mem',
    CopyImageInPlace convFlags image
    = (true,
       mkScratchImage (m_nimages image) (m_size image) (m_metadata image)
         (m_image image) (Some mem'))
    /\ length mem' = length mem
    /\ forall j, 0 <= j < Z.of_nat (length mem) ->
         load8 mem' j
         = opaque_byte (format (m_metadata image)) (j mod p) (load8 mem j).
Proof.
  intros Hmem Himg Hcount Ht Hall Hp Hswz Hna.
  destruct (alpha_pixel_size_cases _ p Hp) as (_ & _ & _ & _ & Hplanar & _).
  unfold CopyImageInPlace. rewrite Hmem, Himg. cbv zeta. rewrite Hplanar.
  rewrite Hna, Hswz.
  replace (Z.to_nat (m_nimages image)) with (length images) by lia.
  rewrite firstn_all.
  replace 0 with (p * 0) in Ht at 1 by lia.
  destruct (CopyImageInPlace_images_opaque convFlags
              (format (m_metadata image)) TEXP_SCANLINE_SETALPHA p images 0
              (Z.of_nat (length mem)) mem Hswz eq_refl Hp Hall Ht
              (Z.le_refl 0) (Z.le_refl _)) as (mem' & -> & Hl & Hb).
  exists mem'. split; [reflexivity | split; [exact Hl | ]].
  intros j Hj. rewrite Hb by lia.
  destruct (Z.leb_spec (p * 0) j); [ | lia].
  destruct (Z.ltb_spec j (Z.of_nat (length mem))); [reflexivity | lia].
Qed.


(** ** Rows of the formats with an alpha channel *)

Lemma alpha_format_switch (fmt : DXGI_FORMAT) (p w h : Z) :
  alpha_pixel_size fmt = Some p ->
  ComputePitch_switch fmt w h CP_FLAGS_NONE
  = Some (linear_pitch (8 * p) w h CP_FLAGS_NONE).
Proof.
  unfold alpha_pixel_size, rgba32_formats, rgba16_formats, rgb10a2_formats,
    rgba8_formats.
  repeat match goal with
         | |- context [in_cases fmt ?l] =>
             let E := fresh "E" in
             destruct (in_cases fmt l) eqn:E;
             [split_cases E; subst fmt; intros H; injection H as <-;
              reflexivity | ]
         end.
  discriminate.
Qed.

Lemma alpha_format_rows (plat : Platform) (fmt : DXGI_FORMAT) (p : Z)
    (img : Image) :
  alpha_pixel_size fmt = Some p ->
  pitched plat fmt CP_FLAGS_NONE img ->
  rows_of_pixels p img.
Proof.
  intros Hp (_ & Hw & Hh & Hcp).
  destruct (alpha_pixel_size_cases fmt p Hp) as (Hpos & _).
  apply ComputePitch_ok_inv in Hcp;
    [ | unfold bnd, MAX_TEXTURE_DIMENSION; lia
      | unfold bnd, MAX_TEXTURE_DIMENSION; lia].
  rewrite (alpha_format_switch fmt p _ _ Hp) in Hcp.
  unfold linear_pitch in Hcp. cbv zeta in Hcp.
  rewrite !has_flag_NONE in Hcp.
  assert (Hrow : u64 (u64 (img_width img * (8 * p)) + 7) / 8
                 = p * img_width img).
  { rewrite (u64_small (img_width img * (8 * p)))
      by (destruct Hpos as [-> | [-> | [-> | ->]]]; lia).
    rewrite u64_small by (destruct Hpos as [-> | [-> | [-> | ->]]]; lia).
    destruct Hpos as [-> | [-> | [-> | ->]]].
    - replace (img_width img * (8 * 16) + 7) with (7 + 16 * img_width img * 8)
        by lia.
      rewrite Z.div_add by lia. reflexivity.
    - replace (img_width img * (8 * 8) + 7) with (7 + 8 * img_width img * 8)
        by lia.
      rewrite Z.div_add by lia. reflexivity.
    - replace (img_width img * (8 * 4) + 7) with (7 + 4 * img_width img * 8)
        by lia.
      rewrite Z.div_add by lia. reflexivity.
    - replace (img_width img * (8 * 2) + 7) with (7 + 2 * img_width img * 8)
        by lia.
      rewrite Z.div_add by lia. reflexivity. }
  rewrite Hrow in Hcp.
  rewrite u64_small in Hcp
    by (destruct Hpos as [-> | [-> | [-> | ->]]]; nia).
  injection Hcp as Hr Hs.
  unfold rows_of_pixels. split; [lia | split; [congruence | ]].
  exists (img_width img). split; [lia | congruence].
Qed.

(** ** Outcomes of LoadFromDDSFile *)

Lemma FAILED_is_true_as_bool (hr : HRESULT) :
  FAILED hr = true -> bool_of_integer hr = true.
Proof.
  unfold FAILED, bool_of_integer. intros H. apply Z.ltb_lt in H.
  destruct (Z.eqb_spec hr 0); [lia | reflexivity].
Qed.

Section LoaderOutcomes.

Variable plat : Platform.
Variable heap : Heap.
Variable os_fopen : String.string -> option (list byte).
Variable CopyImage :
  list byte -> Z -> TexMetadata -> Z -> Z -> option (list byte) ->
  ScratchImage -> bool * ScratchImage.
Variable CopyImageInPlace : Z -> ScratchImage -> bool * ScratchImage.

(** X23.  Whenever LoadFromDDSFile reports a failure, it has stored no
    metadata and, unless the path was null, the image is released: it
    holds no descriptors, no pixel memory and zeroed metadata, whatever
    stage failed and whatever the image held before. *)
Theorem LoadFromDDSFile_failure_releases_the_image
    (path : option String.string) (metadata : bool) (image : ScratchImage)
    (stored : option TexMetadata) (image' : ScratchImage) :
  LoadFromDDSFile plat heap os_fopen CopyImage CopyImageInPlace
    path metadata image = (false, stored, image') ->
  stored = None
  /\ (path = None -> image' = image)
  /\ (path <> None ->
      image' = mkScratchImage 0 0 zero_metadata None None).
Proof.
  intros H. unfold LoadFromDDSFile in H.
  destruct path as [path | ].
  2:{ injection H as <- <-. repeat split; congruence. }
  enough (stored = None /\ image' = mkScratchImage 0 0 zero_metadata None None)
    by (intuition congruence).
  unfold Release in H.
  repeat first
    [ discriminate H
    | progress cbv beta iota zeta in H
    | match type of H with
      | context [match ?x with Some _ => _ | None => _ end] =>
          destruct x eqn:?
      | context [if ?c then _ else _] => destruct c eqn:?
      | context [match ?x with (_, _) => _ end] => destruct x eqn:?
      end ];
    try (injection H as <- <-; split; reflexivity);
    match goal with
    | Hf : FAILED ?hr = true |- _ =>
        rewrite (FAILED_is_true_as_bool hr Hf) in H; discriminate H
    end.
Qed.

End LoaderOutcomes.

(** ** The pixels LoadFromDDSFile loads *)

Lemma DecodeDDSHeader_within_limits (plat : Platform) (pSource : list byte)
    (size convFlags0 : Z) (md : TexMetadata) (convFlags : Z) :
  DecodeDDSHeader plat pSource size convFlags0 = Some (md, convFlags) ->
  within_limits md /\ 1 <= mipLevels md.
Proof.
  intros H.
  enough (Hshape : (0 <= width md /\ 0 <= height md /\ 0 <= depth md
                    /\ 0 <= arraySize md /\ 1 <= mipLevels md)
                   /\ within_d3d_limits md = true).
  { destruct Hshape as [Hshape Hlim].
    apply within_d3d_limits_bounds in Hlim. unfold within_limits. lia. }
  revert H. unfold DecodeDDSHeader. intros H.
  set (hdr := read_DDS_HEADER pSource sizeof_uint32_t) in *.
  set (ext := read_DDS_HEADER_DXT10 pSource _) in *.
  pose proof (load32_range pSource (sizeof_uint32_t + 12)) as Hwidth.
  pose proof (load32_range pSource (sizeof_uint32_t + 8)) as Hheight.
  pose proof (load32_range pSource (sizeof_uint32_t + 20)) as Hdepth.
  pose proof (load32_range pSource (sizeof_uint32_t + 24)) as Hmips.
  pose proof (load32_range pSource (sizeof_uint32_t + sizeof_DDS_HEADER + 12))
    as Harray.
  change (load32 pSource (sizeof_uint32_t + 12)) with (hdr_width hdr) in Hwidth.
  change (load32 pSource (sizeof_uint32_t + 8)) with (hdr_height hdr) in Hheight.
  change (load32 pSource (sizeof_uint32_t + 20)) with (hdr_depth hdr) in Hdepth.
  change (load32 pSource (sizeof_uint32_t + 24)) with (hdr_mipMapCount hdr)
    in Hmips.
  change (load32 pSource (sizeof_uint32_t + sizeof_DDS_HEADER + 12))
    with (dx_arraySize ext) in Harray.
  clearbody hdr ext.
  pose proof (size_t_range plat (dx_arraySize ext * 6)) as Hcube.
  repeat first
    [ discriminate H
    | match type of H with
      | context [if ?c then _ else _] => destruct c eqn:?
      | context [match ?x with (_, _) => _ end] => destruct x eqn:?
      end ];
    injection H as <- <-;
    (split; [ | assumption]);
    cbn [width height depth arraySize mipLevels dimension SetAlphaMode];
    repeat split; lia.
Qed.

Section LoaderPayload.

Variable plat : Platform.
Variable heap : Heap.
Variable os_fopen : String.string -> option (list byte).
Variable CopyImage :
  list byte -> Z -> TexMetadata -> Z -> Z -> option (list byte) ->
  ScratchImage -> bool * ScratchImage.
Variable convert : Z -> ScratchImage -> bool * ScratchImage.

(** LoadFromDDSFile on a file that needs no expansion, up to the
    in-place pass [convert]: the pixels are read into the image as
    they are. *)
Lemma LoadFromDDSFile_payload
    (path : String.string) (data : list byte) (metadata : bool)
    (image image0 : ScratchImage) (mdata : TexMetadata) (convFlags : Z)
    (memory : list byte) :
  let len := Z.of_nat (length data) in
  let headerLen := Z.min len MAX_HEADER_SIZE in
  let header :=
    firstn (Z.to_nat headerLen) data
    ++ repeat x00 (Z.to_nat MAX_HEADER_SIZE - Z.to_nat headerLen) in
  let offset :=
    if has_flag convFlags CONV_FLAGS_DX10 then MAX_HEADER_SIZE
    else sizeof_uint32_t + sizeof_DDS_HEADER in
  os_fopen path = Some data ->
  len <= SIZE_MAX plat ->
  DecodeDDSHeader plat header headerLen 0 = Some (mdata, convFlags) ->
  has_flag convFlags CONV_FLAGS_PAL8 = false ->
  has_flag convFlags CONV_FLAGS_EXPAND = false ->
  Initialize plat heap (Release image) mdata CP_FLAGS_NONE = (S_OK, image0) ->
  m_memory image0 = Some memory ->
  Z.of_nat (length memory) = m_size image0 ->
  offset < len ->
  offset + m_size image0 <= len ->
  m_size image0 <= UINT32_MAX ->
  let loaded :=
    mkScratchImage (m_nimages image0) (m_size image0) (m_metadata image0)
      (m_image image0)
      (Some (firstn (Z.to_nat (m_size image0))
               (skipn (Z.to_nat offset) data))) in
  LoadFromDDSFile plat heap os_fopen CopyImage convert
    (Some path) metadata image
  = if has_flag convFlags (Z.lor CONV_FLAGS_SWIZZLE CONV_FLAGS_NOALPHA)
    then match convert convFlags loaded with
         | (false, image) => (false, None, Release image)
         | (true, image) =>
             (true, if metadata then Some mdata else None, image)
         end
    else (true, if metadata then Some mdata else None, loaded).
Proof.
  intros len headerLen header offset Hopen Hfit Hdec Hpal Hexp Hinit
    Hmem Hlen Hoff Hroom Hmax loaded.
  assert (Hoff0 : sizeof_uint32_t + sizeof_DDS_HEADER <= offset <= MAX_HEADER_SIZE).
  { unfold offset, MAX_HEADER_SIZE, sizeof_uint32_t, sizeof_DDS_HEADER,
      sizeof_DDS_HEADER_DXT10.
    destruct (has_flag convFlags CONV_FLAGS_DX10); lia. }
  assert (Hoff1 : 128 <= offset <= 148) by exact Hoff0.
  unfold LoadFromDDSFile. rewrite Hopen. fold len.
  destruct (Z.ltb_spec len (sizeof_DDS_HEADER + sizeof_uint32_t)) as [Hlt | _];
    [lia | ].
  fold headerLen. unfold fread. cbn [f_pos f_data].
  change (Z.to_nat 0) with 0%nat. cbn [skipn].
  assert (Hgot : length (firstn (Z.to_nat headerLen) data) = Z.to_nat headerLen).
  { apply firstn_length_le. unfold headerLen, len. lia. }
  rewrite Hgot.
  assert (H0 : 0 <= headerLen)
    by (unfold headerLen, len, MAX_HEADER_SIZE, sizeof_uint32_t,
          sizeof_DDS_HEADER, sizeof_DDS_HEADER_DXT10; lia).
  rewrite Z2Nat.id by exact H0. rewrite Z.eqb_refl. cbn [negb].
  fold header. rewrite Hdec.
  set (file := if negb (has_flag convFlags CONV_FLAGS_DX10)
               then fseek_set (mkFILE data (0 + headerLen))
                      (sizeof_uint32_t + sizeof_DDS_HEADER)
               else mkFILE data (0 + headerLen)).
  assert (Hfile : file = mkFILE data offset).
  { unfold file, offset.
    destruct (has_flag convFlags CONV_FLAGS_DX10) eqn:Hdx; cbn [negb].
    - f_equal. unfold headerLen.
      apply (DecodeDDSHeader_DX10_flag_aux plat header headerLen mdata convFlags)
        in Hdec.
      destruct Hdec as (_ & _ & _ & Hsz). destruct (Hsz Hdx) as [Hsz' _].
      unfold headerLen in Hsz'. lia.
    - reflexivity. }
  assert (Hoffset :
            (if negb (has_flag convFlags CONV_FLAGS_DX10)
             then (sizeof_uint32_t + sizeof_DDS_HEADER,
                   fseek_set (mkFILE data (0 + headerLen))
                     (sizeof_uint32_t + sizeof_DDS_HEADER))
             else (MAX_HEADER_SIZE, mkFILE data (0 + headerLen)))
            = (offset, file)).
  { unfold offset, file.
    destruct (has_flag convFlags CONV_FLAGS_DX10); reflexivity. }
  rewrite Hoffset, Hpal, Hfile.
  assert (Hrem : size_t plat (len - offset) = len - offset).
  { apply size_t_small. lia. }
  rewrite Hrem.
  destruct (Z.eqb_spec (len - offset) 0) as [E | _]; [lia | ].
  rewrite Hinit. change (FAILED S_OK) with false. cbv iota.
  rewrite Hexp.
  destruct (Z.ltb_spec (len - offset) (m_size image0)); [lia | ].
  destruct (Z.ltb_spec UINT32_MAX (m_size image0)); [lia | ].
  cbn [f_pos f_data].
  set (pixels := firstn (Z.to_nat (m_size image0)) (skipn (Z.to_nat offset) data)).
  assert (Hpix : Z.of_nat (length pixels) = m_size image0).
  { unfold pixels. rewrite firstn_length_le; [lia | ].
    rewrite length_skipn. unfold len in Hroom. lia. }
  rewrite Hpix, Z.eqb_refl. cbn [negb].
  rewrite Hmem. cbn [option_map].
  assert (Hcopy : memcpy memory pixels (m_size image0) = pixels).
  { unfold memcpy.
    replace (Z.to_nat (m_size image0)) with (length pixels) by lia.
    rewrite firstn_all. rewrite skipn_all2; [apply app_nil_r | lia]. }
  rewrite Hcopy. reflexivity.
Qed.

(** X24.  A file that needs no conversion is loaded verbatim: when the
    header decodes without any of the EXPAND, PAL8, SWIZZLE and NOALPHA
    flags and Initialize succeeds, LoadFromDDSFile returns true, stores
    the decoded metadata, and the pixel memory of the image is exactly
    the bytes of the file that follow the header (128 bytes, or 148
    with the DX10 extension), as many as the layout needs. *)
Theorem LoadFromDDSFile_loads_pixels_verbatim
    (path : String.string) (data : list byte) (metadata : bool)
    (image image0 : ScratchImage) (mdata : TexMetadata) (convFlags : Z)
    (memory : list byte) :
  let len := Z.of_nat (length data) in
  let headerLen := Z.min len MAX_HEADER_SIZE in
  let header :=
    firstn (Z.to_nat headerLen) data
    ++ repeat x00 (Z.to_nat MAX_HEADER_SIZE - Z.to_nat headerLen) in
  let offset :=
    if has_flag convFlags CONV_FLAGS_DX10 then MAX_HEADER_SIZE
    else sizeof_uint32_t + sizeof_DDS_HEADER in
  os_fopen path = Some data ->
  len <= SIZE_MAX plat ->
  DecodeDDSHeader plat header headerLen 0 = Some (mdata, convFlags) ->
  has_flag convFlags CONV_FLAGS_PAL8 = false ->
  has_flag convFlags CONV_FLAGS_EXPAND = false ->
  has_flag convFlags (Z.lor CONV_FLAGS_SWIZZLE CONV_FLAGS_NOALPHA) = false ->
  Initialize plat heap (Release image) mdata CP_FLAGS_NONE = (S_OK, image0) ->
  m_memory image0 = Some memory ->
  Z.of_nat (length memory) = m_size image0 ->
  offset < len ->
  offset + m_size image0 <= len ->
  m_size image0 <= UINT32_MAX ->
  LoadFromDDSFile plat heap os_fopen CopyImage convert
    (Some path) metadata image
  = (true,
     (if metadata then Some mdata else None),
     mkScratchImage (m_nimages image0) (m_size image0) (m_metadata image0)
       (m_image image0)
       (Some (firstn (Z.to_nat (m_size image0))
                (skipn (Z.to_nat offset) data)))).
Proof.
  intros len headerLen header offset Hopen Hfit Hdec Hpal Hexp Hswz Hinit
    Hmem Hlen Hoff Hroom Hmax.
  rewrite (LoadFromDDSFile_payload path data metadata image image0 mdata
             convFlags memory Hopen Hfit Hdec Hpal Hexp Hinit Hmem Hlen
             Hoff Hroom Hmax).
  rewrite Hswz. reflexivity.
Qed.

End LoaderPayload.

(** The legacy formats without an alpha channel that are loaded as
    they are (X8B8G8R8, X1R5G5B5, X4R4G4B4) decode to a format
    CopyScanline knows the alpha channel of, and need neither a
    swizzle nor a palette. *)
Lemma DecodeDDSHeader_NOALPHA_format (plat : Platform) (pSource : list byte)
    (size : Z) (md : TexMetadata) (convFlags : Z) :
  DecodeDDSHeader plat pSource size 0 = Some (md, convFlags) ->
  has_flag convFlags CONV_FLAGS_NOALPHA = true ->
  has_flag convFlags CONV_FLAGS_EXPAND = false ->
  (exists p, alpha_pixel_size (format md) = Some p)
  /\ has_flag convFlags CONV_FLAGS_SWIZZLE = false
  /\ has_flag convFlags CONV_FLAGS_PAL8 = false.
Proof.
  intros H Hna Hexp.
  pose (known := fun f : DXGI_FORMAT =>
          match alpha_pixel_size f with Some _ => true | None => false end).
  pose (ok := fun (c : Z) (f : DXGI_FORMAT) =>
          known f && negb (has_flag c CONV_FLAGS_SWIZZLE)
          && negb (has_flag c CONV_FLAGS_PAL8)).
  assert (Hok : forall c f, ok c f = true ->
            (exists p, alpha_pixel_size f = Some p)
            /\ has_flag c CONV_FLAGS_SWIZZLE = false
            /\ has_flag c CONV_FLAGS_PAL8 = false).
  { intros c f Hc. unfold ok, known in Hc.
    apply andb_true_iff in Hc. destruct Hc as [Hc H3].
    apply andb_true_iff in Hc. destruct Hc as [H1 H2].
    apply negb_true_iff in H2, H3.
    split; [ | split; assumption].
    destruct (alpha_pixel_size f) as [p | ]; [exists p; reflexivity | ].
    discriminate H1. }
  assert (Htable :
            forall entry, In entry g_LegacyDDSMap ->
              has_flag (lg_convFlags entry) CONV_FLAGS_NOALPHA = true ->
              has_flag (lg_convFlags entry) CONV_FLAGS_EXPAND = false ->
              ok (lg_convFlags entry) (lg_format entry) = true
              /\ ok (lg_convFlags entry) (MakeSRGB (lg_format entry)) = true).
  { intros entry Hin Ha He.
    pose proof (legacy_table_forall
                  (fun e => implb (has_flag (lg_convFlags e) CONV_FLAGS_NOALPHA
                                   && negb (has_flag (lg_convFlags e)
                                              CONV_FLAGS_EXPAND))
                              (ok (lg_convFlags e) (lg_format e)
                               && ok (lg_convFlags e) (MakeSRGB (lg_format e))))
                  entry eq_refl Hin) as Hp.
    cbv beta in Hp. rewrite Ha, He in Hp. cbn [implb andb negb] in Hp.
    apply andb_true_iff in Hp. exact Hp. }
  apply Hok. clear Hok.
  revert H. unfold DecodeDDSHeader. intros H.
  set (hdr := read_DDS_HEADER pSource sizeof_uint32_t) in *.
  set (ext := read_DDS_HEADER_DXT10 pSource _) in *.
  clearbody hdr ext.
  decode_cases H; injection H as <- <-;
    try discriminate Hna;
    cbn [format SetAlphaMode];
    match goal with
    | Hg : GetDXGIFormat _ _ _ = (?f, ?c), Hu : (?f =? Fmt.UNKNOWN) = false |- _ =>
        apply GetDXGIFormat_from_table in Hg;
        destruct Hg as [[-> _] | (entry & Hin & -> & Hfmt)];
        [ discriminate Hu
        | destruct (Htable entry Hin Hna Hexp) as [Ha Hb];
          destruct Hfmt as [-> | ->]; assumption ]
    end.
Qed.

Lemma LoadFromDDSFile_opaque_aux (plat : Platform) (heap : Heap)
    (os_fopen : String.string -> option (list byte))
    (CopyImage :
       list byte -> Z -> TexMetadata -> Z -> Z -> option (list byte) ->
       ScratchImage -> bool * ScratchImage)
    (path : String.string) (data : list byte) (metadata : bool)
    (image image0 : ScratchImage) (mdata : TexMetadata) (convFlags : Z) :
  let len := Z.of_nat (length data) in
  let headerLen := Z.min len MAX_HEADER_SIZE in
  let header :=
    firstn (Z.to_nat headerLen) data
    ++ repeat x00 (Z.to_nat MAX_HEADER_SIZE - Z.to_nat headerLen) in
  let offset := sizeof_uint32_t + sizeof_DDS_HEADER in
  os_fopen path = Some data ->
  len <= SIZE_MAX plat ->
  DecodeDDSHeader plat header headerLen 0 = Some (mdata, convFlags) ->
  has_flag convFlags CONV_FLAGS_NOALPHA = true ->
  has_flag convFlags CONV_FLAGS_EXPAND = false ->
  Initialize plat heap (Release image) mdata CP_FLAGS_NONE = (S_OK, image0) ->
  offset < len ->
  offset + m_size image0 <= len ->
  m_size image0 <= UINT32_MAX ->
  exists p pixels,
    alpha_pixel_size (format mdata) = Some p
    /\ LoadFromDDSFile plat heap os_fopen CopyImage CopyImageInPlace
         (Some path) metadata image
       = (true,
          (if metadata then Some mdata else None),
          mkScratchImage (m_nimages image0) (m_size image0)
            (m_metadata image0) (m_image image0) (Some pixels))
    /\ Z.of_nat (length pixels) = m_size image0
    /\ forall j, 0 <= j < m_size image0 ->
         load8 pixels j
         = opaque_byte (format mdata) (j mod p) (load8 data (offset + j)).
Proof.
  intros len headerLen header offset Hopen Hfit Hdec Hna Hexp Hinit
    Hoff Hroom Hmax.
  change offset with 128 in *. clear offset.
  destruct (DecodeDDSHeader_NOALPHA_format plat header headerLen mdata
              convFlags Hdec Hna Hexp) as ((p & Hp) & Hswz & Hpal).
  destruct (DecodeDDSHeader_within_limits plat header headerLen 0 mdata
              convFlags Hdec) as [Hlim _].
  destruct (Initialize_layout_aux plat heap (Release image) mdata
              CP_FLAGS_NONE image0 Hlim Hinit)
    as (images & memory & Himg & Hmem & Hcount & Hlen & Hn1 & _ & Htiled
        & Hpitched).
  destruct (Initialize_accepts_only_well_formed_metadata_aux
              plat heap (Release image) mdata CP_FLAGS_NONE image0 Hlim Hinit)
    as [_ Hmd].
  assert (Hdx : has_flag convFlags CONV_FLAGS_DX10 = false).
  { destruct (has_flag convFlags CONV_FLAGS_DX10) eqn:E; [ | reflexivity].
    destruct (DecodeDDSHeader_DX10_flag_aux plat header headerLen mdata
                convFlags Hdec) as (_ & _ & _ & Hsz).
    destruct (Hsz E) as [_ Hc]. subst convFlags. discriminate Hna. }
  pose proof (LoadFromDDSFile_payload plat heap os_fopen CopyImage
                CopyImageInPlace path data metadata image image0 mdata
                convFlags memory Hopen Hfit Hdec Hpal Hexp Hinit Hmem Hlen)
    as Hload.
  cbv zeta in Hload. rewrite Hdx in Hload.
  change (sizeof_uint32_t + sizeof_DDS_HEADER) with 128 in Hload.
  specialize (Hload Hoff Hroom Hmax).
  assert (Hboth : has_flag convFlags
                    (Z.lor CONV_FLAGS_SWIZZLE CONV_FLAGS_NOALPHA) = true).
  { rewrite has_flag_lor, Hna. apply orb_true_r. }
  rewrite Hboth in Hload.
  set (pixels := firstn (Z.to_nat (m_size image0))
                   (skipn (Z.to_nat 128) data)) in *.
  assert (Hpix : Z.of_nat (length pixels) = m_size image0).
  { unfold pixels. rewrite firstn_length_le; [lia | ].
    rewrite length_skipn. unfold len in Hroom. lia. }
  set (loaded := mkScratchImage (m_nimages image0) (m_size image0)
                   (m_metadata image0) (m_image image0) (Some pixels)) in *.
  assert (Hfmt : format (m_metadata image0) = format mdata)
    by (rewrite Hmd; reflexivity).
  destruct (CopyImageInPlace_opaque_aux convFlags loaded pixels images p)
    as (mem' & Hrun & Hl & Hb).
  - reflexivity.
  - exact Himg.
  - exact Hcount.
  - cbn [m_nimages loaded]. rewrite Hpix.
    replace (length images) with (Z.to_nat (m_nimages image0)) by lia.
    exact Htiled.
  - eapply Forall_impl; [ | exact Hpitched].
    intros img. apply alpha_format_rows. exact Hp.
  - cbn [m_metadata loaded]. rewrite Hfmt. exact Hp.
  - exact Hswz.
  - exact Hna.
  - rewrite Hrun in Hload. cbn [m_nimages m_size m_metadata m_image loaded]
      in Hload.
    exists p, mem'. split; [exact Hp | split; [exact Hload | ]].
    split; [lia | ].
    intros j Hj. rewrite Hb by lia.
    cbn [m_metadata loaded]. rewrite Hfmt. f_equal.
    unfold pixels, load8. rewrite nth_firstn.
    destruct (Nat.ltb_spec (Z.to_nat j) (Z.to_nat (m_size image0))); [ | lia].
    rewrite nth_skipn. do 2 f_equal. lia.
Qed.

(** X25.  Loading a legacy file without an alpha channel (X8B8G8R8,
    X1R5G5B5 or X4R4G4B4: the header decodes with NOALPHA and without
    EXPAND) makes every pixel opaque: when Initialize succeeds
    and the file holds the pixels, LoadFromDDSFile returns true, and
    each byte of the pixel memory is [opaque_byte] of the byte of the
    file at the same place after the 128-byte header: colour bytes as
    in the file, alpha bits all set. *)
Theorem LoadFromDDSFile_makes_alpha_opaque (plat : Platform) (heap : Heap)
    (os_fopen : String.string -> option (list byte))
    (CopyImage :
       list byte -> Z -> TexMetadata -> Z -> Z -> option (list byte) ->
       ScratchImage -> bool * ScratchImage)
    (path : String.string) (data : list byte) (metadata : bool)
    (image image0 : ScratchImage) (mdata : TexMetadata) (convFlags : Z) :
  let len := Z.of_nat (length data) in
  let headerLen := Z.min len MAX_HEADER_SIZE in
  let header :=
    firstn (Z.to_nat headerLen) data
    ++ repeat x00 (Z.to_nat MAX_HEADER_SIZE - Z.to_nat headerLen) in
  let offset := sizeof_uint32_t + sizeof_DDS_HEADER in
  os_fopen path = Some data ->
  len <= SIZE_MAX plat ->
  DecodeDDSHeader plat header headerLen 0 = Some (mdata, convFlags) ->
  has_flag convFlags CONV_FLAGS_NOALPHA = true ->
  has_flag convFlags CONV_FLAGS_EXPAND = false ->
  Initialize plat heap (Release image) mdata CP_FLAGS_NONE = (S_OK, image0) ->
  offset < len ->
  offset + m_size image0 <= len ->
  m_size image0 <= UINT32_MAX ->
  exists p pixels,
    alpha_pixel_size (format mdata) = Some p
    /\ LoadFromDDSFile plat heap os_fopen CopyImage CopyImageInPlace
         (Some path) metadata image
       = (true,
          (if metadata then Some mdata else None),
          mkScratchImage (m_nimages image0) (m_size image0)
            (m_metadata image0) (m_image image0) (Some pixels))
    /\ Z.of_nat (length pixels) = m_size image0
    /\ forall j, 0 <= j < m_size image0 ->
         load8 pixels j
         = opaque_byte (format mdata) (j mod p) (load8 data (offset + j)).
Proof.
  apply LoadFromDDSFile_opaque_aux.
Qed.

(** ** Texture creation *)

Lemma Initialize_outcome (plat : Platform) (heap : Heap)
    (self : ScratchImage) (mdata : TexMetadata) (flags : Z)
    (hr : HRESULT) (self' : ScratchImage) :
  m_image self = None ->
  Initialize plat heap self mdata flags = (hr, self') ->
  if FAILED hr then m_image self' = None else hr = S_OK.
Proof.
  intros Hnone H.
  initialize_cases H;
    try (injection H as <- <-; first [ exact Hnone | reflexivity ]).
Qed.

Section LoaderSuccess.

Variable plat : Platform.
Variable heap : Heap.
Variable os_fopen : String.string -> option (list byte).
Variable CopyImage :
  list byte -> Z -> TexMetadata -> Z -> Z -> option (list byte) ->
  ScratchImage -> bool * ScratchImage.
Variable convert : Z -> ScratchImage -> bool * ScratchImage.

(** When LoadFromDDSFile returns true, either the header has decoded
    and Initialize has succeeded on the decoded metadata, which is what
    has been stored, or Initialize has failed: then nothing has been
    stored and the image has no descriptors. *)
Lemma LoadFromDDSFile_true_inv (path : option String.string)
    (metadata : bool) (image : ScratchImage)
    (stored : option TexMetadata) (image' : ScratchImage) :
  LoadFromDDSFile plat heap os_fopen CopyImage convert path metadata image
  = (true, stored, image') ->
  (stored = None /\ m_image image' = None)
  \/ exists p data md convFlags image0,
       path = Some p /\ os_fopen p = Some data
       /\ DecodeDDSHeader plat (header_bytes data)
            (Z.min (Z.of_nat (length data)) MAX_HEADER_SIZE) 0
          = Some (md, convFlags)
       /\ Initialize plat heap (Release image) md CP_FLAGS_NONE
          = (S_OK, image0)
       /\ stored = (if metadata then Some md else None).
Proof.
  unfold LoadFromDDSFile.
  destruct path as [p | ]; [ | discriminate].
  destruct (os_fopen p) as [data | ] eqn:Hopen; [ | discriminate].
  destruct (_ <? _) eqn:Hshort; [discriminate | ].
  unfold fread. cbn [f_pos f_data].
  change (Z.to_nat 0) with 0%nat. cbn [skipn].
  set (headerLen := Z.min (Z.of_nat (length data)) MAX_HEADER_SIZE).
  assert (Hgot : length (firstn (Z.to_nat headerLen) data) = Z.to_nat headerLen).
  { apply firstn_length_le. unfold headerLen. lia. }
  rewrite Hgot.
  change (firstn (Z.to_nat headerLen) data
          ++ repeat x00 (Z.to_nat MAX_HEADER_SIZE - Z.to_nat headerLen))
    with (header_bytes data).
  destruct (negb _); [discriminate | ].
  destruct (DecodeDDSHeader plat (header_bytes data) headerLen 0)
    as [[md convFlags] | ] eqn:Hdec; [ | discriminate].
  intros H.
  assert (Hinv : forall hr image0,
            Initialize plat heap (Release image) md CP_FLAGS_NONE = (hr, image0) ->
            if FAILED hr then m_image image0 = None else hr = S_OK).
  { intros hr image0. apply Initialize_outcome. reflexivity. }
  repeat first
    [ discriminate H
    | progress cbv beta iota zeta in H
    | match type of H with
      | context [Initialize ?a ?b ?c ?d ?e] =>
          let Hi := fresh "Hinit" in
          destruct (Initialize a b c d e) as [hr image0] eqn:Hi;
          specialize (Hinv hr image0 eq_refl)
      | context [match ?x with Some _ => _ | None => _ end] =>
          destruct x eqn:?
      | context [if ?c then _ else _] => destruct c eqn:?
      | context [match ?x with (_, _) => _ end] => destruct x eqn:?
      end ];
    apply pair_equal_spec in H; destruct H as [H Him];
    apply pair_equal_spec in H; destruct H as [Hok Hst];
    subst stored image';
    first
      [ left; split; [reflexivity | assumption]
      | right; subst; do 5 eexists;
        repeat split; first [reflexivity | eassumption] ].
Qed.

End LoaderSuccess.

Lemma cube_flag_cleared (misc : Z) :
  has_flag (Z.land misc (u32 (Z.lnot TEX_MISC_TEXTURECUBE)))
    TEX_MISC_TEXTURECUBE = false.
Proof.
  unfold has_flag. rewrite <- Z.land_assoc.
  change (Z.land (u32 (Z.lnot TEX_MISC_TEXTURECUBE)) TEX_MISC_TEXTURECUBE)
    with 0.
  rewrite Z.land_0_r. reflexivity.
Qed.

Section TextureResults.

Variable plat : Platform.
Variable heap : Heap.
Variable gs_texture_t : Type.
Variable gs_texture_create :
  Z -> Z -> gs_color_format -> Z -> list Z -> Z -> option gs_texture_t.
Variable gs_cubetexture_create :
  Z -> gs_color_format -> Z -> list Z -> Z -> option gs_texture_t.
Variable gs_voltexture_create :
  Z -> Z -> Z -> gs_color_format -> Z -> list Z -> Z -> option gs_texture_t.
Variable os_fopen : String.string -> option (list byte).
Variable CopyImage :
  list byte -> Z -> TexMetadata -> Z -> Z -> option (list byte) ->
  ScratchImage -> bool * ScratchImage.

(** A texture CreateTextureEx returns comes from the creation function
    of its dimension, for a format the graphics subsystem has. *)
Lemma CreateTextureEx_result (srcImages : option (list Image))
    (nimages : Z) (metadata : TexMetadata) (t : gs_texture_t) :
  CreateTextureEx plat heap gs_texture_t gs_texture_create
    gs_cubetexture_create gs_voltexture_create srcImages nimages metadata
  = Some t ->
  let tformat := ConvertDXGITextureFormat (format metadata) in
  tformat <> GS_UNKNOWN
  /\ exists initData,
       (dimension metadata = TEX_DIMENSION_TEXTURE2D
        /\ (if IsCubemap metadata
            then gs_cubetexture_create (u32 (width metadata)) tformat
                   (u32 (mipLevels metadata)) initData 0
            else gs_texture_create (u32 (width metadata))
                   (u32 (height metadata)) tformat
                   (u32 (mipLevels metadata)) initData 0) = Some t)
       \/ (dimension metadata = TEX_DIMENSION_TEXTURE3D
           /\ gs_voltexture_create (u32 (width metadata))
                (u32 (height metadata)) (u32 (depth metadata)) tformat
                (u32 (mipLevels metadata)) initData 0 = Some t).
Proof.
  intros H tformat. unfold CreateTextureEx in H.
  destruct srcImages as [imgs | ]; [ | discriminate H].
  destruct (nimages =? 0); [discriminate H | ].
  destruct (_ || _); [discriminate H | ].
  destruct (_ || _); [discriminate H | ].
  destruct (negb _); [discriminate H | ].
  cbv zeta in H.
  match type of H with
  | match ?f with Some _ => _ | None => _ end = _ =>
      destruct f as [initData | ]; [ | discriminate H]
  end.
  fold tformat in H.
  assert (Hrest :
            (if dimension metadata =? TEX_DIMENSION_TEXTURE1D then None
             else if dimension metadata =? TEX_DIMENSION_TEXTURE2D then
               if IsCubemap metadata
               then gs_cubetexture_create (u32 (width metadata)) tformat
                      (u32 (mipLevels metadata)) initData 0
               else gs_texture_create (u32 (width metadata))
                      (u32 (height metadata)) tformat
                      (u32 (mipLevels metadata)) initData 0
             else if dimension metadata =? TEX_DIMENSION_TEXTURE3D then
               gs_voltexture_create (u32 (width metadata))
                 (u32 (height metadata)) (u32 (depth metadata)) tformat
                 (u32 (mipLevels metadata)) initData 0
             else None) = Some t /\ tformat <> GS_UNKNOWN).
  { destruct tformat; first [discriminate H | split; [exact H | discriminate]]. }
  destruct Hrest as [Hrest Hknown]. split; [exact Hknown | ].
  exists initData.
  destruct (dimension metadata =? TEX_DIMENSION_TEXTURE1D);
    [discriminate Hrest | ].
  destruct (Z.eqb_spec (dimension metadata) TEX_DIMENSION_TEXTURE2D);
    [left; split; assumption | ].
  destruct (Z.eqb_spec (dimension metadata) TEX_DIMENSION_TEXTURE3D);
    [right; split; assumption | discriminate Hrest].
Qed.

(** X26.  A texture gs_create_texture_from_dds_file returns comes from a
    file that opens, whose header decodes and whose decoded metadata
    ScratchImage::Initialize accepts, in a format the graphics
    subsystem has;  it has been created by gs_texture_create for a 2D
    texture (also when the file holds a cube map: never by
    gs_cubetexture_create) or by gs_voltexture_create for a volume,
    with the extents and the mip count of the header.  In every other
    case the function returns NULL: in particular for a 1D texture,
    and when Initialize has failed although LoadFromDDSFile reports
    success then, whatever the uninitialised metadata holds. *)
Theorem gs_create_texture_from_dds_file_result
    (file : option String.string) (mdata0 : TexMetadata) (t : gs_texture_t) :
  gs_create_texture_from_dds_file plat heap gs_texture_t gs_texture_create
    gs_cubetexture_create gs_voltexture_create os_fopen CopyImage
    file mdata0 = Some t ->
  exists path data md convFlags image0,
    file = Some path /\ os_fopen path = Some data
    /\ DecodeDDSHeader plat (header_bytes data)
         (Z.min (Z.of_nat (length data)) MAX_HEADER_SIZE) 0
       = Some (md, convFlags)
    /\ Initialize plat heap (mkScratchImage 0 0 zero_metadata None None)
         md CP_FLAGS_NONE = (S_OK, image0)
    /\ ConvertDXGITextureFormat (format md) <> GS_UNKNOWN
    /\ exists initData,
         (dimension md = TEX_DIMENSION_TEXTURE2D
          /\ gs_texture_create (width md) (height md)
               (ConvertDXGITextureFormat (format md)) (mipLevels md)
               initData 0 = Some t)
         \/ (dimension md = TEX_DIMENSION_TEXTURE3D
             /\ gs_voltexture_create (width md) (height md) (depth md)
                  (ConvertDXGITextureFormat (format md)) (mipLevels md)
                  initData 0 = Some t).
Proof.
  unfold gs_create_texture_from_dds_file.
  destruct (LoadFromDDSFile _ _ _ _ _ _ _ _) as [[ok stored] image'] eqn:Hload.
  destruct ok; cbn [negb]; [ | discriminate].
  apply LoadFromDDSFile_true_inv in Hload.
  destruct Hload
    as [[-> Hnone]
       | (p & data & md & cf & image0 & -> & Hopen & Hdec & Hinit & ->)].
  { rewrite Hnone. cbn [CreateTextureEx]. discriminate. }
  intros Hct. apply CreateTextureEx_result in Hct.
  cbv zeta in Hct. cbn [set_miscFlags format dimension width height depth
    mipLevels] in Hct.
  unfold IsCubemap in Hct. cbn [set_miscFlags miscFlags] in Hct.
  rewrite cube_flag_cleared in Hct.
  destruct (DecodeDDSHeader_within_limits _ _ _ _ _ _ Hdec)
    as [Hlim Hm1].
  pose proof Hlim as (Hw & Hh & Hd & _ & Hm).
  assert (Hm15 : mipLevels md <= 15).
  { destruct (Initialize_accepts_only_well_formed_metadata_aux
                plat heap _ md CP_FLAGS_NONE image0 Hlim Hinit)
      as [Hwf _].
    pose proof (full_mip_chain_bound md Hlim Hwf).
    destruct Hwf as (_ & _ & _ & _ & _ & _ & _ & Hmips). lia. }
  assert (Hu : forall v, 0 <= v <= 16384 -> u32 v = v).
  { intros v Hv. unfold u32, wrap. apply Z.mod_small. lia. }
  rewrite !(Hu (width md)), !(Hu (height md)), !(Hu (depth md)),
    !(Hu (mipLevels md)) in Hct by lia.
  destruct Hct as (Hknown & initData & Hres).
  exists p, data, md, cf, image0.
  do 5 (split; [first [reflexivity | assumption | exact Hinit] | ]).
  exists initData. exact Hres.
Qed.

End TextureResults.

Lemma firstn_S_snoc {A : Type} (l : list A) (k : nat) (d : A) :
  (k < length l)%nat -> firstn (S k) l = firstn k l ++ [nth k l d].
Proof.
  revert k. induction l as [ | a l IH]; intros [ | k] Hk; cbn in *; try lia.
  - reflexivity.
  - f_equal. apply IH. lia.
Qed.

Section Fill2D.

Variable plat : Platform.
Variable imgs : list Image.
Variable metadata : TexMetadata.

Hypothesis Hdim :
  dimension metadata = TEX_DIMENSION_TEXTURE1D
  \/ dimension metadata = TEX_DIMENSION_TEXTURE2D.
Hypothesis Hfit : arraySize metadata * mipLevels metadata <= SIZE_MAX plat.
Hypothesis Hcount :
  Z.of_nat (length imgs) = arraySize metadata * mipLevels metadata.
Hypothesis Husable : Forall (usable_for metadata) imgs.

Lemma Fill_levels_all (item : Z) (n : nat) (level : Z) (initData : list Z) :
  0 <= item < arraySize metadata -> 0 <= level ->
  level + Z.of_nat n = mipLevels metadata ->
  initData
  = pixel_offsets (firstn (Z.to_nat (item * mipLevels metadata + level)) imgs) ->
  Fill_levels plat imgs (arraySize metadata * mipLevels metadata) metadata
    item n level initData
  = Some (pixel_offsets
            (firstn (Z.to_nat (item * mipLevels metadata + mipLevels metadata))
               imgs)).
Proof.
  intros Hitem. revert level initData.
  induction n as [ | n IH]; intros level initData Hlevel Hsum Hacc.
  - cbn [Fill_levels]. rewrite Hacc. do 4 f_equal. lia.
  - cbn [Fill_levels].
    destruct (ComputeIndex_2D_value plat metadata item level Hdim Hfit Hitem
                ltac:(lia)) as [-> Hrange].
    set (index := item * mipLevels metadata + level) in *.
    destruct (Z.leb_spec (arraySize metadata * mipLevels metadata) index);
      [lia | ].
    assert (Hin : (Z.to_nat index < length imgs)%nat) by lia.
    pose proof (proj1 (Forall_forall _ _) Husable
                  (nth (Z.to_nat index) imgs zero_image)
                  (nth_In imgs zero_image Hin)) as [Hfmt Hpix].
    rewrite Hfmt, Z.eqb_refl. cbn [negb].
    destruct (img_pixels (nth (Z.to_nat index) imgs zero_image))
      as [pixels | ] eqn:Epix; [ | contradiction].
    apply IH; [lia | lia | ].
    replace (Z.to_nat (item * mipLevels metadata + (level + 1)))
      with (S (Z.to_nat index)) by lia.
    rewrite (firstn_S_snoc imgs (Z.to_nat index) zero_image Hin).
    unfold pixel_offsets. rewrite map_app. cbn [map].
    unfold pixel_offset at 2. rewrite Epix.
    rewrite Hacc. reflexivity.
Qed.

Lemma Fill_items_all (n : nat) (item : Z) (initData : list Z) :
  0 <= item -> item + Z.of_nat n = arraySize metadata ->
  0 <= mipLevels metadata ->
  initData = pixel_offsets (firstn (Z.to_nat (item * mipLevels metadata)) imgs) ->
  Fill_items plat imgs (arraySize metadata * mipLevels metadata) metadata
    n item initData
  = Some (pixel_offsets imgs).
Proof.
  intros Hitem Hsum Hm. revert item initData Hitem Hsum.
  induction n as [ | n IH]; intros item initData Hitem Hsum Hacc.
  - cbn [Fill_items]. rewrite Hacc. rewrite firstn_all2 by nia. reflexivity.
  - cbn [Fill_items].
    rewrite (Fill_levels_all item (Z.to_nat (mipLevels metadata)) 0 initData)
      by (try lia; rewrite Hacc; do 3 f_equal; lia).
    apply IH; [lia | lia | ]. do 3 f_equal. lia.
Qed.

End Fill2D.

Section TextureFrom2D.

Variable plat : Platform.
Variable heap : Heap.
Variable gs_texture_t : Type.
Variable gs_texture_create :
  Z -> Z -> gs_color_format -> Z -> list Z -> Z -> option gs_texture_t.
Variable gs_cubetexture_create :
  Z -> gs_color_format -> Z -> list Z -> Z -> option gs_texture_t.
Variable gs_voltexture_create :
  Z -> Z -> Z -> gs_color_format -> Z -> list Z -> Z -> option gs_texture_t.

Lemma CreateTextureEx_2D (imgs : list Image) (metadata : TexMetadata) :
  dimension metadata = TEX_DIMENSION_TEXTURE2D ->
  1 <= arraySize metadata <= UINT16_MAX ->
  1 <= mipLevels metadata <= UINT16_MAX ->
  width metadata <= UINT32_MAX -> height metadata <= UINT32_MAX ->
  Z.of_nat (length imgs) = arraySize metadata * mipLevels metadata ->
  Forall (usable_for metadata) imgs ->
  new_array heap
    (size_t plat (mipLevels metadata * arraySize metadata)
     * sizeof_pointer plat) = true ->
  CreateTextureEx plat heap gs_texture_t gs_texture_create
    gs_cubetexture_create gs_voltexture_create
    (Some imgs) (arraySize metadata * mipLevels metadata) metadata
  = match ConvertDXGITextureFormat (format metadata) with
    | GS_UNKNOWN => None
    | tformat =>
        if IsCubemap metadata
        then gs_cubetexture_create (u32 (width metadata)) tformat
               (u32 (mipLevels metadata)) (pixel_offsets imgs) 0
        else gs_texture_create (u32 (width metadata))
               (u32 (height metadata)) tformat
               (u32 (mipLevels metadata)) (pixel_offsets imgs) 0
    end.
Proof.
  intros Hdim Ha Hm Hw Hh Hcount Husable Hheap.
  unfold UINT16_MAX in Ha, Hm.
  unfold CreateTextureEx.
  destruct (Z.eqb_spec (arraySize metadata * mipLevels metadata) 0); [nia | ].
  destruct (Z.eqb_spec (mipLevels metadata) 0); [lia | ].
  destruct (Z.eqb_spec (arraySize metadata) 0); [lia | ].
  cbn [orb].
  destruct (Z.ltb_spec UINT32_MAX (width metadata)); [lia | ].
  destruct (Z.ltb_spec UINT32_MAX (height metadata)); [lia | ].
  destruct (Z.ltb_spec UINT16_MAX (mipLevels metadata));
    [unfold UINT16_MAX in *; lia | ].
  destruct (Z.ltb_spec UINT16_MAX (arraySize metadata));
    [unfold UINT16_MAX in *; lia | ].
  cbn [orb]. rewrite Hheap. cbn [negb]. cbv zeta.
  unfold IsVolumemap. rewrite Hdim.
  change (TEX_DIMENSION_TEXTURE2D =? TEX_DIMENSION_TEXTURE3D) with false.
  change (TEX_DIMENSION_TEXTURE2D =? TEX_DIMENSION_TEXTURE1D) with false.
  change (TEX_DIMENSION_TEXTURE2D =? TEX_DIMENSION_TEXTURE2D) with true.
  cbv iota.
  assert (Hfit : arraySize metadata * mipLevels metadata <= SIZE_MAX plat).
  { pose proof (SIZE_MAX_ge plat). nia. }
  rewrite (Fill_items_all plat imgs metadata (or_intror Hdim) Hfit Hcount
             Husable (Z.to_nat (arraySize metadata)) 0 [])
    by (try lia; reflexivity).
  destruct (ConvertDXGITextureFormat (format metadata)); reflexivity.
Qed.

(** X27.  On the descriptors of a 2D texture, array or cube map, one per
    subresource in the order of ComputeIndex, each with the format of
    the metadata and with pixels, none of the checks of CreateTextureEx
    fails:  the pointer array it passes on holds the pixel pointers of
    all the descriptors in their order, and the texture is whatever
    gs_texture_create (gs_cubetexture_create for a cube map) makes of
    them, or NULL when the format has no gs_color_format. *)
Theorem CreateTextureEx_passes_every_subresource (imgs : list Image)
    (metadata : TexMetadata) :
  dimension metadata = TEX_DIMENSION_TEXTURE2D ->
  1 <= arraySize metadata <= UINT16_MAX ->
  1 <= mipLevels metadata <= UINT16_MAX ->
  width metadata <= UINT32_MAX -> height metadata <= UINT32_MAX ->
  Z.of_nat (length imgs) = arraySize metadata * mipLevels metadata ->
  Forall (usable_for metadata) imgs ->
  new_array heap
    (size_t plat (mipLevels metadata * arraySize metadata)
     * sizeof_pointer plat) = true ->
  CreateTextureEx plat heap gs_texture_t gs_texture_create
    gs_cubetexture_create gs_voltexture_create
    (Some imgs) (arraySize metadata * mipLevels metadata) metadata
  = match ConvertDXGITextureFormat (format metadata) with
    | GS_UNKNOWN => None
    | tformat =>
        if IsCubemap metadata
        then gs_cubetexture_create (u32 (width metadata)) tformat
               (u32 (mipLevels metadata)) (pixel_offsets imgs) 0
        else gs_texture_create (u32 (width metadata))
               (u32 (height metadata)) tformat
               (u32 (mipLevels metadata)) (pixel_offsets imgs) 0
    end.
Proof. apply CreateTextureEx_2D. Qed.

End TextureFrom2D.

(** ** From a file to a texture *)

Lemma tiled_pixels (imgs : list Image) (start stop : Z) :
  tiled imgs (length imgs) start stop ->
  Forall (fun img => img_pixels img <> None) imgs.
Proof.
  revert start. induction imgs as [ | img rest IH]; intros start Ht;
    [constructor | ].
  cbn [length tiled] in Ht. destruct Ht as [Hp Ht].
  constructor; [congruence | exact (IH _ Ht)].
Qed.

Lemma CopyImageInPlace_images_true (convFlags : Z) (format : DXGI_FORMAT)
    (tflags : Z) (images : list Image) (mem : list byte) :
  Forall (fun img => img_pixels img <> None) images ->
  exists mem',
    CopyImageInPlace_images convFlags format tflags images mem = (true, mem').
Proof.
  intros Hall. revert mem. induction Hall as [ | img rest Hp _ IH]; intros mem.
  - exists mem. reflexivity.
  - cbn [CopyImageInPlace_images].
    destruct (img_pixels img) as [p | ]; [ | contradiction]. apply IH.
Qed.

(** CopyImageInPlace succeeds on every image whose descriptors have
    pixels, unless the format is planar, and replaces nothing but the
    contents of the pixel memory. *)
Lemma CopyImageInPlace_succeeds (convFlags : Z) (image : ScratchImage)
    (mem : list byte) (images : list Image) :
  m_memory image = Some mem -> m_image image = Some images ->
  Z.of_nat (length images) = m_nimages image ->
  IsPlanar (format (m_metadata image)) = false ->
  Forall (fun img => img_pixels img <> None) images ->
  exists mem',
    CopyImageInPlace convFlags image
    = (true,
       mkScratchImage (m_nimages image) (m_size image) (m_metadata image)
         (m_image image) (Some mem')).
Proof.
  intros Hmem Himg Hcount Hplanar Hall.
  unfold CopyImageInPlace. rewrite Hmem, Himg, Hplanar. cbv zeta.
  replace (Z.to_nat (m_nimages image)) with (length images) by lia.
  rewrite firstn_all.
  match goal with
  | |- context [CopyImageInPlace_images ?c ?f ?t images mem] =>
      destruct (CopyImageInPlace_images_true c f t images mem Hall)
        as (mem' & ->)
  end.
  exists mem'. reflexivity.
Qed.

(** The formats of the legacy table that are converted in place are
    not planar, and only a format that is expanded has a palette. *)
Lemma DecodeDDSHeader_conversions (plat : Platform) (pSource : list byte)
    (size : Z) (md : TexMetadata) (convFlags : Z) :
  DecodeDDSHeader plat pSource size 0 = Some (md, convFlags) ->
  has_flag convFlags CONV_FLAGS_EXPAND = false ->
  has_flag convFlags CONV_FLAGS_PAL8 = false
  /\ (has_flag convFlags (Z.lor CONV_FLAGS_SWIZZLE CONV_FLAGS_NOALPHA) = true ->
      IsPlanar (format md) = false).
Proof.
  intros H Hexp.
  pose (ok := fun (c : Z) (f : DXGI_FORMAT) =>
          negb (has_flag c CONV_FLAGS_PAL8)
          && implb (has_flag c (Z.lor CONV_FLAGS_SWIZZLE CONV_FLAGS_NOALPHA))
               (negb (IsPlanar f))).
  assert (Hok : forall c f, ok c f = true ->
            has_flag c CONV_FLAGS_PAL8 = false
            /\ (has_flag c (Z.lor CONV_FLAGS_SWIZZLE CONV_FLAGS_NOALPHA) = true ->
                IsPlanar f = false)).
  { intros c f Hc. unfold ok in Hc.
    apply andb_true_iff in Hc. destruct Hc as [H1 H2].
    apply negb_true_iff in H1. split; [exact H1 | ].
    intros Hf. rewrite Hf in H2. cbn [implb] in H2.
    apply negb_true_iff in H2. exact H2. }
  assert (Htable :
            forall entry, In entry g_LegacyDDSMap ->
              has_flag (lg_convFlags entry) CONV_FLAGS_EXPAND = false ->
              ok (lg_convFlags entry) (lg_format entry) = true
              /\ ok (lg_convFlags entry) (MakeSRGB (lg_format entry)) = true).
  { intros entry Hin He.
    pose proof (legacy_table_forall
                  (fun e => implb (negb (has_flag (lg_convFlags e)
                                           CONV_FLAGS_EXPAND))
                              (ok (lg_convFlags e) (lg_format e)
                               && ok (lg_convFlags e) (MakeSRGB (lg_format e))))
                  entry eq_refl Hin) as Hp.
    cbv beta in Hp. rewrite He in Hp. cbn [implb negb] in Hp.
    apply andb_true_iff in Hp. exact Hp. }
  apply Hok. clear Hok.
  revert H. unfold DecodeDDSHeader. intros H.
  set (hdr := read_DDS_HEADER pSource sizeof_uint32_t) in *.
  set (ext := read_DDS_HEADER_DXT10 pSource _) in *.
  clearbody hdr ext.
  decode_cases H; injection H as <- <-;
    try reflexivity;
    cbn [format SetAlphaMode];
    match goal with
    | Hg : GetDXGIFormat _ _ _ = (?f, ?c), Hu : (?f =? Fmt.UNKNOWN) = false |- _ =>
        apply GetDXGIFormat_from_table in Hg;
        destruct Hg as [[-> _] | (entry & Hin & -> & Hfmt)];
        [ discriminate Hu
        | destruct (Htable entry Hin Hexp) as [Ha Hb];
          destruct Hfmt as [-> | ->]; assumption ]
    end.
Qed.

Section FileToTexture.

Variable plat : Platform.
Variable heap : Heap.
Variable os_fopen : String.string -> option (list byte).
Variable CopyImage :
  list byte -> Z -> TexMetadata -> Z -> Z -> option (list byte) ->
  ScratchImage -> bool * ScratchImage.

(** A file that needs no expansion, whose pixels are all there, is
    loaded into the descriptors Initialize has set up. *)
Lemma LoadFromDDSFile_keeps_descriptors
    (path : String.string) (data : list byte) (metadata : bool)
    (image image0 : ScratchImage) (mdata : TexMetadata) (convFlags : Z) :
  let len := Z.of_nat (length data) in
  let offset :=
    if has_flag convFlags CONV_FLAGS_DX10 then MAX_HEADER_SIZE
    else sizeof_uint32_t + sizeof_DDS_HEADER in
  os_fopen path = Some data ->
  len <= SIZE_MAX plat ->
  DecodeDDSHeader plat (header_bytes data) (Z.min len MAX_HEADER_SIZE) 0
  = Some (mdata, convFlags) ->
  has_flag convFlags CONV_FLAGS_EXPAND = false ->
  Initialize plat heap (Release image) mdata CP_FLAGS_NONE = (S_OK, image0) ->
  offset < len ->
  offset + m_size image0 <= len ->
  m_size image0 <= UINT32_MAX ->
  exists pixels,
    LoadFromDDSFile plat heap os_fopen CopyImage CopyImageInPlace
      (Some path) metadata image
    = (true,
       (if metadata then Some mdata else None),
       mkScratchImage (m_nimages image0) (m_size image0) (m_metadata image0)
         (m_image image0) (Some pixels)).
Proof.
  intros len offset Hopen Hfit Hdec Hexp Hinit Hoff Hroom Hmax.
  destruct (DecodeDDSHeader_within_limits _ _ _ _ _ _ Hdec) as [Hlim _].
  destruct (DecodeDDSHeader_conversions _ _ _ _ _ Hdec Hexp) as [Hpal Hplanar].
  destruct (Initialize_layout_aux plat heap (Release image) mdata
              CP_FLAGS_NONE image0 Hlim Hinit)
    as (images & memory & Himg & Hmem & Hcount & Hlen & Hn1 & _ & Htiled & _).
  destruct (Initialize_accepts_only_well_formed_metadata_aux
              plat heap (Release image) mdata CP_FLAGS_NONE image0 Hlim Hinit)
    as [_ Hmd].
  rewrite (LoadFromDDSFile_payload plat heap os_fopen CopyImage
             CopyImageInPlace path data metadata image image0 mdata
             convFlags memory Hopen Hfit Hdec Hpal Hexp Hinit Hmem Hlen
             Hoff Hroom Hmax).
  destruct (has_flag convFlags (Z.lor CONV_FLAGS_SWIZZLE CONV_FLAGS_NOALPHA))
    eqn:Hconv; [ | eexists; reflexivity].
  set (pixels := firstn _ _).
  destruct (CopyImageInPlace_succeeds convFlags
              (mkScratchImage (m_nimages image0) (m_size image0)
                 (m_metadata image0) (m_image image0) (Some pixels))
              pixels images eq_refl Himg Hcount) as (mem' & ->).
  - cbn [m_metadata]. rewrite Hmd. apply Hplanar. reflexivity.
  - apply (tiled_pixels images 0 (m_size image0)).
    replace (length images) with (Z.to_nat (m_nimages image0)) by lia.
    exact Htiled.
  - exists mem'. reflexivity.
Qed.

End FileToTexture.

Lemma DetermineImageArray_2D_count (plat : Platform) (md : TexMetadata)
    (flags nImages pixelSize : Z) :
  valid_metadata md ->
  dimension md = TEX_DIMENSION_TEXTURE2D ->
  DetermineImageArray plat md flags = Some (nImages, pixelSize) ->
  nImages = arraySize md * mipLevels md.
Proof.
  intros Hvalid Hdim. unfold DetermineImageArray. rewrite Hdim.
  change (in_cases TEX_DIMENSION_TEXTURE2D
            [TEX_DIMENSION_TEXTURE1D; TEX_DIMENSION_TEXTURE2D]) with true.
  cbv iota zeta.
  destruct (Determine_items plat md flags (Z.to_nat (arraySize md)) (0, 0))
    as [[total nimages] | ] eqn:Hplan; [ | discriminate].
  assert (Ha : 1 <= arraySize md <= 2048) by apply Hvalid.
  assert (Hm : 1 <= mipLevels md <= 15) by apply Hvalid.
  assert (Hmax : snd ((0, 0) : Plan)
                 + Z.of_nat (Z.to_nat (arraySize md)) * mipLevels md
                 <= MAX_IMAGES).
  { unfold MAX_IMAGES. cbn [snd]. rewrite Z2Nat.id by lia.
    assert (arraySize md * mipLevels md <= 2048 * 15) by nia.
    change (2 ^ 15) with 32768. lia. }
  destruct (Determine_items_grows plat md flags Hvalid _ (0, 0) _
              ltac:(unfold plan_ok; cbn; lia) Hmax Hplan)
    as (_ & Hcnt & _).
  cbn [snd] in Hcnt. rewrite Z2Nat.id in Hcnt by lia.
  destruct plat; [destruct (_ <? _); [discriminate | ] | ];
    intros H; injection H as <- <-; lia.
Qed.

Section FileToTexture2D.

Variable plat : Platform.
Variable heap : Heap.
Variable gs_texture_t : Type.
Variable gs_texture_create :
  Z -> Z -> gs_color_format -> Z -> list Z -> Z -> option gs_texture_t.
Variable gs_cubetexture_create :
  Z -> gs_color_format -> Z -> list Z -> Z -> option gs_texture_t.
Variable gs_voltexture_create :
  Z -> Z -> Z -> gs_color_format -> Z -> list Z -> Z -> option gs_texture_t.
Variable os_fopen : String.string -> option (list byte).
Variable CopyImage :
  list byte -> Z -> TexMetadata -> Z -> Z -> option (list byte) ->
  ScratchImage -> bool * ScratchImage.

(** X28.  A 2D file that needs no expansion becomes a texture: when the
    header decodes to a 2D texture (a plain one, an array or a cube
    map) without the EXPAND flag, Initialize succeeds, the file holds
    all the pixels and the pointer array can be allocated,
    gs_create_texture_from_dds_file returns what gs_texture_create
    makes of the width, height and mip count of the header and the
    pixel pointers of all the subresources in their order, and NULL
    when the format has no gs_color_format.  A cube map is handed over
    as a plain 2D texture. *)
Theorem gs_create_texture_from_dds_file_creates_2D
    (path : String.string) (data : list byte) (mdata0 : TexMetadata)
    (image0 : ScratchImage) (images : list Image)
    (md : TexMetadata) (convFlags : Z) :
  let len := Z.of_nat (length data) in
  let offset :=
    if has_flag convFlags CONV_FLAGS_DX10 then MAX_HEADER_SIZE
    else sizeof_uint32_t + sizeof_DDS_HEADER in
  os_fopen path = Some data ->
  len <= SIZE_MAX plat ->
  DecodeDDSHeader plat (header_bytes data) (Z.min len MAX_HEADER_SIZE) 0
  = Some (md, convFlags) ->
  has_flag convFlags CONV_FLAGS_EXPAND = false ->
  dimension md = TEX_DIMENSION_TEXTURE2D ->
  Initialize plat heap (mkScratchImage 0 0 zero_metadata None None) md
    CP_FLAGS_NONE = (S_OK, image0) ->
  m_image image0 = Some images ->
  offset < len ->
  offset + m_size image0 <= len ->
  m_size image0 <= UINT32_MAX ->
  new_array heap
    (size_t plat (mipLevels md * arraySize md) * sizeof_pointer plat) = true ->
  gs_create_texture_from_dds_file plat heap gs_texture_t gs_texture_create
    gs_cubetexture_create gs_voltexture_create os_fopen CopyImage
    (Some path) mdata0
  = match ConvertDXGITextureFormat (format md) with
    | GS_UNKNOWN => None
    | tformat =>
        gs_texture_create (width md) (height md) tformat (mipLevels md)
          (pixel_offsets images) 0
    end.
Proof.
  intros len offset Hopen Hfit Hdec Hexp Hdim Hinit Himages Hoff Hroom Hmax
    Hheap.
  destruct (DecodeDDSHeader_within_limits _ _ _ _ _ _ Hdec) as [Hlim Hm1].
  destruct (Initialize_layout_aux plat heap _ md CP_FLAGS_NONE image0 Hlim Hinit)
    as (images' & memory & Himg & Hmem & Hcount & Hlen & Hn1 & Hplan & Htiled
        & Hpitched).
  rewrite Himages in Himg. injection Himg as <-.
  destruct (Initialize_accepts_only_well_formed_metadata_aux
              plat heap _ md CP_FLAGS_NONE image0 Hlim Hinit) as [Hwf Hmd].
  pose proof (completed_valid md Hlim Hwf) as Hvalid.
  assert (Hcompl : completed md = md).
  { unfold completed. destruct (Z.eqb_spec (mipLevels md) 0); [lia | ].
    destruct md; reflexivity. }
  rewrite Hcompl in Hvalid, Hmd. rewrite Hmd in Hplan.
  pose proof (DetermineImageArray_2D_count plat md CP_FLAGS_NONE _ _
                Hvalid Hdim Hplan) as Hn.
  destruct (LoadFromDDSFile_keeps_descriptors plat heap os_fopen CopyImage
              path data true (mkScratchImage 0 0 zero_metadata None None)
              image0 md convFlags Hopen Hfit Hdec Hexp Hinit Hoff Hroom Hmax)
    as (pixels & Hload).
  unfold gs_create_texture_from_dds_file. rewrite Hload. cbn [negb].
  cbn [m_image m_nimages]. rewrite Himages, Hn.
  set (md' := set_miscFlags md _).
  assert (Hcube : IsCubemap md' = false) by apply cube_flag_cleared.
  change (arraySize md * mipLevels md) with (arraySize md' * mipLevels md').
  destruct Hvalid as (_ & Hw & Hh & _ & Ha & Hm).
  rewrite (CreateTextureEx_2D plat heap gs_texture_t gs_texture_create
             gs_cubetexture_create gs_voltexture_create images md');
    try assumption; cbn [md' set_miscFlags dimension arraySize mipLevels
                          width height format];
    try (unfold UINT16_MAX, UINT32_MAX; lia).
  - rewrite Hcube.
    assert (Hu : forall v, 0 <= v <= 16384 -> u32 v = v).
    { intros v Hv. unfold u32, wrap. apply Z.mod_small. lia. }
    rewrite !Hu by lia. reflexivity.
  - eapply Forall_impl; [ | apply Forall_and;
                            [exact Hpitched
                            | exact (tiled_pixels images 0 (m_size image0)
                                       ltac:(replace (length images)
                                               with (Z.to_nat (m_nimages image0))
                                               by lia; exact Htiled))]].
    intros img [(Hfmt & _) Hpix]. split; assumption.
Qed.

End FileToTexture2D.

(** ** Expansion of the legacy formats *)

Lemma load8_range (buf : list byte) (off : Z) : 0 <= load8 buf off < 256.
Proof. apply byte_val_range. Qed.

Lemma load16_range (buf : list byte) (off : Z) : 0 <= load16 buf off < 2 ^ 16.
Proof.
  unfold load16.
  pose proof (load8_range buf off). pose proof (load8_range buf (off + 1)).
  lia.
Qed.

Lemma load16_store16_same (buf : list byte) (off v : Z) :
  0 <= off -> off + 2 <= Z.of_nat (length buf) ->
  load16 (store16 buf off v) off = u16 v.
Proof.
  intros H0 Hlen. unfold load16, store16, u16, wrap.
  rewrite (load8_store8_same _ (off + 1)) by (rewrite !store8_length; lia).
  rewrite (load8_store8_other _ (off + 1) off) by lia.
  rewrite (load8_store8_same _ off) by lia.
  rewrite Z.shiftr_div_pow2 by lia.
  change (2 ^ 8) with 256. change (2 ^ 16) with 65536.
  Z.div_mod_to_equations. lia.
Qed.

Lemma store16_pixels : stores_pixels 2 16 store16 load16.
Proof.
  split; [apply store16_length | split; [ | split]].
  - intros buf off v j H0 Hj Hout. unfold store16.
    rewrite !load8_store8_other by lia. reflexivity.
  - apply load16_store16_same.
  - intros a b off H. unfold load16. rewrite !H by lia. reflexivity.
Qed.

Lemma store32_pixels : stores_pixels 4 32 store32 load32.
Proof.
  split; [apply store32_length | split; [ | split]].
  - apply load8_store32_outside.
  - apply load32_store32_same.
  - apply load32_ext.
Qed.

Lemma store64_length (buf : list byte) (off v : Z) :
  length (store64 buf off v) = length buf.
Proof. unfold store64. rewrite !store32_length. reflexivity. Qed.

Lemma store64_pixels : stores_pixels 8 64 store64 load64.
Proof.
  split; [apply store64_length | split; [ | split]].
  - intros buf off v j H0 Hj Hout. unfold store64.
    rewrite !load8_store32_outside by lia. reflexivity.
  - intros buf off v H0 Hlen. unfold load64, store64.
    rewrite load32_store32_same by (rewrite ?store32_length; lia).
    rewrite (load32_ext _ (store32 buf off v))
      by (intros j Hj; apply load8_store32_outside; lia).
    rewrite load32_store32_same by lia.
    unfold u32, u64, wrap. rewrite Z.shiftr_div_pow2 by lia.
    change (2 ^ 32) with 4294967296.
    change (2 ^ 64) with (4294967296 * 4294967296).
    Z.div_mod_to_equations. nia.
  - intros a b off H. unfold load64.
    rewrite (load32_ext a b off) by (intros; apply H; lia).
    rewrite (load32_ext a b (off + 4)) by (intros; apply H; lia).
    reflexivity.
Qed.

Section LegacyLoop.

Variables (inPixel outPixel : positive).
Variable store : list byte -> Z -> Z -> list byte.
Variable load : list byte -> Z -> Z.
Variable bits : Z.
Variable pixel : Z -> Z.
Hypothesis Hstore : stores_pixels (Z.pos outPixel) bits store load.

Lemma LegacyExpandScanline_loop_spec (inLimit outLimit icount ocount : Z)
    (dst : list byte) :
  0 <= icount -> 0 <= ocount ->
  outLimit + (Z.pos outPixel - 1) <= Z.of_nat (length dst) ->
  let r := LegacyExpandScanline_loop inPixel outPixel store pixel
             inLimit outLimit icount ocount dst in
  length r = length dst
  /\ (forall k, 0 <= k ->
        icount + Z.pos inPixel * k < inLimit ->
        ocount + Z.pos outPixel * k < outLimit ->
        load r (ocount + Z.pos outPixel * k)
        = wrap bits (pixel (icount + Z.pos inPixel * k)))
  /\ (forall j, 0 <= j ->
        (forall k, 0 <= k ->
           icount + Z.pos inPixel * k < inLimit ->
           ocount + Z.pos outPixel * k < outLimit ->
           j < ocount + Z.pos outPixel * k
           \/ ocount + Z.pos outPixel * k + Z.pos outPixel <= j) ->
        load8 r j = load8 dst j).
Proof.
  destruct Hstore as (Hlength & Houtside & Hsame & Hext).
  funelim (LegacyExpandScanline_loop inPixel outPixel store pixel
             inLimit outLimit icount ocount dst);
    intros Hi Ho Hlen.
  - clear H0 Heqcall. apply andb_prop in e. destruct e as [e1 e2].
    apply Z.ltb_lt in e1, e2.
    set (v := pixel icount) in *.
    set (dst' := store dst ocount v) in *.
    assert (Hlen' : length dst' = length dst) by apply Hlength.
    destruct H as (Hl & Hpix & Hkeep);
      [assumption | assumption | assumption | assumption | lia | lia
       | rewrite Hlen'; lia | ].
    set (r := LegacyExpandScanline_loop inPixel outPixel store pixel
                inLimit outLimit (icount + Z.pos inPixel)
                (ocount + Z.pos outPixel) dst') in *.
    assert (Hhead : forall j, 0 <= j < ocount + Z.pos outPixel ->
              load8 r j = load8 dst' j).
    { intros j Hj. apply Hkeep; [lia | ]. intros k Hk _ _. nia. }
    split; [congruence | split].
    + intros k Hk Hin Hout.
      destruct (Z.eq_dec k 0) as [-> | Hne].
      * rewrite !Z.mul_0_r, !Z.add_0_r.
        rewrite (Hext r dst') by (intros; apply Hhead; lia).
        apply Hsame; lia.
      * replace (ocount + Z.pos outPixel * k)
          with (ocount + Z.pos outPixel + Z.pos outPixel * (k - 1)) by ring.
        replace (icount + Z.pos inPixel * k)
          with (icount + Z.pos inPixel + Z.pos inPixel * (k - 1)) by ring.
        apply Hpix; [lia | | ].
        -- replace (icount + Z.pos inPixel + Z.pos inPixel * (k - 1))
             with (icount + Z.pos inPixel * k) by ring. exact Hin.
        -- replace (ocount + Z.pos outPixel + Z.pos outPixel * (k - 1))
             with (ocount + Z.pos outPixel * k) by ring. exact Hout.
    + intros j Hj Hout. rewrite Hkeep.
      * apply Houtside; try lia.
        specialize (Hout 0 (Z.le_refl 0)).
        rewrite !Z.mul_0_r, !Z.add_0_r in Hout. lia.
      * assumption.
      * intros k Hk Hin Hlt.
        specialize (Hout (k + 1)).
        replace (icount + Z.pos inPixel * (k + 1))
          with (icount + Z.pos inPixel + Z.pos inPixel * k) in Hout by ring.
        replace (ocount + Z.pos outPixel * (k + 1))
          with (ocount + Z.pos outPixel + Z.pos outPixel * k) in Hout by ring.
        apply Hout; [lia | assumption | assumption].
  - clear H Heqcall. apply andb_false_iff in e.
    split; [reflexivity | split; [ | reflexivity]].
    intros k Hk Hin Hout.
    destruct e as [e | e]; apply Z.ltb_ge in e; nia.
Qed.

(** A whole row: the pixels the loop visits are the first
    min(inSize / inPixel, outSize / outPixel) ones. *)
Lemma LegacyExpandScanline_row (P : Z -> Z -> Prop) (source : Z -> Z)
    (dst : list byte) (inSize outSize : Z) :
  (forall k, 0 <= k -> Z.pos inPixel * (k + 1) <= inSize ->
     P (source k) (wrap bits (pixel (Z.pos inPixel * k)))) ->
  Z.pos inPixel <= inSize -> Z.pos outPixel <= outSize ->
  outSize <= Z.of_nat (length dst) ->
  let n := Z.min (inSize / Z.pos inPixel) (outSize / Z.pos outPixel) in
  let r := LegacyExpandScanline_loop inPixel outPixel store pixel
             (inSize - (Z.pos inPixel - 1)) (outSize - (Z.pos outPixel - 1))
             0 0 dst in
  length r = length dst
  /\ (forall k, 0 <= k < n -> P (source k) (load r (Z.pos outPixel * k)))
  /\ (forall j, Z.pos outPixel * n <= j -> load8 r j = load8 dst j).
Proof.
  intros Hpixel Hin Hout Hlen n r.
  destruct (LegacyExpandScanline_loop_spec (inSize - (Z.pos inPixel - 1))
              (outSize - (Z.pos outPixel - 1)) 0 0 dst)
    as (Hl & Hpix & Hkeep); [lia | lia | lia | ].
  fold r in Hl, Hpix, Hkeep.
  assert (Hn : forall k, 0 <= k ->
            (k < n <-> Z.pos inPixel * (k + 1) <= inSize
                       /\ Z.pos outPixel * (k + 1) <= outSize)).
  { intros k Hk. unfold n.
    pose proof (Z.div_mod inSize (Z.pos inPixel) ltac:(lia)).
    pose proof (Z.mod_pos_bound inSize (Z.pos inPixel) ltac:(lia)).
    pose proof (Z.div_mod outSize (Z.pos outPixel) ltac:(lia)).
    pose proof (Z.mod_pos_bound outSize (Z.pos outPixel) ltac:(lia)).
    split.
    - intros Hlt. split; nia.
    - intros [Hik Hok]. apply Z.min_glb_lt; nia. }
  assert (0 <= n).
  { unfold n. apply Z.min_glb; apply Z.div_pos; lia. }
  split; [exact Hl | split].
  - intros k Hk.
    destruct (proj1 (Hn k ltac:(lia)) ltac:(lia)) as [Hi Ho].
    replace (Z.pos outPixel * k) with (0 + Z.pos outPixel * k) by lia.
    rewrite Hpix by lia.
    replace (0 + Z.pos inPixel * k) with (Z.pos inPixel * k) by lia.
    apply Hpixel; lia.
  - intros j Hj. apply Hkeep; [nia | ].
    intros k Hk Hi Ho. right.
    assert (k < n) by (apply Hn; lia). nia.
Qed.

End LegacyLoop.

Lemma all_bytes_spec (P : Z -> bool) :
  all_bytes P = true -> forall b, 0 <= b < 256 -> P b = true.
Proof.
  unfold all_bytes. intros H b Hb. rewrite forallb_forall in H.
  apply H. apply in_map_iff. exists (Z.to_nat b).
  split; [lia | apply in_seq; lia].
Qed.

Lemma all_bytes_eq (f g : Z -> Z) :
  all_bytes (fun b => f b =? g b) = true ->
  forall b, 0 <= b < 256 -> f b = g b.
Proof.
  intros H b Hb. apply Z.eqb_eq. exact (all_bytes_spec _ H b Hb).
Qed.

(** An equation between two functions of a byte, by running both on
    every byte. *)
Ltac by_bytes :=
  match goal with
  | |- forall b, 0 <= b < 256 -> @?f b = @?g b =>
      apply (all_bytes_eq f g); vm_compute; reflexivity
  end.

Ltac conjuncts := repeat match goal with |- _ /\ _ => split end.

Lemma low_byte_range (t : Z) : 0 <= Z.land t 0xff < 256.
Proof.
  change 0xff with (Z.ones 8). rewrite Z.land_ones by lia.
  apply Z.mod_pos_bound. lia.
Qed.

Lemma u32_small (x : Z) : 0 <= x < 2 ^ 32 -> u32 x = x.
Proof. intros H. unfold u32, wrap. apply Z.mod_small. exact H. Qed.

(** A field of the low byte of a pixel is a field of the pixel. *)
Lemma field_low_byte (t pos width : Z) :
  Z.land (Z.shiftr 0xff pos) (Z.ones width) = Z.ones width ->
  field (Z.land t 0xff) pos width = field t pos width.
Proof.
  intros H. unfold field.
  rewrite Z.shiftr_land, <- Z.land_assoc, H. reflexivity.
Qed.

(** The channels of a pixel assembled from two terms. *)
Lemma channels_of_lor2 (a b : Z) :
  let p := u32 (Z.lor a b) in
  red8 p = Z.lor (red8 a) (red8 b)
  /\ green8 p = Z.lor (green8 a) (green8 b)
  /\ blue8 p = Z.lor (blue8 a) (blue8 b)
  /\ alpha8 p = Z.lor (alpha8 a) (alpha8 b).
Proof.
  cbv zeta.
  pose proof (channels_of_lor4 a b 0 0) as H. cbv zeta in H.
  change (red8 0) with 0 in H. change (green8 0) with 0 in H.
  change (blue8 0) with 0 in H. change (alpha8 0) with 0 in H.
  rewrite !Z.lor_0_r in H. exact H.
Qed.

(** A byte in each of the three colour positions of a pixel. *)
Lemma byte_terms (b : Z) :
  0 <= b < 256 ->
  (red8 b = b /\ green8 b = 0 /\ blue8 b = 0 /\ alpha8 b = 0)
  /\ (red8 (u32 (Z.shiftl b 8)) = 0 /\ green8 (u32 (Z.shiftl b 8)) = b
      /\ blue8 (u32 (Z.shiftl b 8)) = 0 /\ alpha8 (u32 (Z.shiftl b 8)) = 0)
  /\ (red8 (u32 (Z.shiftl b 16)) = 0 /\ green8 (u32 (Z.shiftl b 16)) = 0
      /\ blue8 (u32 (Z.shiftl b 16)) = b /\ alpha8 (u32 (Z.shiftl b 16)) = 0).
Proof. intros Hb. conjuncts; revert b Hb; by_bytes. Qed.

(** The colour terms of the 3:3:2 sources. *)
Lemma legacy_R3G3B2_terms (t : Z) :
  (red8 (legacy_R3G3B2_t1 t) = replicate3 (field t 5 3)
   /\ green8 (legacy_R3G3B2_t1 t) = 0 /\ blue8 (legacy_R3G3B2_t1 t) = 0
   /\ alpha8 (legacy_R3G3B2_t1 t) = 0)
  /\ (red8 (legacy_R3G3B2_t2 t) = 0
      /\ green8 (legacy_R3G3B2_t2 t) = replicate3 (field t 2 3)
      /\ blue8 (legacy_R3G3B2_t2 t) = 0 /\ alpha8 (legacy_R3G3B2_t2 t) = 0)
  /\ (red8 (legacy_R3G3B2_t3 t) = 0 /\ green8 (legacy_R3G3B2_t3 t) = 0
      /\ blue8 (legacy_R3G3B2_t3 t) = replicate2 (field t 0 2)
      /\ alpha8 (legacy_R3G3B2_t3 t) = 0).
Proof.
  assert (E1 : legacy_R3G3B2_t1 t = legacy_R3G3B2_t1 (Z.land t 0xff)).
  { unfold legacy_R3G3B2_t1. rewrite <- !Z.land_assoc. reflexivity. }
  assert (E2 : legacy_R3G3B2_t2 t = legacy_R3G3B2_t2 (Z.land t 0xff)).
  { unfold legacy_R3G3B2_t2. rewrite <- !Z.land_assoc. reflexivity. }
  assert (E3 : legacy_R3G3B2_t3 t = legacy_R3G3B2_t3 (Z.land t 0xff)).
  { unfold legacy_R3G3B2_t3. rewrite <- !Z.land_assoc. reflexivity. }
  rewrite E1, E2, E3. clear E1 E2 E3.
  rewrite <- (field_low_byte t 5 3), <- (field_low_byte t 2 3),
    <- (field_low_byte t 0 2) by reflexivity.
  pose proof (low_byte_range t) as Hb.
  generalize dependent (Z.land t 0xff). clear t. intros b Hb.
  conjuncts; revert b Hb; by_bytes.
Qed.

(** The alpha term of the sources with alpha in the high byte. *)
Lemma legacy_high_byte_alpha_channels (tflags t : Z) :
  let ta := legacy_high_byte_alpha tflags t in
  red8 ta = 0 /\ green8 ta = 0 /\ blue8 ta = 0
  /\ alpha8 ta
     = alpha_or_opaque (has_flag tflags TEXP_SCANLINE_SETALPHA) (field t 8 8).
Proof.
  cbv zeta. unfold legacy_high_byte_alpha, alpha_or_opaque.
  destruct (has_flag tflags TEXP_SCANLINE_SETALPHA).
  - conjuncts; reflexivity.
  - unfold red8, green8, blue8, alpha8, field, u32, wrap.
    change 0xff00 with (Z.shiftl (Z.ones 8) 8).
    change 0xff with (Z.ones 8).
    conjuncts; Z.bitblast.
Qed.

(** *** One pixel of each expansion *)

Lemma legacy_R3G3B2_pixel (setalpha : bool) (pal8 : option (list byte))
    (t : Z) :
  legacy_expanded TEXP_LEGACY_R3G3B2 Fmt.R8G8B8A8_UNORM setalpha pal8 t
    (u32 (legacy_R3G3B2 t)).
Proof.
  unfold legacy_expanded.
  change (Fmt.R8G8B8A8_UNORM =? Fmt.R8G8B8A8_UNORM) with true. cbv iota.
  unfold legacy_R3G3B2.
  match goal with
  | |- context [u32 (Z.lor (Z.lor (Z.lor ?a ?b) ?c) ?d)] =>
      destruct (channels_of_lor4 a b c d) as (-> & -> & -> & ->)
  end.
  destruct (legacy_R3G3B2_terms t)
    as ((-> & -> & -> & ->) & (-> & -> & -> & ->) & (-> & -> & -> & ->)).
  change (red8 0xff000000) with 0. change (green8 0xff000000) with 0.
  change (blue8 0xff000000) with 0. change (alpha8 0xff000000) with 0xff.
  rewrite ?Z.lor_0_r, ?Z.lor_0_l. conjuncts; reflexivity.
Qed.

Lemma legacy_A8R3G3B2_pixel (tflags : Z) (pal8 : option (list byte)) (t : Z) :
  legacy_expanded TEXP_LEGACY_A8R3G3B2 Fmt.R8G8B8A8_UNORM
    (has_flag tflags TEXP_SCANLINE_SETALPHA) pal8 t
    (u32 (legacy_A8R3G3B2 tflags t)).
Proof.
  unfold legacy_expanded, legacy_A8R3G3B2.
  match goal with
  | |- context [u32 (Z.lor (Z.lor (Z.lor ?a ?b) ?c) ?d)] =>
      destruct (channels_of_lor4 a b c d) as (-> & -> & -> & ->)
  end.
  destruct (legacy_R3G3B2_terms t)
    as ((-> & -> & -> & ->) & (-> & -> & -> & ->) & (-> & -> & -> & ->)).
  destruct (legacy_high_byte_alpha_channels tflags t) as (-> & -> & -> & ->).
  rewrite ?Z.lor_0_r, ?Z.lor_0_l. conjuncts; reflexivity.
Qed.

Lemma legacy_R3G3B2_to_B5G6R5_pixel (setalpha : bool)
    (pal8 : option (list byte)) (t : Z) :
  0 <= t < 256 ->
  legacy_expanded TEXP_LEGACY_R3G3B2 Fmt.B5G6R5_UNORM setalpha pal8 t
    (u16 (legacy_R3G3B2_to_B5G6R5 t)).
Proof.
  intros Ht. unfold legacy_expanded.
  change (Fmt.B5G6R5_UNORM =? Fmt.R8G8B8A8_UNORM) with false. cbv iota.
  conjuncts; revert t Ht; by_bytes.
Qed.

Lemma legacy_A4L4_to_B4G4R4A4_pixel (tflags : Z) (pal8 : option (list byte))
    (t : Z) :
  0 <= t < 256 ->
  legacy_expanded TEXP_LEGACY_A4L4 Fmt.B4G4R4A4_UNORM
    (has_flag tflags TEXP_SCANLINE_SETALPHA) pal8 t
    (u16 (legacy_A4L4_to_B4G4R4A4 tflags t)).
Proof.
  intros Ht. unfold legacy_expanded, legacy_A4L4_to_B4G4R4A4.
  change (Fmt.B4G4R4A4_UNORM =? Fmt.R8G8B8A8_UNORM) with false. cbv iota.
  destruct (has_flag tflags TEXP_SCANLINE_SETALPHA);
    conjuncts; revert t Ht; by_bytes.
Qed.

Lemma legacy_A4L4_pixel (tflags : Z) (pal8 : option (list byte)) (t : Z) :
  0 <= t < 256 ->
  legacy_expanded TEXP_LEGACY_A4L4 Fmt.R8G8B8A8_UNORM
    (has_flag tflags TEXP_SCANLINE_SETALPHA) pal8 t
    (u32 (legacy_A4L4 tflags t)).
Proof.
  intros Ht. unfold legacy_expanded, legacy_A4L4, alpha_or_opaque.
  change (Fmt.R8G8B8A8_UNORM =? Fmt.R8G8B8A8_UNORM) with true. cbv iota.
  destruct (has_flag tflags TEXP_SCANLINE_SETALPHA);
    conjuncts; revert t Ht; by_bytes.
Qed.

Lemma legacy_L8_pixel (setalpha : bool) (pal8 : option (list byte)) (t : Z) :
  0 <= t < 256 ->
  legacy_expanded TEXP_LEGACY_L8 Fmt.R8G8B8A8_UNORM setalpha pal8 t
    (u32 (legacy_L8 t)).
Proof.
  intros Ht. unfold legacy_expanded. conjuncts; revert t Ht; by_bytes.
Qed.

Lemma legacy_B4G4R4A4_pixel (tflags : Z) (pal8 : option (list byte)) (t : Z) :
  legacy_expanded TEXP_LEGACY_B4G4R4A4 Fmt.R8G8B8A8_UNORM
    (has_flag tflags TEXP_SCANLINE_SETALPHA) pal8 t
    (u32 (legacy_B4G4R4A4 tflags t)).
Proof.
  exact (expand_B4G4R4A4_channels tflags t).
Qed.

Lemma legacy_A8L8_pixel (tflags : Z) (pal8 : option (list byte)) (t : Z) :
  legacy_expanded TEXP_LEGACY_A8L8 Fmt.R8G8B8A8_UNORM
    (has_flag tflags TEXP_SCANLINE_SETALPHA) pal8 t
    (u32 (legacy_A8L8 tflags t)).
Proof.
  unfold legacy_expanded, legacy_A8L8. cbv zeta.
  assert (Ef : field t 0 8 = Z.land t 0xff).
  { unfold field. rewrite Z.shiftr_0_r. reflexivity. }
  rewrite Ef.
  pose proof (low_byte_range t) as Hb.
  rewrite (u32_small (Z.land t 0xff)) by lia.
  match goal with
  | |- context [u32 (Z.lor (Z.lor (Z.lor ?a ?b) ?c) ?d)] =>
      destruct (channels_of_lor4 a b c d) as (-> & -> & -> & ->)
  end.
  destruct (byte_terms _ Hb)
    as ((-> & -> & -> & ->) & (-> & -> & -> & ->) & (-> & -> & -> & ->)).
  destruct (legacy_high_byte_alpha_channels tflags t) as (-> & -> & -> & ->).
  rewrite ?Z.lor_0_r, ?Z.lor_0_l. conjuncts; reflexivity.
Qed.

Lemma legacy_P8_pixel (setalpha : bool) (pal : list byte) (t : Z) :
  legacy_expanded TEXP_LEGACY_P8 Fmt.R8G8B8A8_UNORM setalpha (Some pal) t
    (u32 (legacy_P8 pal t)).
Proof.
  unfold legacy_expanded, legacy_P8. apply u32_small, load32_range.
Qed.

Lemma legacy_A8P8_pixel (tflags : Z) (pal : list byte) (t : Z) :
  legacy_expanded TEXP_LEGACY_A8P8 Fmt.R8G8B8A8_UNORM
    (has_flag tflags TEXP_SCANLINE_SETALPHA) (Some pal) t
    (u32 (legacy_A8P8 pal tflags t)).
Proof.
  unfold legacy_expanded, legacy_A8P8. cbv zeta.
  assert (Ef : field t 0 8 = Z.land t 0xff).
  { unfold field. rewrite Z.shiftr_0_r. reflexivity. }
  rewrite Ef.
  match goal with
  | |- context [u32 (Z.lor ?a ?b)] =>
      destruct (channels_of_lor2 a b) as (-> & -> & -> & ->)
  end.
  destruct (legacy_high_byte_alpha_channels tflags t) as (-> & -> & -> & ->).
  rewrite ?Z.lor_0_r. conjuncts; reflexivity.
Qed.

(** The bytes of a 24-bit pixel. *)
Lemma field_load24 (buf : list byte) (off : Z) :
  field (load24 buf off) 0 8 = load8 buf off
  /\ field (load24 buf off) 8 8 = load8 buf (off + 1)
  /\ field (load24 buf off) 16 8 = load8 buf (off + 2).
Proof.
  unfold field, load24.
  pose proof (load8_range buf off). pose proof (load8_range buf (off + 1)).
  pose proof (load8_range buf (off + 2)).
  generalize dependent (load8 buf off).
  generalize dependent (load8 buf (off + 1)).
  generalize dependent (load8 buf (off + 2)). intros.
  rewrite !Z.land_ones, !Z.shiftr_div_pow2 by lia.
  change (2 ^ 0) with 1. change (2 ^ 8) with 256. change (2 ^ 16) with 65536.
  conjuncts; Z.div_mod_to_equations; lia.
Qed.

Lemma legacy_R8G8B8_pixel (setalpha : bool) (pal8 : option (list byte))
    (src : list byte) (off : Z) :
  legacy_expanded TEXP_LEGACY_R8G8B8 Fmt.R8G8B8A8_UNORM setalpha pal8
    (load24 src off) (u32 (legacy_R8G8B8 src off)).
Proof.
  unfold legacy_expanded, legacy_R8G8B8. cbv zeta.
  destruct (field_load24 src off) as (-> & -> & ->).
  pose proof (load8_range src off) as H0.
  pose proof (load8_range src (off + 1)) as H1.
  pose proof (load8_range src (off + 2)) as H2.
  rewrite (u32_small (load8 src (off + 2))) by lia.
  match goal with
  | |- context [u32 (Z.lor (Z.lor (Z.lor ?a ?b) ?c) ?d)] =>
      destruct (channels_of_lor4 a b c d) as (-> & -> & -> & ->)
  end.
  destruct (byte_terms _ H0) as (_ & _ & (-> & -> & -> & ->)).
  destruct (byte_terms _ H1) as (_ & (-> & -> & -> & ->) & _).
  destruct (byte_terms _ H2) as ((-> & -> & -> & ->) & _ & _).
  change (red8 0xff000000) with 0. change (green8 0xff000000) with 0.
  change (blue8 0xff000000) with 0. change (alpha8 0xff000000) with 0xff.
  rewrite ?Z.lor_0_r, ?Z.lor_0_l. conjuncts; reflexivity.
Qed.

(** The four 16-bit channels of an expanded 16-bit luminance. *)
Lemma legacy_L16_pixel (setalpha : bool) (pal8 : option (list byte)) (t : Z) :
  0 <= t < 2 ^ 16 ->
  legacy_expanded TEXP_LEGACY_L16 Fmt.R16G16B16A16_UNORM setalpha pal8 t
    (u64 (legacy_L16 t)).
Proof.
  intros Ht. unfold legacy_expanded, legacy_L16. cbv zeta.
  assert (E : t = Z.land t (Z.ones 16)).
  { rewrite Z.land_ones by lia. symmetry. apply Z.mod_small. exact Ht. }
  rewrite E. clear E Ht.
  unfold field, u64, wrap.
  change 0xffff000000000000 with (Z.shiftl (Z.ones 16) 48).
  change 0xffff with (Z.ones 16).
  conjuncts; Z.bitblast.
Qed.

(** The branches of LegacyExpandScanline that return false. *)
Ltac legacy_failure :=
  cbn [andb orb negb uses_palette palette_given]; rewrite ?andb_false_r;
  eexists; split; [reflexivity | split; [reflexivity | discriminate]].

(** A branch that runs its loop, for pixels of [i] and [o] bytes. *)
Ltac legacy_success inSize outSize i o pixels pixel_fact :=
  destruct (Z.leb_spec (Z.pos i) inSize); [ | legacy_failure];
  destruct (Z.leb_spec (Z.pos o) outSize); [ | legacy_failure];
  cbn [andb orb negb uses_palette palette_given];
  eexists; split; [reflexivity | split; [discriminate | intros _]];
  apply (LegacyExpandScanline_row i o _ _ _ _ pixels);
  [ intros k Hk Hfit; cbv beta; rewrite ?Z.mul_1_l; pixel_fact
  | assumption | assumption | assumption ].

(** The outcome of LegacyExpandScanline, case by case. *)
Lemma LegacyExpandScanline_cases (dst : list byte)
    (outSize : Z) (outFormat : DXGI_FORMAT) (src : list byte) (inSize : Z)
    (inFormat : TEXP_LEGACY_FORMAT) (pal8 : option (list byte))
    (tflags : Z) :
  outSize <= Z.of_nat (length dst) ->
  inSize <= Z.of_nat (length src) ->
  match legacy_pixel_sizes inFormat outFormat with
  | Some (inPixel, outPixel) =>
      let supported :=
        (inPixel <=? inSize) && (outPixel <=? outSize)
        && (negb (uses_palette inFormat) || palette_given pal8) in
      let n := Z.min (inSize / inPixel) (outSize / outPixel) in
      exists r,
        LegacyExpandScanline dst outSize outFormat src inSize inFormat pal8
          tflags = (supported, r)
        /\ (supported = false -> r = dst)
        /\ (supported = true ->
            length r = length dst
            /\ (forall k, 0 <= k < n ->
                  legacy_expanded inFormat outFormat
                    (has_flag tflags TEXP_SCANLINE_SETALPHA) pal8
                    (load_pixel inPixel src k) (load_pixel outPixel r k))
            /\ (forall j, outPixel * n <= j -> load8 r j = load8 dst j))
  | None =>
      LegacyExpandScanline dst outSize outFormat src inSize inFormat pal8
        tflags = (false, dst)
  end.
Proof.
  intros Hlen _.
  destruct inFormat; unfold legacy_pixel_sizes, LegacyExpandScanline;
    cbv zeta.
  - (* UNKNOWN *)
    reflexivity.
  - (* R8G8B8 *)
    destruct (Z.eqb_spec outFormat Fmt.R8G8B8A8_UNORM) as [-> | Hne];
      cbn [negb]; [ | reflexivity].
    legacy_success inSize outSize 3%positive 4%positive store32_pixels
      ltac:(apply legacy_R8G8B8_pixel).
  - (* R3G3B2 *)
    destruct (Z.eqb_spec outFormat Fmt.R8G8B8A8_UNORM) as [-> | Hne].
    + legacy_success inSize outSize 1%positive 4%positive store32_pixels
        ltac:(apply legacy_R3G3B2_pixel).
    + destruct (Z.eqb_spec outFormat Fmt.B5G6R5_UNORM) as [-> | Hne'];
        [ | reflexivity].
      legacy_success inSize outSize 1%positive 2%positive store16_pixels
        ltac:(apply legacy_R3G3B2_to_B5G6R5_pixel; apply load8_range).
  - (* A8R3G3B2 *)
    destruct (Z.eqb_spec outFormat Fmt.R8G8B8A8_UNORM) as [-> | Hne];
      cbn [negb]; [ | reflexivity].
    legacy_success inSize outSize 2%positive 4%positive store32_pixels
      ltac:(apply legacy_A8R3G3B2_pixel).
  - (* P8 *)
    destruct (Z.eqb_spec outFormat Fmt.R8G8B8A8_UNORM) as [-> | Hne];
      cbn [negb]; [ | destruct pal8; reflexivity].
    destruct pal8 as [pal | ]; [ | legacy_failure].
    legacy_success inSize outSize 1%positive 4%positive store32_pixels
      ltac:(apply legacy_P8_pixel).
  - (* A8P8 *)
    destruct (Z.eqb_spec outFormat Fmt.R8G8B8A8_UNORM) as [-> | Hne];
      cbn [negb]; [ | destruct pal8; reflexivity].
    destruct pal8 as [pal | ]; [ | legacy_failure].
    legacy_success inSize outSize 2%positive 4%positive store32_pixels
      ltac:(apply legacy_A8P8_pixel).
  - (* A4L4 *)
    destruct (Z.eqb_spec outFormat Fmt.B4G4R4A4_UNORM) as [-> | Hne].
    + legacy_success inSize outSize 1%positive 2%positive store16_pixels
        ltac:(apply legacy_A4L4_to_B4G4R4A4_pixel; apply load8_range).
    + destruct (Z.eqb_spec outFormat Fmt.R8G8B8A8_UNORM) as [-> | Hne'];
        [ | reflexivity].
      legacy_success inSize outSize 1%positive 4%positive store32_pixels
        ltac:(apply legacy_A4L4_pixel; apply load8_range).
  - (* B4G4R4A4 *)
    destruct (Z.eqb_spec outFormat Fmt.R8G8B8A8_UNORM) as [-> | Hne];
      cbn [negb]; [ | reflexivity].
    legacy_success inSize outSize 2%positive 4%positive store32_pixels
      ltac:(apply legacy_B4G4R4A4_pixel).
  - (* L8 *)
    destruct (Z.eqb_spec outFormat Fmt.R8G8B8A8_UNORM) as [-> | Hne];
      cbn [negb]; [ | reflexivity].
    legacy_success inSize outSize 1%positive 4%positive store32_pixels
      ltac:(apply legacy_L8_pixel; apply load8_range).
  - (* L16 *)
    destruct (Z.eqb_spec outFormat Fmt.R16G16B16A16_UNORM) as [-> | Hne];
      cbn [negb]; [ | reflexivity].
    legacy_success inSize outSize 2%positive 8%positive store64_pixels
      ltac:(apply legacy_L16_pixel; apply load16_range).
  - (* A8L8 *)
    destruct (Z.eqb_spec outFormat Fmt.R8G8B8A8_UNORM) as [-> | Hne];
      cbn [negb]; [ | reflexivity].
    legacy_success inSize outSize 2%positive 4%positive store32_pixels
      ltac:(apply legacy_A8L8_pixel).
Qed.


(** ** The properties at sample inputs *)

Lemma CalculateMipLevels_spec_witness :
  (Z.log2 (Z.max 16 4) + 1 < 3 -> CalculateMipLevels 16 4 3 = None)
  /\ (1 <= 3 <= Z.log2 (Z.max 16 4) + 1 -> CalculateMipLevels 16 4 3 = Some 3)
  /\ (3 = 0 -> CalculateMipLevels 16 4 3 = Some (Z.log2 (Z.max 16 4) + 1))
  /\ (forall r, CalculateMipLevels 16 4 3 = Some r ->
        1 <= r <= Z.log2 (Z.max 16 4) + 1
        /\ CalculateMipLevels 16 4 r = Some r).
Proof. apply (CalculateMipLevels_spec 16 4 3); lia. Defined.

Lemma format_classes_are_disjoint_and_sized_witness :
  IsPacked Fmt.BC1_UNORM = false /\ IsPlanar Fmt.BC1_UNORM = false
  /\ IsPalettized Fmt.BC1_UNORM = false.
Proof.
  apply (proj1 (format_classes_are_disjoint_and_sized Fmt.BC1_UNORM)).
  reflexivity.
Defined.

Lemma ComputePitch_slice_is_rowPitch_times_scanlines_witness :
  ComputeScanlines Win64 Fmt.NV12 9 = 14 /\ 224 = 16 * 14.
Proof.
  split; [reflexivity | ].
  apply (ComputePitch_slice_is_rowPitch_times_scanlines Win64 Fmt.NV12
           16 9 CP_FLAGS_NONE 16 224); first [lia | reflexivity].
Defined.

Lemma ComputePitch_linear_row_alignment_witness :
  (requested_alignment CP_FLAGS_PARAGRAPH | 16)
  /\ (5 * BitsPerPixel Fmt.R8G8_UNORM + 7) / 8 <= 16
     < (5 * BitsPerPixel Fmt.R8G8_UNORM + 7) / 8
       + requested_alignment CP_FLAGS_PARAGRAPH
  /\ 48 = 16 * 3.
Proof.
  apply (ComputePitch_linear_row_alignment Win32 Fmt.R8G8_UNORM 5 3
           CP_FLAGS_PARAGRAPH 16 48); first [lia | reflexivity].
Defined.

Lemma ComputePitch_agrees_with_BitsPerPixel_witness :
  192 * 8 = 16 * 8 * BitsPerPixel Fmt.NV12.
Proof.
  apply (ComputePitch_agrees_with_BitsPerPixel Win64 Fmt.NV12 16 8 16 192);
    first [lia | reflexivity | discriminate
          | exists 2; reflexivity | exists 2; reflexivity].
Defined.

Lemma DecodeDDSHeader_format_is_valid_witness :
  IsValid Fmt.B8G8R8A8_UNORM = true
  /\ IsPalettized Fmt.B8G8R8A8_UNORM = false
  /\ Fmt.B8G8R8A8_UNORM <> Fmt.UNKNOWN.
Proof.
  apply (DecodeDDSHeader_format_is_valid Win64 (argb_header 64 32 1) 128 0
           (mkTexMetadata 64 32 1 1 1 0 0 Fmt.B8G8R8A8_UNORM
              TEX_DIMENSION_TEXTURE2D) 0).
  reflexivity.
Defined.

Lemma DecodeDDSHeader_DX10_flag_witness :
  sizeof_uint32_t + sizeof_DDS_HEADER <= 148
  /\ load32 (dx10_cube_header 2) 0 = DDS_MAGIC
  /\ has_flag CONV_FLAGS_DX10 CONV_FLAGS_DX10
     = has_DX10_extension (dx10_cube_header 2)
  /\ (has_flag CONV_FLAGS_DX10 CONV_FLAGS_DX10 = true ->
        MAX_HEADER_SIZE <= 148 /\ CONV_FLAGS_DX10 = CONV_FLAGS_DX10).
Proof.
  apply (DecodeDDSHeader_DX10_flag Win64 (dx10_cube_header 2) 148
           (mkTexMetadata 16 16 1 12 1 TEX_MISC_TEXTURECUBE 0
              Fmt.R8G8B8A8_UNORM TEX_DIMENSION_TEXTURE2D)
           CONV_FLAGS_DX10).
  reflexivity.
Defined.

Lemma DecodeDDSHeader_expansion_is_legacy_witness :
  FindLegacyFormat
    (Z.lor CONV_FLAGS_EXPAND (Z.lor CONV_FLAGS_NOALPHA CONV_FLAGS_888))
  <> TEXP_LEGACY_UNKNOWN
  /\ has_flag
       (Z.lor CONV_FLAGS_EXPAND (Z.lor CONV_FLAGS_NOALPHA CONV_FLAGS_888))
       (Z.lor CONV_FLAGS_565 (Z.lor CONV_FLAGS_5551 CONV_FLAGS_4444)) = false
  /\ has_flag
       (Z.lor CONV_FLAGS_EXPAND (Z.lor CONV_FLAGS_NOALPHA CONV_FLAGS_888))
       CONV_FLAGS_DX10 = false
  /\ IsCompressed Fmt.R8G8B8A8_UNORM = false
  /\ IsPlanar Fmt.R8G8B8A8_UNORM = false.
Proof.
  apply (DecodeDDSHeader_expansion_is_legacy Win64 (rgb24_header 8 8 1) 128
           (SetAlphaMode
              (mkTexMetadata 8 8 1 1 1 0 0 Fmt.R8G8B8A8_UNORM
                 TEX_DIMENSION_TEXTURE2D) TEX_ALPHA_MODE_OPAQUE)
           (Z.lor CONV_FLAGS_EXPAND (Z.lor CONV_FLAGS_NOALPHA CONV_FLAGS_888)));
    reflexivity.
Defined.

Lemma DecodeDDSHeader_cubemap_faces_witness :
  TEX_DIMENSION_TEXTURE2D = TEX_DIMENSION_TEXTURE2D
  /\ 6 <= 12 /\ 12 mod 6 = 0.
Proof.
  apply (DecodeDDSHeader_cubemap_faces (dx10_cube_header 2) 148 0
           (mkTexMetadata 16 16 1 12 1 TEX_MISC_TEXTURECUBE 0
              Fmt.R8G8B8A8_UNORM TEX_DIMENSION_TEXTURE2D)
           CONV_FLAGS_DX10); reflexivity.
Defined.

Lemma DecodeDDSHeader_alpha_mode_witness :
  GetAlphaMode
    (SetAlphaMode
       (mkTexMetadata 2 2 1 1 1 0 0 Fmt.R8G8B8A8_UNORM
          TEX_DIMENSION_TEXTURE2D) TEX_ALPHA_MODE_OPAQUE)
  = TEX_ALPHA_MODE_OPAQUE
  /\ IsPMAlpha
       (SetAlphaMode
          (mkTexMetadata 2 2 1 1 1 0 0 Fmt.R8G8B8A8_UNORM
             TEX_DIMENSION_TEXTURE2D) TEX_ALPHA_MODE_OPAQUE) = false.
Proof.
  apply (proj1 (DecodeDDSHeader_alpha_mode Win64 (xbgr_header 2 2 1) 128 0
                  (SetAlphaMode
                     (mkTexMetadata 2 2 1 1 1 0 0 Fmt.R8G8B8A8_UNORM
                        TEX_DIMENSION_TEXTURE2D) TEX_ALPHA_MODE_OPAQUE)
                  CONV_FLAGS_NOALPHA eq_refl)).
  reflexivity.
Defined.

Lemma SetAlphaMode_GetAlphaMode_witness :
  GetAlphaMode (SetAlphaMode cube_array_metadata TEX_ALPHA_MODE_PREMULTIPLIED)
  = TEX_ALPHA_MODE_PREMULTIPLIED.
Proof.
  apply (proj1 (SetAlphaMode_GetAlphaMode cube_array_metadata
                  TEX_ALPHA_MODE_PREMULTIPLIED TEX_ALPHA_MODE_OPAQUE
                  ltac:(vm_compute; split; discriminate)
                  ltac:(vm_compute; split; discriminate))).
Defined.

Lemma GetDXGIFormat_finds_every_table_entry_witness :
  GetDXGIFormat (read_DDS_HEADER (argb_header 4 4 3) 4) DDSPF_X8B8G8R8 0
  = (Fmt.R8G8B8A8_UNORM, CONV_FLAGS_NOALPHA).
Proof.
  apply (GetDXGIFormat_finds_every_table_entry
           (read_DDS_HEADER (argb_header 4 4 3) 4)
           (mkLegacyDDS Fmt.R8G8B8A8_UNORM CONV_FLAGS_NOALPHA DDSPF_X8B8G8R8) 0).
  unfold g_LegacyDDSMap. cbn [In]. tauto.
Defined.

Lemma Initialize_accepts_only_well_formed_metadata_witness :
  well_formed small_array_metadata
  /\ m_metadata
       (snd (Initialize Win64 unbounded_heap
               (mkScratchImage 0 0 zero_metadata None None)
               small_array_metadata CP_FLAGS_NONE))
     = completed small_array_metadata.
Proof.
  apply (Initialize_accepts_only_well_formed_metadata Win64 unbounded_heap
           (mkScratchImage 0 0 zero_metadata None None)
           small_array_metadata CP_FLAGS_NONE).
  - unfold within_limits. cbn. lia.
  - reflexivity.
Defined.

Lemma Initialize_failure_owns_nothing_witness :
  owns_nothing
    (snd (Initialize Win64 unbounded_heap
            (mkScratchImage 0 0 zero_metadata None None)
            (mkTexMetadata 4 4 1 1 5 0 0 Fmt.B8G8R8A8_UNORM
               TEX_DIMENSION_TEXTURE2D) CP_FLAGS_NONE)).
Proof.
  apply (Initialize_failure_owns_nothing Win64 unbounded_heap
           (mkScratchImage 0 0 zero_metadata None None)
           (mkTexMetadata 4 4 1 1 5 0 0 Fmt.B8G8R8A8_UNORM
              TEX_DIMENSION_TEXTURE2D) CP_FLAGS_NONE E_INVALIDARG).
  - unfold owns_nothing. cbn. repeat split; reflexivity.
  - reflexivity.
  - reflexivity.
Defined.

Lemma Initialize_lays_out_the_image_witness :
  exists images memory,
    Some argb_images = Some images
    /\ Some (repeat x00 84) = Some memory
    /\ Z.of_nat (length images) = 3
    /\ Z.of_nat (length memory) = 84
    /\ 1 <= 3
    /\ DetermineImageArray Win64 argb_metadata CP_FLAGS_NONE = Some (3, 84)
    /\ tiled images (Z.to_nat 3) 0 84
    /\ Forall (pitched Win64 Fmt.B8G8R8A8_UNORM CP_FLAGS_NONE) images.
Proof.
  apply (Initialize_lays_out_the_image Win64 unbounded_heap
           (mkScratchImage 0 0 zero_metadata None None) argb_metadata
           CP_FLAGS_NONE
           (mkScratchImage 3 84 argb_metadata (Some argb_images)
              (Some (repeat x00 84)))).
  - unfold within_limits. cbn. lia.
  - reflexivity.
Defined.

Lemma Initialize_succeeds_on_well_formed_metadata_witness :
  exists self',
    Initialize Win64 unbounded_heap
      (mkScratchImage 0 0 zero_metadata None None) volume_metadata
      CP_FLAGS_NONE = (S_OK, self').
Proof.
  apply (Initialize_succeeds_on_well_formed_metadata unbounded_heap
           (mkScratchImage 0 0 zero_metadata None None) volume_metadata
           CP_FLAGS_NONE).
  - unfold within_limits. cbn. lia.
  - unfold well_formed. cbn. repeat split; try reflexivity; lia.
  - discriminate.
  - reflexivity.
  - reflexivity.
Defined.

Lemma LoadFromDDSFile_failure_releases_the_image_witness :
  (None : option TexMetadata) = None
  /\ (Some zero_dds = None ->
      mkScratchImage 0 0 zero_metadata None None
      = mkScratchImage 3 84 argb_metadata (Some argb_images) None)
  /\ (Some zero_dds <> None ->
      mkScratchImage 0 0 zero_metadata None None
      = mkScratchImage 0 0 zero_metadata None None).
Proof.
  apply (LoadFromDDSFile_failure_releases_the_image Win64 unbounded_heap
           (single_file ok_dds argb_file) no_CopyImage CopyImageInPlace
           (Some zero_dds) true
           (mkScratchImage 3 84 argb_metadata (Some argb_images) None)).
  reflexivity.
Defined.

Lemma LoadFromDDSFile_loads_pixels_verbatim_witness :
  LoadFromDDSFile Win64 unbounded_heap (single_file ok_dds argb_file)
    no_CopyImage CopyImageInPlace (Some ok_dds) true
    (mkScratchImage 0 0 zero_metadata None None)
  = (true, Some argb_metadata,
     mkScratchImage 3 84 argb_metadata (Some argb_images)
       (Some (firstn (Z.to_nat 84)
                (skipn (Z.to_nat (sizeof_uint32_t + sizeof_DDS_HEADER))
                   argb_file)))).
Proof.
  apply (LoadFromDDSFile_loads_pixels_verbatim Win64 unbounded_heap
           (single_file ok_dds argb_file) no_CopyImage CopyImageInPlace
           ok_dds argb_file true
           (mkScratchImage 0 0 zero_metadata None None)
           (mkScratchImage 3 84 argb_metadata (Some argb_images)
              (Some (repeat x00 84)))
           argb_metadata 0 (repeat x00 84));
    first [reflexivity | vm_compute; discriminate].
Defined.




Lemma LoadFromDDSFile_makes_alpha_opaque_witness :
  exists p pixels,
    alpha_pixel_size Fmt.R8G8B8A8_UNORM = Some p
    /\ LoadFromDDSFile Win64 unbounded_heap (single_file ok_dds xbgr_file)
         no_CopyImage CopyImageInPlace (Some ok_dds) true
         (mkScratchImage 0 0 zero_metadata None None)
       = (true, Some xbgr_metadata, xbgr_image pixels)
    /\ Z.of_nat (length pixels) = 16
    /\ forall j, 0 <= j < 16 ->
         load8 pixels j
         = opaque_byte Fmt.R8G8B8A8_UNORM (j mod p)
             (load8 xbgr_file (sizeof_uint32_t + sizeof_DDS_HEADER + j)).
Proof.
  apply (LoadFromDDSFile_makes_alpha_opaque Win64 unbounded_heap
           (single_file ok_dds xbgr_file) no_CopyImage ok_dds xbgr_file true
           (mkScratchImage 0 0 zero_metadata None None)
           (xbgr_image (repeat x00 16)) xbgr_metadata CONV_FLAGS_NOALPHA);
    first [reflexivity | vm_compute; discriminate].
Defined.

Lemma gs_create_texture_from_dds_file_result_witness :
  exists path data md convFlags image0,
    Some ok_dds = Some path
    /\ single_file ok_dds argb_file path = Some data
    /\ DecodeDDSHeader Win64 (header_bytes data)
         (Z.min (Z.of_nat (length data)) MAX_HEADER_SIZE) 0
       = Some (md, convFlags)
    /\ Initialize Win64 unbounded_heap
         (mkScratchImage 0 0 zero_metadata None None) md CP_FLAGS_NONE
       = (S_OK, image0)
    /\ ConvertDXGITextureFormat (format md) <> GS_UNKNOWN
    /\ exists initData,
         (dimension md = TEX_DIMENSION_TEXTURE2D
          /\ record_2d (width md) (height md)
               (ConvertDXGITextureFormat (format md)) (mipLevels md)
               initData 0
             = Some (texture_2d 4 4 GS_BGRA_UNORM 3 [0; 64; 80] 0))
         \/ (dimension md = TEX_DIMENSION_TEXTURE3D
             /\ record_3d (width md) (height md) (depth md)
                  (ConvertDXGITextureFormat (format md)) (mipLevels md)
                  initData 0
                = Some (texture_2d 4 4 GS_BGRA_UNORM 3 [0; 64; 80] 0)).
Proof.
  apply (gs_create_texture_from_dds_file_result Win64 unbounded_heap
           recorded_texture record_2d record_cube record_3d
           (single_file ok_dds argb_file) no_CopyImage
           (Some ok_dds) zero_metadata
           (texture_2d 4 4 GS_BGRA_UNORM 3 [0; 64; 80] 0)).
  reflexivity.
Defined.

Lemma CreateTextureEx_passes_every_subresource_witness :
  CreateTextureEx Win64 unbounded_heap recorded_texture record_2d
    record_cube record_3d (Some argb_images) (1 * 3) argb_metadata
  = Some (texture_2d 4 4 GS_BGRA_UNORM 3 [0; 64; 80] 0).
Proof.
  apply (CreateTextureEx_passes_every_subresource Win64 unbounded_heap
           recorded_texture record_2d record_cube record_3d
           argb_images argb_metadata);
    first [ reflexivity
          | vm_compute; split; discriminate
          | vm_compute; discriminate
          | repeat constructor; discriminate ].
Defined.

Lemma gs_create_texture_from_dds_file_creates_2D_witness :
  gs_create_texture_from_dds_file Win64 unbounded_heap recorded_texture
    record_2d record_cube record_3d (single_file ok_dds argb_file)
    no_CopyImage (Some ok_dds) cube_array_metadata
  = Some (texture_2d 4 4 GS_BGRA_UNORM 3 [0; 64; 80] 0).
Proof.
  apply (gs_create_texture_from_dds_file_creates_2D Win64 unbounded_heap
           recorded_texture record_2d record_cube record_3d
           (single_file ok_dds argb_file) no_CopyImage ok_dds argb_file
           cube_array_metadata
           (mkScratchImage 3 84 argb_metadata (Some argb_images)
              (Some (repeat x00 84)))
           argb_images argb_metadata 0);
    first [reflexivity | vm_compute; discriminate].
Defined.

